(* ===== verification/_CoqProject ===== *)
-Q . S2P
Prelude.v
Models.v
Chain.v
Json.v
RepoLedger.v
RepoContracts.v
RepoBridge.v
Database.v
Decoder.v
Webhooks.v
Embedded.v
ExecFacts.v
Processor.v
ProcessorShape.v
LedgerFacts.v
LedgerProps.v
Samples.v
LedgerTheorems.v
DelegationTheorems.v
ContractTheorems.v
HandlerTheorems.v
Retry.v
NodePool.v
Watchdog.v
WatchdogTheorems.v
CachedData.v
BridgeSync.v
BridgeTheorems.v
Cron.v
WebhookTheorems.v
StreamHub.v
StreamTheorems.v
Sync.v
Indexer.v
SyncTheorems.v
BackfillTheorems.v
Queries.v
ListQueries.v
VoteQueries.v
Text.v
Dto.v
Httpx.v
Auth.v
Middleware.v
Handlers.v
Streams.v
Router.v
Mcp.v
Config.v
QueryFacts.v
ApiSamples.v
KeyTheorems.v
ApiTheorems.v
RouterTheorems.v
StreamsTheorems.v
TxStreamTheorems.v
VoteTheorems.v
RewardScript.v
RewardScriptTheorems.v
RepairVotes.v
RepairVotesTheorems.v
PhaseOutreach.v
OutreachTheorems.v
Servers.v
Wire.v
Durations.v
ScannerTheorems.v
WireTheorems.v
Startup.v
StartupTheorems.v
Loops.v
Metrics.v
Processes.v
HubDelivery.v
LookupReads.v
LiveSystem.v
Marshal.v
MarshalTheorems.v
Openapi.v
ToolRegistry.v
