(* ===== verification/Prelude.v ===== *)
(** * nom-indexer-go: a verification development

    The program is an indexer of the Zenon network: it reads momentums (blocks of blocks)
    and account blocks from a node over RPC, derives rows for some thirty Postgres tables,
    and commits each momentum in one transaction that also sends the notifications the API's
    streams listen to. Around that core run a catch-up loop with a live subscription, a
    backfill, a watchdog that moves between nodes, refreshes of data the chain does not push
    (pillars, sentinels, projects, the bridge), periodic statistics, a webhook dispatcher and
    a fan-out hub for WebSocket clients. Two servers read the tables: an HTTP API with two
    WebSocket streams, and an MCP server with a tool per operation. This library models that
    code as executable definitions and proves what it promises, and in places where the
    promise does not hold, that it does not.

    ** The parts and their files

    Foundations. [Prelude]: Go's errors and results, machine-width conversions with their
    wrap-around ([int64], [uint64], [bigint_add], [check_range]), record update, the shape of
    the SQL statements on a table ([insert_nothing], [insert_update], [update_row],
    [select_where]) with their lemmas, and column sums. [Models]: internal/models (constants
    and row types). [Chain]: what the node and the SDK answer, as data and as records of
    functions; none of that code is in the repository. [Json]: encoding/json of the payloads.

    The database. [RepoLedger], [RepoContracts], [RepoBridge]: one Module per repository of
    internal/repository, one definition per Go method the indexer uses (a method and its
    Batch variant queue the same SQL and share one). [Database]: all tables as the record
    [Db], the statements a batch can hold as [stmt], and [exec_from]/[commit_batch]'s
    transaction: statements run in order on a copy, a failure discards it, a commit publishes
    the copy and the notifications.

    The momentum processor. [Decoder] (decoder.go and the id functions of indexer.go),
    [Embedded] (embedded.go, rewards.go: one definition per contract handler, answering the
    statements the Go method queues), [Processor] (processor.go: [processMomentum] with the
    batch's five parts, the notification payloads and their size limit, the balances, the
    producer lookup and the webhook events).

    The loops. [Retry] (retry.go), [Sync] (Run, sync, runSubscriptionLoop and
    runSubscriptionSession of indexer.go, against the class [MomentumStore]), [Indexer] (the
    store built from [processMomentum] and the refreshes, its instance and laws, and the
    backfill), [CachedData] (updateCachedData and what it calls), [BridgeSync]
    (syncBridgeData and its three parts), [Cron] (cron.go). [Loops]: the background loops of
    Run (runCronLoop, runCachedDataSyncLoop, runBridgeSyncLoop, runSyncWatchdogLoop) as the
    bodies their tickers fire, with the commits of the other sessions, momentum transactions
    among them, before every call.

    The nodes. [NodePool] (nodepool.go, syncinfo.go: probes and the genesis cache),
    [Watchdog] (watchdog.go, with swapActiveClient, StartupSwap and HealthSnapshot of
    indexer.go).

    The consumers. [Webhooks] (internal/webhooks/dispatcher.go) and [StreamHub]
    (internal/api/stream/hub.go), both as the atomic actions of their goroutines, any list of
    which is an interleaving. [Wire]: what the hubs make of a notification, encoding/json's
    decoding of the payload into the wire types.

    The read side. [Queries]: a statement over a pool's view of the tables, which may change
    from one statement to the next and may fail, with ORDER BY over any scan order, and
    list.go. [ListQueries] and [VoteQueries]: the read methods of internal/repository, one
    Module per repository, and the voting reports of vote.go. [LookupReads]: the reads that
    nothing calls, and what they read back. [Text]: the parts of Go's
    strings and strconv these and the next files use.

    The API. [Dto] (internal/api/dto), [Httpx] (internal/api/httpx), [Auth]
    (internal/auth/jwt.go, with the JWT library as the class [JwtLib] and its laws
    [JwtLaws]), [Middleware] (internal/api/middleware), [Handlers] (internal/api/handlers),
    [Streams] (the two WebSocket streams), [Router] (internal/api/router), [Mcp]
    (internal/mcp: the tools and the authentication), [ToolRegistry] (the tools' arguments and
    their registration). [Marshal]: encoding/json on what they
    answer and on the streams' frames, with the field tags of the wire types. [Openapi]: the
    response schemas and operations of docs/api/openapi.yaml. A handler is a query that answers a
    response; middleware wraps handlers as the router composes them; [Config]
    (internal/config).

    [Metrics] (internal/api/metrics, internal/mcp/metrics and the logger's recorder): what is
    observed of a request or a tool call, over net/http's response writer.

    The programs around them. [Durations]: time.ParseDuration and ParseCronInterval.
    [Startup]: internal/database, the constructors of internal/indexer, and the mains of
    cmd/indexer and cmd/backfill from the configuration to their exits. [Processes]: the mains
    of cmd/api and cmd/mcp, with their theorems. [Servers]: the indexer's health endpoint (internal/health), the
    MCP server's HTTP side (internal/mcp/server, composed as in cmd/mcp) and the token command
    (cmd/jwt-issue). The scripts: [RewardScript] (scripts/backfill-rewards, a loop of single
    statements between which other sessions may commit), [RepairVotes] (scripts/repair-votes,
    one transaction that PostgreSQL aborts at a failed statement, after a dump of the table)
    and [PhaseOutreach] (scripts/phase-outreach, its queries and its report as text).

    The tables are the only state the processor, the refreshes and the cron jobs share; the
    pillar cache is read by the handlers and written by [CachedData]; the watchdog's active
    index decides which node the loops read; [processMomentum]'s notifications are what the
    hub decodes and fans out, and its events are what the dispatcher queues. The API and the MCP server
    share the read methods and the wire types with each other and the tables with the
    indexer; a stream joins a read of the tables with what its hub subscriber receives. [LiveSystem]
    puts the whole live path together: the tables, the pending notifications and the hub as
    one state, whose steps are the indexer's transactions, any other writes, the taking of a
    notification and the hub's actions.

    ** What is proved

    End to end ([LiveSystem], [WireTheorems], [HubDelivery], [MarshalTheorems], [Loops]): the
    payload a commit notifies decodes to the wire form of the row it stored; a hub subscriber
    gets every event from its registration on, in order, or knows how many it lost; a frame
    decodes to its event (raw JSON the indexer wrote is passed on as it is);
    so a client of the momentum stream that stays connected and never lags sees every height
    from the one it asked for, each once, whatever the indexer commits while it subscribes
    and the stream replays; and no background loop, whatever momentums are committed
    between its calls, breaks what the ledger tables promise each other.

    Responses ([Openapi]): every route answers every request with what its operation of the
    OpenAPI document promises, but for the [null] of a voting report's empty lists and of an
    account's unknown times.

    Momentum processing ([LedgerTheorems], [HandlerTheorems]; the lemmas are in [ExecFacts],
    [ProcessorShape], [LedgerFacts] and [LedgerProps]): all-or-nothing commits and events
    only after them; a history that is never rewritten; the latest height; the exact
    notifications and their size bound; the counters derived from the rows
    (accounts.tx_count, cumulative_rewards) stay equal to the counts and sums they cache, and
    how reprocessing breaks the first; decoding, producer lookup, balances, votes, swap
    totals.

    Contracts ([DelegationTheorems], [ContractTheorems]): at most one open delegation per
    address and the effect of each pillar call; the life cycle of HTLCs; stake and fusion ids
    and the exactness of a stake's cancellation.

    Catching up ([SyncTheorems], [BackfillTheorems], [Retry]): no gaps and no loss under any
    answers, failures and cancellations; termination at a reachable frontier; the retry
    schedule; which heights a backfill finds and fills; and what a whole run does not repair
    (heights a subscription session failed on, delegations of a backfill before the cache is
    primed).

    Nodes ([WatchdogTheorems], [NodePool]): the active node is always a configured one on the
    recorded chain; exactly when and where the watchdog moves; what a streak counts; that the
    last node is never left; that a probe never changes a cached genesis.

    Refreshes, jobs, consumers ([CachedData], [BridgeTheorems], [Cron],
    [WebhookTheorems], [StreamTheorems]): complete paging; the wrap requests a sync refreshes
    and the authority of the node's bridge configuration; exact voting activity and holder
    counts; order and bounds of the webhook queue and of a delivery; and for the hub no
    panic, exact connection counts, caps and a clean stop.

    Tables ([KeyTheorems]): a stored block names a stored momentum and a stored reward a
    stored block, and every row stays stored under the key its own columns make up, which is
    what lookups and the streams' ranges rely on.

    The read side and the API ([QueryFacts], [ApiTheorems], [VoteTheorems],
    [RouterTheorems]): the two transports answer the same for every operation; collections
    page through their rows, each once, whatever order the database scans in, and what huge
    page numbers do; the momentum list's total; a voting report partitions the active
    pillars, and two votes of one pillar are told apart by nothing but the scan; nothing
    under [/api/v1] is served, and no stream opened, without a token that verifies; issued
    tokens verify.

    Streams ([StreamsTheorems], [TxStreamTheorems]): order without repeats under any events,
    completeness from the height asked for on a connection that holds, and the panic of the
    transactions stream for a client that is up to date.

    Configuration ([Config]): what a configuration that loads satisfies, and its nodes.

    Scripts ([RewardScriptTheorems], [RepairVotesTheorems], [OutreachTheorems]): what an
    undisturbed reward backfill leaves, that a second run changes nothing, which failure costs
    a running total its amount whatever runs beside it, and where its rows are the live
    indexer's; that the vote repair either replaces the votes it finds or changes nothing, beside
    whatever other sessions commit, reads the votes the live indexer read, refuses a chain with a changed vote and touches no vote
    before the dump is complete; who is in which tier of the outreach, and
    that the report's tables read back as the tiers.

    Processes ([StartupTheorems], [Processes]): on which node an indexer that starts is
    connected, when it starts at all (and that a primary that cannot be dialed stops it), which
    ticker's interval can end it; the pool and the migrations; that one token serves both read
    services when they share a configuration; that a hub that ends does not end the API.

    MCP registration ([ToolRegistry]): a call of a tool's name with its arguments reaches that
    tool's handler with them.

    Observation ([Metrics]): the recorders pass a response through; every request that
    returns and every tool call is observed once, with its outcome, and which are not.

    Scanners ([ScannerTheorems]): the fuel of the JSON and duration scanners is enough.

    Small programs ([Servers]): when the indexer is ready; that the readiness probes
    of the two read services agree but on schema 12; that nothing behind the MCP server's
    authentication runs without a token; that the command's tokens are accepted.

    [Samples] holds the toy SDK, node and momentums at which the theorems are instantiated,
    [ApiSamples] the toy libraries and tables of the read side; a theorem with hypotheses is
    followed by a lemma of the same name ending in [_witness].

    ** Conventions

    A Go integer is a [Z]; a conversion or an operation that can wrap or overflow is written
    with the width where the code has it. A Postgres BIGINT that does not fit is an error of
    the statement ([check_range]). A Go map is a [gmap]; where the code ranges over one, the
    order is some enumeration of it and the theorems do not depend on it. An error path is
    [Err] with the code's wrapping; a failure that is only logged leaves the state as it is.
    The environment's choices (which database call fails, what the n-th RPC call answers,
    when a context is canceled, what a clock reads) are functions the definitions take, so a
    theorem without hypotheses about them covers every such choice.

    ** Fuel

    Four kinds of loop are not structural. Paging ([paged], [paged_until]) takes the
    number of pages: length/size + 1 is enough over a node that serves a finite list
    ([paged_complete], [wrap_sync_refreshes]), up to the 2^32 pages a page index can number.
    Catch-up ([catch_up]) takes the number of iterations: the distance to the node's highest
    height plus one is enough against a steady node ([sync_terminates]); the main loop around
    it, which is endless, runs as long as the sessions it is given. The retry loop takes
    the number of attempts the configuration allows, which is exact ([withRetry_spec]). The
    scanners of a text take its length, and more changes nothing ([parse_json_fuel],
    [unquote_fuel], [duration_terms_fuel], [compact_enough]).

    ** Parameters

    The SDK's ABI tables and codecs, the node's answers and what its client's dialing answers,
    pgxpool, golang-migrate, the HTTP exchanges of probes and
    webhooks, the keyed hash of a webhook signature, the JWT library, the rate limiter, CORS
    and chi's path matching, viper's merged settings, the collation and scan order of the
    database, the turns and failing writes of a WebSocket connection, and the failures of the
    database pool are arguments; what a theorem needs of them (a codec that round-trips, a node that serves
    a fixed list in pages, a feed that keeps answering) is a named hypothesis, and [Samples]
    and the witnesses have concrete instances.

    ** Not modelled

    The passing of time between a ticker's firings: a loop is the list of what its select
    took, and the theorems hold for every list. A momentum's transaction is one step: no other
    session's statement falls between its statements. The text of a float (strconv's shortest
    decimal is a parameter of [Marshal]), deadlines and ping intervals of the streams, the MCP SDK's transport, Prometheus's collectors and
    exposition, log output, the sockets of listeners and the delivery of signals (a signal is
    a canceled context or an event) and the graceful shutdown of the two servers. The exported wrappers of
    internal functions have no definition of their own. The generated API server and the CI
    program are not source of the program. *)

From Stdlib Require Export ZArith Lia Ascii.
From stdpp Require Export prelude base strings pretty list gmap fin_maps sorting.

#[global] Open Scope Z_scope.
#[global] Set Default Goal Selector "!".

(** ** Errors and results

    Go's [error] values: a message, a wrapped error ([fmt.Errorf("...: %w", err)]) and
    the sentinels the code tests with [errors.Is]. *)

Inductive error : Type :=
| EMsg (msg : string)
| EWrap (ctx : string) (inner : error)
| ENoRows
| ECanceled.

#[global] Instance error_eq_dec : EqDecision error.
Proof. solve_decision. Defined.

(** [errors.Is(err, pgx.ErrNoRows)]: the sentinel is found through wrappings. *)
Fixpoint is_no_rows (e : error) : bool :=
  match e with
  | ENoRows => true
  | EWrap _ e' => is_no_rows e'
  | EMsg _ | ECanceled => false
  end.

Inductive result (A : Type) : Type :=
| Ok (a : A)
| Err (e : error).
Arguments Ok {A} a.
Arguments Err {A} e.

#[global] Instance result_ret : MRet result := @Ok.
#[global] Instance result_bind : MBind result :=
  fun A B k m => match m with Ok a => k a | Err e => Err e end.
#[global] Instance result_fmap : FMap result :=
  fun A B f m => match m with Ok a => Ok (f a) | Err e => Err e end.

(** [if err := c; err != nil { return fmt.Errorf(ctx + ": %w", err) }] *)
Definition wrap_err {A} (ctx : string) (m : result A) : result A :=
  match m with Ok a => Ok a | Err e => Err (EWrap ctx e) end.

Definition is_ok {A} (m : result A) : bool :=
  match m with Ok _ => true | Err _ => false end.

Lemma bind_Ok {A B} (m : result A) (k : A -> result B) b :
  (m ≫= k) = Ok b <-> exists a, m = Ok a /\ k a = Ok b.
Proof.
  destruct m as [a|e]; simpl; split.
  - intros H. by exists a.
  - intros (a' & [= ->] & H). done.
  - done.
  - by intros (a' & ? & _).
Qed.

Lemma wrap_err_Ok {A} ctx (m : result A) a : wrap_err ctx m = Ok a <-> m = Ok a.
Proof. destruct m; simpl; split; congruence. Qed.

(** ** Fixed-width integers

    Go's conversions between integer types truncate to the target width; Go's [int] is
    64 bits on every platform the indexer is built for. *)

Definition max_int64 : Z := 9223372036854775807.
Definition min_int64 : Z := -9223372036854775808.
Definition max_uint64 : Z := 18446744073709551615.
Definition max_int32 : Z := 2147483647.
Definition min_int32 : Z := -2147483648.
Definition max_int16 : Z := 32767.
Definition min_int16 : Z := -32768.

(** Two's-complement truncation to [2 * half] values. *)
Definition wrap_signed (half z : Z) : Z := (z + half) mod (2 * half) - half.

Definition int64 (z : Z) : Z := wrap_signed 9223372036854775808 z.
Definition int32 (z : Z) : Z := wrap_signed 2147483648 z.
Definition int16 (z : Z) : Z := wrap_signed 32768 z.
Definition uint64 (z : Z) : Z := z mod 18446744073709551616.

Definition in_int64 (z : Z) : bool := (min_int64 <=? z) && (z <=? max_int64).
Definition in_int32 (z : Z) : bool := (min_int32 <=? z) && (z <=? max_int32).
Definition in_int16 (z : Z) : bool := (min_int16 <=? z) && (z <=? max_int16).

Lemma wrap_signed_range half z : 0 < half -> - half <= wrap_signed half z < half.
Proof.
  intros H. unfold wrap_signed.
  pose proof (Z.mod_pos_bound (z + half) (2 * half)). lia.
Qed.

Lemma wrap_signed_id half z : 0 < half -> - half <= z < half -> wrap_signed half z = z.
Proof. intros H Hz. unfold wrap_signed. rewrite Z.mod_small; lia. Qed.

(** Truncating early does not change a truncated sum. *)
Lemma wrap_signed_add half a b :
  0 < half -> wrap_signed half (wrap_signed half a + b) = wrap_signed half (a + b).
Proof.
  intros H. unfold wrap_signed. f_equal.
  replace ((a + half) mod (2 * half) - half + b + half) with ((a + half) mod (2 * half) + b)
    by lia.
  rewrite Z.add_mod_idemp_l by lia. f_equal. lia.
Qed.

Lemma int64_add a b : int64 (int64 a + b) = int64 (a + b).
Proof. by apply wrap_signed_add. Qed.

Lemma in_int64_spec z : in_int64 z = true <-> min_int64 <= z <= max_int64.
Proof. unfold in_int64. rewrite andb_true_iff, !Z.leb_le. lia. Qed.

Lemma int64_range z : in_int64 (int64 z) = true.
Proof.
  apply in_int64_spec. unfold min_int64, max_int64, int64.
  pose proof (wrap_signed_range 9223372036854775808 z). lia.
Qed.

Lemma int64_id z : in_int64 z = true -> int64 z = z.
Proof.
  intros H%in_int64_spec. unfold min_int64, max_int64 in H.
  apply wrap_signed_id; lia.
Qed.

(** ** Record update

    [r <| f := v |>] is [r] with field [f] set to [v]; a record opts in with one [Eta]
    instance, its constructor applied to its projections. *)

Class Eta (R : Type) : Type := eta_expand : R -> R.

Class Setter {R T : Type} (f : R -> T) : Type := update_field : (T -> T) -> R -> R.
Arguments update_field {R T} f {_} _ !_.

Ltac derive_setter :=
  lazymatch goal with
  | |- @Setter ?R ?T ?f =>
      let inst := constr:(_ : Eta R) in
      let body := eval hnf in inst in
      lazymatch body with
      | fun r => @?mk r =>
          lazymatch (eval pattern f in body) with
          | ?abs f => exact (fun (g : T -> T) => abs (fun r => g (f r)))
          end
      end
  end.

#[global] Hint Extern 1 (Setter _) => derive_setter : typeclass_instances.

Declare Scope record_scope.
Notation "r <| f := v |>" := (update_field f (fun _ => v) r)
  (at level 1, f at next level, left associativity,
   format "r  <| f  :=  v |>") : record_scope.
Notation "r <| f ::= g |>" := (update_field f g r)
  (at level 1, f at next level, left associativity,
   format "r  <| f  ::=  g |>") : record_scope.
#[global] Open Scope record_scope.

(** ** Strings and bytes

    A Go [string] and a [[]byte] are both byte sequences; both are [string] here. *)

Definition str_empty (s : string) : bool := match s with EmptyString => true | _ => false end.

Definition hex_digit (n : nat) : ascii :=
  match n with
  | 0 => "0" | 1 => "1" | 2 => "2" | 3 => "3" | 4 => "4" | 5 => "5" | 6 => "6" | 7 => "7"
  | 8 => "8" | 9 => "9" | 10 => "a" | 11 => "b" | 12 => "c" | 13 => "d" | 14 => "e"
  | _ => "f"
  end%nat%char.

(** [hex.EncodeToString]. *)
Fixpoint hex_encode (s : string) : string :=
  match s with
  | EmptyString => EmptyString
  | String c s' =>
      let n := nat_of_ascii c in
      String (hex_digit (n / 16)) (String (hex_digit (n mod 16)) (hex_encode s'))
  end.

(** [strings.HasPrefix] with the remainder, the building block of [strings.Replace]. *)
Fixpoint strip_prefix (p s : string) : option string :=
  match p, s with
  | EmptyString, _ => Some s
  | String a p', String b s' => if Ascii.eqb a b then strip_prefix p' s' else None
  | String _ _, EmptyString => None
  end.

(** [strings.Replace(s, old, new, 1)] for a non-empty [old]. *)
Fixpoint replace_first (old new s : string) : string :=
  match strip_prefix old s with
  | Some rest => new +:+ rest
  | None => match s with
            | EmptyString => EmptyString
            | String c s' => String c (replace_first old new s')
            end
  end.

(** [strings.Contains]. *)
Fixpoint contains (sub s : string) : bool :=
  match strip_prefix sub s with
  | Some _ => true
  | None => match s with EmptyString => false | String _ s' => contains sub s' end
  end.

Lemma replace_first_absent old new s : contains old s = false -> replace_first old new s = s.
Proof.
  induction s as [|c s IH]; cbn [contains replace_first].
  - by destruct (strip_prefix old EmptyString).
  - destruct (strip_prefix old (String c s)); [done|]. intros H. by rewrite IH.
Qed.

(** [strings.ReplaceAll(s, old, new)] for a non-empty [old]: the scan resumes after each
    match. The fuel is the length of [s], which every step consumes. *)
Fixpoint replace_all_fuel (fuel : nat) (old new s : string) : string :=
  match fuel with
  | O => s
  | S fuel' =>
      match strip_prefix old s with
      | Some rest => new +:+ replace_all_fuel fuel' old new rest
      | None => match s with
                | EmptyString => EmptyString
                | String c s' => String c (replace_all_fuel fuel' old new s')
                end
      end
  end.
Definition replace_all (old new s : string) : string :=
  replace_all_fuel (S (String.length s)) old new s.

(** *** Decimal integers *)

Definition digit_value (c : ascii) : option Z :=
  let n := Z.of_nat (nat_of_ascii c) in
  if (48 <=? n) && (n <=? 57) then Some (n - 48) else None.

Fixpoint parse_digits (acc : Z) (s : string) : option Z :=
  match s with
  | EmptyString => Some acc
  | String c s' =>
      match digit_value c with
      | Some d => parse_digits (10 * acc + d) s'
      | None => None
      end
  end.

Definition parse_nonempty (s : string) : option Z :=
  match s with EmptyString => None | _ => parse_digits 0 s end.

(** [new(big.Int).SetString(s, 10)]: an optional sign and at least one digit. *)
Definition parse_big (s : string) : option Z :=
  match s with
  | String "-" s' => Z.opp <$> parse_nonempty s'
  | String "+" s' => parse_nonempty s'
  | _ => parse_nonempty s
  end%char.

(** [strconv.ParseInt(s, 10, 64)], and [strconv.Atoi] with a 64-bit [int]: an error for a
    syntax error and for a value out of range. *)
Definition parse_int64 (s : string) : option Z :=
  match parse_big s with
  | Some z => if in_int64 z then Some z else None
  | None => None
  end.

(** [strconv.FormatInt(z, 10)] and [fmt.Sprintf("%d", z)]. *)
Definition format_int (z : Z) : string := pretty z.

Example parse_int64_overflow : parse_int64 "9223372036854775808" = None.
Proof. reflexivity. Qed.

(** A Go map read: the zero value [""] for an absent key. *)
Definition get_str (m : gmap string string) (k : string) : string := default "" (m !! k).

(** ** Sums over finite maps *)

Section map_sum.
Context {K : Type} `{Countable K} {V : Type}.
Implicit Types (m : gmap K V) (f : K -> V -> Z).

Definition map_sum f m : Z := map_fold (fun k v acc => f k v + acc) 0 m.

Lemma map_sum_empty f : map_sum f ∅ = 0.
Proof. apply map_fold_empty. Qed.

Lemma map_sum_insert_fresh f m k v :
  m !! k = None -> map_sum f (<[k:=v]> m) = f k v + map_sum f m.
Proof.
  intros Hk. unfold map_sum. rewrite map_fold_insert_L; [done| |done].
  intros; lia.
Qed.

Lemma map_sum_insert f m k v :
  map_sum f (<[k:=v]> m)
  = f k v + map_sum f m - match m !! k with Some v0 => f k v0 | None => 0 end.
Proof.
  destruct (m !! k) as [v0|] eqn:E.
  - rewrite <- (insert_id m k v0 E) at 2.
    rewrite <- (insert_delete_eq m k v), <- (insert_delete_eq m k v0).
    rewrite !map_sum_insert_fresh by apply lookup_delete_eq. lia.
  - rewrite map_sum_insert_fresh by done. lia.
Qed.

Lemma map_sum_ext f g m :
  (forall k v, m !! k = Some v -> f k v = g k v) -> map_sum f m = map_sum g m.
Proof.
  revert f g. induction m as [|k v m Hk IH] using map_ind; intros f g Hfg.
  - by rewrite !map_sum_empty.
  - rewrite !map_sum_insert_fresh by done. f_equal.
    + apply Hfg. apply lookup_insert_eq.
    + apply IH. intros k' v' Hl. apply Hfg. rewrite lookup_insert_ne; [done|congruence].
Qed.

Lemma map_sum_nonneg f m :
  (forall k v, m !! k = Some v -> 0 <= f k v) -> 0 <= map_sum f m.
Proof.
  induction m as [|k v m Hk IH] using map_ind; intros Hf.
  - by rewrite map_sum_empty.
  - rewrite map_sum_insert_fresh by done.
    assert (0 <= f k v) by (apply Hf, lookup_insert_eq).
    assert (0 <= map_sum f m); [|lia].
    apply IH. intros k' v' Hl. apply Hf. rewrite lookup_insert_ne; [done|congruence].
Qed.
End map_sum.

(** ** SQL statements on keyed tables

    A table with a primary key is a [gmap] from the key to the row. A statement that
    PostgreSQL rejects (a value out of its column's range) is an [Err]: the statement, and
    the transaction around it, has no effect. *)

Section tables.
Context {K : Type} `{Countable K} {V : Type}.
Implicit Types m : gmap K V.

(** [INSERT ... ON CONFLICT (key) DO NOTHING]. *)
Definition insert_nothing (k : K) (v : V) m : gmap K V :=
  match m !! k with Some _ => m | None => <[k:=v]> m end.

(** [INSERT ... ON CONFLICT (key) DO UPDATE SET ...]: [ins] is the inserted row, [upd]
    the update of the row already there. *)
Definition insert_update (k : K) (ins : V) (upd : V -> result V) m : result (gmap K V) :=
  match m !! k with
  | None => Ok (<[k:=ins]> m)
  | Some v => v' ← upd v; Ok (<[k:=v']> m)
  end.

(** [UPDATE ... SET ... WHERE key = k]: no row is no effect. *)
Definition update_row (k : K) (upd : V -> result V) m : result (gmap K V) :=
  match m !! k with
  | None => Ok m
  | Some v => v' ← upd v; Ok (<[k:=v']> m)
  end.

(** [UPDATE ... SET ... WHERE cond] for a condition that is not the key. *)
Definition update_where (cond : V -> bool) (upd : V -> V) m : gmap K V :=
  (fun v => if cond v then upd v else v) <$> m.

(** The rows a [SELECT ... WHERE cond] scans, in key-enumeration order; queries that use
    it do not depend on that order unless they say so. *)
Definition select_where (cond : V -> bool) m : list V :=
  List.filter cond (map_to_list m).*2.

Lemma insert_nothing_lookup k v m k' :
  insert_nothing k v m !! k'
  = if decide (k = k') then Some (default v (m !! k)) else m !! k'.
Proof.
  unfold insert_nothing. destruct (m !! k) as [v0|] eqn:E; case_decide; subst; simpl.
  - done.
  - done.
  - apply lookup_insert_eq.
  - by apply lookup_insert_ne.
Qed.

Lemma insert_nothing_is_Some k v m k' :
  is_Some (insert_nothing k v m !! k') <-> k' = k \/ is_Some (m !! k').
Proof.
  rewrite insert_nothing_lookup. case_decide as Hd; [subst|]; split.
  - intros _. by left.
  - intros _. by eexists.
  - intros Hs. by right.
  - intros [->|Hs]; [done|exact Hs].
Qed.

Lemma insert_update_Ok k ins upd m m' :
  insert_update k ins upd m = Ok m' ->
  (m !! k = None /\ m' = <[k:=ins]> m)
  \/ (exists v v', m !! k = Some v /\ upd v = Ok v' /\ m' = <[k:=v']> m).
Proof.
  unfold insert_update. destruct (m !! k) as [v|]; [|intros [= <-]; by left].
  intros (v' & Hv & [= <-])%bind_Ok. right. eauto.
Qed.

Lemma update_row_Ok k upd m m' :
  update_row k upd m = Ok m' ->
  (m !! k = None /\ m' = m)
  \/ (exists v v', m !! k = Some v /\ upd v = Ok v' /\ m' = <[k:=v']> m).
Proof.
  unfold update_row. destruct (m !! k) as [v|]; [|intros [= <-]; by left].
  intros (v' & Hv & [= <-])%bind_Ok. right. eauto.
Qed.

Lemma update_where_lookup cond upd m k :
  update_where cond upd m !! k = (fun v => if cond v then upd v else v) <$> m !! k.
Proof. apply lookup_fmap. Qed.

Lemma update_where_dom cond upd m : dom (update_where cond upd m) = dom m.
Proof. apply dom_fmap_L. Qed.
End tables.

(** A numeric column of the row under a key, 0 when there is no row, and how an upsert or
    an update that adds [d] to it changes the column. *)
Section column.
Context {K : Type} `{Countable K} {V : Type}.
Implicit Types (m : gmap K V) (col : V -> Z).

Definition col_of col (k : K) m : Z := match m !! k with Some v => col v | None => 0 end.

Lemma col_of_insert col k k' v m :
  col_of col k (<[k':=v]> m) = if decide (k' = k) then col v else col_of col k m.
Proof.
  unfold col_of. case_decide; subst; [by rewrite lookup_insert_eq|].
  by rewrite lookup_insert_ne.
Qed.

Lemma insert_update_col col k0 ins upd m m' k d :
  insert_update k0 ins upd m = Ok m' -> col ins = d ->
  (forall v v', upd v = Ok v' -> col v' = col v + d) ->
  col_of col k m' = col_of col k m + (if decide (k0 = k) then d else 0).
Proof.
  intros [[E ->]|(v & v' & E & Hu & ->)]%insert_update_Ok Hins Hupd;
    rewrite col_of_insert; case_decide; subst; try lia.
  - unfold col_of. rewrite E. lia.
  - unfold col_of. rewrite E. by apply Hupd.
Qed.

Lemma update_row_col col k0 upd m m' k :
  update_row k0 upd m = Ok m' -> (forall v v', upd v = Ok v' -> col v' = col v) ->
  col_of col k m' = col_of col k m.
Proof.
  intros [[E ->]|(v & v' & E & Hu & ->)]%update_row_Ok Hupd; [done|].
  rewrite col_of_insert. case_decide; subst; [|done].
  unfold col_of. rewrite E. by apply Hupd.
Qed.
End column.

(** [a + b] in a BIGINT column: PostgreSQL rejects a sum out of range. *)
Definition bigint_add (a b : Z) : result Z :=
  if in_int64 (a + b) then Ok (a + b) else Err (EMsg "bigint out of range").

(** A parameter that its column's type cannot hold is rejected. *)
Definition check_range (ok : bool) : result unit :=
  if ok then Ok tt else Err (EMsg "value out of range for column type").

(** [LEAST(COALESCE(old, new), new)] and [GREATEST(COALESCE(old, new), new)]. *)
Definition least (old : option Z) (new : Z) : option Z := Some (Z.min (default new old) new).
Definition greatest (old : option Z) (new : Z) : option Z := Some (Z.max (default new old) new).

Lemma bigint_add_Ok a b c : bigint_add a b = Ok c <-> c = a + b /\ in_int64 (a + b) = true.
Proof.
  unfold bigint_add. destruct (in_int64 (a + b)) eqn:E; split.
  - by intros [= <-].
  - by intros [-> _].
  - done.
  - by intros [_ ?].
Qed.

(** What a [WHERE] clause, a [List.filter], keeps. *)
Lemma elem_of_filter_list {A} (f : A -> bool) (l : list A) x :
  x ∈ List.filter f l <-> x ∈ l /\ f x = true.
Proof. rewrite !list_elem_of_In. apply filter_In. Qed.
