(* ===== verification/Models.v ===== *)
(** Data model: the constants of internal/models/constants.go and the row types of
    internal/models/models.go. A Go struct is a Record whose fields carry the struct's
    field names behind a short tag; [int], [int16], [int32], [int64] and [uint64] fields are
    [Z] (their width is kept by the conversions that produce them), [*int64] is [option Z],
    [float32] is the binary floating-point type of the Standard Library's [SpecFloat], and
    JSON columns are their text. *)

From Stdlib Require Export SpecFloat.
From S2P Require Import Prelude.
#[local] Open Scope string_scope.

(** ** Constants *)

Definition PlasmaAddress : string := "z1qxemdeddedxplasmaxxxxxxxxxxxxxxxxsctrp".
Definition PillarAddress : string := "z1qxemdeddedxpyllarxxxxxxxxxxxxxxxsy3fmg".
Definition TokenAddress : string := "z1qxemdeddedxt0kenxxxxxxxxxxxxxxxxh9amk0".
Definition SentinelAddress : string := "z1qxemdeddedxsentynelxxxxxxxxxxxxxwy0r2r".
Definition StakeAddress : string := "z1qxemdeddedxstakexxxxxxxxxxxxxxxxjv8v62".
Definition AcceleratorAddress : string := "z1qxemdeddedxaccelerat0rxxxxxxxxxxp4tk22".
Definition SwapAddress : string := "z1qxemdeddedxswapxxxxxxxxxxxxxxxxxxl4yww".
Definition LiquidityAddress : string := "z1qxemdeddedxlyquydytyxxxxxxxxxxxxflaaae".
Definition BridgeAddress : string := "z1qxemdeddedxdrydgexxxxxxxxxxxxxxxmqgr0d".
Definition HtlcAddress : string := "z1qxemdeddedxhtlcxxxxxxxxxxxxxxxxxygecvw".
Definition SporkAddress : string := "z1qxemdeddedxsp0rkxxxxxxxxxxxxxxxx956u48".

Definition EmptyAddress : string := "z1qqqqqqqqqqqqqqqqqqqqqqqqqqqqqqqqsggv2f".
Definition LiquidityTreasuryAddress : string := "z1qqw8f3qxx9zg92xgckqdpfws3dw07d26afsj74".

Definition EmptyTokenStandard : string := "zts1qqqqqqqqqqqqqqqqtq587y".
Definition ZnnTokenStandard : string := "zts1znnxxxxxxxxxxxxx9z4ulx".
Definition QsrTokenStandard : string := "zts1qsrxxxxxxxxxxxxxmrhjll".

Definition FusionExpirationTime : Z := 3600.
Definition MomentumBlockTimeSec : Z := 10.
Definition FusionExpirationBlocks : Z := FusionExpirationTime / MomentumBlockTimeSec.

Definition EmbeddedContractAddresses : list string :=
  [PlasmaAddress; PillarAddress; TokenAddress; SentinelAddress; StakeAddress;
   AcceleratorAddress; SwapAddress; LiquidityAddress; BridgeAddress; HtlcAddress;
   SporkAddress].

(** [IsEmbeddedContract]: the loop over the address list, with its early return. *)
Definition IsEmbeddedContract (address : string) : bool :=
  existsb (fun addr => String.eqb addr address) EmbeddedContractAddresses.

Definition RewardContractAddresses : list string :=
  [PillarAddress; SentinelAddress; StakeAddress; LiquidityAddress].

(** ** Enumerations *)

Inductive RewardType : Type :=
| RewardTypeUnknown
| RewardTypeStake
| RewardTypeDelegation
| RewardTypeLiquidity
| RewardTypeSentinel
| RewardTypePillar.

#[export] Instance RewardType_eq_dec : EqDecision RewardType.
Proof. solve_decision. Defined.

Definition RewardType_String (r : RewardType) : string :=
  match r with
  | RewardTypeStake => "Stake"
  | RewardTypeDelegation => "Delegation"
  | RewardTypeLiquidity => "Liquidity"
  | RewardTypeSentinel => "Sentinel"
  | RewardTypePillar => "Pillar"
  | RewardTypeUnknown => "Unknown"
  end.

(** [int(rewardType)]: the [iota] code stored in the reward tables. *)
Definition RewardType_int (r : RewardType) : Z :=
  match r with
  | RewardTypeUnknown => 0
  | RewardTypeStake => 1
  | RewardTypeDelegation => 2
  | RewardTypeLiquidity => 3
  | RewardTypeSentinel => 4
  | RewardTypePillar => 5
  end.

Definition HtlcStatusActive : Z := 0.
Definition HtlcStatusUnlocked : Z := 1.
Definition HtlcStatusReclaimed : Z := 2.

(** ** Rows *)


Record Momentum : Type := mkMomentum {
  mom_Height : Z;
  mom_Hash : string;
  mom_Timestamp : Z;
  mom_TxCount : Z;
  mom_Producer : string;
  mom_ProducerOwner : string;
  mom_ProducerName : string
}.

#[export] Instance Momentum_eta : Eta Momentum := fun r =>
    mkMomentum (mom_Height r) (mom_Hash r) (mom_Timestamp r) (mom_TxCount r)
       (mom_Producer r) (mom_ProducerOwner r) (mom_ProducerName r).

Record Account : Type := mkAccount {
  acc_Address : string;
  acc_BlockCount : Z;
  acc_PublicKey : string;
  acc_Delegate : string;
  acc_DelegationStartTimestamp : Z;
  acc_GenesisZnnBalance : Z;
  acc_GenesisQsrBalance : Z;
  acc_ZnnSent : Z;
  acc_ZnnReceived : Z;
  acc_QsrSent : Z;
  acc_QsrReceived : Z;
  acc_FirstActiveAt : option Z;
  acc_LastActiveAt : option Z;
  acc_FirstSeen : option Z;
  acc_LastSeen : option Z;
  acc_TxCount : Z
}.

#[export] Instance Account_eta : Eta Account := fun r =>
    mkAccount (acc_Address r) (acc_BlockCount r) (acc_PublicKey r) (acc_Delegate r)
       (acc_DelegationStartTimestamp r) (acc_GenesisZnnBalance r)
       (acc_GenesisQsrBalance r) (acc_ZnnSent r) (acc_ZnnReceived r) (acc_QsrSent r)
       (acc_QsrReceived r) (acc_FirstActiveAt r) (acc_LastActiveAt r) (acc_FirstSeen r)
       (acc_LastSeen r) (acc_TxCount r).

Record Balance : Type := mkBalance {
  bal_Address : string;
  bal_TokenStandard : string;
  bal_Balance : Z;
  bal_LastUpdatedTimestamp : Z
}.

#[export] Instance Balance_eta : Eta Balance := fun r =>
    mkBalance (bal_Address r) (bal_TokenStandard r) (bal_Balance r)
       (bal_LastUpdatedTimestamp r).

Record AccountBlock : Type := mkAccountBlock {
  ab_Hash : string;
  ab_MomentumHash : string;
  ab_MomentumTimestamp : Z;
  ab_MomentumHeight : Z;
  ab_BlockType : Z;
  ab_Height : Z;
  ab_Address : string;
  ab_ToAddress : string;
  ab_Amount : Z;
  ab_TokenStandard : string;
  ab_Data : string;
  ab_Method : string;
  ab_Input : string;
  ab_PairedAccountBlock : string;
  ab_DescendantOf : string
}.

#[export] Instance AccountBlock_eta : Eta AccountBlock := fun r =>
    mkAccountBlock (ab_Hash r) (ab_MomentumHash r) (ab_MomentumTimestamp r)
       (ab_MomentumHeight r) (ab_BlockType r) (ab_Height r) (ab_Address r)
       (ab_ToAddress r) (ab_Amount r) (ab_TokenStandard r) (ab_Data r) (ab_Method r)
       (ab_Input r) (ab_PairedAccountBlock r) (ab_DescendantOf r).

Record Token : Type := mkToken {
  tok_TokenStandard : string;
  tok_Name : string;
  tok_Symbol : string;
  tok_Domain : string;
  tok_Decimals : Z;
  tok_Owner : string;
  tok_TotalSupply : Z;
  tok_MaxSupply : Z;
  tok_IsBurnable : bool;
  tok_IsMintable : bool;
  tok_IsUtility : bool;
  tok_TotalBurned : Z;
  tok_LastUpdateTimestamp : Z;
  tok_HolderCount : Z;
  tok_TransactionCount : Z
}.

#[export] Instance Token_eta : Eta Token := fun r =>
    mkToken (tok_TokenStandard r) (tok_Name r) (tok_Symbol r) (tok_Domain r)
       (tok_Decimals r) (tok_Owner r) (tok_TotalSupply r) (tok_MaxSupply r)
       (tok_IsBurnable r) (tok_IsMintable r) (tok_IsUtility r) (tok_TotalBurned r)
       (tok_LastUpdateTimestamp r) (tok_HolderCount r) (tok_TransactionCount r).

Record Pillar : Type := mkPillar {
  pil_OwnerAddress : string;
  pil_ProducerAddress : string;
  pil_WithdrawAddress : string;
  pil_Name : string;
  pil_Rank : Z;
  pil_GiveMomentumRewardPercentage : Z;
  pil_GiveDelegateRewardPercentage : Z;
  pil_IsRevocable : bool;
  pil_RevokeCooldown : Z;
  pil_RevokeTimestamp : Z;
  pil_Weight : Z;
  pil_EpochProducedMomentums : Z;
  pil_EpochExpectedMomentums : Z;
  pil_SlotCostQsr : Z;
  pil_SpawnTimestamp : Z;
  pil_VotingActivity : spec_float;
  pil_ProducedMomentumCount : Z;
  pil_IsRevoked : bool
}.

#[export] Instance Pillar_eta : Eta Pillar := fun r =>
    mkPillar (pil_OwnerAddress r) (pil_ProducerAddress r) (pil_WithdrawAddress r)
       (pil_Name r) (pil_Rank r) (pil_GiveMomentumRewardPercentage r)
       (pil_GiveDelegateRewardPercentage r) (pil_IsRevocable r) (pil_RevokeCooldown r)
       (pil_RevokeTimestamp r) (pil_Weight r) (pil_EpochProducedMomentums r)
       (pil_EpochExpectedMomentums r) (pil_SlotCostQsr r) (pil_SpawnTimestamp r)
       (pil_VotingActivity r) (pil_ProducedMomentumCount r) (pil_IsRevoked r).

Record PillarUpdate : Type := mkPillarUpdate {
  pu_ID : Z;
  pu_Name : string;
  pu_OwnerAddress : string;
  pu_ProducerAddress : string;
  pu_WithdrawAddress : string;
  pu_MomentumTimestamp : Z;
  pu_MomentumHeight : Z;
  pu_MomentumHash : string;
  pu_GiveMomentumRewardPercentage : Z;
  pu_GiveDelegateRewardPercentage : Z
}.

#[export] Instance PillarUpdate_eta : Eta PillarUpdate := fun r =>
    mkPillarUpdate (pu_ID r) (pu_Name r) (pu_OwnerAddress r) (pu_ProducerAddress r)
       (pu_WithdrawAddress r) (pu_MomentumTimestamp r) (pu_MomentumHeight r)
       (pu_MomentumHash r) (pu_GiveMomentumRewardPercentage r)
       (pu_GiveDelegateRewardPercentage r).

Record Sentinel : Type := mkSentinel {
  sen_Owner : string;
  sen_RegistrationTimestamp : Z;
  sen_IsRevocable : bool;
  sen_RevokeCooldown : string;
  sen_Active : bool
}.

#[export] Instance Sentinel_eta : Eta Sentinel := fun r =>
    mkSentinel (sen_Owner r) (sen_RegistrationTimestamp r) (sen_IsRevocable r)
       (sen_RevokeCooldown r) (sen_Active r).

Record Stake : Type := mkStake {
  stk_ID : string;
  stk_Address : string;
  stk_StartTimestamp : Z;
  stk_ExpirationTimestamp : Z;
  stk_ZnnAmount : Z;
  stk_DurationInSec : Z;
  stk_IsActive : bool;
  stk_CancelID : string
}.

#[export] Instance Stake_eta : Eta Stake := fun r =>
    mkStake (stk_ID r) (stk_Address r) (stk_StartTimestamp r) (stk_ExpirationTimestamp r)
       (stk_ZnnAmount r) (stk_DurationInSec r) (stk_IsActive r) (stk_CancelID r).

Record Project : Type := mkProject {
  prj_ID : string;
  prj_VotingID : string;
  prj_Owner : string;
  prj_Name : string;
  prj_Description : string;
  prj_URL : string;
  prj_ZnnFundsNeeded : Z;
  prj_QsrFundsNeeded : Z;
  prj_CreationTimestamp : Z;
  prj_LastUpdateTimestamp : Z;
  prj_Status : Z;
  prj_YesVotes : Z;
  prj_NoVotes : Z;
  prj_TotalVotes : Z
}.

#[export] Instance Project_eta : Eta Project := fun r =>
    mkProject (prj_ID r) (prj_VotingID r) (prj_Owner r) (prj_Name r) (prj_Description r)
       (prj_URL r) (prj_ZnnFundsNeeded r) (prj_QsrFundsNeeded r) (prj_CreationTimestamp r)
       (prj_LastUpdateTimestamp r) (prj_Status r) (prj_YesVotes r) (prj_NoVotes r)
       (prj_TotalVotes r).

Record ProjectPhase : Type := mkProjectPhase {
  ph_ID : string;
  ph_ProjectID : string;
  ph_VotingID : string;
  ph_Name : string;
  ph_Description : string;
  ph_URL : string;
  ph_ZnnFundsNeeded : Z;
  ph_QsrFundsNeeded : Z;
  ph_CreationTimestamp : Z;
  ph_AcceptedTimestamp : Z;
  ph_Status : Z;
  ph_YesVotes : Z;
  ph_NoVotes : Z;
  ph_TotalVotes : Z
}.

#[export] Instance ProjectPhase_eta : Eta ProjectPhase := fun r =>
    mkProjectPhase (ph_ID r) (ph_ProjectID r) (ph_VotingID r) (ph_Name r)
       (ph_Description r) (ph_URL r) (ph_ZnnFundsNeeded r) (ph_QsrFundsNeeded r)
       (ph_CreationTimestamp r) (ph_AcceptedTimestamp r) (ph_Status r) (ph_YesVotes r)
       (ph_NoVotes r) (ph_TotalVotes r).

Record Vote : Type := mkVote {
  vote_ID : Z;
  vote_MomentumHash : string;
  vote_MomentumTimestamp : Z;
  vote_MomentumHeight : Z;
  vote_VoterAddress : string;
  vote_ProjectID : string;
  vote_PhaseID : string;
  vote_VotingID : string;
  vote_Vote : Z
}.

#[export] Instance Vote_eta : Eta Vote := fun r =>
    mkVote (vote_ID r) (vote_MomentumHash r) (vote_MomentumTimestamp r)
       (vote_MomentumHeight r) (vote_VoterAddress r) (vote_ProjectID r) (vote_PhaseID r)
       (vote_VotingID r) (vote_Vote r).

Record Fusion : Type := mkFusion {
  fus_ID : string;
  fus_Address : string;
  fus_Beneficiary : string;
  fus_MomentumHash : string;
  fus_MomentumTimestamp : Z;
  fus_MomentumHeight : Z;
  fus_QsrAmount : Z;
  fus_ExpirationHeight : Z;
  fus_IsActive : bool;
  fus_CancelID : string
}.

#[export] Instance Fusion_eta : Eta Fusion := fun r =>
    mkFusion (fus_ID r) (fus_Address r) (fus_Beneficiary r) (fus_MomentumHash r)
       (fus_MomentumTimestamp r) (fus_MomentumHeight r) (fus_QsrAmount r)
       (fus_ExpirationHeight r) (fus_IsActive r) (fus_CancelID r).

Record CumulativeReward : Type := mkCumulativeReward {
  cr_ID : Z;
  cr_Address : string;
  cr_RewardType : RewardType;
  cr_Amount : Z;
  cr_TokenStandard : string
}.

#[export] Instance CumulativeReward_eta : Eta CumulativeReward := fun r =>
    mkCumulativeReward (cr_ID r) (cr_Address r) (cr_RewardType r) (cr_Amount r)
       (cr_TokenStandard r).

Record RewardTransaction : Type := mkRewardTransaction {
  rt_Hash : string;
  rt_Address : string;
  rt_RewardType : RewardType;
  rt_MomentumTimestamp : Z;
  rt_MomentumHeight : Z;
  rt_AccountHeight : Z;
  rt_Amount : Z;
  rt_TokenStandard : string;
  rt_SourceAddress : string
}.

#[export] Instance RewardTransaction_eta : Eta RewardTransaction := fun r =>
    mkRewardTransaction (rt_Hash r) (rt_Address r) (rt_RewardType r)
       (rt_MomentumTimestamp r) (rt_MomentumHeight r) (rt_AccountHeight r) (rt_Amount r)
       (rt_TokenStandard r) (rt_SourceAddress r).

Record WrapTokenRequest : Type := mkWrapTokenRequest {
  wrap_ID : string;
  wrap_NetworkClass : Z;
  wrap_ChainID : Z;
  wrap_ToAddress : string;
  wrap_TokenStandard : string;
  wrap_TokenAddress : string;
  wrap_Amount : Z;
  wrap_Fee : Z;
  wrap_Signature : string;
  wrap_CreationMomentumHeight : Z;
  wrap_ConfirmationsToFinality : Z
}.

#[export] Instance WrapTokenRequest_eta : Eta WrapTokenRequest := fun r =>
    mkWrapTokenRequest (wrap_ID r) (wrap_NetworkClass r) (wrap_ChainID r)
       (wrap_ToAddress r) (wrap_TokenStandard r) (wrap_TokenAddress r) (wrap_Amount r)
       (wrap_Fee r) (wrap_Signature r) (wrap_CreationMomentumHeight r)
       (wrap_ConfirmationsToFinality r).

Record UnwrapTokenRequest : Type := mkUnwrapTokenRequest {
  unw_TransactionHash : string;
  unw_LogIndex : Z;
  unw_NetworkClass : Z;
  unw_ChainID : Z;
  unw_ToAddress : string;
  unw_TokenStandard : string;
  unw_TokenAddress : string;
  unw_Amount : Z;
  unw_Signature : string;
  unw_RegistrationMomentumHeight : Z;
  unw_Redeemed : bool;
  unw_Revoked : bool;
  unw_RedeemableIn : Z
}.

#[export] Instance UnwrapTokenRequest_eta : Eta UnwrapTokenRequest := fun r =>
    mkUnwrapTokenRequest (unw_TransactionHash r) (unw_LogIndex r) (unw_NetworkClass r)
       (unw_ChainID r) (unw_ToAddress r) (unw_TokenStandard r) (unw_TokenAddress r)
       (unw_Amount r) (unw_Signature r) (unw_RegistrationMomentumHeight r)
       (unw_Redeemed r) (unw_Revoked r) (unw_RedeemableIn r).

Record TokenMint : Type := mkTokenMint {
  mint_ID : Z;
  mint_AccountBlockHash : string;
  mint_MomentumHeight : Z;
  mint_MomentumTimestamp : Z;
  mint_TokenStandard : string;
  mint_Issuer : string;
  mint_Receiver : string;
  mint_Amount : Z
}.

#[export] Instance TokenMint_eta : Eta TokenMint := fun r =>
    mkTokenMint (mint_ID r) (mint_AccountBlockHash r) (mint_MomentumHeight r)
       (mint_MomentumTimestamp r) (mint_TokenStandard r) (mint_Issuer r) (mint_Receiver r)
       (mint_Amount r).

Record TokenBurn : Type := mkTokenBurn {
  burn_ID : Z;
  burn_AccountBlockHash : string;
  burn_MomentumHeight : Z;
  burn_MomentumTimestamp : Z;
  burn_TokenStandard : string;
  burn_Burner : string;
  burn_Amount : Z
}.

#[export] Instance TokenBurn_eta : Eta TokenBurn := fun r =>
    mkTokenBurn (burn_ID r) (burn_AccountBlockHash r) (burn_MomentumHeight r)
       (burn_MomentumTimestamp r) (burn_TokenStandard r) (burn_Burner r) (burn_Amount r).

Record BridgeNetwork : Type := mkBridgeNetwork {
  net_NetworkClass : Z;
  net_ChainID : Z;
  net_Name : string;
  net_ContractAddress : string;
  net_Metadata : string;
  net_LastUpdatedTimestamp : Z
}.

#[export] Instance BridgeNetwork_eta : Eta BridgeNetwork := fun r =>
    mkBridgeNetwork (net_NetworkClass r) (net_ChainID r) (net_Name r)
       (net_ContractAddress r) (net_Metadata r) (net_LastUpdatedTimestamp r).

Record BridgeNetworkToken : Type := mkBridgeNetworkToken {
  nt_NetworkClass : Z;
  nt_ChainID : Z;
  nt_TokenStandard : string;
  nt_TokenAddress : string;
  nt_Bridgeable : bool;
  nt_Redeemable : bool;
  nt_Owned : bool;
  nt_MinAmount : Z;
  nt_FeePercentage : Z;
  nt_RedeemDelay : Z;
  nt_Metadata : string
}.

#[export] Instance BridgeNetworkToken_eta : Eta BridgeNetworkToken := fun r =>
    mkBridgeNetworkToken (nt_NetworkClass r) (nt_ChainID r) (nt_TokenStandard r)
       (nt_TokenAddress r) (nt_Bridgeable r) (nt_Redeemable r) (nt_Owned r)
       (nt_MinAmount r) (nt_FeePercentage r) (nt_RedeemDelay r) (nt_Metadata r).

Record BridgeAdmin : Type := mkBridgeAdmin {
  adm_Administrator : string;
  adm_CompressedTssECDSAPubKey : string;
  adm_DecompressedTssECDSAPubKey : string;
  adm_AllowKeyGen : bool;
  adm_Halted : bool;
  adm_UnhaltedAt : Z;
  adm_UnhaltDurationInMomentums : Z;
  adm_TssNonce : Z;
  adm_Metadata : string;
  adm_LastUpdatedTimestamp : Z
}.

#[export] Instance BridgeAdmin_eta : Eta BridgeAdmin := fun r =>
    mkBridgeAdmin (adm_Administrator r) (adm_CompressedTssECDSAPubKey r)
       (adm_DecompressedTssECDSAPubKey r) (adm_AllowKeyGen r) (adm_Halted r)
       (adm_UnhaltedAt r) (adm_UnhaltDurationInMomentums r) (adm_TssNonce r)
       (adm_Metadata r) (adm_LastUpdatedTimestamp r).

Record BridgeGuardian : Type := mkBridgeGuardian {
  gua_Address : string;
  gua_Nominated : bool;
  gua_Accepted : bool;
  gua_LastUpdatedTimestamp : Z
}.

#[export] Instance BridgeGuardian_eta : Eta BridgeGuardian := fun r =>
    mkBridgeGuardian (gua_Address r) (gua_Nominated r) (gua_Accepted r)
       (gua_LastUpdatedTimestamp r).

Record BridgeOrchestratorInfo : Type := mkBridgeOrchestratorInfo {
  orc_WindowSize : Z;
  orc_KeyGenThreshold : Z;
  orc_ConfirmationsToFinality : Z;
  orc_EstimatedMomentumTime : Z;
  orc_AllowKeyGenHeight : Z;
  orc_LastUpdatedTimestamp : Z
}.

#[export] Instance BridgeOrchestratorInfo_eta : Eta BridgeOrchestratorInfo := fun r =>
    mkBridgeOrchestratorInfo (orc_WindowSize r) (orc_KeyGenThreshold r)
       (orc_ConfirmationsToFinality r) (orc_EstimatedMomentumTime r)
       (orc_AllowKeyGenHeight r) (orc_LastUpdatedTimestamp r).

Record BridgeSecurityInfo : Type := mkBridgeSecurityInfo {
  sec_AdministratorDelay : Z;
  sec_SoftDelay : Z;
  sec_LastUpdatedTimestamp : Z
}.

#[export] Instance BridgeSecurityInfo_eta : Eta BridgeSecurityInfo := fun r =>
    mkBridgeSecurityInfo (sec_AdministratorDelay r) (sec_SoftDelay r)
       (sec_LastUpdatedTimestamp r).

Record NetworkStatHistory : Type := mkNetworkStatHistory {
  ns_Date : string;
  ns_TotalTx : Z;
  ns_DailyTx : Z;
  ns_TotalAddresses : Z;
  ns_DailyAddresses : Z;
  ns_ActiveAddresses : Z;
  ns_TotalTokens : Z;
  ns_DailyTokens : Z;
  ns_TotalStakes : Z;
  ns_DailyStakes : Z;
  ns_TotalFusions : Z;
  ns_DailyFusions : Z;
  ns_TotalPillars : Z;
  ns_TotalSentinels : Z
}.

#[export] Instance NetworkStatHistory_eta : Eta NetworkStatHistory := fun r =>
    mkNetworkStatHistory (ns_Date r) (ns_TotalTx r) (ns_DailyTx r) (ns_TotalAddresses r)
       (ns_DailyAddresses r) (ns_ActiveAddresses r) (ns_TotalTokens r) (ns_DailyTokens r)
       (ns_TotalStakes r) (ns_DailyStakes r) (ns_TotalFusions r) (ns_DailyFusions r)
       (ns_TotalPillars r) (ns_TotalSentinels r).

Record TokenStatHistory : Type := mkTokenStatHistory {
  ts_Date : string;
  ts_TokenStandard : string;
  ts_DailyMinted : Z;
  ts_DailyBurned : Z;
  ts_TotalSupply : Z;
  ts_TotalHolders : Z;
  ts_TotalTransactions : Z
}.

#[export] Instance TokenStatHistory_eta : Eta TokenStatHistory := fun r =>
    mkTokenStatHistory (ts_Date r) (ts_TokenStandard r) (ts_DailyMinted r)
       (ts_DailyBurned r) (ts_TotalSupply r) (ts_TotalHolders r) (ts_TotalTransactions r).

Record PillarStatHistory : Type := mkPillarStatHistory {
  ps_Date : string;
  ps_PillarOwnerAddress : string;
  ps_Rank : Z;
  ps_Weight : Z;
  ps_MomentumRewards : Z;
  ps_DelegateRewards : Z;
  ps_TotalDelegators : Z
}.

#[export] Instance PillarStatHistory_eta : Eta PillarStatHistory := fun r =>
    mkPillarStatHistory (ps_Date r) (ps_PillarOwnerAddress r) (ps_Rank r) (ps_Weight r)
       (ps_MomentumRewards r) (ps_DelegateRewards r) (ps_TotalDelegators r).

Record BridgeStatHistory : Type := mkBridgeStatHistory {
  bs_Date : string;
  bs_NetworkClass : Z;
  bs_ChainID : Z;
  bs_TokenStandard : string;
  bs_WrapTxCount : Z;
  bs_WrappedAmount : Z;
  bs_UnwrapTxCount : Z;
  bs_UnwrappedAmount : Z;
  bs_TotalVolume : Z
}.

#[export] Instance BridgeStatHistory_eta : Eta BridgeStatHistory := fun r =>
    mkBridgeStatHistory (bs_Date r) (bs_NetworkClass r) (bs_ChainID r)
       (bs_TokenStandard r) (bs_WrapTxCount r) (bs_WrappedAmount r) (bs_UnwrapTxCount r)
       (bs_UnwrappedAmount r) (bs_TotalVolume r).

(** The column [id] is left out: the table's sequence fills it (also past the values of
    transactions that were rolled back), and no statement of the program reads or writes it. *)
Record Delegation : Type := mkDelegation {
  del_DelegatorAddress : string;
  del_PillarOwnerAddress : string;
  del_StartedAt : Z;
  del_EndedAt : option Z
}.

#[export] Instance Delegation_eta : Eta Delegation := fun r =>
    mkDelegation (del_DelegatorAddress r) (del_PillarOwnerAddress r)
       (del_StartedAt r) (del_EndedAt r).

Record SyncStatus : Type := mkSyncStatus {
  ss_DBHeight : Z;
  ss_ZnndFrontierHeight : Z;
  ss_ZnndTargetHeight : Z;
  ss_DriftMomentums : Z;
  ss_NodeLagMomentums : Z;
  ss_State : string;
  ss_ConsecutiveBadChecks : Z;
  ss_ActiveNodeURL : string;
  ss_ActiveNodeLabel : string;
  ss_ChainIdentifier : string;
  ss_FailedOverAt : option Z;
  ss_LastProgressAt : Z;
  ss_CheckedAt : Z
}.

#[export] Instance SyncStatus_eta : Eta SyncStatus := fun r =>
    mkSyncStatus (ss_DBHeight r) (ss_ZnndFrontierHeight r) (ss_ZnndTargetHeight r)
       (ss_DriftMomentums r) (ss_NodeLagMomentums r) (ss_State r)
       (ss_ConsecutiveBadChecks r) (ss_ActiveNodeURL r) (ss_ActiveNodeLabel r)
       (ss_ChainIdentifier r) (ss_FailedOverAt r) (ss_LastProgressAt r) (ss_CheckedAt r).

Record Htlc : Type := mkHtlc {
  htlc_ID : string;
  htlc_TimeLockedAddress : string;
  htlc_HashLockedAddress : string;
  htlc_TokenStandard : string;
  htlc_Amount : Z;
  htlc_ExpirationTimestamp : Z;
  htlc_HashType : Z;
  htlc_KeyMaxSize : Z;
  htlc_HashLock : string;
  htlc_Status : Z;
  htlc_Preimage : string;
  htlc_CreationMomentumHeight : Z;
  htlc_CreationMomentumTimestamp : Z;
  htlc_SettleMomentumHeight : Z;
  htlc_SettleMomentumTimestamp : Z
}.

#[export] Instance Htlc_eta : Eta Htlc := fun r =>
    mkHtlc (htlc_ID r) (htlc_TimeLockedAddress r) (htlc_HashLockedAddress r)
       (htlc_TokenStandard r) (htlc_Amount r) (htlc_ExpirationTimestamp r)
       (htlc_HashType r) (htlc_KeyMaxSize r) (htlc_HashLock r) (htlc_Status r)
       (htlc_Preimage r) (htlc_CreationMomentumHeight r)
       (htlc_CreationMomentumTimestamp r) (htlc_SettleMomentumHeight r)
       (htlc_SettleMomentumTimestamp r).

Record SwapRetrieval : Type := mkSwapRetrieval {
  sr_ID : string;
  sr_Address : string;
  sr_PublicKey : string;
  sr_ZnnAmount : Z;
  sr_QsrAmount : Z;
  sr_MomentumHeight : Z;
  sr_MomentumTimestamp : Z
}.

#[export] Instance SwapRetrieval_eta : Eta SwapRetrieval := fun r =>
    mkSwapRetrieval (sr_ID r) (sr_Address r) (sr_PublicKey r) (sr_ZnnAmount r)
       (sr_QsrAmount r) (sr_MomentumHeight r) (sr_MomentumTimestamp r).

Record SwapAsset : Type := mkSwapAsset {
  sa_KeyIDHash : string;
  sa_Znn : Z;
  sa_Qsr : Z;
  sa_LastUpdatedTimestamp : Z
}.

#[export] Instance SwapAsset_eta : Eta SwapAsset := fun r =>
    mkSwapAsset (sa_KeyIDHash r) (sa_Znn r) (sa_Qsr r) (sa_LastUpdatedTimestamp r).

Record BridgeTimeChallenge : Type := mkBridgeTimeChallenge {
  tc_MethodName : string;
  tc_ParamsHash : string;
  tc_ChallengeStartHeight : Z;
  tc_Delay : Z;
  tc_EndHeight : Z;
  tc_LastUpdatedTimestamp : Z
}.

#[export] Instance BridgeTimeChallenge_eta : Eta BridgeTimeChallenge := fun r =>
    mkBridgeTimeChallenge (tc_MethodName r) (tc_ParamsHash r) (tc_ChallengeStartHeight r)
       (tc_Delay r) (tc_EndHeight r) (tc_LastUpdatedTimestamp r).

(** [TxData]: a decoded contract call, its method and its inputs by parameter name. *)
Record TxData : Type := mkTxData {
  tx_Method : string;
  tx_Inputs : gmap string string
}.

#[export] Instance TxData_eta : Eta TxData := fun r => mkTxData (tx_Method r) (tx_Inputs r).

Definition NewTxData : TxData := mkTxData "" ∅.

(** ** Facts about the constants *)

Lemma RewardType_int_inj r1 r2 : RewardType_int r1 = RewardType_int r2 -> r1 = r2.
Proof. destruct r1, r2; simpl; congruence. Qed.

Lemma RewardType_int_int16 r : in_int16 (RewardType_int r) = true.
Proof. by destruct r. Qed.

Lemma IsEmbeddedContract_spec a :
  IsEmbeddedContract a = true <-> a ∈ EmbeddedContractAddresses.
Proof.
  unfold IsEmbeddedContract. rewrite existsb_exists. split.
  - intros (x & Hx & E%String.eqb_eq). subst. by apply list_elem_of_In.
  - intros Ha%list_elem_of_In. exists a. by rewrite String.eqb_refl.
Qed.
