(* ===== verification/Chain.v ===== *)
(** The indexer's view of the code it calls: the node's RPC answers (go-zenon's
    [rpc/api] and [common/types]), the SDK's ABI tables (znn-sdk-go's [abi] and
    [embedded]) and the block-type codes. None of it lives in the repository, so the
    answers are data and the operations are the fields of records the indexer's
    definitions take as arguments: nothing here says what a node answers.

    A hash, an address and a token standard are carried as the text of their [String()]
    method, the only form the indexer stores; a [*big.Int] is [option Z] ([None] for nil);
    a byte slice is [string]. Heights and timestamps are Go's [uint64], [Z] here. *)

From S2P Require Import Prelude.
From S2P Require Import Models.

(** ** Block types

    The codes of [utils.BlockType*], as docs/reference/addresses.md lists them. *)

Definition BlockTypeGenesisReceive : Z := 1.
Definition BlockTypeUserSend : Z := 2.
Definition BlockTypeUserReceive : Z := 3.
Definition BlockTypeContractSend : Z := 4.
Definition BlockTypeContractReceive : Z := 5.

(** ** RPC data *)

(** The fields of [nom.AccountBlock] the indexer reads; paired and descendant blocks are
    only read through these. *)
Record NomBlock : Type := mkNomBlock {
  nb_Hash : string;
  nb_BlockType : Z;
  nb_Height : Z;
  nb_Address : string;
  nb_ToAddress : string;
  nb_Amount : option Z;
  nb_TokenStandard : string;
  nb_Data : string;
  nb_PublicKey : string
}.

(** [api.Token], reached through [block.TokenInfo]. *)
Record TokenInfo : Type := mkTokenInfo {
  ti_ZenonTokenStandard : string;
  ti_TokenName : string;
  ti_TokenSymbol : string;
  ti_TokenDomain : string;
  ti_Decimals : Z;
  ti_Owner : string;
  ti_TotalSupply : option Z;
  ti_MaxSupply : option Z;
  ti_IsBurnable : bool;
  ti_IsMintable : bool;
  ti_IsUtility : bool
}.

(** [api.AccountBlock]. *)
Record ChainBlock : Type := mkChainBlock {
  cb_Block : NomBlock;
  cb_TokenInfo : option TokenInfo;
  cb_PairedAccountBlock : option NomBlock;
  cb_DescendantBlocks : list NomBlock
}.

(** [types.AccountHeader]. *)
Record AccountHeader : Type := mkAccountHeader {
  hd_Address : string;
  hd_Hash : string
}.

(** [api.Momentum]. *)
Record ChainMomentum : Type := mkChainMomentum {
  cm_Height : Z;
  cm_Hash : string;
  cm_TimestampUnix : Z;
  cm_Content : list AccountHeader;
  cm_Producer : string
}.

(** The [BalanceInfoMap] of an account, in the order one iteration of the Go map visits it. *)
Definition BalanceInfoMap : Type := list (string * option Z).

(** ** RPC operations used while one momentum is processed *)
Record LedgerApi : Type := mkLedgerApi {
  GetAccountBlockByHash : string -> result (option ChainBlock);
  GetAccountInfoByAddress : string -> result BalanceInfoMap
}.

(** ** ABI *)

(** A decoded ABI argument, by the cases [formatArg] separates; any other Go value comes
    with the text [fmt.Sprintf("%v", v)] gives it. A [types.Hash] is such a value. *)
Inductive AbiArg : Type :=
| ArgBytes (b : string)
| ArgString (s : string)
| ArgHash (rendered : string)
| ArgOther (rendered : string).

Record AbiEntry : Type := mkAbiEntry {
  ae_IsFunction : bool;
  ae_Name : string;
  ae_Inputs : list string;
  ae_Signature : string
}.

Record Abi : Type := mkAbi {
  abi_Entries : list AbiEntry;
  abi_DecodeFunction : string -> result (list AbiArg);
  abi_EncodeFunction : string -> list AbiArg -> result string
}.

(** The [embedded] package's contract ABIs, package variables that are never nil, and
    [types.HexToHash], which yields the canonical text of the hash. *)
Record Sdk : Type := mkSdk {
  sdk_Common : Abi;
  sdk_Plasma : Abi;
  sdk_Pillar : Abi;
  sdk_Token : Abi;
  sdk_Sentinel : Abi;
  sdk_Stake : Abi;
  sdk_Accelerator : Abi;
  sdk_Swap : Abi;
  sdk_Liquidity : Abi;
  sdk_Bridge : Abi;
  sdk_Htlc : Abi;
  sdk_HexToHash : string -> result string
}.
