(* ===== verification/Json.v ===== *)
(** [encoding/json] as the indexer uses it: [json.Marshal] of a map with string keys, whose
    values are strings, integers or already-marshalled JSON ([json.RawMessage]). Such a map
    always marshals, so the encoder is a total function. Keys are emitted in byte order and
    strings are escaped as the standard library's default (HTML-safe) encoder does. *)

From S2P Require Import Prelude.
#[local] Open Scope string_scope.

(** ** UTF-8

    [utf8.DecodeRuneInString]: the length of the well-formed sequence at the head of the
    bytes, 1 for an ASCII byte, and [None] where the decoder answers [RuneError] with size
    1. *)

Definition in_range (lo hi : nat) (c : ascii) : bool :=
  let n := nat_of_ascii c in Nat.leb lo n && Nat.leb n hi.

Definition cont (c : ascii) : bool := in_range 128 191 c.

Definition utf8_seq (s : string) : option (string * string) :=
  match s with
  | EmptyString => None
  | String a s1 =>
      if in_range 0 127 a then Some (String a "", s1) else
      match s1 with
      | EmptyString => None
      | String b s2 =>
          if in_range 194 223 a && cont b then Some (String a (String b ""), s2) else
          match s2 with
          | EmptyString => None
          | String c s3 =>
              if (in_range 224 224 a && in_range 160 191 b && cont c)
                 || (in_range 225 236 a && cont b && cont c)
                 || (in_range 237 237 a && in_range 128 159 b && cont c)
                 || (in_range 238 239 a && cont b && cont c)
              then Some (String a (String b (String c "")), s3) else
              match s3 with
              | EmptyString => None
              | String d s4 =>
                  if (in_range 240 240 a && in_range 144 191 b && cont c && cont d)
                     || (in_range 241 243 a && cont b && cont c && cont d)
                     || (in_range 244 244 a && in_range 128 143 b && cont c && cont d)
                  then Some (String a (String b (String c (String d ""))), s4) else None
              end
          end
      end
  end.

(** ** Strings *)

Definition quote_char : ascii := ascii_of_nat 34.
Definition backslash : ascii := ascii_of_nat 92.

(** [\u00XY]. *)
Definition u00 (c : ascii) : string :=
  let n := nat_of_ascii c in
  String backslash ("u00" +:+ String (hex_digit (n / 16)) (String (hex_digit (n mod 16)) "")).

Definition esc2 (c : ascii) : string := String backslash (String c "").

(** One ASCII byte of a string literal. *)
Definition escape_ascii (c : ascii) : string :=
  let n := nat_of_ascii c in
  match n with
  | 34 | 92 => esc2 c
  | 8 => esc2 "b" | 9 => esc2 "t" | 10 => esc2 "n" | 12 => esc2 "f" | 13 => esc2 "r"
  | 60 | 62 | 38 => u00 c
  | _ => if Nat.ltb n 32 then u00 c else String c ""
  end%nat%char.

(** One well-formed multi-byte sequence: U+2028 and U+2029 are escaped. *)
Definition escape_rune (r : string) : string :=
  match r with
  | String a (String b (String c EmptyString)) =>
      match nat_of_ascii a, nat_of_ascii b, nat_of_ascii c with
      | 226, 128, 168 => String backslash "u2028"
      | 226, 128, 169 => String backslash "u2029"
      | _, _, _ => r
      end%nat
  | _ => r
  end.

(** [appendString]; the fuel is the number of bytes left, and every step consumes one. *)
Fixpoint escape_fuel (fuel : nat) (s : string) : string :=
  match fuel, s with
  | O, _ | _, EmptyString => ""
  | S fuel', String c s' =>
      match utf8_seq s with
      | Some (String a EmptyString, rest) => escape_ascii a +:+ escape_fuel fuel' rest
      | Some (r, rest) => escape_rune r +:+ escape_fuel fuel' rest
      | None => String backslash "ufffd" +:+ escape_fuel fuel' s'
      end
  end.

Definition json_string (s : string) : string :=
  String quote_char (escape_fuel (String.length s) s +:+ String quote_char "").

(** ** Objects *)

Inductive jval : Type :=
| JStr (s : string)
| JInt (z : Z)
| JRaw (text : string).

Definition json_value (v : jval) : string :=
  match v with
  | JStr s => json_string s
  | JInt z => format_int z
  | JRaw text => text
  end.

Definition key_le (a b : string * jval) : Prop := String.leb (fst a) (fst b) = true.
#[export] Instance key_le_dec : RelDecision key_le := fun a b => bool_eq_dec _ _.

Definition json_member (kv : string * jval) : string :=
  json_string (fst kv) +:+ ":" +:+ json_value (snd kv).

(** [json.Marshal] of a map: members in key order. *)
Definition json_marshal (fields : gmap string jval) : string :=
  "{" +:+ String.concat "," (map json_member (merge_sort key_le (map_to_list fields))) +:+ "}".

(** [json.Marshal] of a [map[string]string]. *)
Definition json_marshal_strings (m : gmap string string) : string :=
  json_marshal (JStr <$> m).

