(* ===== verification/RepoLedger.v ===== *)
(** The ledger tables: momentums, accounts, account_blocks, balances, tokens and the token
    events, one Module per repository of internal/repository. A table is a [gmap] keyed by
    its primary key (migrations/001, 007, 009, 012); each operation is the effect of the
    SQL statement its Go method issues, and the [...Batch] methods queue the very same
    statement (Database.v's [stmt]). *)

From S2P Require Import Prelude.
From S2P Require Import Models.
From S2P Require Import Json.
#[local] Open Scope string_scope.

(** ** momentums (height -> row) *)

Module MomentumRepository.
Abbreviation table := (gmap Z Momentum)%type (only parsing).

(** [Insert] / [InsertBatch]. The height is Go's [uint64]; a value above BIGINT's range
    is rejected, and so is a [tx_count] above INT's. *)
Definition Insert (m : Momentum) (t : table) : result table :=
  _ ← check_range (in_int64 (mom_Height m) && in_int32 (mom_TxCount m));
  Ok (insert_nothing (mom_Height m) m t).

(** [SELECT MAX(height)]; NULL (an empty table) is height 0. *)
Definition max_height (t : table) : option Z :=
  map_fold (fun h _ acc => Some (match acc with None => h | Some a => Z.max h a end)) None t.

Definition GetLatestHeight (t : table) : Z :=
  match max_height t with
  | None => 0
  | Some h => uint64 h
  end.

Definition GetByHeight (height : Z) (t : table) : result Momentum :=
  match t !! height with Some m => Ok m | None => Err ENoRows end.

Definition GetLatest (t : table) : result Momentum :=
  match max_height t with
  | None => Err ENoRows
  | Some h => GetByHeight h t
  end.
End MomentumRepository.

(** ** accounts (address -> row) *)

Module AccountRepository.
Abbreviation table := (gmap string Account)%type (only parsing).

(** A row with the column defaults of migrations/001, 009 and 012. *)
Definition new_row (address : string) (block_count : Z) (public_key : string) : Account :=
  mkAccount address block_count public_key "" 0 0 0 0 0 0 0 None None None None 0.

Definition Upsert (a : Account) (t : table) : result table :=
  insert_update (acc_Address a)
    (new_row (acc_Address a) (acc_BlockCount a) (acc_PublicKey a))
    (fun old => Ok (old <| acc_BlockCount := acc_BlockCount a |>
                        <| acc_PublicKey := if str_empty (acc_PublicKey a)
                                            then acc_PublicKey old else acc_PublicKey a |>))
    t.

(** The flow columns [flowColumn] can name. *)
Inductive flow_col : Type := znn_sent | znn_received | qsr_sent | qsr_received.

Definition get_flow (c : flow_col) (a : Account) : Z :=
  match c with
  | znn_sent => acc_ZnnSent a
  | znn_received => acc_ZnnReceived a
  | qsr_sent => acc_QsrSent a
  | qsr_received => acc_QsrReceived a
  end.

Definition set_flow (c : flow_col) (v : Z) (a : Account) : Account :=
  match c with
  | znn_sent => a <| acc_ZnnSent := v |>
  | znn_received => a <| acc_ZnnReceived := v |>
  | qsr_sent => a <| acc_QsrSent := v |>
  | qsr_received => a <| acc_QsrReceived := v |>
  end.

(** [flowColumn]; [None] is the empty column name. *)
Definition flowColumn (tokenStandard direction : string) : option flow_col :=
  if String.eqb tokenStandard ZnnTokenStandard then
    Some (if String.eqb direction "sent" then znn_sent else znn_received)
  else if String.eqb tokenStandard QsrTokenStandard then
    Some (if String.eqb direction "sent" then qsr_sent else qsr_received)
  else None.

Definition touch_active (ts : Z) (a : Account) : Account :=
  a <| acc_FirstActiveAt := least (acc_FirstActiveAt a) ts |>
    <| acc_LastActiveAt := greatest (acc_LastActiveAt a) ts |>.

(** The statement shared by [AddSendBatch] and [AddReceiveBatch]. *)
Definition add_flow (direction address tokenStandard : string) (amount ts : Z) (t : table)
  : result table :=
  match flowColumn tokenStandard direction with
  | None =>
      insert_update address (touch_active ts (new_row address 0 ""))
        (fun old => Ok (touch_active ts old)) t
  | Some c =>
      insert_update address (touch_active ts (set_flow c amount (new_row address 0 "")))
        (fun old => v ← bigint_add (get_flow c old) amount;
                    Ok (touch_active ts (set_flow c v old))) t
  end.

Definition AddSend (address tokenStandard : string) (amount ts : Z) : table -> result table :=
  add_flow "sent" address tokenStandard amount ts.

Definition AddReceive (address tokenStandard : string) (amount ts : Z)
  : table -> result table :=
  add_flow "received" address tokenStandard amount ts.

Definition touch_seen (ts : Z) (a : Account) : Account :=
  a <| acc_FirstSeen := least (acc_FirstSeen a) ts |>
    <| acc_LastSeen := greatest (acc_LastSeen a) ts |>.

Definition BumpTxCount (address : string) (ts : Z) (t : table) : result table :=
  insert_update address ((touch_seen ts (new_row address 0 "")) <| acc_TxCount := 1 |>)
    (fun old => n ← bigint_add (acc_TxCount old) 1;
                Ok ((touch_seen ts old) <| acc_TxCount := n |>)) t.

Definition UpdateDelegate (address delegate : string) (ts : Z) (t : table) : result table :=
  update_row address
    (fun old => Ok (old <| acc_Delegate := delegate |>
                        <| acc_DelegationStartTimestamp := ts |>)) t.

(** [SetGenesisBalanceBatch]: only ZNN and QSR have a genesis column. *)
Definition SetGenesisBalance (address tokenStandard : string) (balance : Z) (t : table)
  : result table :=
  if String.eqb tokenStandard ZnnTokenStandard then
    insert_update address ((new_row address 0 "") <| acc_GenesisZnnBalance := balance |>)
      (fun old => Ok (old <| acc_GenesisZnnBalance := balance |>)) t
  else if String.eqb tokenStandard QsrTokenStandard then
    insert_update address ((new_row address 0 "") <| acc_GenesisQsrBalance := balance |>)
      (fun old => Ok (old <| acc_GenesisQsrBalance := balance |>)) t
  else Ok t.

Definition GetByAddress (address : string) (t : table) : result Account :=
  match t !! address with Some a => Ok a | None => Err ENoRows end.
End AccountRepository.

(** ** account_blocks (hash -> row) *)

Module AccountBlockRepository.
Abbreviation table := (gmap string AccountBlock)%type (only parsing).

(** The six characters [\u0000], and a NUL byte. *)
Definition escaped_nul : string := String backslash "u0000".
Definition nul_byte : string := String (ascii_of_nat 0) "".

Definition sanitizeJSONForPostgres (s : string) : string :=
  replace_all nul_byte "" (replace_all escaped_nul "" s).

(** The [method] and [input] parameters [InsertBatch] computes from the decoded call. *)
Definition input_text (txData : option TxData) : string :=
  match txData with
  | Some d => if bool_decide (tx_Inputs d = ∅) then "{}"
              else sanitizeJSONForPostgres (json_marshal_strings (tx_Inputs d))
  | None => "{}"
  end.

Definition method_text (txData : option TxData) : string :=
  match txData with Some d => tx_Method d | None => "" end.

(** [Insert] / [InsertBatch]: on conflict only method, input and the paired hash change. *)
Definition Insert (ab : AccountBlock) (txData : option TxData) (t : table) : result table :=
  let row := ab <| ab_Method := method_text txData |> <| ab_Input := input_text txData |>
                <| ab_DescendantOf := "" |> in
  insert_update (ab_Hash ab) row
    (fun old => Ok (old <| ab_Method := ab_Method row |> <| ab_Input := ab_Input row |>
                        <| ab_PairedAccountBlock := ab_PairedAccountBlock row |>)) t.

Definition UpdatePairedBlock (hash pairedHash : string) (t : table) : result table :=
  update_row hash (fun old => Ok (old <| ab_PairedAccountBlock := pairedHash |>)) t.

Definition UpdateDescendantOf (hash parentHash : string) (t : table) : result table :=
  update_row hash (fun old => Ok (old <| ab_DescendantOf := parentHash |>)) t.

Definition GetByHash (hash : string) (t : table) : result AccountBlock :=
  match t !! hash with Some b => Ok b | None => Err ENoRows end.

(** [WHERE address = $1 OR to_address = $1], the rows [ListByAddress] pages through, and
    their exact count. *)
Definition touches (address : string) (b : AccountBlock) : bool :=
  String.eqb (ab_Address b) address || String.eqb (ab_ToAddress b) address.

Definition count_touching (address : string) (t : table) : Z :=
  map_sum (fun _ b => if touches address b then 1 else 0) t.

(** The [total] of [ListByAddress]: the cached counter, 0 for an unknown account. *)
Definition ListByAddress_total (address : string) (accounts : AccountRepository.table)
  : result Z :=
  if str_empty address then Err (EMsg "address is required")
  else Ok (col_of acc_TxCount address accounts).
End AccountBlockRepository.

(** ** balances ((address, token_standard) -> row) *)

Module BalanceRepository.
Abbreviation table := (gmap (string * string) Balance)%type (only parsing).

Definition Upsert (b : Balance) (t : table) : result table :=
  insert_update (bal_Address b, bal_TokenStandard b) b
    (fun old => Ok (old <| bal_Balance := bal_Balance b |>
                        <| bal_LastUpdatedTimestamp := bal_LastUpdatedTimestamp b |>)) t.

(** [COUNT] of the rows with a positive balance of the token. *)
Definition GetHolderCount (tokenStandard : string) (t : table) : Z :=
  Z.of_nat (length (select_where (fun b => String.eqb (bal_TokenStandard b) tokenStandard
                                           && (0 <? bal_Balance b)%Z) t)).
End BalanceRepository.

(** ** tokens (token_standard -> row) *)

Module TokenRepository.
Abbreviation table := (gmap string Token)%type (only parsing).

(** The inserted row takes the column defaults for the derived counters; the conflict
    branch refreshes domain and supplies only. *)
Definition Upsert (tk : Token) (t : table) : result table :=
  _ ← check_range (in_int32 (tok_Decimals tk));
  insert_update (tok_TokenStandard tk)
    (tk <| tok_TotalBurned := 0 |> <| tok_LastUpdateTimestamp := 0 |>
        <| tok_HolderCount := 0 |> <| tok_TransactionCount := 0 |>)
    (fun old => Ok (old <| tok_Domain := tok_Domain tk |>
                        <| tok_TotalSupply := tok_TotalSupply tk |>
                        <| tok_MaxSupply := tok_MaxSupply tk |>)) t.

Definition UpdateBurnAmount (tokenStandard : string) (burnAmount : Z) (t : table)
  : result table :=
  update_row tokenStandard
    (fun old => n ← bigint_add (tok_TotalBurned old) burnAmount;
                Ok (old <| tok_TotalBurned := n |>)) t.

Definition UpdateLastUpdateTimestamp (tokenStandard : string) (ts : Z) (t : table)
  : result table :=
  update_row tokenStandard (fun old => Ok (old <| tok_LastUpdateTimestamp := ts |>)) t.

Definition IncrementTransactionCount (tokenStandard : string) (t : table) : result table :=
  update_row tokenStandard
    (fun old => n ← bigint_add (tok_TransactionCount old) 1;
                Ok (old <| tok_TransactionCount := n |>)) t.

Definition UpdateHolderCount (tokenStandard : string) (count : Z) (t : table)
  : result table :=
  update_row tokenStandard (fun old => Ok (old <| tok_HolderCount := count |>)) t.

(** [GetAll]: every row, in enumeration order. *)
Definition GetAll (t : table) : list Token := select_where (fun _ => true) t.
End TokenRepository.

(** ** token_mints and token_burns, unique on the account-block hash *)

Module TokenEventRepository.
Abbreviation mints := (gmap string TokenMint)%type (only parsing).
Abbreviation burns := (gmap string TokenBurn)%type (only parsing).

Definition InsertMint (m : TokenMint) (t : mints) : result mints :=
  Ok (insert_nothing (mint_AccountBlockHash m) m t).

Definition InsertBurn (b : TokenBurn) (t : burns) : result burns :=
  Ok (insert_nothing (burn_AccountBlockHash b) b t).

(** [SumDailyMintsBurns], with the day given by its bounds [lo <= timestamp < hi]; a sum
    that does not fit int64 cannot be scanned. *)
Definition SumDailyMintsBurns (tokenStandard : string) (lo hi : Z) (tm : mints) (tb : burns)
  : result (Z * Z) :=
  let minted := map_sum (fun _ m => if String.eqb (mint_TokenStandard m) tokenStandard
                                       && (lo <=? mint_MomentumTimestamp m)%Z
                                       && (mint_MomentumTimestamp m <? hi)%Z
                                    then mint_Amount m else 0) tm in
  let burned := map_sum (fun _ b => if String.eqb (burn_TokenStandard b) tokenStandard
                                       && (lo <=? burn_MomentumTimestamp b)%Z
                                       && (burn_MomentumTimestamp b <? hi)%Z
                                    then burn_Amount b else 0) tb in
  _ ← check_range (in_int64 minted && in_int64 burned); Ok (minted, burned).
End TokenEventRepository.
