(* ===== verification/RepoContracts.v ===== *)
(** The embedded-contract tables: pillars and their history, delegations, sentinels,
    stakes, fusions, HTLCs, the legacy swap, Accelerator-Z projects, phases and votes, and
    rewards. Conventions as in RepoLedger.v; the two append-only tables with a serial
    primary key (pillar_updates, delegations) are lists in id order. *)

From S2P Require Import Prelude.
From S2P Require Import Models.
#[local] Open Scope string_scope.

(** [QueryRow(...).Scan(...)]: the first row of the result, or [pgx.ErrNoRows]. *)
Definition query_row {A} (rows : list A) : result A :=
  match rows with [] => Err ENoRows | r :: _ => Ok r end.

(** ** pillars (owner_address -> row) *)

Module PillarRepository.
Abbreviation table := (gmap string Pillar)%type (only parsing).

(** The INT columns; the SMALLINT ones are filled by [int16] conversions. *)
Definition row_ok (p : Pillar) : bool :=
  in_int32 (pil_Rank p) && in_int32 (pil_RevokeCooldown p).

(** Columns [Upsert] does not list keep their defaults on insert and their value on
    conflict. *)
Definition Upsert (p : Pillar) (t : table) : result table :=
  _ ← check_range (row_ok p);
  insert_update (pil_OwnerAddress p)
    (p <| pil_SlotCostQsr := 0 |> <| pil_SpawnTimestamp := 0 |>
       <| pil_VotingActivity := S754_zero false |> <| pil_ProducedMomentumCount := 0 |>
       <| pil_IsRevoked := false |>)
    (fun old => Ok (old
       <| pil_ProducerAddress := pil_ProducerAddress p |>
       <| pil_WithdrawAddress := pil_WithdrawAddress p |>
       <| pil_Name := pil_Name p |>
       <| pil_Rank := pil_Rank p |>
       <| pil_GiveMomentumRewardPercentage := pil_GiveMomentumRewardPercentage p |>
       <| pil_GiveDelegateRewardPercentage := pil_GiveDelegateRewardPercentage p |>
       <| pil_IsRevocable := pil_IsRevocable p |>
       <| pil_RevokeCooldown := pil_RevokeCooldown p |>
       <| pil_RevokeTimestamp := pil_RevokeTimestamp p |>
       <| pil_Weight := pil_Weight p |>
       <| pil_EpochProducedMomentums := pil_EpochProducedMomentums p |>
       <| pil_EpochExpectedMomentums := pil_EpochExpectedMomentums p |>)) t.

Definition UpdateSpawnInfo (owner : string) (spawnTimestamp slotCostQsr : Z) (t : table)
  : result table :=
  update_row owner (fun old => Ok (old <| pil_SpawnTimestamp := spawnTimestamp |>
                                       <| pil_SlotCostQsr := slotCostQsr |>)) t.

(** The minimal row [SetAsRevoked] inserts for a pillar it has never seen. *)
Definition revoked_row (owner name : string) (ts : Z) : Pillar :=
  mkPillar owner "" "" name 0 0 0 false 0 ts 0 0 0 0 0 (S754_zero false) 0 true.

Definition SetAsRevoked (owner name : string) (ts : Z) (t : table) : result table :=
  insert_update owner (revoked_row owner name ts)
    (fun old => Ok (old <| pil_RevokeTimestamp := ts |> <| pil_IsRevoked := true |>)) t.

Definition IncrementMomentumCount (owner : string) (t : table) : result table :=
  update_row owner
    (fun old => n ← bigint_add (pil_ProducedMomentumCount old) 1;
                Ok (old <| pil_ProducedMomentumCount := n |>)) t.

Definition UpdateVotingActivity (owner : string) (activity : spec_float) (t : table)
  : result table :=
  update_row owner (fun old => Ok (old <| pil_VotingActivity := activity |>)) t.

Definition GetByProducer (producer : string) (t : table) : result Pillar :=
  query_row (select_where (fun p => String.eqb (pil_ProducerAddress p) producer) t).

Definition GetSpawnTimestampByOwner (owner : string) (t : table) : result Z :=
  match t !! owner with Some p => Ok (pil_SpawnTimestamp p) | None => Err ENoRows end.

(** [EXISTS (... pillars ... UNION ... pillar_updates ...)]. *)
Definition IsWithdrawAddress (address : string) (t : table) (updates : list PillarUpdate)
  : bool :=
  existsb (fun p => String.eqb (pil_WithdrawAddress p) address) (map_to_list t).*2
  || existsb (fun u => String.eqb (pu_WithdrawAddress u) address) updates.
End PillarRepository.

(** ** pillar_updates (rows in id order) *)

Module PillarUpdateRepository.
Abbreviation table := (list PillarUpdate)%type (only parsing).

Definition Insert (u : PillarUpdate) (t : table) : result table := Ok (t ++ [u])%list.

(** [ORDER BY id DESC LIMIT 1]. *)
Definition GetInfoAtHeightByProducer (producer : string) (height : Z) (t : table)
  : result (string * string) :=
  u ← query_row (List.filter (fun u => String.eqb (pu_ProducerAddress u) producer
                                       && (pu_MomentumHeight u <=? height)%Z) (rev t));
  Ok (pu_OwnerAddress u, pu_Name u).
End PillarUpdateRepository.

(** ** delegations (rows in id order) *)

Module DelegationRepository.
Abbreviation table := (list Delegation)%type (only parsing).

Definition is_open (d : Delegation) : bool :=
  match del_EndedAt d with None => true | Some _ => false end.

Definition open_for (delegator : string) (d : Delegation) : bool :=
  String.eqb (del_DelegatorAddress d) delegator && is_open d.

Definition CloseActive (delegator : string) (endedAt : Z) (t : table) : result table :=
  Ok (map (fun d => if open_for delegator d then d <| del_EndedAt := Some endedAt |> else d) t).

Definition Open (delegator pillarOwner : string) (startedAt : Z) (t : table) : result table :=
  Ok (t ++ [mkDelegation delegator pillarOwner startedAt None])%list.

Definition CountActiveByPillar (pillarOwner : string) (t : table) : Z :=
  Z.of_nat (length (List.filter (fun d => String.eqb (del_PillarOwnerAddress d) pillarOwner
                                          && is_open d) t)).

Definition GetActivePillarFor (delegator : string) (t : table) : string :=
  match List.filter (open_for delegator) t with
  | [] => ""
  | d :: _ => del_PillarOwnerAddress d
  end.
End DelegationRepository.

(** ** sentinels (owner -> row) *)

Module SentinelRepository.
Abbreviation table := (gmap string Sentinel)%type (only parsing).

(** On conflict neither the registration timestamp nor [active] is refreshed. *)
Definition Upsert (s : Sentinel) (t : table) : result table :=
  insert_update (sen_Owner s) s
    (fun old => Ok (old <| sen_IsRevocable := sen_IsRevocable s |>
                        <| sen_RevokeCooldown := sen_RevokeCooldown s |>)) t.

Definition SetInactive (owner : string) (t : table) : result table :=
  update_row owner (fun old => Ok (old <| sen_Active := false |>)) t.
End SentinelRepository.

(** ** stakes (id -> row) *)

Module StakeRepository.
Abbreviation table := (gmap string Stake)%type (only parsing).

Definition Insert (s : Stake) (t : table) : result table :=
  _ ← check_range (in_int32 (stk_DurationInSec s));
  Ok (insert_nothing (stk_ID s) s t).

Definition matches (cancelID address : string) (s : Stake) : bool :=
  String.eqb (stk_CancelID s) cancelID && String.eqb (stk_Address s) address.

Definition SetInactive (cancelID address : string) (t : table) : result table :=
  Ok (update_where (matches cancelID address) (fun s => s <| stk_IsActive := false |>) t).
End StakeRepository.

(** ** fusions (id -> row) *)

Module FusionRepository.
Abbreviation table := (gmap string Fusion)%type (only parsing).

Definition Insert (f : Fusion) (t : table) : result table :=
  Ok (insert_nothing (fus_ID f) f t).

Definition matches (cancelID address : string) (f : Fusion) : bool :=
  String.eqb (fus_CancelID f) cancelID && String.eqb (fus_Address f) address.

Definition SetInactive (cancelID address : string) (t : table) : result table :=
  Ok (update_where (matches cancelID address) (fun f => f <| fus_IsActive := false |>) t).
End FusionRepository.

(** ** htlcs (id -> row) *)

Module HtlcRepository.
Abbreviation table := (gmap string Htlc)%type (only parsing).

Definition Insert (h : Htlc) (t : table) : result table :=
  Ok (insert_nothing (htlc_ID h) h t).

Definition Settle (id : string) (status : Z) (preimage : string) (height ts : Z) (t : table)
  : result table :=
  update_row id (fun old => Ok (old <| htlc_Status := status |>
                                    <| htlc_Preimage := preimage |>
                                    <| htlc_SettleMomentumHeight := height |>
                                    <| htlc_SettleMomentumTimestamp := ts |>)) t.

Definition GetByID (id : string) (t : table) : result Htlc :=
  match t !! id with Some h => Ok h | None => Err ENoRows end.
End HtlcRepository.

(** ** swap_retrievals (id -> row) and swap_assets (key_id_hash -> row) *)

Module SwapRepository.
Abbreviation retrievals := (gmap string SwapRetrieval)%type (only parsing).
Abbreviation assets := (gmap string SwapAsset)%type (only parsing).

Definition InsertRetrieval (s : SwapRetrieval) (t : retrievals) : result retrievals :=
  Ok (insert_nothing (sr_ID s) s t).

Definition UpsertAsset (a : SwapAsset) (t : assets) : result assets :=
  insert_update (sa_KeyIDHash a) a
    (fun old => Ok (old <| sa_Znn := sa_Znn a |> <| sa_Qsr := sa_Qsr a |>
                        <| sa_LastUpdatedTimestamp := sa_LastUpdatedTimestamp a |>)) t.

Definition GetAsset (keyIDHash : string) (t : assets) : result SwapAsset :=
  match t !! keyIDHash with Some a => Ok a | None => Err ENoRows end.
End SwapRepository.

(** ** projects and project_phases (id -> row) *)

Module ProjectRepository.
Abbreviation table := (gmap string Project)%type (only parsing).

Definition Upsert (p : Project) (t : table) : result table :=
  insert_update (prj_ID p) p
    (fun old => Ok (old <| prj_LastUpdateTimestamp := prj_LastUpdateTimestamp p |>
                        <| prj_Status := prj_Status p |>
                        <| prj_YesVotes := prj_YesVotes p |>
                        <| prj_NoVotes := prj_NoVotes p |>
                        <| prj_TotalVotes := prj_TotalVotes p |>)) t.

Definition GetIDsCreatedAtOrAfter (ts : Z) (t : table) : list string :=
  map prj_ID (select_where (fun p => (ts <=? prj_CreationTimestamp p)%Z) t).

Definition GetIDFromVotingID (votingID : string) (t : table) : result string :=
  p ← query_row (select_where (fun p => String.eqb (prj_VotingID p) votingID) t);
  Ok (prj_ID p).
End ProjectRepository.

Module ProjectPhaseRepository.
Abbreviation table := (gmap string ProjectPhase)%type (only parsing).

Definition Upsert (p : ProjectPhase) (t : table) : result table :=
  insert_update (ph_ID p) p
    (fun old => Ok (old <| ph_AcceptedTimestamp := ph_AcceptedTimestamp p |>
                        <| ph_Status := ph_Status p |>
                        <| ph_YesVotes := ph_YesVotes p |>
                        <| ph_NoVotes := ph_NoVotes p |>
                        <| ph_TotalVotes := ph_TotalVotes p |>)) t.

Definition GetIDsCreatedAtOrAfter (ts : Z) (t : table) : list string :=
  map ph_ID (select_where (fun p => (ts <=? ph_CreationTimestamp p)%Z) t).

Definition GetProjectAndPhaseIDFromVotingID (votingID : string) (t : table)
  : result (string * string) :=
  p ← query_row (select_where (fun p => String.eqb (ph_VotingID p) votingID) t);
  Ok (ph_ProjectID p, ph_ID p).
End ProjectPhaseRepository.

(** ** votes, unique on (voter_address, voting_id) since migrations/006. The serial [id] of a
    row is not modelled: the table keeps the 0 of the struct. *)

Module VoteRepository.
Abbreviation table := (gmap (string * string) Vote)%type (only parsing).

Definition Insert (v : Vote) (t : table) : result table :=
  insert_update (vote_VoterAddress v, vote_VotingID v) v
    (fun old => Ok (old <| vote_MomentumHash := vote_MomentumHash v |>
                        <| vote_MomentumTimestamp := vote_MomentumTimestamp v |>
                        <| vote_MomentumHeight := vote_MomentumHeight v |>
                        <| vote_Vote := vote_Vote v |>)) t.

(** [COUNT(DISTINCT col)] of the matching rows. *)
Definition count_distinct (col : Vote -> string) (cond : Vote -> bool) (t : table) : Z :=
  Z.of_nat (size (list_to_set (map col (select_where cond t)) : gset string)).

Definition GetVoteCountForProjects (voter : string) (projectIDs : list string) (t : table)
  : Z :=
  count_distinct vote_ProjectID
    (fun v => String.eqb (vote_VoterAddress v) voter
              && existsb (String.eqb (vote_ProjectID v)) projectIDs
              && str_empty (vote_PhaseID v)) t.

Definition GetVoteCountForPhases (voter : string) (phaseIDs : list string) (t : table) : Z :=
  count_distinct vote_PhaseID
    (fun v => String.eqb (vote_VoterAddress v) voter
              && existsb (String.eqb (vote_PhaseID v)) phaseIDs) t.
End VoteRepository.

(** ** reward_transactions (hash -> row) and cumulative_rewards, unique on
    (address, reward_type, token_standard) *)

Module RewardRepository.
Abbreviation transactions := (gmap string RewardTransaction)%type (only parsing).
Abbreviation key := (string * Z * string)%type (only parsing).
(** The amount of each row; its other columns are the key and a serial id. *)
Abbreviation cumulative := (gmap key Z)%type (only parsing).

Definition UpdateCumulativeRewards (address : string) (rewardType : RewardType) (amount : Z)
    (tokenStandard : string) (t : cumulative) : result cumulative :=
  insert_update (address, RewardType_int rewardType, tokenStandard) amount
    (fun old => bigint_add old amount) t.

Definition InsertRewardTransaction (rt : RewardTransaction) (t : transactions)
  : result transactions :=
  Ok (insert_nothing (rt_Hash rt) rt t).
End RewardRepository.
