(* ===== verification/RepoBridge.v ===== *)
(** The bridge tables, the daily statistics tables and the sync-status row: the
    repositories of bridge.go, bridge_config.go, stat_history.go and sync_status.go.
    Singleton tables (row_id = 1) are options. *)

From S2P Require Import Prelude.
From S2P Require Import Models.
From S2P Require Import RepoContracts.
#[local] Open Scope string_scope.

(** ** wrap_token_requests (id -> row), unwrap_token_requests ((hash, log index) -> row) *)

Module BridgeRepository.
Abbreviation wraps := (gmap string WrapTokenRequest)%type (only parsing).
Abbreviation unwraps := (gmap (string * Z) UnwrapTokenRequest)%type (only parsing).

Definition UpsertWrapRequest (w : WrapTokenRequest) (t : wraps) : result wraps :=
  _ ← check_range (in_int32 (wrap_NetworkClass w) && in_int32 (wrap_ChainID w)
                   && in_int32 (wrap_ConfirmationsToFinality w));
  insert_update (wrap_ID w) w
    (fun old => Ok (old <| wrap_Signature := wrap_Signature w |>
                        <| wrap_ConfirmationsToFinality := wrap_ConfirmationsToFinality w |>))
    t.

Definition UpsertUnwrapRequest (u : UnwrapTokenRequest) (t : unwraps) : result unwraps :=
  _ ← check_range (in_int32 (unw_NetworkClass u) && in_int32 (unw_ChainID u));
  insert_update (unw_TransactionHash u, unw_LogIndex u) u
    (fun old => Ok (old <| unw_Signature := unw_Signature u |>
                        <| unw_Redeemed := unw_Redeemed u |>
                        <| unw_Revoked := unw_Revoked u |>
                        <| unw_RedeemableIn := unw_RedeemableIn u |>)) t.

(** [IsWrapRequestFinalized]: (exists, finalized). *)
Definition IsWrapRequestFinalized (id : string) (t : wraps) : bool * bool :=
  match t !! id with
  | None => (false, false)
  | Some w => (true, (wrap_ConfirmationsToFinality w =? 0)%Z)
  end.

Definition IsUnwrapRequestFinalized (txHash : string) (logIndex : Z) (t : unwraps)
  : bool * bool :=
  match t !! (txHash, logIndex) with
  | None => (false, false)
  | Some u => (true, unw_Redeemed u || unw_Revoked u)
  end.

(** [SELECT col ... ORDER BY col ASC LIMIT 1] and [... DESC LIMIT 1]: the least and the
    greatest value, [None] where the query answers no row. *)
Definition min_of (l : list Z) : option Z :=
  match l with [] => None | x :: l' => Some (fold_right Z.min x l') end.
Definition max_of (l : list Z) : option Z :=
  match l with [] => None | x :: l' => Some (fold_right Z.max x l') end.

Definition GetWrapSyncStopHeight (t : wraps) : Z :=
  match min_of (map wrap_CreationMomentumHeight
                 (select_where (fun w => (0 <? wrap_ConfirmationsToFinality w)%Z) t)) with
  | Some h => h
  | None =>
      match max_of (map wrap_CreationMomentumHeight (select_where (fun _ => true) t)) with
      | Some h => h
      | None => 0
      end
  end.

Definition GetUnwrapSyncStopHeight (t : unwraps) : Z :=
  match min_of (map unw_RegistrationMomentumHeight
                 (select_where (fun u => negb (unw_Redeemed u) && negb (unw_Revoked u)) t)) with
  | Some h => h
  | None =>
      match max_of (map unw_RegistrationMomentumHeight (select_where (fun _ => true) t)) with
      | Some h => h
      | None => 0
      end
  end.

Lemma min_of_spec l h :
  min_of l = Some h -> h ∈ l /\ forall x, x ∈ l -> (h <= x)%Z.
Proof.
  destruct l as [|a l]; [done|]. intros [= <-].
  induction l as [|b l [IHin IHle]]; simpl.
  - split; [by left|]. intros x ->%list_elem_of_singleton. lia.
  - split.
    + destruct (Z.min_spec b (fold_right Z.min a l)) as [[_ ->]|[_ ->]]; [set_solver|].
      set_solver.
    + intros x Hx.
      assert (x = b \/ x ∈ a :: l) as [->|Hx'] by set_solver; [lia|].
      specialize (IHle _ Hx'). lia.
Qed.

Lemma max_of_spec l h :
  max_of l = Some h -> h ∈ l /\ forall x, x ∈ l -> (x <= h)%Z.
Proof.
  destruct l as [|a l]; [done|]. intros [= <-].
  induction l as [|b l [IHin IHle]]; simpl.
  - split; [by left|]. intros x ->%list_elem_of_singleton. lia.
  - split.
    + destruct (Z.max_spec b (fold_right Z.max a l)) as [[_ ->]|[_ ->]]; set_solver.
    + intros x Hx.
      assert (x = b \/ x ∈ a :: l) as [->|Hx'] by set_solver; [lia|].
      specialize (IHle _ Hx'). lia.
Qed.

Lemma min_of_None l : min_of l = None <-> l = [].
Proof. by destruct l. Qed.
End BridgeRepository.

(** ** Bridge configuration *)

Module BridgeConfigRepository.
Abbreviation networks := (gmap (Z * Z) BridgeNetwork)%type (only parsing).
Abbreviation network_tokens := (gmap (Z * Z * string) BridgeNetworkToken)%type (only parsing).
Abbreviation guardians := (gmap string BridgeGuardian)%type (only parsing).
Abbreviation time_challenges := (gmap string BridgeTimeChallenge)%type (only parsing).

Definition UpsertNetwork (n : BridgeNetwork) (t : networks) : result networks :=
  _ ← check_range (in_int32 (net_NetworkClass n) && in_int32 (net_ChainID n));
  insert_update (net_NetworkClass n, net_ChainID n) n
    (fun old => Ok (old <| net_Name := net_Name n |>
                        <| net_ContractAddress := net_ContractAddress n |>
                        <| net_Metadata := net_Metadata n |>
                        <| net_LastUpdatedTimestamp := net_LastUpdatedTimestamp n |>)) t.

Definition UpsertNetworkToken (x : BridgeNetworkToken) (t : network_tokens)
  : result network_tokens :=
  _ ← check_range (in_int32 (nt_NetworkClass x) && in_int32 (nt_ChainID x)
                   && in_int32 (nt_FeePercentage x) && in_int32 (nt_RedeemDelay x));
  insert_update (nt_NetworkClass x, nt_ChainID x, nt_TokenStandard x) x
    (fun old => Ok (old <| nt_TokenAddress := nt_TokenAddress x |>
                        <| nt_Bridgeable := nt_Bridgeable x |>
                        <| nt_Redeemable := nt_Redeemable x |>
                        <| nt_Owned := nt_Owned x |>
                        <| nt_MinAmount := nt_MinAmount x |>
                        <| nt_FeePercentage := nt_FeePercentage x |>
                        <| nt_RedeemDelay := nt_RedeemDelay x |>
                        <| nt_Metadata := nt_Metadata x |>)) t.

(** The singleton upserts overwrite every column. *)
Definition UpsertAdmin (a : BridgeAdmin) (_ : option BridgeAdmin)
  : result (option BridgeAdmin) := Ok (Some a).

Definition GetAdmin (t : option BridgeAdmin) : option BridgeAdmin := t.

Definition UpsertGuardian (g : BridgeGuardian) (t : guardians) : result guardians :=
  insert_update (gua_Address g) g
    (fun old => Ok (old <| gua_Nominated := gua_Nominated g |>
                        <| gua_Accepted := gua_Accepted g |>
                        <| gua_LastUpdatedTimestamp := gua_LastUpdatedTimestamp g |>)) t.

Definition MarkGuardiansAbsent (since : Z) (t : guardians) : result guardians :=
  Ok (update_where (fun g => (gua_LastUpdatedTimestamp g <? since)%Z)
        (fun g => g <| gua_Nominated := false |> <| gua_Accepted := false |>) t).

Definition UpsertOrchestratorInfo (o : BridgeOrchestratorInfo)
    (_ : option BridgeOrchestratorInfo) : result (option BridgeOrchestratorInfo) :=
  _ ← check_range (in_int32 (orc_KeyGenThreshold o)
                   && in_int32 (orc_ConfirmationsToFinality o)
                   && in_int32 (orc_EstimatedMomentumTime o));
  Ok (Some o).

Definition UpsertSecurityInfo (s : BridgeSecurityInfo) (_ : option BridgeSecurityInfo)
  : result (option BridgeSecurityInfo) := Ok (Some s).

Definition UpsertTimeChallenge (c : BridgeTimeChallenge) (t : time_challenges)
  : result time_challenges :=
  insert_update (tc_MethodName c) c
    (fun old => Ok (old <| tc_ParamsHash := tc_ParamsHash c |>
                        <| tc_ChallengeStartHeight := tc_ChallengeStartHeight c |>
                        <| tc_Delay := tc_Delay c |>
                        <| tc_EndHeight := tc_EndHeight c |>
                        <| tc_LastUpdatedTimestamp := tc_LastUpdatedTimestamp c |>)) t.

(** The empty keep set is the unconditional [DELETE]. *)
Definition DeleteTimeChallengesNotIn (keep : list string) (t : time_challenges)
  : result time_challenges :=
  match keep with
  | [] => Ok ∅
  | _ => Ok (filter (fun '(k, _) => k ∈ keep) t)
  end.
End BridgeConfigRepository.

(** ** Daily statistics, keyed by date and subject *)

Module StatHistoryRepository.
Abbreviation network_stats := (gmap string NetworkStatHistory)%type (only parsing).
Abbreviation token_stats := (gmap (string * string) TokenStatHistory)%type (only parsing).
Abbreviation pillar_stats := (gmap (string * string) PillarStatHistory)%type (only parsing).
Abbreviation bridge_stats := (gmap (string * Z * Z * string) BridgeStatHistory)%type (only parsing).

(** Every non-key column is overwritten on conflict. *)
Definition UpsertNetworkStat (s : NetworkStatHistory) (t : network_stats)
  : result network_stats := Ok (<[ns_Date s := s]> t).

Definition UpsertTokenStat (s : TokenStatHistory) (t : token_stats) : result token_stats :=
  Ok (<[(ts_Date s, ts_TokenStandard s) := s]> t).

Definition UpsertPillarStat (s : PillarStatHistory) (t : pillar_stats)
  : result pillar_stats :=
  _ ← check_range (in_int32 (ps_Rank s));
  Ok (<[(ps_Date s, ps_PillarOwnerAddress s) := s]> t).

Definition UpsertBridgeStat (s : BridgeStatHistory) (t : bridge_stats)
  : result bridge_stats :=
  _ ← check_range (in_int32 (bs_NetworkClass s) && in_int32 (bs_ChainID s));
  Ok (<[(bs_Date s, bs_NetworkClass s, bs_ChainID s, bs_TokenStandard s) := s]> t).
End StatHistoryRepository.

(** ** indexer_sync_status (singleton) *)

Module SyncStatusRepository.
Definition Upsert (s : SyncStatus) (_ : option SyncStatus) : result (option SyncStatus) :=
  _ ← check_range (in_int32 (ss_ConsecutiveBadChecks s));
  Ok (Some s).

Definition Get (t : option SyncStatus) : result SyncStatus :=
  match t with
  | Some s => Ok s
  | None => Err (EWrap "SyncStatusRepository.Get" ENoRows)
  end.
End SyncStatusRepository.
