(* ===== verification/Database.v ===== *)
(** The database as the indexer sees it: every table of migrations/ the Go code writes, the
    statements a [pgx.Batch] can hold, and their execution inside one transaction. *)

From S2P Require Import Prelude.
From S2P Require Import Models.
From S2P Require Import RepoLedger.
From S2P Require Import RepoContracts.
From S2P Require Import RepoBridge.
#[local] Open Scope string_scope.
#[local] Open Scope Z_scope.

(** ** Tables *)

Record Db : Type := mkDb {
  db_momentums : MomentumRepository.table;
  db_accounts : AccountRepository.table;
  db_account_blocks : AccountBlockRepository.table;
  db_balances : BalanceRepository.table;
  db_tokens : TokenRepository.table;
  db_token_mints : TokenEventRepository.mints;
  db_token_burns : TokenEventRepository.burns;
  db_pillars : PillarRepository.table;
  db_pillar_updates : PillarUpdateRepository.table;
  db_sentinels : SentinelRepository.table;
  db_stakes : StakeRepository.table;
  db_htlcs : HtlcRepository.table;
  db_swap_retrievals : SwapRepository.retrievals;
  db_swap_assets : SwapRepository.assets;
  db_fusions : FusionRepository.table;
  db_projects : ProjectRepository.table;
  db_project_phases : ProjectPhaseRepository.table;
  db_votes : VoteRepository.table;
  db_reward_transactions : RewardRepository.transactions;
  db_cumulative_rewards : RewardRepository.cumulative;
  db_wraps : BridgeRepository.wraps;
  db_unwraps : BridgeRepository.unwraps;
  db_bridge_networks : BridgeConfigRepository.networks;
  db_bridge_network_tokens : BridgeConfigRepository.network_tokens;
  db_bridge_admin : option BridgeAdmin;
  db_bridge_guardians : BridgeConfigRepository.guardians;
  db_bridge_orchestrator : option BridgeOrchestratorInfo;
  db_bridge_security : option BridgeSecurityInfo;
  db_time_challenges : BridgeConfigRepository.time_challenges;
  db_delegations : DelegationRepository.table;
  db_network_stats : StatHistoryRepository.network_stats;
  db_token_stats : StatHistoryRepository.token_stats;
  db_pillar_stats : StatHistoryRepository.pillar_stats;
  db_bridge_stats : StatHistoryRepository.bridge_stats;
  db_sync_status : option SyncStatus
}.

#[export] Instance Db_eta : Eta Db := fun r =>
  mkDb (db_momentums r) (db_accounts r) (db_account_blocks r) (db_balances r) (db_tokens r)
    (db_token_mints r) (db_token_burns r) (db_pillars r) (db_pillar_updates r)
    (db_sentinels r) (db_stakes r) (db_htlcs r) (db_swap_retrievals r) (db_swap_assets r)
    (db_fusions r) (db_projects r) (db_project_phases r) (db_votes r)
    (db_reward_transactions r) (db_cumulative_rewards r) (db_wraps r) (db_unwraps r)
    (db_bridge_networks r) (db_bridge_network_tokens r) (db_bridge_admin r)
    (db_bridge_guardians r) (db_bridge_orchestrator r) (db_bridge_security r)
    (db_time_challenges r) (db_delegations r) (db_network_stats r) (db_token_stats r)
    (db_pillar_stats r) (db_bridge_stats r) (db_sync_status r).

Definition empty_db : Db :=
  mkDb ∅ ∅ ∅ ∅ ∅ ∅ ∅ ∅ [] ∅ ∅ ∅ ∅ ∅ ∅ ∅ ∅ ∅ ∅ ∅ ∅ ∅ ∅ ∅ None ∅ None None ∅ [] ∅ ∅ ∅ ∅ None.

(** A statement that reads and writes one table. *)
Definition on_table {T} (f : Db -> T) {S : Setter f} (op : T -> result T) (db : Db)
  : result Db :=
  t ← op (f db); Ok (update_field f (fun _ => t) db).

(** ** Queued statements *)

(** One constructor per statement the [...Batch] methods and the notify helpers queue. *)
Inductive stmt : Type :=
| SMomentumInsert (m : Momentum)
| SAccountUpsert (a : Account)
| SAccountAddSend (address tokenStandard : string) (amount ts : Z)
| SAccountAddReceive (address tokenStandard : string) (amount ts : Z)
| SAccountSetGenesis (address tokenStandard : string) (balance : Z)
| SAccountBumpTxCount (address : string) (ts : Z)
| SAccountUpdateDelegate (address delegate : string) (ts : Z)
| SBlockInsert (ab : AccountBlock) (txData : option TxData)
| SBlockUpdatePaired (hash pairedHash : string)
| SBlockUpdateDescendantOf (hash parentHash : string)
| SBalanceUpsert (b : Balance)
| STokenUpsert (t : Token)
| STokenIncrementTxCount (tokenStandard : string)
| STokenUpdateBurn (tokenStandard : string) (amount : Z)
| STokenUpdateTimestamp (tokenStandard : string) (ts : Z)
| STokenMint (m : TokenMint)
| STokenBurn (b : TokenBurn)
| SPillarIncrementMomentums (owner : string)
| SPillarUpdateSpawn (owner : string) (ts slotCost : Z)
| SPillarSetRevoked (owner name : string) (ts : Z)
| SPillarUpdateInsert (u : PillarUpdate)
| SDelegationClose (delegator : string) (ts : Z)
| SDelegationOpen (delegator pillarOwner : string) (ts : Z)
| SSentinelSetInactive (owner : string)
| SStakeInsert (s : Stake)
| SStakeSetInactive (cancelID address : string)
| SFusionInsert (f : Fusion)
| SFusionSetInactive (cancelID address : string)
| SVoteInsert (v : Vote)
| SHtlcInsert (h : Htlc)
| SHtlcSettle (id : string) (status : Z) (preimage : string) (height ts : Z)
| SSwapRetrieval (s : SwapRetrieval)
| SRewardTransaction (rt : RewardTransaction)
| SRewardCumulative (address : string) (rtype : RewardType) (amount : Z)
    (tokenStandard : string)
| SNotify (channel payload : string).

(** A [pgx.Batch]: the queued statements, in order. The indexer only ever appends, so its
    handlers return the statements they append. *)
Definition batch : Type := list stmt.

Definition exec_row (s : stmt) : Db -> result Db :=
  match s with
  | SMomentumInsert m => on_table db_momentums (MomentumRepository.Insert m)
  | SAccountUpsert a => on_table db_accounts (AccountRepository.Upsert a)
  | SAccountAddSend a t v ts => on_table db_accounts (AccountRepository.AddSend a t v ts)
  | SAccountAddReceive a t v ts => on_table db_accounts (AccountRepository.AddReceive a t v ts)
  | SAccountSetGenesis a t v => on_table db_accounts (AccountRepository.SetGenesisBalance a t v)
  | SAccountBumpTxCount a ts => on_table db_accounts (AccountRepository.BumpTxCount a ts)
  | SAccountUpdateDelegate a d ts =>
      on_table db_accounts (AccountRepository.UpdateDelegate a d ts)
  | SBlockInsert ab d => on_table db_account_blocks (AccountBlockRepository.Insert ab d)
  | SBlockUpdatePaired h p =>
      on_table db_account_blocks (AccountBlockRepository.UpdatePairedBlock h p)
  | SBlockUpdateDescendantOf h p =>
      on_table db_account_blocks (AccountBlockRepository.UpdateDescendantOf h p)
  | SBalanceUpsert b => on_table db_balances (BalanceRepository.Upsert b)
  | STokenUpsert t => on_table db_tokens (TokenRepository.Upsert t)
  | STokenIncrementTxCount t =>
      on_table db_tokens (TokenRepository.IncrementTransactionCount t)
  | STokenUpdateBurn t v => on_table db_tokens (TokenRepository.UpdateBurnAmount t v)
  | STokenUpdateTimestamp t ts =>
      on_table db_tokens (TokenRepository.UpdateLastUpdateTimestamp t ts)
  | STokenMint m => on_table db_token_mints (TokenEventRepository.InsertMint m)
  | STokenBurn b => on_table db_token_burns (TokenEventRepository.InsertBurn b)
  | SPillarIncrementMomentums o =>
      on_table db_pillars (PillarRepository.IncrementMomentumCount o)
  | SPillarUpdateSpawn o ts c => on_table db_pillars (PillarRepository.UpdateSpawnInfo o ts c)
  | SPillarSetRevoked o n ts => on_table db_pillars (PillarRepository.SetAsRevoked o n ts)
  | SPillarUpdateInsert u => on_table db_pillar_updates (PillarUpdateRepository.Insert u)
  | SDelegationClose d ts => on_table db_delegations (DelegationRepository.CloseActive d ts)
  | SDelegationOpen d p ts => on_table db_delegations (DelegationRepository.Open d p ts)
  | SSentinelSetInactive o => on_table db_sentinels (SentinelRepository.SetInactive o)
  | SStakeInsert s => on_table db_stakes (StakeRepository.Insert s)
  | SStakeSetInactive c a => on_table db_stakes (StakeRepository.SetInactive c a)
  | SFusionInsert f => on_table db_fusions (FusionRepository.Insert f)
  | SFusionSetInactive c a => on_table db_fusions (FusionRepository.SetInactive c a)
  | SVoteInsert v => on_table db_votes (VoteRepository.Insert v)
  | SHtlcInsert h => on_table db_htlcs (HtlcRepository.Insert h)
  | SHtlcSettle i s p h ts => on_table db_htlcs (HtlcRepository.Settle i s p h ts)
  | SSwapRetrieval s => on_table db_swap_retrievals (SwapRepository.InsertRetrieval s)
  | SRewardTransaction rt =>
      on_table db_reward_transactions (RewardRepository.InsertRewardTransaction rt)
  | SRewardCumulative a r v t =>
      on_table db_cumulative_rewards (RewardRepository.UpdateCumulativeRewards a r v t)
  | SNotify _ _ => Ok
  end.

(** ** Transactions *)

(** What a transaction has done so far: its view of the tables, and the notifications it
    will deliver if it commits. *)
Record TxState : Type := mkTxState {
  tx_db : Db;
  tx_notes : list (string * string)
}.

(** PostgreSQL's documented limit on a NOTIFY payload, and its folding of identical
    notifications of one transaction. *)
Definition notify_limit : Z := 8000.

Definition exec_stmt (s : stmt) (st : TxState) : result TxState :=
  match s with
  | SNotify ch payload =>
      if Z.of_nat (String.length payload) <? notify_limit then
        Ok (mkTxState (tx_db st)
              (if decide ((ch, payload) ∈ tx_notes st) then tx_notes st
               else tx_notes st ++ [(ch, payload)])%list)
      else Err (EMsg "payload string too long")
  | _ => db ← exec_row s (tx_db st); Ok (mkTxState db (tx_notes st))
  end.

(** Failures of the pool and the connection that do not depend on the statement's effect:
    any call may answer one. A commit that answers an error is one that did not happen: a
    connection lost after the server has committed is not distinguished from it. *)
Record PoolFaults : Type := mkPoolFaults {
  pf_begin : option error;
  pf_exec : nat -> option error;
  pf_close : option error;
  pf_commit : option error
}.

Definition no_faults : PoolFaults := mkPoolFaults None (fun _ => None) None None.

(** [tx.SendBatch] and the loop over [results.Exec()]: statements run in order, and the
    error reported is the first one, with its index; the statements after it are not
    executed, as the transaction is aborted. *)
Fixpoint exec_from (faults : nat -> option error) (j : nat) (b : batch) (st : TxState)
  : result TxState :=
  match b with
  | [] => Ok st
  | s :: b' =>
      let ctx := "batch op " +:+ format_int (Z.of_nat j) in
      match faults j with
      | Some e => Err (EWrap ctx e)
      | None => st' ← wrap_err ctx (exec_stmt s st); exec_from faults (S j) b' st'
      end
  end.

Definition exec_batch (b : batch) (db : Db) : result TxState :=
  exec_from (fun _ => None) 0 b (mkTxState db []).

(** The pool as seen while one momentum is processed: the committed tables, and the error a
    named read may answer instead of a row. *)
Record Pool : Type := mkPool {
  pl_db : Db;
  pl_query_err : string -> option error;
  pl_faults : PoolFaults
}.

Definition query {A} (p : Pool) (name : string) (answer : Db -> result A) : result A :=
  match pl_query_err p name with
  | Some e => Err e
  | None => answer (pl_db p)
  end.

(** ** Statements outside a transaction

    What one call of a background loop meets: what the other sessions have committed since
    the loop's previous call, as a function of the tables, and whether the call fails. *)
Record Call : Type := mkCall {
  cl_others : Db -> Db;
  cl_err : option error
}.

Definition alone (err : option error) : Call := mkCall (fun db => db) err.

(** No other session writes while the calls are made. *)
Definition undisturbed (calls : nat -> Call) : Prop :=
  forall i db, cl_others (calls i) db = db.

(** A statement that is its own transaction: whether it succeeded, and the tables. A failure
    leaves them to the other sessions. *)
Definition exec_call (c : Call) (op : Db -> result Db) (db : Db) : bool * Db :=
  let db1 := cl_others c db in
  match cl_err c with
  | Some _ => (false, db1)
  | None => match op db1 with Ok d => (true, d) | Err _ => (false, db1) end
  end.
