(* ===== verification/Decoder.v ===== *)
(** Transaction decoding (internal/indexer/decoder.go) and the derived identifiers of
    indexer.go: [getVotingID], [getFusionCancelID] and [getStakeCancelID]. *)

From S2P Require Import Prelude.
From S2P Require Import Models.
From S2P Require Import Chain.
#[local] Open Scope string_scope.

(** [formatArg]. *)
Definition formatArg (arg : AbiArg) : string :=
  match arg with
  | ArgBytes b => b
  | ArgString s => s
  | ArgHash r => r
  | ArgOther r => r
  end.

(** The first [n] bytes, [None] when there are fewer. *)
Fixpoint take_bytes (n : nat) (s : string) : option string :=
  match n, s with
  | O, _ => Some ""
  | S n', String c s' => String c <$> take_bytes n' s'
  | S _, EmptyString => None
  end.

#[global] Arguments take_bytes : simpl never.

(** [txData.Inputs[param.Name] = formatArg(args[idx])] for every parameter that has an
    argument, in order: a repeated name keeps its last value. *)
Definition collect_inputs (params : list string) (args : list AbiArg) : gmap string string :=
  fold_left (fun m '(p, a) => <[p := formatArg a]> m) (zip params args) ∅.

(** The loop over [contractAbi.Entries]. *)
Fixpoint find_entry (methodSig : string) (entries : list AbiEntry) : option AbiEntry :=
  match entries with
  | [] => None
  | e :: rest =>
      if negb (ae_IsFunction e) then find_entry methodSig rest
      else match take_bytes 4 (ae_Signature e) with
           | None => find_entry methodSig rest
           | Some sig => if String.eqb methodSig sig then Some e else find_entry methodSig rest
           end
  end.

Definition tryDecodeFromAbi (data : string) (contractAbi : option Abi) : option TxData :=
  match contractAbi, take_bytes 4 data with
  | Some abi, Some methodSig =>
      match find_entry methodSig (abi_Entries abi) with
      | None => None
      | Some e =>
          let bare := NewTxData <| tx_Method := ae_Name e |> in
          if negb (bool_decide (ae_Inputs e = [])) && Nat.ltb 4 (String.length data) then
            match abi_DecodeFunction abi data with
            | Err _ => Some bare
            | Ok args => Some (bare <| tx_Inputs := collect_inputs (ae_Inputs e) args |>)
            end
          else Some bare
      end
  | _, _ => None
  end.

(** The contract-specific ABI of [tryDecodeTxData]'s switch; spork has none. *)
Definition contract_abi (sdk : Sdk) (toAddress : string) : option Abi :=
  if String.eqb toAddress PlasmaAddress then Some (sdk_Plasma sdk)
  else if String.eqb toAddress PillarAddress then Some (sdk_Pillar sdk)
  else if String.eqb toAddress TokenAddress then Some (sdk_Token sdk)
  else if String.eqb toAddress SentinelAddress then Some (sdk_Sentinel sdk)
  else if String.eqb toAddress StakeAddress then Some (sdk_Stake sdk)
  else if String.eqb toAddress AcceleratorAddress then Some (sdk_Accelerator sdk)
  else if String.eqb toAddress SwapAddress then Some (sdk_Swap sdk)
  else if String.eqb toAddress LiquidityAddress then Some (sdk_Liquidity sdk)
  else if String.eqb toAddress BridgeAddress then Some (sdk_Bridge sdk)
  else if String.eqb toAddress HtlcAddress then Some (sdk_Htlc sdk)
  else None.

(** A decoding with an empty method name counts as none. *)
Definition named (d : option TxData) : option TxData :=
  match d with
  | Some t => if str_empty (tx_Method t) then None else Some t
  | None => None
  end.

Definition tryDecodeTxData (sdk : Sdk) (block : NomBlock) : option TxData :=
  if str_empty (nb_Data block) then None
  else if negb (IsEmbeddedContract (nb_ToAddress block)) then None
  else match named (tryDecodeFromAbi (nb_Data block) (Some (sdk_Common sdk))) with
       | Some t => Some t
       | None => named (tryDecodeFromAbi (nb_Data block) (contract_abi sdk (nb_ToAddress block)))
       end.

(** ** Identifiers computed by an encode/decode round trip

    The three functions differ in the ABI, the method and the extra arguments; every
    failure falls back to the id itself. *)

Definition reencoded_id (sdk : Sdk) (abi : Abi) (method : string) (extra : list AbiArg)
    (id : string) : string :=
  match sdk_HexToHash sdk id with
  | Err _ => id
  | Ok hash =>
      match abi_EncodeFunction abi method (ArgHash hash :: extra) with
      | Err _ => id
      | Ok encoded =>
          match abi_DecodeFunction abi encoded with
          | Ok (ArgHash h :: _) => h
          | _ => id
          end
      end
  end.

Definition getVotingID (sdk : Sdk) (id : string) : string :=
  reencoded_id sdk (sdk_Accelerator sdk) "VoteByName" [ArgString ""; ArgOther "0"] id.

Definition getFusionCancelID (sdk : Sdk) (id : string) : string :=
  reencoded_id sdk (sdk_Plasma sdk) "CancelFuse" [] id.

Definition getStakeCancelID (sdk : Sdk) (id : string) : string :=
  reencoded_id sdk (sdk_Stake sdk) "Cancel" [] id.

(** ** Facts *)

(** What the SDK documents of its codec: decoding an encoded call returns its arguments. *)
Definition abi_codec_ok (abi : Abi) (method : string) : Prop :=
  forall args data, abi_EncodeFunction abi method args = Ok data ->
    abi_DecodeFunction abi data = Ok args.

Lemma reencoded_id_spec sdk abi method extra id :
  abi_codec_ok abi method ->
  reencoded_id sdk abi method extra id
  = match sdk_HexToHash sdk id with
    | Ok h => if is_ok (abi_EncodeFunction abi method (ArgHash h :: extra)) then h else id
    | Err _ => id
    end.
Proof.
  intros Hc. unfold reencoded_id. destruct (sdk_HexToHash sdk id) as [h|]; [|done].
  destruct (abi_EncodeFunction abi method (ArgHash h :: extra)) as [data|] eqn:E; [|done].
  by rewrite (Hc _ _ E).
Qed.

Lemma find_entry_Some sig es e :
  find_entry sig es = Some e ->
  e ∈ es /\ ae_IsFunction e = true /\ take_bytes 4 (ae_Signature e) = Some sig.
Proof.
  induction es as [|x es IH]; simpl; [done|]. intros H.
  destruct (ae_IsFunction x) eqn:Ef; simpl in H.
  - destruct (take_bytes 4 (ae_Signature x)) as [s|] eqn:Es.
    + destruct (String.eqb sig s) eqn:Eq.
      * apply String.eqb_eq in Eq as ->. injection H as <-. split; [by left|done].
      * destruct (IH H) as (?&?&?). split; [by right|done].
    + destruct (IH H) as (?&?&?). split; [by right|done].
  - destruct (IH H) as (?&?&?). split; [by right|done].
Qed.

Lemma named_Some d t : named d = Some t -> d = Some t /\ tx_Method t <> "".
Proof.
  destruct d as [t'|]; simpl; [|done].
  destruct (tx_Method t') eqn:E; simpl; [done|]. intros [= ->]. split; congruence.
Qed.
