(* ===== verification/Webhooks.v ===== *)
(** internal/webhooks/dispatcher.go: the bounded event queue, its single worker, endpoint
    filtering and the bounded delivery loop. *)

From S2P Require Import Prelude.
From S2P Require Import Json.
#[local] Open Scope string_scope.

Record Event : Type := mkEvent {
  ev_Type : string;
  ev_Payload : gmap string jval
}.

Record Endpoint : Type := mkEndpoint {
  ep_URL : string;
  ep_Secret : string;
  ep_Events : list string
}.

(** [wants]: an empty list subscribes to everything. *)
Definition wants (ep : Endpoint) (eventType : string) : bool :=
  match ep_Events ep with
  | [] => true
  | evs => existsb (fun ev => String.eqb ev eventType) evs
  end.

(** ** Delivery

    The outside world: whether a URL makes a request at all, the keyed hash, and the answer
    to the k-th exchange, a status code or a transport error ([None]). *)

Record Http : Type := mkHttp {
  http_builds : string -> bool;
  http_hmac_sha256 : string -> string -> string;
  http_answer : nat -> option Z
}.

(** What one attempt sends. *)
Record Request : Type := mkRequest {
  rq_URL : string;
  rq_Body : string;
  rq_Signature : option string
}.

Definition ComputeSignature (http : Http) (secret body : string) : string :=
  hex_encode (http_hmac_sha256 http secret body).

(** [json.Marshal] of the event: its two fields in declaration order. *)
Definition event_body (e : Event) : string :=
  "{" +:+ json_member ("type", JStr (ev_Type e)) +:+ ","
  +:+ json_member ("payload", JRaw (json_marshal (ev_Payload e))) +:+ "}".

Definition request_for (http : Http) (ep : Endpoint) (body : string) : Request :=
  mkRequest (ep_URL ep) body
    (if str_empty (ep_Secret ep) then None else Some (ComputeSignature http (ep_Secret ep) body)).

(** What a delivery did: the requests sent, the sleeps between them, whether the last one
    was accepted, and the number of the next exchange. *)
Record Delivery : Type := mkDelivery {
  dl_requests : list Request;
  dl_sleeps : list Z;
  dl_ok : bool;
  dl_next : nat
}.

Definition accepted_status (answer : option Z) : bool :=
  match answer with Some code => ((200 <=? code) && (code <? 300))%Z | None => false end.

(** The attempt loop: [n] attempts are left, the next one is number [attempt]. Attempts
    after the first sleep [attempt * 200ms] (in milliseconds) before sending. *)
Fixpoint deliver_from (http : Http) (ep : Endpoint) (body : string) (n : nat) (attempt : Z)
    (k : nat) : Delivery :=
  match n with
  | O => mkDelivery [] [] false k
  | S n' =>
      let sleep := if (0 <? attempt)%Z then [(attempt * 200)%Z] else [] in
      if negb (http_builds http (ep_URL ep)) then mkDelivery [] sleep false k
      else
        let rq := request_for http ep body in
        if accepted_status (http_answer http k) then mkDelivery [rq] sleep true (S k)
        else
          let d := deliver_from http ep body n' (attempt + 1)%Z (S k) in
          mkDelivery (rq :: dl_requests d) (sleep ++ dl_sleeps d)%list (dl_ok d) (dl_next d)
  end.

Definition deliver (http : Http) (maxRetries : Z) (ep : Endpoint) (body : string) (k : nat)
  : Delivery :=
  deliver_from http ep body (Z.to_nat (maxRetries + 1)) 0 k.

(** [dispatch]: the endpoints that want the event, in order. *)
Fixpoint dispatch (http : Http) (maxRetries : Z) (endpoints : list Endpoint) (e : Event)
    (k : nat) : list (Endpoint * Delivery) * nat :=
  match endpoints with
  | [] => ([], k)
  | ep :: eps =>
      if wants ep (ev_Type e) then
        let d := deliver http maxRetries ep (event_body e) k in
        let '(ds, k') := dispatch http maxRetries eps e (dl_next d) in
        ((ep, d) :: ds, k')
      else dispatch http maxRetries eps e k
  end.

(** ** The queue, its worker and shutdown

    The dispatcher's shared state, with the [Emit] calls that have passed the closed check
    and not yet reached the queue, so that a racing [Stop] can come in between. *)

Definition queue_cap : nat := 1024.

Inductive Worker : Type :=
| WNotStarted
| WIdle
| WBusy (e : Event)
| WExited.

Inductive StopPhase : Type := StopNone | StopStored | StopSignaled.

Record Dispatcher : Type := mkDispatcher {
  d_queue : list Event;
  d_emitting : list Event;
  d_stop : StopPhase;
  d_worker : Worker;
  d_dispatched : list Event;
  d_dropped : list Event
}.

#[export] Instance Dispatcher_eta : Eta Dispatcher := fun r =>
  mkDispatcher (d_queue r) (d_emitting r) (d_stop r) (d_worker r) (d_dispatched r) (d_dropped r).

Definition New : Dispatcher := mkDispatcher [] [] StopNone WNotStarted [] [].

(** The atomic actions of the callers of [Start], [Emit] and [Stop] and of [run]. [ASend i]
    is the select of the i-th pending [Emit]; [ATake] and [AQuit] are the two cases of the
    worker's select, of which either may win when both are ready; [AFinish] ends a
    dispatch. [AStopStore] and [AStopClose] are the two statements under [stopOnce]. *)
Inductive Action : Type :=
| AStart
| AEmit (e : Event)
| ASend (i : nat)
| ATake
| AFinish
| AQuit
| AStopStore
| AStopClose.

Definition d_closed (d : Dispatcher) : bool :=
  match d_stop d with StopNone => false | _ => true end.

(** One action; one that is not enabled changes nothing. *)
Definition dispatcher_step (a : Action) (d : Dispatcher) : Dispatcher :=
  match a with
  | AStart => match d_worker d with WNotStarted => d <| d_worker := WIdle |> | _ => d end
  | AEmit e => if d_closed d then d else d <| d_emitting := (d_emitting d ++ [e])%list |>
  | ASend i =>
      match d_emitting d !! i with
      | None => d
      | Some e =>
          let d' := d <| d_emitting := delete i (d_emitting d) |> in
          if decide (length (d_queue d) < queue_cap)%nat
          then d' <| d_queue := (d_queue d ++ [e])%list |>
          else d' <| d_dropped := (d_dropped d ++ [e])%list |>
      end
  | ATake =>
      match d_worker d, d_queue d with
      | WIdle, e :: q => d <| d_queue := q |> <| d_worker := WBusy e |>
      | _, _ => d
      end
  | AFinish =>
      match d_worker d with
      | WBusy e => d <| d_worker := WIdle |> <| d_dispatched := (d_dispatched d ++ [e])%list |>
      | _ => d
      end
  | AQuit =>
      match d_worker d, d_stop d with
      | WIdle, StopSignaled => d <| d_worker := WExited |>
      | _, _ => d
      end
  | AStopStore => match d_stop d with StopNone => d <| d_stop := StopStored |> | _ => d end
  | AStopClose => match d_stop d with StopStored => d <| d_stop := StopSignaled |> | _ => d end
  end.

Definition dispatcher_run (acts : list Action) (d : Dispatcher) : Dispatcher :=
  fold_left (fun d a => dispatcher_step a d) acts d.
