(* ===== verification/Embedded.v ===== *)
(** Reward classification (internal/indexer/rewards.go) and the embedded-contract handlers
    (internal/indexer/embedded.go). A handler returns the statements it queues, in order;
    [batch] arguments of the Go methods are therefore results here. *)

From S2P Require Import Prelude.
From S2P Require Import Models.
From S2P Require Import Chain.
From S2P Require Import RepoLedger.
From S2P Require Import RepoContracts.
From S2P Require Import Database.
From S2P Require Import Decoder.
#[local] Open Scope string_scope.
#[local] Open Scope Z_scope.

(** What the handlers read besides their arguments: the SDK, the cached pillar map, the
    pool and the node. *)
Record Env : Type := mkEnv {
  env_sdk : Sdk;
  env_pillarNameToOwner : gmap string string;
  env_pool : Pool;
  env_ledger : LedgerApi;
  env_webhooks : bool
}.

(** [safeBigIntToInt64]: nil is 0, an out-of-range value is capped at the maximum. *)
Definition safeBigIntToInt64 (v : option Z) : Z :=
  match v with
  | None => 0
  | Some z => if in_int64 z then z else max_int64
  end.

(** [getPillarOwnerAddress]: the zero value for an unknown name. *)
Definition getPillarOwnerAddress (env : Env) (name : string) : string :=
  get_str (env_pillarNameToOwner env) name.

(** The timestamp and height of a momentum as stored: [int64(m.TimestampUnix)] and
    [int64(m.Height)]. *)
Definition m_ts (m : ChainMomentum) : Z := int64 (cm_TimestampUnix m).
Definition m_height (m : ChainMomentum) : Z := int64 (cm_Height m).

(** ** Rewards *)

Definition reward_row (block paired : NomBlock) (rtype : RewardType) (m : ChainMomentum)
  : RewardTransaction :=
  mkRewardTransaction (nb_Hash block) (nb_Address block) rtype (m_ts m) (m_height m)
    (int64 (nb_Height block)) (safeBigIntToInt64 (nb_Amount paired))
    (nb_TokenStandard paired) (nb_Address paired).

(** The two statements every indexed reward queues. *)
Definition reward_stmts (rt : RewardTransaction) : batch :=
  [SRewardTransaction rt;
   SRewardCumulative (rt_Address rt) (rt_RewardType rt) (rt_Amount rt) (rt_TokenStandard rt)].

Definition indexLiquidityReward (block : ChainBlock) (m : ChainMomentum) : batch :=
  match cb_PairedAccountBlock block with
  | None => []
  | Some paired => reward_stmts (reward_row (cb_Block block) paired RewardTypeLiquidity m)
  end.

Definition classifyReward (env : Env) (sourceAddress receiverAddress : string) : RewardType :=
  if String.eqb sourceAddress SentinelAddress then RewardTypeSentinel
  else if String.eqb sourceAddress StakeAddress then RewardTypeStake
  else if String.eqb sourceAddress LiquidityAddress then RewardTypeLiquidity
  else if String.eqb sourceAddress PillarAddress then
    match query (env_pool env) "IsWithdrawAddress"
            (fun db => Ok (PillarRepository.IsWithdrawAddress receiverAddress
                             (db_pillars db) (db_pillar_updates db))) with
    | Err _ => RewardTypePillar
    | Ok true => RewardTypePillar
    | Ok false => RewardTypeDelegation
    end
  else RewardTypeUnknown.

Definition determineRewardType (sourceAddress : string) : RewardType :=
  if String.eqb sourceAddress PillarAddress then RewardTypePillar
  else if String.eqb sourceAddress SentinelAddress then RewardTypeSentinel
  else if String.eqb sourceAddress StakeAddress then RewardTypeStake
  else if String.eqb sourceAddress LiquidityAddress then RewardTypeLiquidity
  else RewardTypeUnknown.

Definition indexReceivedReward (env : Env) (block : ChainBlock) (m : ChainMomentum) : batch :=
  match cb_PairedAccountBlock block with
  | None => []
  | Some paired =>
      match classifyReward env (nb_Address paired) (nb_Address (cb_Block block)) with
      | RewardTypeUnknown => []
      | rtype => reward_stmts (reward_row (cb_Block block) paired rtype m)
      end
  end.

(** ** Pillar contract *)

Definition pillar_update_row (m : ChainMomentum) (owner : string) (d : TxData) (name : string)
  : PillarUpdate :=
  mkPillarUpdate 0 name owner (get_str (tx_Inputs d) "producerAddress")
    (get_str (tx_Inputs d) "rewardAddress") (m_ts m) (m_height m) (cm_Hash m) 0 0.

Definition indexPillarContract (env : Env) (block : ChainBlock) (d : TxData)
    (m : ChainMomentum) : batch :=
  let method := tx_Method d in
  let name := get_str (tx_Inputs d) "name" in
  if String.eqb method "Register" || String.eqb method "RegisterLegacy" then
    match str_empty name, cb_PairedAccountBlock block with
    | false, Some paired =>
        SPillarUpdateInsert (pillar_update_row m (nb_Address paired) d name)
        :: match cb_DescendantBlocks block with
           | descendant :: _ =>
               if String.eqb (nb_ToAddress descendant) TokenAddress then
                 [SPillarUpdateSpawn (nb_Address paired) (m_ts m)
                    (safeBigIntToInt64 (nb_Amount descendant))]
               else []
           | [] => []
           end
    | _, _ => []
    end
  else if String.eqb method "UpdatePillar" then
    let pillarOwner := get_str (tx_Inputs d) "pillarOwner" in
    if negb (str_empty name) && negb (str_empty pillarOwner) then
      [SPillarUpdateInsert (pillar_update_row m pillarOwner d name)]
    else []
  else if String.eqb method "Delegate" then
    match str_empty name, cb_PairedAccountBlock block with
    | false, Some paired =>
        let pillarOwner := getPillarOwnerAddress env name in
        if negb (str_empty pillarOwner) then
          let delegator := nb_Address paired in
          [SAccountUpdateDelegate delegator pillarOwner (m_ts m);
           SDelegationClose delegator (m_ts m);
           SDelegationOpen delegator pillarOwner (m_ts m)]
        else []
    | _, _ => []
    end
  else if String.eqb method "Undelegate" then
    match cb_PairedAccountBlock block with
    | Some paired =>
        let delegator := nb_Address paired in
        [SAccountUpdateDelegate delegator "" 0; SDelegationClose delegator (m_ts m)]
    | None => []
    end
  else if String.eqb method "Revoke" then
    match str_empty name, cb_PairedAccountBlock block with
    | false, Some paired => [SPillarSetRevoked (nb_Address paired) name (m_ts m)]
    | _, _ => []
    end
  else [].

(** ** Stake contract *)

(** [strconv.Atoi] with the handlers' fallback to 0. *)
Definition atoi_or_zero (s : string) : Z := default 0 (parse_int64 s).

Definition indexStakeContract (env : Env) (block : ChainBlock) (d : TxData)
    (m : ChainMomentum) : batch :=
  if String.eqb (tx_Method d) "Stake" then
    match cb_PairedAccountBlock block with
    | Some paired =>
        let duration := atoi_or_zero (get_str (tx_Inputs d) "durationInSec") in
        let stakeID := nb_Hash paired in
        [SStakeInsert (mkStake stakeID (nb_Address paired) (m_ts m)
                         (int64 (m_ts m + duration)) (safeBigIntToInt64 (nb_Amount paired))
                         duration true (getStakeCancelID (env_sdk env) stakeID))]
    | None => []
    end
  else if String.eqb (tx_Method d) "Cancel" then
    let stakeID := get_str (tx_Inputs d) "id" in
    match str_empty stakeID, cb_PairedAccountBlock block with
    | false, Some paired =>
        [SStakeSetInactive (getStakeCancelID (env_sdk env) stakeID) (nb_Address paired)]
    | _, _ => []
    end
  else [].

(** ** Sentinel contract *)

Definition indexSentinelContract (block : ChainBlock) (d : TxData) : batch :=
  if String.eqb (tx_Method d) "Revoke" then
    match cb_PairedAccountBlock block with
    | Some paired => [SSentinelSetInactive (nb_Address paired)]
    | None => []
    end
  else [].

(** ** Plasma contract *)

Definition indexPlasmaContract (env : Env) (block : ChainBlock) (d : TxData)
    (m : ChainMomentum) : batch :=
  if String.eqb (tx_Method d) "Fuse" then
    match cb_PairedAccountBlock block with
    | Some paired =>
        let given := get_str (tx_Inputs d) "address" in
        let beneficiary := if str_empty given then nb_Address paired else given in
        let fusionID := nb_Hash paired in
        [SFusionInsert (mkFusion fusionID (nb_Address paired) beneficiary (cm_Hash m) (m_ts m)
                          (m_height m) (safeBigIntToInt64 (nb_Amount paired))
                          (int64 (m_height m + FusionExpirationBlocks)) true
                          (getFusionCancelID (env_sdk env) fusionID))]
    | None => []
    end
  else if String.eqb (tx_Method d) "CancelFuse" then
    let fusionID := get_str (tx_Inputs d) "id" in
    match str_empty fusionID, cb_PairedAccountBlock block with
    | false, Some paired =>
        [SFusionSetInactive (getFusionCancelID (env_sdk env) fusionID) (nb_Address paired)]
    | _, _ => []
    end
  else [].

(** ** Accelerator contract *)

(** The project and phase a voting id names: a project's id if there is one, else a
    phase's ids, else both empty. *)
Definition resolve_voting_id (env : Env) (votingID : string) : string * string :=
  match query (env_pool env) "Project.GetIDFromVotingID"
          (fun db => ProjectRepository.GetIDFromVotingID votingID (db_projects db)) with
  | Ok projectID =>
      if str_empty projectID then
        match query (env_pool env) "ProjectPhase.GetProjectAndPhaseIDFromVotingID"
                (fun db => ProjectPhaseRepository.GetProjectAndPhaseIDFromVotingID votingID
                             (db_project_phases db)) with
        | Ok ids => ids
        | Err _ => ("", "")
        end
      else (projectID, "")
  | Err _ =>
      match query (env_pool env) "ProjectPhase.GetProjectAndPhaseIDFromVotingID"
              (fun db => ProjectPhaseRepository.GetProjectAndPhaseIDFromVotingID votingID
                           (db_project_phases db)) with
      | Ok ids => ids
      | Err _ => ("", "")
      end
  end.

(** The voter: the sender, or for VoteByName the owner of the named pillar if known. *)
Definition voter_address (env : Env) (method : string) (d : TxData) (paired : NomBlock)
  : string :=
  if String.eqb method "VoteByName" then
    let pillarName := get_str (tx_Inputs d) "name" in
    if str_empty pillarName then nb_Address paired
    else let owner := getPillarOwnerAddress env pillarName in
         if str_empty owner then nb_Address paired else owner
  else nb_Address paired.

Definition indexAcceleratorContract (env : Env) (block : ChainBlock) (d : TxData)
    (m : ChainMomentum) : batch :=
  let method := tx_Method d in
  if String.eqb method "VoteByName" || String.eqb method "VoteByProdAddress" then
    let votingID := get_str (tx_Inputs d) "id" in
    let voteValue := atoi_or_zero (get_str (tx_Inputs d) "vote") in
    match str_empty votingID, cb_PairedAccountBlock block with
    | false, Some paired =>
        let '(projectID, phaseID) := resolve_voting_id env votingID in
        [SVoteInsert (mkVote 0 (cm_Hash m) (m_ts m) (m_height m)
                        (voter_address env method d paired) projectID phaseID votingID
                        (int16 voteValue))]
    | _, _ => []
    end
  else [].

(** ** Token contract *)

Definition indexTokenContract (block : ChainBlock) (d : TxData) (m : ChainMomentum) : batch :=
  if String.eqb (tx_Method d) "Mint" then
    match cb_PairedAccountBlock block with
    | None => []
    | Some paired =>
        match parse_int64 (get_str (tx_Inputs d) "amount") with
        | None => []
        | Some amount =>
            [STokenMint (mkTokenMint 0 (nb_Hash (cb_Block block)) (m_height m) (m_ts m)
                           (get_str (tx_Inputs d) "tokenStandard") (nb_Address paired)
                           (get_str (tx_Inputs d) "receiveAddress") amount)]
        end
    end
  else if String.eqb (tx_Method d) "Burn" then
    match cb_PairedAccountBlock block with
    | None => []
    | Some paired =>
        let burnAmount := safeBigIntToInt64 (nb_Amount paired) in
        [STokenBurn (mkTokenBurn 0 (nb_Hash (cb_Block block)) (m_height m) (m_ts m)
                       (nb_TokenStandard paired) (nb_Address paired) burnAmount);
         STokenUpdateBurn (nb_TokenStandard paired) burnAmount]
    end
  else if String.eqb (tx_Method d) "UpdateToken" then
    let tokenStandard := get_str (tx_Inputs d) "tokenStandard" in
    if str_empty tokenStandard then [] else [STokenUpdateTimestamp tokenStandard (m_ts m)]
  else [].

(** ** Swap contract *)

(** One descendant of a RetrieveAssets receive: a Mint adds its amount to the bucket of the
    Mint's token standard, with Go's wrapping [int64] addition. *)
Definition swap_step (sdk : Sdk) (acc : Z * Z) (descendant : NomBlock) : Z * Z :=
  let '(znn, qsr) := acc in
  match tryDecodeFromAbi (nb_Data descendant) (Some (sdk_Token sdk)) with
  | None => acc
  | Some dec =>
      if negb (String.eqb (tx_Method dec) "Mint") then acc
      else match parse_big (get_str (tx_Inputs dec) "amount") with
           | None => acc
           | Some amt =>
               let v := safeBigIntToInt64 (Some amt) in
               let ts := get_str (tx_Inputs dec) "tokenStandard" in
               if String.eqb ts ZnnTokenStandard then (int64 (znn + v), qsr)
               else if String.eqb ts QsrTokenStandard then (znn, int64 (qsr + v))
               else acc
           end
  end.

Definition indexSwapContract (env : Env) (block : ChainBlock) (d : TxData)
    (m : ChainMomentum) : batch :=
  match String.eqb (tx_Method d) "RetrieveAssets", cb_PairedAccountBlock block with
  | true, Some paired =>
      let '(znn, qsr) :=
        fold_left (swap_step (env_sdk env)) (cb_DescendantBlocks block) (0, 0) in
      [SSwapRetrieval (mkSwapRetrieval (nb_Hash paired) (nb_Address paired)
                         (get_str (tx_Inputs d) "publicKey") znn qsr (m_height m) (m_ts m))]
  | _, _ => []
  end.

(** ** HTLC contract *)

(** [bytesToHex]; [hex_encode] of the empty sequence is already empty. *)
Definition bytesToHex (b : string) : string :=
  if str_empty b then "" else hex_encode b.

Definition indexHtlcContract (block : ChainBlock) (d : TxData) (m : ChainMomentum) : batch :=
  match cb_PairedAccountBlock block with
  | None => []
  | Some paired =>
      let inputs := tx_Inputs d in
      if String.eqb (tx_Method d) "Create" then
        [SHtlcInsert (mkHtlc (nb_Hash paired) (nb_Address paired) (get_str inputs "hashLocked")
                        (nb_TokenStandard paired) (safeBigIntToInt64 (nb_Amount paired))
                        (default 0 (parse_int64 (get_str inputs "expirationTime")))
                        (int16 (atoi_or_zero (get_str inputs "hashType")))
                        (int16 (atoi_or_zero (get_str inputs "keyMaxSize")))
                        (bytesToHex (get_str inputs "hashLock")) (int16 HtlcStatusActive) ""
                        (m_height m) (m_ts m) 0 0)]
      else if String.eqb (tx_Method d) "Unlock" then
        let id := get_str inputs "id" in
        if str_empty id then []
        else [SHtlcSettle id (int16 HtlcStatusUnlocked) (bytesToHex (get_str inputs "preimage"))
                (m_height m) (m_ts m)]
      else if String.eqb (tx_Method d) "Reclaim" then
        let id := get_str inputs "id" in
        if str_empty id then []
        else [SHtlcSettle id (int16 HtlcStatusReclaimed) "" (m_height m) (m_ts m)]
      else []
  end.

(** ** Dispatch on the contract's address *)

Definition indexEmbeddedContracts (env : Env) (block : ChainBlock) (txData : option TxData)
    (m : ChainMomentum) : batch :=
  match txData with
  | None => []
  | Some d =>
      let address := nb_Address (cb_Block block) in
      if String.eqb address PillarAddress then indexPillarContract env block d m
      else if String.eqb address StakeAddress then indexStakeContract env block d m
      else if String.eqb address SentinelAddress then indexSentinelContract block d
      else if String.eqb address PlasmaAddress then indexPlasmaContract env block d m
      else if String.eqb address AcceleratorAddress then indexAcceleratorContract env block d m
      else if String.eqb address TokenAddress then indexTokenContract block d m
      else if String.eqb address HtlcAddress then indexHtlcContract block d m
      else if String.eqb address SwapAddress then indexSwapContract env block d m
      else []
  end.
