(* ===== verification/ExecFacts.v ===== *)
(** Execution of a batch: how it composes, and accumulation and invariant principles over
    its statements. The principles turn a fact about one statement into a fact about a
    whole transaction; the files that state a component's properties instantiate them. *)

From S2P Require Import Prelude.
From S2P Require Import Models.
From S2P Require Import RepoLedger.
From S2P Require Import RepoContracts.
From S2P Require Import Database.
#[local] Open Scope Z_scope.

Lemma on_table_Ok {T} (f : Db -> T) (S : Setter f) (op : T -> result T) db db' :
  on_table f op db = Ok db' <->
  exists t, op (f db) = Ok t /\ db' = update_field f (fun _ => t) db.
Proof.
  unfold on_table. rewrite bind_Ok. split.
  - intros (t & Ht & [= <-]). eauto.
  - intros (t & Ht & ->). eauto.
Qed.

(** Case analysis on the statement, with the table operation's answer named. *)
Ltac exec_cases s H :=
  destruct s; simpl in H;
  lazymatch type of H with
  | on_table _ _ _ = Ok _ =>
      let t := fresh "t" in let Ht := fresh "Ht" in
      apply on_table_Ok in H as (t & Ht & ->)
  | Ok _ = Ok _ => injection H as <-
  end.

Definition is_notify (s : stmt) : bool := match s with SNotify _ _ => true | _ => false end.

Lemma exec_stmt_row s st :
  is_notify s = false ->
  exec_stmt s st = (db ← exec_row s (tx_db st); Ok (mkTxState db (tx_notes st))).
Proof. by destruct s. Qed.

(** A statement either notifies or runs on the tables. *)
Lemma exec_stmt_Ok s st st' :
  exec_stmt s st = Ok st' -> exec_row s (tx_db st) = Ok (tx_db st').
Proof.
  destruct (is_notify s) eqn:E.
  - destruct s; try done. simpl. destruct (_ <? _); [|done]. by intros [= <-].
  - rewrite exec_stmt_row by done. by intros (db & Hdb & [= <-])%bind_Ok.
Qed.

Lemma exec_stmt_notes s st st' :
  exec_stmt s st = Ok st' ->
  tx_notes st' = match s with
                 | SNotify ch p => if decide ((ch, p) ∈ tx_notes st) then tx_notes st
                                   else (tx_notes st ++ [(ch, p)])%list
                 | _ => tx_notes st
                 end.
Proof.
  destruct (is_notify s) eqn:E.
  - destruct s; try done. simpl. destruct (_ <? _); [|done]. by intros [= <-].
  - rewrite exec_stmt_row by done. intros (db & Hdb & [= <-])%bind_Ok. by destruct s.
Qed.

(** Fault-free suffixes of a fault-free run. *)
Lemma exec_from_cons faults j s b st st' :
  exec_from faults j (s :: b) st = Ok st' <->
  faults j = None /\ exists st1, exec_stmt s st = Ok st1 /\ exec_from faults (S j) b st1 = Ok st'.
Proof.
  simpl. destruct (faults j) as [e|].
  - split; [done|]. by intros [? _].
  - rewrite bind_Ok. setoid_rewrite wrap_err_Ok. naive_solver.
Qed.

(** A run under faults that succeeds is a run without faults. *)
Lemma exec_from_no_faults faults j b st st' :
  exec_from faults j b st = Ok st' -> forall k, exec_from (fun _ => None) k b st = Ok st'.
Proof.
  revert j st. induction b as [|s b IH]; intros j st; [done|].
  intros (_ & st1 & H1 & H2)%exec_from_cons k. apply exec_from_cons. eauto.
Qed.

Lemma exec_from_app faults j b1 b2 st st' :
  exec_from faults j (b1 ++ b2) st = Ok st' <->
  exists st1, exec_from faults j b1 st = Ok st1
              /\ exec_from faults (j + length b1) b2 st1 = Ok st'.
Proof.
  revert j st. induction b1 as [|s b1 IH]; intros j st.
  - rewrite Nat.add_0_r. simpl. naive_solver.
  - rewrite <- app_comm_cons, !exec_from_cons. simpl length.
    rewrite Nat.add_succ_r. setoid_rewrite exec_from_cons. setoid_rewrite IH.
    rewrite Nat.add_succ_l. naive_solver.
Qed.

(** The total of a quantity over the statements of a batch. *)
Definition sum_delta (delta : stmt -> Z) (b : batch) : Z :=
  foldr (fun s acc => delta s + acc) 0 b.

(** ** Principles *)

Section principles.
Variable faults : nat -> option error.

(** A predicate every statement of the batch preserves. *)
Lemma exec_from_invariant (P : Db -> Prop) (good : stmt -> Prop) :
  (forall s db db', good s -> P db -> exec_row s db = Ok db' -> P db') ->
  forall b j st st', Forall good b -> P (tx_db st) ->
    exec_from faults j b st = Ok st' -> P (tx_db st').
Proof.
  intros Hstep b. induction b as [|s b IH]; intros j st st' Hgood HP.
  - by intros [= <-].
  - intros (_ & st1 & H1 & H2)%exec_from_cons.
    apply Forall_cons in Hgood as [Hs Hb].
    eapply IH; [exact Hb| |exact H2].
    eapply Hstep; [exact Hs|exact HP|]. by apply exec_stmt_Ok.
Qed.

(** A quantity each statement changes by a known amount. *)
Lemma exec_from_sum (f : Db -> Z) (delta : stmt -> Z) :
  (forall s db db', exec_row s db = Ok db' -> f db' = f db + delta s) ->
  forall b j st st', exec_from faults j b st = Ok st' ->
    f (tx_db st') = f (tx_db st) + sum_delta delta b.
Proof.
  intros Hstep b. induction b as [|s b IH]; intros j st st'.
  - intros [= <-]. unfold sum_delta. simpl. lia.
  - intros (_ & st1 & H1 & H2)%exec_from_cons.
    rewrite (IH _ _ _ H2). unfold sum_delta. simpl.
    rewrite (Hstep _ _ _ (exec_stmt_Ok _ _ _ H1)). lia.
Qed.

(** Something a statement establishes and the rest of the batch cannot undo. *)
Lemma exec_from_establishes (P : Db -> Prop) s :
  (forall db db', exec_row s db = Ok db' -> P db') ->
  (forall s' db db', P db -> exec_row s' db = Ok db' -> P db') ->
  forall b j st st', s ∈ b -> exec_from faults j b st = Ok st' -> P (tx_db st').
Proof.
  intros Hest Hkeep b. induction b as [|s' b IH]; intros j st st' Hin.
  - by apply not_elem_of_nil in Hin.
  - intros (_ & st1 & H1 & H2)%exec_from_cons.
    apply elem_of_cons in Hin as [<-|Hin]; [|by eapply IH].
    eapply (exec_from_invariant P (fun _ => True)); [eauto| | |exact H2].
    + by apply Forall_true.
    + eapply Hest. by apply exec_stmt_Ok.
Qed.
End principles.

Lemma sum_delta_app delta b1 b2 :
  sum_delta delta (b1 ++ b2) = sum_delta delta b1 + sum_delta delta b2.
Proof. unfold sum_delta. induction b1 as [|s b IH]; simpl; [done|]. rewrite IH. lia. Qed.

Lemma sum_delta_zero delta b :
  Forall (fun s => delta s = 0) b -> sum_delta delta b = 0.
Proof. unfold sum_delta. induction 1 as [|s b Hs _ IH]; simpl; [done|]. lia. Qed.

(** The same when only the statements the rest of the batch is made of keep it. *)
Lemma exec_from_establishes_good (P : Db -> Prop) (good : stmt -> Prop) s faults b j st st' :
  (forall db db', exec_row s db = Ok db' -> P db') ->
  (forall s' db db', good s' -> P db -> exec_row s' db = Ok db' -> P db') ->
  Forall good b -> s ∈ b -> exec_from faults j b st = Ok st' -> P (tx_db st').
Proof.
  intros Hest Hkeep Hg (b1 & b2 & ->)%list_elem_of_split (st1 & _ & H)%exec_from_app.
  apply exec_from_cons in H as (_ & st2 & Hs & H2).
  apply Forall_app in Hg as [_ [_ Hg2]%Forall_cons].
  eapply (exec_from_invariant _ P good); [exact Hkeep|exact Hg2| |exact H2].
  eapply Hest. by apply exec_stmt_Ok.
Qed.

(** A sub-batch that keeps [P], wherever it stands in the batch. *)
Definition preserves (P : Db -> Prop) (b : batch) : Prop :=
  forall faults j st st', P (tx_db st) -> exec_from faults j b st = Ok st' -> P (tx_db st').

Lemma preserves_nil P : preserves P [].
Proof. by intros ???? HP [= <-]. Qed.

Lemma preserves_app P b1 b2 : preserves P b1 -> preserves P b2 -> preserves P (b1 ++ b2).
Proof.
  intros H1 H2 faults j st st' HP (st1 & E1 & E2)%exec_from_app.
  eapply H2; [|exact E2]. eapply H1; [exact HP|exact E1].
Qed.

Lemma preserves_forall (P : Db -> Prop) (good : stmt -> Prop) b :
  (forall s db db', good s -> P db -> exec_row s db = Ok db' -> P db') ->
  Forall good b -> preserves P b.
Proof. intros Hs Hb faults j st st' HP He. by eapply (exec_from_invariant faults P good). Qed.

(** A quantity whose change under a statement is known as long as the statement's key, if
    it has one, is not yet in the tables: the change of a batch with pairwise distinct new
    keys. *)
Section fresh_keys.
Context {K : Type} (key : stmt -> option K) (present : K -> Db -> Prop).
Variables (f : Db -> Z) (delta : stmt -> Z).
Hypothesis step : forall s db db', exec_row s db = Ok db' ->
  (forall k, key s = Some k -> ~ present k db) -> f db' = f db + delta s.
Hypothesis grow : forall s db db' k, exec_row s db = Ok db' -> present k db' ->
  present k db \/ key s = Some k.

Lemma exec_from_fresh_sum faults b j st st' :
  NoDup (omap key b) -> (forall k, k ∈ omap key b -> ~ present k (tx_db st)) ->
  exec_from faults j b st = Ok st' ->
  f (tx_db st') = f (tx_db st) + sum_delta delta b.
Proof.
  revert j st. induction b as [|s b IH]; intros j st Hnd Hfresh.
  - intros [= <-]. unfold sum_delta. simpl. lia.
  - intros (_ & st1 & H1 & H2)%exec_from_cons.
    apply exec_stmt_Ok in H1. simpl in Hnd, Hfresh.
    assert (Hs : forall k, key s = Some k -> ~ present k (tx_db st)).
    { intros k Hk. apply Hfresh. rewrite Hk. by left. }
    assert (Hnd' : NoDup (omap key b)).
    { destruct (key s); [by apply NoDup_cons in Hnd as [_ ?]|done]. }
    assert (Hfresh' : forall k, k ∈ omap key b -> ~ present k (tx_db st1)).
    { intros k Hk Hp. destruct (grow _ _ _ _ H1 Hp) as [Hold|Hks].
      - eapply Hfresh; [|exact Hold]. destruct (key s); [by right|done].
      - rewrite Hks in Hnd. apply NoDup_cons in Hnd as [Hn _]. done. }
    rewrite (IH _ _ Hnd' Hfresh' H2), (step _ _ _ H1 Hs). unfold sum_delta. simpl. lia.
Qed.
End fresh_keys.

(** A statement executed in a batch has been executed at some intermediate state. *)
Lemma exec_from_member faults b j st st' s :
  s ∈ b -> exec_from faults j b st = Ok st' ->
  exists st1 st2 b2 k, exec_stmt s st1 = Ok st2 /\ exec_from faults k b2 st2 = Ok st'.
Proof.
  intros (b1 & b2 & ->)%list_elem_of_split (st1 & _ & H)%exec_from_app.
  apply exec_from_cons in H as (_ & st2 & Hs & H2). eauto 10.
Qed.
