(* ===== verification/Processor.v ===== *)
(** internal/indexer/processor.go: from a momentum to one batch of statements, one
    transaction, and the webhook events emitted after its commit. *)

From S2P Require Import Prelude.
From S2P Require Import Models.
From S2P Require Import Chain.
From S2P Require Import Json.
From S2P Require Import RepoLedger.
From S2P Require Import RepoContracts.
From S2P Require Import Database.
From S2P Require Import Decoder.
From S2P Require Import Webhooks.
From S2P Require Import Embedded.
#[local] Open Scope string_scope.
#[local] Open Scope Z_scope.

Definition genesisBalanceUpdateThreshold : Z := 1000.

(** ** Notifications *)

(** [queueMomentumNotify]; its payload always marshals. *)
Definition momentum_payload (mo : Momentum) : string :=
  json_marshal
    (<["height" := JInt (mom_Height mo)]>
    (<["hash" := JStr (mom_Hash mo)]>
    (<["timestamp" := JInt (mom_Timestamp mo)]>
    (<["tx_count" := JInt (mom_TxCount mo)]>
    (<["producer" := JStr (mom_Producer mo)]>
    (<["producer_owner" := JStr (mom_ProducerOwner mo)]>
    (<["producer_name" := JStr (mom_ProducerName mo)]> ∅))))))).

Definition queueMomentumNotify (mo : Momentum) : batch :=
  [SNotify "momentum_new" (momentum_payload mo)].

(** The fields of the account-block payload before any is dropped. *)
Definition block_fields (ab : AccountBlock) (txData : option TxData) : gmap string jval :=
  let method := AccountBlockRepository.method_text txData in
  let core : gmap string jval :=
    <["hash" := JStr (ab_Hash ab)]>
    (<["momentum_hash" := JStr (ab_MomentumHash ab)]>
    (<["momentum_timestamp" := JInt (ab_MomentumTimestamp ab)]>
    (<["momentum_height" := JInt (ab_MomentumHeight ab)]>
    (<["block_type" := JInt (ab_BlockType ab)]>
    (<["height" := JInt (ab_Height ab)]>
    (<["address" := JStr (ab_Address ab)]>
    (<["to_address" := JStr (ab_ToAddress ab)]>
    (<["amount" := JStr (format_int (ab_Amount ab))]>
    (<["token_standard" := JStr (ab_TokenStandard ab)]>
    (<["paired_account_block" := JStr (ab_PairedAccountBlock ab)]> ∅)))))))))) in
  let with_data :=
    if str_empty (ab_Data ab) then core else <["data" := JStr (ab_Data ab)]> core in
  let with_method :=
    if str_empty method then with_data else <["method" := JStr method]> with_data in
  match txData with
  | Some d => if bool_decide (tx_Inputs d = ∅) then with_method
              else <["input" := JRaw (json_marshal_strings (tx_Inputs d))]> with_method
  | None => with_method
  end.

Definition payload_cap : Z := 7900.

Definition too_long (payload : string) : bool :=
  payload_cap <? Z.of_nat (String.length payload).

(** [queueAccountBlockNotify]: drop [input], then [data], then give up. *)
Definition queueAccountBlockNotify (ab : AccountBlock) (txData : option TxData)
  : result batch :=
  let fields := block_fields ab txData in
  let p1 := json_marshal fields in
  let f2 := if too_long p1 then delete "input" fields else fields in
  let p2 := if too_long p1 then json_marshal f2 else p1 in
  let p3 := if too_long p2 then json_marshal (delete "data" f2) else p2 in
  if too_long p3 then
    Err (EMsg ("account_block notify payload too large: "
               +:+ format_int (Z.of_nat (String.length p3)) +:+ " bytes"))
  else Ok [SNotify "account_block_new" p3].

(** ** Balances *)

Definition balance_stmts (address : string) (ts : Z) (infos : BalanceInfoMap) : batch :=
  infos ≫= fun '(tokenStandard, bal) =>
    match bal with
    | Some z => if 0 <=? z then
                  [SBalanceUpsert (mkBalance address tokenStandard (safeBigIntToInt64 bal) ts)]
                else []
    | None => []
    end.

Definition updateBalances (env : Env) (headers : list AccountHeader) (ts : Z) : batch :=
  headers ≫= fun header =>
    match GetAccountInfoByAddress (env_ledger env) (hd_Address header) with
    | Err _ => []
    | Ok infos => balance_stmts (hd_Address header) ts infos
    end.

(** ** Account blocks *)

(** The enrichment of pillar calls with the owner's address. *)
Definition enrich_pillar (env : Env) (block : NomBlock) (txData : option TxData)
  : option TxData :=
  match txData with
  | None => None
  | Some d =>
      if negb (String.eqb (nb_ToAddress block) PillarAddress) then Some d
      else
        let pillarName := get_str (tx_Inputs d) "name" in
        let method := tx_Method d in
        if negb (str_empty pillarName)
           && (String.eqb method "Delegate" || String.eqb method "Register"
               || String.eqb method "RegisterLegacy" || String.eqb method "Revoke"
               || String.eqb method "UpdatePillar")
        then Some (d <| tx_Inputs := <["pillarOwner" := getPillarOwnerAddress env pillarName]>
                                       (tx_Inputs d) |>)
        else Some d
  end.

Definition account_row (block : NomBlock) : Account :=
  AccountRepository.new_row (nb_Address block) (int64 (nb_Height block))
    (hex_encode (nb_PublicKey block)).

Definition paired_hash (block : ChainBlock) : string :=
  match cb_PairedAccountBlock block with Some p => nb_Hash p | None => "" end.

Definition block_row (m : ChainMomentum) (block : ChainBlock) : AccountBlock :=
  let b := cb_Block block in
  mkAccountBlock (nb_Hash b) (cm_Hash m) (m_ts m) (m_height m) (int16 (nb_BlockType b))
    (int64 (nb_Height b)) (nb_Address b) (nb_ToAddress b) (safeBigIntToInt64 (nb_Amount b))
    (nb_TokenStandard b) (if str_empty (nb_Data b) then "" else hex_encode (nb_Data b))
    "" "" (paired_hash block) "".

(** The flow update of the switch on the block type. *)
Definition flow_stmts (m : ChainMomentum) (b : NomBlock) : batch :=
  let amount := safeBigIntToInt64 (nb_Amount b) in
  let bt := nb_BlockType b in
  if (bt =? BlockTypeUserSend) || (bt =? BlockTypeContractSend) then
    [SAccountAddSend (nb_Address b) (nb_TokenStandard b) amount (m_ts m)]
  else if (bt =? BlockTypeUserReceive) || (bt =? BlockTypeContractReceive)
          || (bt =? BlockTypeGenesisReceive) then
    SAccountAddReceive (nb_Address b) (nb_TokenStandard b) amount (m_ts m)
    :: if (bt =? BlockTypeGenesisReceive) && (cm_Height m =? 1) then
         [SAccountSetGenesis (nb_Address b) (nb_TokenStandard b) amount]
       else []
  else [].

(** The tx_count bumps: sender, then recipient unless empty or the sender. *)
Definition bump_stmts (m : ChainMomentum) (b : NomBlock) : batch :=
  SAccountBumpTxCount (nb_Address b) (m_ts m)
  :: if negb (str_empty (nb_ToAddress b))
        && negb (String.eqb (nb_ToAddress b) (nb_Address b))
     then [SAccountBumpTxCount (nb_ToAddress b) (m_ts m)] else [].

Definition link_stmts (block : ChainBlock) : batch :=
  let h := nb_Hash (cb_Block block) in
  (match cb_PairedAccountBlock block with
   | Some p => [SBlockUpdatePaired (nb_Hash p) h]
   | None => []
   end
   ++ map (fun d => SBlockUpdateDescendantOf (nb_Hash d) h) (cb_DescendantBlocks block))%list.

Definition embedded_stmts (env : Env) (block : ChainBlock) (m : ChainMomentum) : batch :=
  match cb_PairedAccountBlock block with
  | Some paired =>
      if (nb_BlockType (cb_Block block) =? BlockTypeContractReceive)
         && IsEmbeddedContract (nb_Address (cb_Block block)) then
        match tryDecodeTxData (env_sdk env) paired with
        | Some d => indexEmbeddedContracts env block (Some d) m
        | None => []
        end
      else []
  | None => []
  end.

Definition reward_block_stmts (env : Env) (block : ChainBlock) (m : ChainMomentum) : batch :=
  let b := cb_Block block in
  match cb_PairedAccountBlock block with
  | Some paired =>
      if nb_BlockType b =? BlockTypeUserReceive then
        if String.eqb (nb_Address paired) LiquidityTreasuryAddress then
          indexLiquidityReward block m
        else if (nb_BlockType paired =? BlockTypeContractSend)
                && String.eqb (nb_ToAddress b) EmptyAddress
                && String.eqb (nb_TokenStandard b) EmptyTokenStandard then
          indexReceivedReward env block m
        else []
      else []
  | None => []
  end.

Definition token_row (ti : TokenInfo) : Token :=
  mkToken (ti_ZenonTokenStandard ti) (ti_TokenName ti) (ti_TokenSymbol ti)
    (ti_TokenDomain ti) (ti_Decimals ti) (ti_Owner ti)
    (safeBigIntToInt64 (ti_TotalSupply ti)) (safeBigIntToInt64 (ti_MaxSupply ti))
    (ti_IsBurnable ti) (ti_IsMintable ti) (ti_IsUtility ti) 0 0 0 0.

Definition token_stmts (block : ChainBlock) : batch :=
  match cb_TokenInfo block with
  | Some ti => [STokenUpsert (token_row ti);
                STokenIncrementTxCount (ti_ZenonTokenStandard ti)]
  | None => []
  end.

Definition block_event (m : ChainMomentum) (b : NomBlock) : Event :=
  mkEvent "account_block.inserted"
    (<["momentumHeight" := JInt (cm_Height m)]>
    (<["hash" := JStr (nb_Hash b)]>
    (<["address" := JStr (nb_Address b)]>
    (<["toAddress" := JStr (nb_ToAddress b)]>
    (<["blockType" := JInt (nb_BlockType b)]> ∅))))).

(** One iteration of [processAccountBlocks]' loop for a fetched block: the statements it
    queues, in the order of the code, or the notify error that aborts the momentum. *)
Definition process_block (env : Env) (m : ChainMomentum) (block : ChainBlock)
  : result (batch * list Event) :=
  let b := cb_Block block in
  let txData := enrich_pillar env b (tryDecodeTxData (env_sdk env) b) in
  let row := block_row m block in
  notify ← wrap_err ("queue account_block " +:+ ab_Hash row +:+ " notify")
             (queueAccountBlockNotify row txData);
  Ok (([SAccountUpsert (account_row b); SBlockInsert row txData]
       ++ notify ++ flow_stmts m b ++ bump_stmts m b ++ link_stmts block
       ++ embedded_stmts env block m ++ reward_block_stmts env block m
       ++ token_stmts block)%list,
      if env_webhooks env then [block_event m b] else []).

(** The loop over [m.Content]: a block that cannot be fetched, or is nil, is skipped. *)
Fixpoint processAccountBlocks (env : Env) (m : ChainMomentum) (headers : list AccountHeader)
  : result (batch * list Event) :=
  match headers with
  | [] => Ok ([], [])
  | header :: rest =>
      match GetAccountBlockByHash (env_ledger env) (hd_Hash header) with
      | Err _ | Ok None => processAccountBlocks env m rest
      | Ok (Some block) =>
          '(b1, e1) ← process_block env m block;
          '(b2, e2) ← processAccountBlocks env m rest;
          Ok ((b1 ++ b2)%list, (e1 ++ e2)%list)
      end
  end.

(** ** Producer *)

Definition getPillarInfoForProducer (env : Env) (producer : string) (height : Z)
  : string * string :=
  match query (env_pool env) "PillarUpdate.GetInfoAtHeightByProducer"
          (fun db => PillarUpdateRepository.GetInfoAtHeightByProducer producer (int64 height)
                       (db_pillar_updates db)) with
  | Ok (owner, name) =>
      if str_empty owner then
        match query (env_pool env) "Pillar.GetByProducer"
                (fun db => PillarRepository.GetByProducer producer (db_pillars db)) with
        | Ok p => (pil_OwnerAddress p, pil_Name p)
        | Err _ => ("", "")
        end
      else (owner, name)
  | Err _ =>
      match query (env_pool env) "Pillar.GetByProducer"
              (fun db => PillarRepository.GetByProducer producer (db_pillars db)) with
      | Ok p => (pil_OwnerAddress p, pil_Name p)
      | Err _ => ("", "")
      end
  end.

(** ** processMomentum *)

Definition momentum_row (env : Env) (m : ChainMomentum) : Momentum :=
  let '(owner, name) := getPillarInfoForProducer env (cm_Producer m) (cm_Height m) in
  mkMomentum (cm_Height m) (cm_Hash m) (m_ts m) (Z.of_nat (length (cm_Content m)))
    (cm_Producer m) owner name.

(** Whether per-address balances are fetched. *)
Definition wants_balances (m : ChainMomentum) : bool :=
  (1 <? cm_Height m) && (Z.of_nat (length (cm_Content m)) <? genesisBalanceUpdateThreshold).

(** The part of [processMomentum] before [pool.Begin]: the whole batch, and the block events
    held back until the commit. *)
Definition momentum_batch (env : Env) (m : ChainMomentum) : result (batch * list Event) :=
  '(blocks, events) ←
     match cm_Content m with
     | [] => Ok ([], [])
     | headers => wrap_err "failed to process account blocks" (processAccountBlocks env m headers)
     end;
  let balances :=
    match cm_Content m with
    | [] => []
    | headers => if wants_balances m then updateBalances env headers (m_ts m) else []
    end in
  let row := momentum_row env m in
  let increment := if str_empty (mom_ProducerOwner row) then []
                   else [SPillarIncrementMomentums (mom_ProducerOwner row)] in
  Ok ((blocks ++ balances ++ increment ++ [SMomentumInsert row] ++ queueMomentumNotify row)%list,
      events).

(** The transaction of the momentum at [height]: begin, send the batch, close the results,
    commit. *)
Definition commit_batch (p : Pool) (height : Z) (b : batch) : result TxState :=
  let h := format_int height in
  let failed := EWrap ("momentum " +:+ h +:+ " batch failed") in
  match pf_begin (pl_faults p) with
  | Some e => Err (EWrap ("begin tx for momentum " +:+ h) e)
  | None =>
      match exec_from (pf_exec (pl_faults p)) 0 b (mkTxState (pl_db p) []) with
      | Err e => Err (failed e)
      | Ok st =>
          match pf_close (pl_faults p) with
          | Some e => Err (failed (EWrap "close batch results" e))
          | None =>
              match pf_commit (pl_faults p) with
              | Some e => Err (EWrap ("commit momentum " +:+ h) e)
              | None => Ok st
              end
          end
      end
  end.

Definition momentum_event (m : ChainMomentum) : Event :=
  mkEvent "momentum.inserted"
    (<["height" := JInt (cm_Height m)]>
    (<["hash" := JStr (cm_Hash m)]>
    (<["timestamp" := JInt (m_ts m)]> ∅))).

(** What one call leaves behind: its error, the committed tables, the notifications
    delivered and the webhook events emitted, in order. *)
Record Outcome : Type := mkOutcome {
  out_err : option error;
  out_db : Db;
  out_notes : list (string * string);
  out_events : list Event
}.

Definition processMomentum (env : Env) (m : ChainMomentum) : Outcome :=
  let p := env_pool env in
  match momentum_batch env m with
  | Err e => mkOutcome (Some e) (pl_db p) [] []
  | Ok (b, blockEvents) =>
      match commit_batch p (cm_Height m) b with
      | Err e => mkOutcome (Some e) (pl_db p) [] []
      | Ok st => mkOutcome None (tx_db st) (tx_notes st)
                   (if env_webhooks env then momentum_event m :: blockEvents else [])
      end
  end.
