(* ===== verification/ProcessorShape.v ===== *)
(** The shape of a momentum's batch: which statements each part of the processor queues,
    in which order. The property files reason about a whole momentum through these lemmas
    instead of the handlers' code. *)

From S2P Require Import Prelude.
From S2P Require Import Models.
From S2P Require Import Chain.
From S2P Require Import Json.
From S2P Require Import RepoLedger.
From S2P Require Import RepoContracts.
From S2P Require Import Database.
From S2P Require Import ExecFacts.
From S2P Require Import Decoder.
From S2P Require Import Webhooks.
From S2P Require Import Embedded.
From S2P Require Import Processor.
#[local] Open Scope string_scope.
#[local] Open Scope Z_scope.

(** ** Kinds of statements *)

(** The statements the embedded-contract handlers may queue. *)
Definition is_embedded (s : stmt) : bool :=
  match s with
  | SAccountUpdateDelegate _ _ _ | STokenUpdateBurn _ _ | STokenUpdateTimestamp _ _
  | STokenMint _ | STokenBurn _ | SPillarUpdateSpawn _ _ _ | SPillarSetRevoked _ _ _
  | SPillarUpdateInsert _ | SDelegationClose _ _ | SDelegationOpen _ _ _
  | SSentinelSetInactive _ | SStakeInsert _ | SStakeSetInactive _ _ | SFusionInsert _
  | SFusionSetInactive _ _ | SVoteInsert _ | SHtlcInsert _ | SHtlcSettle _ _ _ _ _
  | SSwapRetrieval _ => true
  | _ => false
  end.

Definition is_reward (s : stmt) : bool :=
  match s with SRewardTransaction _ | SRewardCumulative _ _ _ _ => true | _ => false end.

Definition is_flow (s : stmt) : bool :=
  match s with
  | SAccountAddSend _ _ _ _ | SAccountAddReceive _ _ _ _ | SAccountSetGenesis _ _ _ => true
  | _ => false
  end.

Definition is_link (s : stmt) : bool :=
  match s with SBlockUpdatePaired _ _ | SBlockUpdateDescendantOf _ _ => true | _ => false end.

Definition is_token (s : stmt) : bool :=
  match s with STokenUpsert _ | STokenIncrementTxCount _ => true | _ => false end.

Definition is_balance (s : stmt) : bool :=
  match s with SBalanceUpsert _ => true | _ => false end.

Definition is_bump (s : stmt) : bool :=
  match s with SAccountBumpTxCount _ _ => true | _ => false end.

Definition all_of (kind : stmt -> bool) (b : batch) : Prop := Forall (fun s => kind s = true) b.

(** Unfolds a handler's branches; every leaf is a literal list of statements. *)
Ltac solve_kind :=
  unfold all_of;
  repeat (case_match; try subst); simpl;
  repeat first [apply Forall_nil_2 | apply Forall_cons_2 | reflexivity].

Lemma indexEmbeddedContracts_kind env block d m :
  all_of is_embedded (indexEmbeddedContracts env block d m).
Proof.
  unfold indexEmbeddedContracts, indexPillarContract, indexStakeContract,
    indexSentinelContract, indexPlasmaContract, indexAcceleratorContract,
    indexTokenContract, indexHtlcContract, indexSwapContract.
  solve_kind.
Qed.

Lemma embedded_stmts_kind env block m : all_of is_embedded (embedded_stmts env block m).
Proof.
  unfold embedded_stmts.
  repeat case_match; try apply Forall_nil_2. apply indexEmbeddedContracts_kind.
Qed.

Lemma reward_block_stmts_kind env block m : all_of is_reward (reward_block_stmts env block m).
Proof.
  unfold reward_block_stmts, indexLiquidityReward, indexReceivedReward, reward_stmts.
  solve_kind.
Qed.

Lemma flow_stmts_kind m b : all_of is_flow (flow_stmts m b).
Proof. unfold flow_stmts. solve_kind. Qed.

Lemma bump_stmts_kind m b : all_of is_bump (bump_stmts m b).
Proof. unfold bump_stmts. solve_kind. Qed.

Lemma link_stmts_kind block : all_of is_link (link_stmts block).
Proof.
  unfold link_stmts, all_of. apply Forall_app; split.
  - solve_kind.
  - apply Forall_map, Forall_true. reflexivity.
Qed.

Lemma token_stmts_kind block : all_of is_token (token_stmts block).
Proof. unfold token_stmts. solve_kind. Qed.

Lemma updateBalances_kind env headers ts : all_of is_balance (updateBalances env headers ts).
Proof.
  unfold updateBalances, all_of. apply Forall_bind, Forall_true. intros header. simpl.
  destruct (GetAccountInfoByAddress _ _); [|constructor]. unfold balance_stmts. apply Forall_bind, Forall_true.
  intros [ts' bal]. simpl. solve_kind.
Qed.

(** ** Notifications are short enough *)

Lemma queueAccountBlockNotify_Ok ab d b :
  queueAccountBlockNotify ab d = Ok b ->
  exists p, b = [SNotify "account_block_new" p]
            /\ Z.of_nat (String.length p) <= payload_cap.
Proof.
  unfold queueAccountBlockNotify. case_match eqn:E; [done|]. intros [= <-].
  eexists. split; [done|]. unfold too_long in E. apply Z.ltb_ge in E. exact E.
Qed.

(** ** One block *)

Definition block_call (env : Env) (block : ChainBlock) : option TxData :=
  enrich_pillar env (cb_Block block) (tryDecodeTxData (env_sdk env) (cb_Block block)).

(** [p] is the payload of the block's notification. *)
Definition block_payload (env : Env) (m : ChainMomentum) (block : ChainBlock) (p : string)
  : Prop :=
  queueAccountBlockNotify (block_row m block) (block_call env block)
  = Ok [SNotify "account_block_new" p].

(** A block's statements, given the payload of its notification. *)
Definition block_stmts (env : Env) (m : ChainMomentum) (block : ChainBlock) (payload : string)
  : batch :=
  let b := cb_Block block in
  ([SAccountUpsert (account_row b);
    SBlockInsert (block_row m block) (block_call env block);
    SNotify "account_block_new" payload]
   ++ flow_stmts m b ++ bump_stmts m b ++ link_stmts block ++ embedded_stmts env block m
   ++ reward_block_stmts env block m ++ token_stmts block)%list.

Lemma process_block_Ok env m block b ev :
  process_block env m block = Ok (b, ev) ->
  exists p, b = block_stmts env m block p
            /\ block_payload env m block p
            /\ ev = (if env_webhooks env then [block_event m (cb_Block block)] else []).
Proof.
  unfold process_block. intros (nb & Hn & Hb)%bind_Ok.
  apply wrap_err_Ok in Hn. pose proof Hn as (p & -> & _)%queueAccountBlockNotify_Ok.
  injection Hb as <- <-. exists p. split; [reflexivity|]. split; [exact Hn|reflexivity].
Qed.

(** ** The fetched blocks of a momentum *)

Definition fetch (env : Env) (header : AccountHeader) : option ChainBlock :=
  match GetAccountBlockByHash (env_ledger env) (hd_Hash header) with
  | Ok (Some block) => Some block
  | _ => None
  end.

(** The blocks the loop processes, in order. *)
Definition fetched (env : Env) (m : ChainMomentum) : list ChainBlock :=
  omap (fetch env) (cm_Content m).

(** The blocks' statements, given one payload per block. *)
Definition blocks_stmts (env : Env) (m : ChainMomentum) (blocks : list ChainBlock)
    (payloads : list string) : batch :=
  concat (zip_with (block_stmts env m) blocks payloads).

Definition block_events (env : Env) (m : ChainMomentum) (blocks : list ChainBlock)
  : list Event :=
  if env_webhooks env then map (fun c => block_event m (cb_Block c)) blocks else [].

Lemma processAccountBlocks_Ok env m hs b ev :
  processAccountBlocks env m hs = Ok (b, ev) ->
  exists ps, Forall2 (block_payload env m) (omap (fetch env) hs) ps
             /\ b = blocks_stmts env m (omap (fetch env) hs) ps
             /\ ev = block_events env m (omap (fetch env) hs).
Proof.
  revert b ev. induction hs as [|h hs IH]; intros b ev; simpl.
  - intros [= <- <-]. exists []. split_and!; [constructor|done|].
    unfold block_events. by destruct (env_webhooks env).
  - destruct (fetch env h) as [block|] eqn:Ef; unfold fetch in Ef;
      destruct (GetAccountBlockByHash (env_ledger env) (hd_Hash h)) as [[block'|]|e];
      try discriminate Ef; [injection Ef as ->|apply IH|apply IH].
    intros ([b1 e1] & H1 & H)%bind_Ok.
    apply bind_Ok in H as ([b2 e2] & H2 & [= <- <-]).
    apply process_block_Ok in H1 as (p & -> & Hp & ->).
    apply IH in H2 as (ps & Hps & -> & ->).
    exists (p :: ps). split_and!; simpl.
    + by constructor.
    + done.
    + unfold block_events. by destruct (env_webhooks env).
Qed.

(** ** The whole batch *)

Definition balances_part (env : Env) (m : ChainMomentum) : batch :=
  match cm_Content m with
  | [] => []
  | headers => if wants_balances m then updateBalances env headers (m_ts m) else []
  end.

Definition tail_part (env : Env) (m : ChainMomentum) : batch :=
  let row := momentum_row env m in
  ((if str_empty (mom_ProducerOwner row) then []
    else [SPillarIncrementMomentums (mom_ProducerOwner row)])
   ++ [SMomentumInsert row; SNotify "momentum_new" (momentum_payload row)])%list.

Lemma momentum_batch_Ok env m b ev :
  momentum_batch env m = Ok (b, ev) ->
  exists ps, Forall2 (block_payload env m) (fetched env m) ps
             /\ b = (blocks_stmts env m (fetched env m) ps ++ balances_part env m
                     ++ tail_part env m)%list
             /\ ev = block_events env m (fetched env m).
Proof.
  unfold momentum_batch, fetched, balances_part. intros ([b1 e1] & H1 & H)%bind_Ok.
  injection H as <- <-.
  assert (Hb : processAccountBlocks env m (cm_Content m) = Ok (b1, e1)).
  { destruct (cm_Content m); [exact H1|]. by apply wrap_err_Ok in H1. }
  apply processAccountBlocks_Ok in Hb as (ps & Hps & -> & ->).
  exists ps. done.
Qed.

(** ** Success *)

(** A successful call ran the whole batch and committed it. *)
Lemma processMomentum_Ok env m :
  out_err (processMomentum env m) = None ->
  exists b ev st,
    momentum_batch env m = Ok (b, ev)
    /\ exec_batch b (pl_db (env_pool env)) = Ok st
    /\ processMomentum env m
       = mkOutcome None (tx_db st) (tx_notes st)
           (if env_webhooks env then momentum_event m :: ev else []).
Proof.
  unfold processMomentum.
  destruct (momentum_batch env m) as [[b ev]|e]; [|done].
  destruct (commit_batch (env_pool env) (cm_Height m) b) as [st|e] eqn:Ec; [|done].
  intros _. exists b, ev, st. split_and!; try done.
  unfold commit_batch in Ec. destruct (pf_begin _); [done|].
  destruct (exec_from _ _ _ _) as [st1|e1] eqn:Ex; [|done].
  destruct (pf_close _); [done|]. destruct (pf_commit _); [done|].
  injection Ec as <-. by eapply exec_from_no_faults.
Qed.

(** The failing calls. *)
Lemma processMomentum_Err env m e :
  out_err (processMomentum env m) = Some e ->
  processMomentum env m = mkOutcome (Some e) (pl_db (env_pool env)) [] [].
Proof.
  unfold processMomentum. destruct (momentum_batch env m) as [[b ev]|e'].
  - destruct (commit_batch (env_pool env) (cm_Height m) b); [done|]. by intros [= ->].
  - by intros [= ->].
Qed.

(** The success of a call, unfolded to the parts of its batch. *)
Lemma processMomentum_parts env m :
  out_err (processMomentum env m) = None ->
  exists ps st,
    Forall2 (block_payload env m) (fetched env m) ps
    /\ exec_batch (blocks_stmts env m (fetched env m) ps ++ balances_part env m
                   ++ tail_part env m)%list (pl_db (env_pool env)) = Ok st
    /\ out_db (processMomentum env m) = tx_db st
    /\ out_notes (processMomentum env m) = tx_notes st.
Proof.
  intros (b & ev & st & Hb & Hx & ->)%processMomentum_Ok.
  apply momentum_batch_Ok in Hb as (ps & Hps & -> & _).
  exists ps, st. done.
Qed.
