(* ===== verification/LedgerFacts.v ===== *)
(** What each statement does to the ledger tables: the momentums, the account blocks, the
    transaction counters and the rewards. One lemma per table over all statements, so that
    a momentum's effect is a sum or an induction over its batch. *)

From S2P Require Import Prelude.
From S2P Require Import Models.
From S2P Require Import Chain.
From S2P Require Import RepoLedger.
From S2P Require Import RepoContracts.
From S2P Require Import Database.
From S2P Require Import ExecFacts.
From S2P Require Import Embedded.
From S2P Require Import Processor.
From S2P Require Import ProcessorShape.
#[local] Open Scope string_scope.
#[local] Open Scope Z_scope.

(** ** momentums *)

Lemma exec_momentums s db db' :
  exec_row s db = Ok db' ->
  db_momentums db'
  = match s with
    | SMomentumInsert mo => insert_nothing (mom_Height mo) mo (db_momentums db)
    | _ => db_momentums db
    end.
Proof.
  intros H. exec_cases s H; try reflexivity.
  apply bind_Ok in Ht as (_ & _ & [= <-]). reflexivity.
Qed.

Lemma exec_momentum_in_range mo db db' :
  exec_row (SMomentumInsert mo) db = Ok db' -> in_int64 (mom_Height mo) = true.
Proof.
  intros (t & Ht & ->)%on_table_Ok. apply bind_Ok in Ht as (u & Hc & _).
  unfold check_range in Hc. case_match eqn:E; [|done]. by apply andb_prop in E as [? _].
Qed.

Definition has_momentum (h : Z) (r : Momentum) (db : Db) : Prop := db_momentums db !! h = Some r.

Lemma has_momentum_kept h r s db db' :
  has_momentum h r db -> exec_row s db = Ok db' -> has_momentum h r db'.
Proof.
  unfold has_momentum. intros Hr H. rewrite (exec_momentums _ _ _ H). destruct s; cbv iota; try done.
  rewrite insert_nothing_lookup. case_decide; [subst|done]. by rewrite Hr.
Qed.

(** *** The greatest stored height *)

Lemma max_height_spec t :
  match MomentumRepository.max_height t with
  | None => t = ∅
  | Some h => is_Some (t !! h) /\ forall k, is_Some (t !! k) -> k <= h
  end.
Proof.
  unfold MomentumRepository.max_height.
  apply (map_fold_weak_ind (fun r m =>
    match r with
    | None => m = ∅
    | Some h => is_Some (m !! h) /\ forall k, is_Some (m !! k) -> k <= h
    end)); [done|].
  intros i x m r Hi IH. split.
  - destruct r as [a|]; [|rewrite lookup_insert_eq; by eexists].
    destruct (Z.max_spec i a) as [[Hlt ->]|[Hle ->]].
    + rewrite lookup_insert_ne by lia. tauto.
    + rewrite lookup_insert_eq. by eexists.
  - intros k Hk. destruct (decide (i = k)) as [->|Hne].
    + destruct r; lia.
    + rewrite lookup_insert_ne in Hk by done. destruct r as [a|].
      * destruct IH as [_ Hmax]. specialize (Hmax _ Hk). lia.
      * subst m. rewrite lookup_empty in Hk. by destruct Hk.
Qed.

(** Stored heights fit a BIGINT and are not negative. *)
Definition heights_ok (t : MomentumRepository.table) : Prop :=
  forall h, is_Some (t !! h) -> 0 <= h <= max_int64.

Lemma GetLatestHeight_spec t :
  heights_ok t -> t <> ∅ ->
  is_Some (t !! MomentumRepository.GetLatestHeight t)
  /\ forall k, is_Some (t !! k) -> k <= MomentumRepository.GetLatestHeight t.
Proof.
  intros Hok Hne. unfold MomentumRepository.GetLatestHeight.
  pose proof (max_height_spec t) as Hs. destruct (MomentumRepository.max_height t); [|done].
  destruct Hs as [Hin Hmax]. specialize (Hok _ Hin). unfold max_int64 in Hok.
  assert (uint64 z = z) as -> by (apply Z.mod_small; lia). done.
Qed.

Lemma GetLatestHeight_insert t h r :
  heights_ok t -> 0 <= h <= max_int64 ->
  MomentumRepository.GetLatestHeight (insert_nothing h r t)
  = Z.max (MomentumRepository.GetLatestHeight t) h.
Proof.
  intros Hok Hh.
  assert (Hok' : heights_ok (insert_nothing h r t)).
  { intros k [->|Hk]%insert_nothing_is_Some; [done|by apply Hok]. }
  assert (Hin : is_Some (insert_nothing h r t !! h)) by (apply insert_nothing_is_Some; by left).
  destruct (GetLatestHeight_spec _ Hok') as [Hl Hm].
  { intros E. rewrite E, lookup_empty in Hin. by destruct Hin. }
  specialize (Hm h Hin) as Hge.
  destruct (decide (t = ∅)) as [->|Hne].
  - change (MomentumRepository.GetLatestHeight ∅) with 0.
    apply insert_nothing_is_Some in Hl as [E|Hl]; [lia|].
    rewrite lookup_empty in Hl. by destruct Hl.
  - destruct (GetLatestHeight_spec _ Hok Hne) as [Hl0 Hm0].
    assert (Hge0 := Hm _ (proj2 (insert_nothing_is_Some h r t _) (or_intror Hl0))).
    apply insert_nothing_is_Some in Hl as [E|Hl]; [lia|]. specialize (Hm0 _ Hl). lia.
Qed.

(** ** account_blocks *)

(** The columns that come from the chain and that nothing may rewrite. *)
Definition chain_columns (b : AccountBlock) : AccountBlock :=
  b <| ab_Method := "" |> <| ab_Input := "" |> <| ab_PairedAccountBlock := "" |>
    <| ab_DescendantOf := "" |>.

Definition blocks_inserted (s : stmt) : option string :=
  match s with SBlockInsert ab _ => Some (ab_Hash ab) | _ => None end.

Definition has_block (h : string) (db : Db) : Prop := is_Some (db_account_blocks db !! h).

(** Rows appear only through [SBlockInsert], and keep their chain columns. *)
Lemma exec_blocks s db db' :
  exec_row s db = Ok db' ->
  match s with
  | SBlockInsert ab d =>
      exists r', db_account_blocks db' = <[ab_Hash ab := r']> (db_account_blocks db)
      /\ chain_columns r' = match db_account_blocks db !! ab_Hash ab with
                            | Some r => chain_columns r
                            | None => chain_columns ab
                            end
  | _ =>
      dom (db_account_blocks db') = dom (db_account_blocks db)
      /\ forall h r', db_account_blocks db' !! h = Some r' ->
           exists r, db_account_blocks db !! h = Some r /\ chain_columns r' = chain_columns r
  end.
Proof.
  assert (Hupd : forall h0 upd (t t' : AccountBlockRepository.table),
    update_row h0 upd t = Ok t' ->
    (forall v v', upd v = Ok v' -> chain_columns v' = chain_columns v) ->
    dom t' = dom t
    /\ forall h r', t' !! h = Some r' -> exists r, t !! h = Some r
         /\ chain_columns r' = chain_columns r).
  { intros h0 upd t t' [[_ ->]|(v & v' & E & Hu & ->)]%update_row_Ok Hc; [by eauto|].
    split.
    - rewrite dom_insert_L. apply elem_of_dom_2 in E. set_solver.
    - intros h r'. destruct (decide (h0 = h)) as [->|Hne].
      + rewrite lookup_insert_eq. intros [= <-]. eauto.
      + rewrite lookup_insert_ne by done. eauto. }
  intros H. exec_cases s H; try (split; [reflexivity|by eauto]).
  - apply insert_update_Ok in Ht as [[E ->]|(v & v' & E & [= <-] & ->)];
      rewrite E; eexists; split; reflexivity.
  - eapply Hupd; [exact Ht|]. by intros v v' [= <-].
  - eapply Hupd; [exact Ht|]. by intros v v' [= <-].
Qed.

Definition has_columns (h : string) (c : AccountBlock) (db : Db) : Prop :=
  exists r, db_account_blocks db !! h = Some r /\ chain_columns r = c.

Lemma has_columns_kept h c s db db' :
  has_columns h c db -> exec_row s db = Ok db' -> has_columns h c db'.
Proof.
  intros (r & Hr & Hc) H. pose proof (exec_blocks _ _ _ H) as He. unfold has_columns.
  destruct s; try (destruct He as [Hd Hcol];
    assert (is_Some (db_account_blocks db' !! h)) as [r' Hr']
      by (apply elem_of_dom; rewrite Hd; by apply elem_of_dom_2 in Hr);
    exists r'; split; [exact Hr'|];
    destruct (Hcol _ _ Hr') as (r0 & Hr0 & ->); congruence).
  destruct He as (r' & -> & Hc'). destruct (decide (ab_Hash ab = h)) as [<-|Hne].
  - exists r'. rewrite lookup_insert_eq. split; [done|]. by rewrite Hc', Hr.
  - exists r. by rewrite lookup_insert_ne.
Qed.

Lemma has_block_kept h s db db' : has_block h db -> exec_row s db = Ok db' -> has_block h db'.
Proof.
  intros [r Hr] H. destruct (has_columns_kept h _ s db db' (ex_intro _ r (conj Hr eq_refl)) H)
    as (r' & Hr' & _). by eexists.
Qed.

Lemma has_block_grow s db db' h :
  exec_row s db = Ok db' -> has_block h db' -> has_block h db \/ blocks_inserted s = Some h.
Proof.
  intros H [r' Hr']. pose proof (exec_blocks _ _ _ H) as He. unfold has_block.
  destruct s; try (left; destruct He as [_ Hcol]; destruct (Hcol _ _ Hr') as (r & -> & _);
                   by eexists).
  destruct He as (r & Hdb & _). rewrite Hdb in Hr'. simpl.
  destruct (decide (ab_Hash ab = h)) as [->|Hne]; [by right|].
  rewrite lookup_insert_ne in Hr' by done. left. by eexists.
Qed.

(** ** Transaction counters *)

Definition tx_count (a : string) (db : Db) : Z := col_of acc_TxCount a (db_accounts db).

Definition bump_of (a : string) (s : stmt) : Z :=
  match s with
  | SAccountBumpTxCount a' _ => if decide (a' = a) then 1 else 0
  | _ => 0
  end.

Lemma set_flow_tx_count c v a : acc_TxCount (AccountRepository.set_flow c v a) = acc_TxCount a.
Proof. by destruct c. Qed.

(** Solves [col new = col old] and [col new = col old + 0] for a concrete update. *)
Ltac same_column :=
  intros; simplify_eq/=;
  repeat match goal with
         | H : (_ ≫= _) = Ok _ |- _ => apply bind_Ok in H as (? & ? & ?); simplify_eq/=
         | H : bigint_add _ _ = Ok _ |- _ => apply bigint_add_Ok in H as [-> _]
         | c : AccountRepository.flow_col |- _ => destruct c
         end;
  simpl; try reflexivity; try lia.

Lemma exec_tx_count a s db db' :
  exec_row s db = Ok db' -> tx_count a db' = tx_count a db + bump_of a s.
Proof.
  unfold tx_count, bump_of. intros H. exec_cases s H; simpl; try lia.
  - erewrite insert_update_col with (d := 0); [|exact Ht|done|same_column].
    case_decide; lia.
  - unfold AccountRepository.AddSend, AccountRepository.add_flow in Ht.
    destruct (AccountRepository.flowColumn _ _);
      (erewrite insert_update_col with (d := 0); [|exact Ht|same_column|same_column];
       case_decide; lia).
  - unfold AccountRepository.AddReceive, AccountRepository.add_flow in Ht.
    destruct (AccountRepository.flowColumn _ _);
      (erewrite insert_update_col with (d := 0); [|exact Ht|same_column|same_column];
       case_decide; lia).
  - unfold AccountRepository.SetGenesisBalance in Ht.
    repeat case_match;
      [erewrite insert_update_col with (d := 0); [|exact Ht|done|same_column];
       case_decide; lia..|].
    injection Ht as <-. lia.
  - by erewrite insert_update_col with (d := 1); [|exact Ht|done|same_column].
  - erewrite update_row_col; [|exact Ht|same_column]. lia.
Qed.

(** *** Rows that touch an address *)

Definition blocks_touching (a : string) (db : Db) : Z :=
  AccountBlockRepository.count_touching a (db_account_blocks db).

Definition touching_of (a : string) (s : stmt) : Z :=
  match s with
  | SBlockInsert ab _ => if AccountBlockRepository.touches a ab then 1 else 0
  | _ => 0
  end.

Lemma touches_chain_columns a r r' :
  chain_columns r' = chain_columns r ->
  AccountBlockRepository.touches a r' = AccountBlockRepository.touches a r.
Proof. intros [=]. unfold AccountBlockRepository.touches. congruence. Qed.

Lemma count_touching_insert a h r t :
  AccountBlockRepository.count_touching a (<[h:=r]> t)
  = AccountBlockRepository.count_touching a t
    + (if AccountBlockRepository.touches a r then 1 else 0)
    - match t !! h with
      | Some r0 => if AccountBlockRepository.touches a r0 then 1 else 0
      | None => 0
      end.
Proof. unfold AccountBlockRepository.count_touching. rewrite map_sum_insert. lia. Qed.

Lemma count_touching_same a t t' :
  dom t' = dom t ->
  (forall h r', t' !! h = Some r' -> exists r, t !! h = Some r
     /\ chain_columns r' = chain_columns r) ->
  AccountBlockRepository.count_touching a t' = AccountBlockRepository.count_touching a t.
Proof.
  unfold AccountBlockRepository.count_touching. revert t'.
  induction t as [|h r t Hh IH] using map_ind; intros t' Hd Hc.
  - rewrite dom_empty_L in Hd. apply dom_empty_inv_L in Hd as ->. done.
  - assert (is_Some (t' !! h)) as [r' Hr'].
    { apply elem_of_dom. rewrite Hd, dom_insert_L. set_solver. }
    rewrite <- (insert_delete_id t' h r' Hr').
    rewrite !map_sum_insert_fresh by (done || apply lookup_delete_eq).
    destruct (Hc _ _ Hr') as (r0 & Hr0 & Hcol). rewrite lookup_insert_eq in Hr0.
    injection Hr0 as <-. rewrite (touches_chain_columns _ _ _ Hcol). f_equal. apply IH.
    + rewrite dom_delete_L, Hd, dom_insert_L. apply not_elem_of_dom in Hh. set_solver.
    + intros h1 r1. destruct (decide (h = h1)) as [->|Hne]; [by rewrite lookup_delete_eq|].
      rewrite lookup_delete_ne by done. intros (r2 & Hr2 & Hc2)%Hc.
      rewrite lookup_insert_ne in Hr2 by done. eauto.
Qed.

Lemma exec_touching a s db db' :
  exec_row s db = Ok db' -> (forall h, blocks_inserted s = Some h -> ~ has_block h db) ->
  blocks_touching a db' = blocks_touching a db + touching_of a s.
Proof.
  unfold blocks_touching. intros H Hf. pose proof (exec_blocks _ _ _ H) as He.
  destruct s; try (destruct He as [Hd Hc]; rewrite (count_touching_same a _ _ Hd Hc);
                   simpl; lia).
  destruct He as (r' & -> & Hc). rewrite count_touching_insert.
  specialize (Hf _ eq_refl). unfold has_block in Hf.
  destruct (db_account_blocks db !! ab_Hash ab) eqn:E; [by destruct Hf; eexists|].
  rewrite (touches_chain_columns _ _ _ Hc). simpl. lia.
Qed.

(** A statement that inserts no new row leaves the count alone. *)
Lemma exec_touching_stored a s db db' :
  exec_row s db = Ok db' -> (forall h, blocks_inserted s = Some h -> has_block h db) ->
  blocks_touching a db' = blocks_touching a db.
Proof.
  unfold blocks_touching. intros H Hf. pose proof (exec_blocks _ _ _ H) as He.
  destruct s; try (destruct He as [Hd Hc]; apply (count_touching_same a _ _ Hd Hc)).
  destruct He as (r' & -> & Hc). rewrite count_touching_insert.
  destruct (Hf _ eq_refl) as [r Hr]. rewrite Hr in Hc |- *.
  rewrite (touches_chain_columns _ _ _ Hc). lia.
Qed.

(** ** Rewards *)

Definition reward_key (rt : RewardTransaction) : string * Z * string :=
  (rt_Address rt, RewardType_int (rt_RewardType rt), rt_TokenStandard rt).

Definition cumulative_of (k : string * Z * string) (db : Db) : Z :=
  col_of id k (db_cumulative_rewards db).

Definition rewards_sum (k : string * Z * string) (db : Db) : Z :=
  map_sum (fun _ rt => if decide (reward_key rt = k) then rt_Amount rt else 0)
    (db_reward_transactions db).

Definition rewards_inserted (s : stmt) : option string :=
  match s with SRewardTransaction rt => Some (rt_Hash rt) | _ => None end.

Definition has_reward (h : string) (db : Db) : Prop := is_Some (db_reward_transactions db !! h).

Definition cumulative_delta (k : string * Z * string) (s : stmt) : Z :=
  match s with
  | SRewardCumulative a r v t => if decide ((a, RewardType_int r, t) = k) then v else 0
  | _ => 0
  end.

Definition reward_delta (k : string * Z * string) (s : stmt) : Z :=
  match s with
  | SRewardTransaction rt => if decide (reward_key rt = k) then rt_Amount rt else 0
  | _ => 0
  end.

Lemma exec_cumulative k s db db' :
  exec_row s db = Ok db' -> cumulative_of k db' = cumulative_of k db + cumulative_delta k s.
Proof.
  unfold cumulative_of. intros H. exec_cases s H; simpl; try lia.
  erewrite insert_update_col with (d := amount); [reflexivity|exact Ht|done|].
  intros v v' [-> _]%bigint_add_Ok. done.
Qed.

Lemma exec_reward_transactions s db db' :
  exec_row s db = Ok db' ->
  db_reward_transactions db'
  = match s with
    | SRewardTransaction rt => insert_nothing (rt_Hash rt) rt (db_reward_transactions db)
    | _ => db_reward_transactions db
    end.
Proof. intros H. exec_cases s H; try reflexivity. by injection Ht as <-. Qed.

Lemma exec_rewards_sum k s db db' :
  exec_row s db = Ok db' -> (forall h, rewards_inserted s = Some h -> ~ has_reward h db) ->
  rewards_sum k db' = rewards_sum k db + reward_delta k s.
Proof.
  unfold rewards_sum, has_reward. intros H Hf. rewrite (exec_reward_transactions _ _ _ H).
  destruct s; simpl; try lia. specialize (Hf _ eq_refl).
  unfold insert_nothing.
  destruct (db_reward_transactions db !! rt_Hash rt) eqn:E; [by destruct Hf; eexists|].
  rewrite map_sum_insert_fresh by done. lia.
Qed.

Lemma has_reward_grow s db db' h :
  exec_row s db = Ok db' -> has_reward h db' -> has_reward h db \/ rewards_inserted s = Some h.
Proof.
  unfold has_reward. intros H. rewrite (exec_reward_transactions _ _ _ H).
  destruct s; simpl; try tauto. intros [->|Hs]%insert_nothing_is_Some; [by right|by left].
Qed.

(** An amount always fits its column. *)
Lemma safeBigIntToInt64_range v : in_int64 (safeBigIntToInt64 v) = true.
Proof. unfold safeBigIntToInt64. destruct v as [z|]; [|done]. by destruct (in_int64 z) eqn:E. Qed.

(** The stored row of a block: its chain columns are what was inserted. *)
Definition stored_as (m : ChainMomentum) (c : ChainBlock) (row : AccountBlock) : Prop :=
  chain_columns row = chain_columns (block_row m c).
