(* ===== verification/LedgerProps.v ===== *)
(** What processing a momentum means for the ledger: all-or-nothing commits, a growing
    history, the latest height, the notifications, and the counters derived from the rows
    ([accounts.tx_count], [cumulative_rewards]). *)

From S2P Require Import Prelude.
From S2P Require Import Models.
From S2P Require Import Chain.
From S2P Require Import Json.
From S2P Require Import RepoLedger.
From S2P Require Import RepoContracts.
From S2P Require Import Database.
From S2P Require Import ExecFacts.
From S2P Require Import Decoder.
From S2P Require Import Webhooks.
From S2P Require Import Embedded.
From S2P Require Import Processor.
From S2P Require Import ProcessorShape.
From S2P Require Import LedgerFacts.
#[local] Open Scope string_scope.
#[local] Open Scope Z_scope.

(** ** The parts of a batch a fact does not concern *)

Lemma sum_delta_kind delta kind b :
  all_of kind b -> (forall s, kind s = true -> delta s = 0) -> sum_delta delta b = 0.
Proof.
  intros Hb Hd. apply sum_delta_zero. eapply Forall_impl; [exact Hb|]. intros s. apply Hd.
Qed.

Lemma omap_kind {A} (key : stmt -> option A) kind b :
  all_of kind b -> (forall s, kind s = true -> key s = None) -> omap key b = [].
Proof.
  intros Hb Hk. induction Hb as [|s b Hs _ IH]; [done|]. simpl. by rewrite (Hk _ Hs).
Qed.

Lemma balances_part_kind env m : all_of is_balance (balances_part env m).
Proof.
  unfold balances_part. destruct (cm_Content m); [constructor|].
  destruct (wants_balances m); [apply updateBalances_kind|constructor].
Qed.

(** Kills the goal [f s = 0] or [f s = None] for the statements of one kind. *)
Ltac by_kind := let s := fresh "s" in intros s; destruct s; simpl; done.

(** Rewrites with [lem] the parts of a block's batch on which the quantity vanishes. *)
Ltac drop_kind lem H := try (rewrite (lem _ _ _ H) by by_kind).
Ltac drop_kinds lem env m c :=
  drop_kind lem (flow_stmts_kind m (cb_Block c));
  drop_kind lem (bump_stmts_kind m (cb_Block c));
  drop_kind lem (link_stmts_kind c);
  drop_kind lem (embedded_stmts_kind env c m);
  drop_kind lem (reward_block_stmts_kind env c m);
  drop_kind lem (token_stmts_kind c).

Lemma sum_delta_tail delta env m :
  (forall o, delta (SPillarIncrementMomentums o) = 0) ->
  (forall mo, delta (SMomentumInsert mo) = 0) ->
  (forall c p, delta (SNotify c p) = 0) ->
  sum_delta delta (tail_part env m) = 0.
Proof.
  intros H1 H2 H3. apply sum_delta_zero. unfold tail_part. apply Forall_app; split.
  - case_match; repeat constructor. apply H1.
  - repeat constructor; [apply H2|apply H3].
Qed.

Lemma sum_delta_blocks delta env m (f : ChainBlock -> Z) blocks ps :
  Forall2 (block_payload env m) blocks ps ->
  (forall c p, sum_delta delta (block_stmts env m c p) = f c) ->
  sum_delta delta (blocks_stmts env m blocks ps) = foldr (fun c acc => f c + acc) 0 blocks.
Proof.
  intros Hps Hf. unfold blocks_stmts.
  induction Hps as [|c p blocks ps _ _ IH]; [done|].
  cbn [zip_with concat foldr]. by rewrite sum_delta_app, Hf, IH.
Qed.

(** How many of the fetched blocks have the address as sender or recipient. *)
Definition fetched_touching (a : string) (env : Env) (m : ChainMomentum) : Z :=
  foldr (fun c acc => (if AccountBlockRepository.touches a (block_row m c) then 1 else 0) + acc)
    0 (fetched env m).

Lemma sum_bump_block a env m c p :
  a <> "" ->
  sum_delta (bump_of a) (block_stmts env m c p)
  = (if AccountBlockRepository.touches a (block_row m c) then 1 else 0).
Proof.
  intros Ha. unfold block_stmts. rewrite !sum_delta_app.
  drop_kinds sum_delta_kind env m c.
  unfold bump_stmts, sum_delta, AccountBlockRepository.touches. simpl.
  destruct (decide (nb_Address (cb_Block c) = a)) as [->|Hne].
  - rewrite String.eqb_refl. simpl.
    destruct (String.eqb_spec (nb_ToAddress (cb_Block c)) a) as [->|Hto].
    + rewrite andb_false_r. done.
    + case_match; simpl; [|done]. by rewrite decide_False.
  - destruct (String.eqb_spec (nb_Address (cb_Block c)) a); [done|]. simpl.
    destruct (String.eqb_spec (nb_ToAddress (cb_Block c)) a) as [->|Hto].
    + destruct (String.eqb_spec a (nb_Address (cb_Block c))); [congruence|].
      destruct a; [done|]. simpl. by rewrite decide_True.
    + case_match; simpl; [|done]. by rewrite decide_False.
Qed.

Lemma sum_touching_block a env m c p :
  sum_delta (touching_of a) (block_stmts env m c p)
  = (if AccountBlockRepository.touches a (block_row m c) then 1 else 0).
Proof.
  unfold block_stmts. rewrite !sum_delta_app.
  drop_kinds sum_delta_kind env m c.
  unfold sum_delta. simpl. lia.
Qed.

(** The hashes a momentum inserts are those of its fetched blocks. *)
Definition fetched_hashes (env : Env) (m : ChainMomentum) : list string :=
  map (fun c => nb_Hash (cb_Block c)) (fetched env m).

Lemma omap_bind_app {A} (key : stmt -> option A) b1 b2 :
  omap key (b1 ++ b2)%list = (omap key b1 ++ omap key b2)%list.
Proof. apply omap_app. Qed.

Lemma keys_tail {A} (key : stmt -> option A) env m :
  (forall o, key (SPillarIncrementMomentums o) = None) ->
  (forall mo, key (SMomentumInsert mo) = None) ->
  (forall c p, key (SNotify c p) = None) ->
  omap key (tail_part env m) = [].
Proof.
  intros H1 H2 H3. unfold tail_part. rewrite omap_bind_app. simpl.
  rewrite H2, H3. case_match; simpl; [done|]. by rewrite H1.
Qed.

Lemma inserted_block env m c p :
  omap blocks_inserted (block_stmts env m c p) = [nb_Hash (cb_Block c)].
Proof.
  unfold block_stmts. rewrite !omap_bind_app.
  drop_kinds (@omap_kind string) env m c.
  done.
Qed.

Lemma inserted_momentum env m ps :
  Forall2 (block_payload env m) (fetched env m) ps ->
  omap blocks_inserted (blocks_stmts env m (fetched env m) ps ++ balances_part env m
                        ++ tail_part env m)%list
  = fetched_hashes env m.
Proof.
  intros Hps. rewrite !omap_bind_app.
  rewrite (omap_kind _ _ _ (balances_part_kind env m)) by by_kind.
  rewrite keys_tail by done. rewrite !app_nil_r. unfold fetched_hashes, blocks_stmts.
  induction Hps as [|c p blocks ps _ _ IH]; [done|].
  cbn [zip_with concat map]. rewrite omap_bind_app, inserted_block, IH. done.
Qed.

(** ** tx_count *)

Lemma momentum_tx_count a env m :
  a <> "" -> out_err (processMomentum env m) = None ->
  tx_count a (out_db (processMomentum env m))
  = tx_count a (pl_db (env_pool env)) + fetched_touching a env m.
Proof.
  intros Ha (ps & st & Hps & Hx & -> & _)%processMomentum_parts.
  rewrite (exec_from_sum _ (tx_count a) (bump_of a) (exec_tx_count a) _ _ _ _ Hx).
  cbn [tx_db]. rewrite !sum_delta_app.
  rewrite (sum_delta_kind _ _ _ (balances_part_kind env m)) by by_kind.
  rewrite sum_delta_tail by done.
  rewrite (sum_delta_blocks _ _ _ _ _ _ Hps (fun c p => sum_bump_block a env m c p Ha)).
  unfold fetched_touching. lia.
Qed.

Lemma momentum_touching_fresh a env m :
  NoDup (fetched_hashes env m) ->
  (forall h, h ∈ fetched_hashes env m -> ~ has_block h (pl_db (env_pool env))) ->
  out_err (processMomentum env m) = None ->
  blocks_touching a (out_db (processMomentum env m))
  = blocks_touching a (pl_db (env_pool env)) + fetched_touching a env m.
Proof.
  intros Hnd Hf (ps & st & Hps & Hx & -> & _)%processMomentum_parts.
  rewrite (exec_from_fresh_sum blocks_inserted has_block (blocks_touching a) (touching_of a)
             (exec_touching a) (fun s db db' k => has_block_grow s db db' k) _ _ _ _ _)
    with (3 := Hx).
  - cbn [tx_db]. rewrite !sum_delta_app.
    rewrite (sum_delta_kind _ _ _ (balances_part_kind env m)) by by_kind.
    rewrite sum_delta_tail by done.
    rewrite (sum_delta_blocks _ _ _ _ _ _ Hps (fun c p => sum_touching_block a env m c p)).
    unfold fetched_touching. lia.
  - by rewrite inserted_momentum.
  - by rewrite inserted_momentum.
Qed.

Lemma exec_from_stored a faults b j st st' :
  (forall h, h ∈ omap blocks_inserted b -> has_block h (tx_db st)) ->
  exec_from faults j b st = Ok st' ->
  blocks_touching a (tx_db st') = blocks_touching a (tx_db st).
Proof.
  revert j st. induction b as [|s b IH]; intros j st Hs.
  - by intros [= <-].
  - intros (_ & st1 & H1 & H2)%exec_from_cons. apply exec_stmt_Ok in H1. simpl in Hs.
    assert (Hk : forall h, blocks_inserted s = Some h -> has_block h (tx_db st)).
    { intros h Hh. apply Hs. rewrite Hh. by left. }
    rewrite <- (exec_touching_stored a _ _ _ H1 Hk). eapply IH; [|exact H2].
    intros h Hh. eapply has_block_kept; [|exact H1]. apply Hs.
    destruct (blocks_inserted s); [by right|done].
Qed.

Lemma momentum_touching_stored a env m :
  (forall h, h ∈ fetched_hashes env m -> has_block h (pl_db (env_pool env))) ->
  out_err (processMomentum env m) = None ->
  blocks_touching a (out_db (processMomentum env m))
  = blocks_touching a (pl_db (env_pool env)).
Proof.
  intros Hs (ps & st & Hps & Hx & -> & _)%processMomentum_parts.
  rewrite <- (inserted_momentum env m ps Hps) in Hs.
  exact (exec_from_stored a _ _ _ (mkTxState (pl_db (env_pool env)) []) _ Hs Hx).
Qed.

(** ** Rewards *)

Lemma reward_stmts_balance k rt :
  sum_delta (cumulative_delta k) (reward_stmts rt) = sum_delta (reward_delta k) (reward_stmts rt).
Proof.
  unfold sum_delta, reward_stmts, cumulative_delta, reward_delta, reward_key. cbn [foldr].
  destruct (decide _); lia.
Qed.

Lemma reward_block_balance k env c m :
  sum_delta (cumulative_delta k) (reward_block_stmts env c m)
  = sum_delta (reward_delta k) (reward_block_stmts env c m).
Proof.
  unfold reward_block_stmts, indexLiquidityReward, indexReceivedReward.
  repeat case_match; try reflexivity; apply reward_stmts_balance.
Qed.

(** What a block contributes to a reward key, through either table. *)
Definition block_reward (k : string * Z * string) (env : Env) (m : ChainMomentum)
    (c : ChainBlock) : Z :=
  sum_delta (reward_delta k) (reward_block_stmts env c m).

Lemma sum_reward_block delta k env m c p :
  (forall s, is_reward s = false -> delta s = 0) ->
  sum_delta delta (reward_block_stmts env c m) = block_reward k env m c ->
  sum_delta delta (block_stmts env m c p) = block_reward k env m c.
Proof.
  intros Hd Hr. unfold block_stmts. rewrite !sum_delta_app.
  assert (Hz : forall kind b, all_of kind b -> (forall s, kind s = true -> is_reward s = false) ->
    sum_delta delta b = 0).
  { intros kind b Hb Hk. apply (sum_delta_kind _ _ _ Hb). intros s Hs. by apply Hd, Hk. }
  rewrite (Hz _ _ (flow_stmts_kind m _)) by by_kind.
  rewrite (Hz _ _ (bump_stmts_kind m _)) by by_kind.
  rewrite (Hz _ _ (link_stmts_kind c)) by by_kind.
  rewrite (Hz _ _ (embedded_stmts_kind env c m)) by by_kind.
  rewrite (Hz _ _ (token_stmts_kind c)) by by_kind.
  rewrite Hr. unfold sum_delta. simpl. rewrite !Hd by done. lia.
Qed.

Lemma inserted_reward env m c :
  omap rewards_inserted (reward_block_stmts env c m) `sublist_of` [nb_Hash (cb_Block c)].
Proof.
  unfold reward_block_stmts, indexLiquidityReward, indexReceivedReward.
  repeat case_match; simpl; try apply sublist_nil_l; reflexivity.
Qed.

Lemma rewards_inserted_block env m c p :
  omap rewards_inserted (block_stmts env m c p) `sublist_of` [nb_Hash (cb_Block c)].
Proof.
  unfold block_stmts. rewrite !omap_bind_app.
  drop_kinds (@omap_kind string) env m c.
  rewrite app_nil_r. simpl. apply inserted_reward.
Qed.

Lemma rewards_inserted_momentum env m ps :
  Forall2 (block_payload env m) (fetched env m) ps ->
  omap rewards_inserted (blocks_stmts env m (fetched env m) ps ++ balances_part env m
                         ++ tail_part env m)%list
  `sublist_of` fetched_hashes env m.
Proof.
  intros Hps. rewrite !omap_bind_app.
  rewrite (omap_kind _ _ _ (balances_part_kind env m)) by by_kind.
  rewrite keys_tail by done. rewrite !app_nil_r. unfold fetched_hashes, blocks_stmts.
  induction Hps as [|c p blocks ps _ _ IH]; [done|].
  cbn [zip_with concat map]. rewrite omap_bind_app.
  apply (sublist_app _ [nb_Hash (cb_Block c)]); [apply rewards_inserted_block|exact IH].
Qed.

Definition fetched_rewards (k : string * Z * string) (env : Env) (m : ChainMomentum) : Z :=
  foldr (fun c acc => block_reward k env m c + acc) 0 (fetched env m).

Lemma sum_reward_momentum delta k env m ps :
  (forall s, is_reward s = false -> delta s = 0) ->
  (forall c, sum_delta delta (reward_block_stmts env c m) = block_reward k env m c) ->
  Forall2 (block_payload env m) (fetched env m) ps ->
  sum_delta delta (blocks_stmts env m (fetched env m) ps ++ balances_part env m
                   ++ tail_part env m)%list
  = fetched_rewards k env m.
Proof.
  intros Hd Hr Hps. rewrite !sum_delta_app.
  rewrite (sum_delta_kind _ _ _ (balances_part_kind env m))
    by (intros s Hs; apply Hd; by destruct s).
  rewrite sum_delta_tail by (intros; by apply Hd).
  rewrite (sum_delta_blocks _ _ _ _ _ _ Hps
             (fun c p => sum_reward_block delta k env m c p Hd (Hr c))).
  unfold fetched_rewards. lia.
Qed.

Lemma momentum_cumulative k env m :
  out_err (processMomentum env m) = None ->
  cumulative_of k (out_db (processMomentum env m))
  = cumulative_of k (pl_db (env_pool env)) + fetched_rewards k env m.
Proof.
  intros (ps & st & Hps & Hx & -> & _)%processMomentum_parts.
  rewrite (exec_from_sum _ (cumulative_of k) (cumulative_delta k) (exec_cumulative k)
             _ _ _ _ Hx). cbn [tx_db].
  rewrite (sum_reward_momentum _ k); [done| |intros c; apply reward_block_balance|exact Hps].
  intros s Hs. by destruct s.
Qed.

Lemma momentum_rewards_sum k env m :
  NoDup (fetched_hashes env m) ->
  (forall h, h ∈ fetched_hashes env m -> ~ has_reward h (pl_db (env_pool env))) ->
  out_err (processMomentum env m) = None ->
  rewards_sum k (out_db (processMomentum env m))
  = rewards_sum k (pl_db (env_pool env)) + fetched_rewards k env m.
Proof.
  intros Hnd Hf (ps & st & Hps & Hx & -> & _)%processMomentum_parts.
  pose proof (rewards_inserted_momentum env m ps Hps) as Hsub.
  rewrite (exec_from_fresh_sum rewards_inserted has_reward (rewards_sum k) (reward_delta k)
             (exec_rewards_sum k) (fun s db db' h => has_reward_grow s db db' h) _ _ _ _ _)
    with (3 := Hx); cbn [tx_db].
  - rewrite (sum_reward_momentum _ k); [done| |done|exact Hps]. intros s Hs. by destruct s.
  - by eapply sublist_NoDup.
  - intros h Hh. apply Hf. by eapply elem_of_sublist.
Qed.

(** ** Notifications *)

Definition note_of (s : stmt) : option (string * string) :=
  match s with SNotify ch p => Some (ch, p) | _ => None end.

(** Identical notifications of a transaction are folded; the first occurrence stays. *)
Definition add_note (notes : list (string * string)) (n : string * string)
  : list (string * string) :=
  if decide (n ∈ notes) then notes else (notes ++ [n])%list.

Lemma exec_from_notes faults b j st st' :
  exec_from faults j b st = Ok st' ->
  tx_notes st' = fold_left add_note (omap note_of b) (tx_notes st).
Proof.
  revert j st. induction b as [|s b IH]; intros j st; [by intros [= <-]|].
  intros (_ & st1 & H1 & H2)%exec_from_cons. rewrite (IH _ _ H2).
  apply exec_stmt_notes in H1. rewrite H1. by destruct s.
Qed.

Lemma note_fits faults b j st st' ch p :
  SNotify ch p ∈ b -> exec_from faults j b st = Ok st' ->
  Z.of_nat (String.length p) < notify_limit.
Proof.
  intros Hin Hx. destruct (exec_from_member _ _ _ _ _ _ Hin Hx) as (s1 & s2 & b2 & k & Hs & _).
  simpl in Hs. destruct (_ <? _) eqn:E; [|done]. by apply Z.ltb_lt.
Qed.

Lemma fold_add_note_nodup l acc : NoDup acc -> NoDup (fold_left add_note l acc).
Proof.
  revert acc. induction l as [|n l IH]; intros acc Hn; [done|]. simpl. apply IH.
  unfold add_note. case_decide as Hin; [done|].
  apply NoDup_app. split; [done|]. split; [|apply NoDup_singleton].
  intros x Hx ->%list_elem_of_singleton. done.
Qed.

Lemma fold_add_note_elem l acc n : n ∈ fold_left add_note l acc <-> n ∈ acc \/ n ∈ l.
Proof.
  revert acc. induction l as [|n' l IH]; intros acc; simpl; [set_solver|].
  rewrite IH. unfold add_note. case_decide; set_solver.
Qed.

Lemma notes_block env m c p :
  omap note_of (block_stmts env m c p) = [("account_block_new", p)].
Proof.
  unfold block_stmts. rewrite !omap_bind_app.
  drop_kinds (@omap_kind (string * string)) env m c.
  done.
Qed.

Lemma notes_momentum env m ps :
  Forall2 (block_payload env m) (fetched env m) ps ->
  omap note_of (blocks_stmts env m (fetched env m) ps ++ balances_part env m
                ++ tail_part env m)%list
  = (map (pair "account_block_new") ps
     ++ [("momentum_new", momentum_payload (momentum_row env m))])%list.
Proof.
  intros Hps. rewrite !omap_bind_app.
  rewrite (omap_kind _ _ _ (balances_part_kind env m)) by by_kind. simpl. f_equal.
  - unfold blocks_stmts. induction Hps as [|c p blocks ps _ _ IH]; [done|].
    cbn [zip_with concat map]. by rewrite omap_bind_app, notes_block, IH.
  - unfold tail_part. rewrite omap_bind_app. by case_match.
Qed.

(** The folding of the block notifications before the momentum's leaves the momentum's
    last. *)
Lemma fold_momentum_last ps n :
  n.1 = "momentum_new" ->
  fold_left add_note (map (pair "account_block_new") ps ++ [n])%list []
  = (fold_left add_note (map (pair "account_block_new") ps) [] ++ [n])%list.
Proof.
  intros Hn. rewrite fold_left_app. simpl. unfold add_note at 1. rewrite decide_False; [done|].
  intros [H|(p & -> & _)%list_elem_of_fmap]%fold_add_note_elem; [by apply not_elem_of_nil in H|].
  done.
Qed.

(** ** Stored rows *)

Lemma momentum_row_height env m : mom_Height (momentum_row env m) = cm_Height m.
Proof. unfold momentum_row. by destruct (getPillarInfoForProducer _ _ _). Qed.

Lemma insert_in_batch env m ps :
  SMomentumInsert (momentum_row env m)
  ∈ (blocks_stmts env m (fetched env m) ps ++ balances_part env m ++ tail_part env m)%list.
Proof. unfold tail_part. set_solver. Qed.

Lemma block_insert_in_batch env m ps c :
  Forall2 (block_payload env m) (fetched env m) ps -> c ∈ fetched env m ->
  SBlockInsert (block_row m c) (block_call env c)
  ∈ (blocks_stmts env m (fetched env m) ps ++ balances_part env m ++ tail_part env m)%list.
Proof.
  intros Hps Hc. apply elem_of_app. left. unfold blocks_stmts.
  induction Hps as [|c' p blocks ps _ _ IH]; [by apply not_elem_of_nil in Hc|].
  cbn [zip_with concat]. apply elem_of_app.
  apply elem_of_cons in Hc as [->|Hc]; [left|right; by apply IH].
  unfold block_stmts. apply elem_of_app. left. right. left.
Qed.

Lemma momentum_stored env m :
  out_err (processMomentum env m) = None ->
  is_Some (db_momentums (out_db (processMomentum env m)) !! cm_Height m)
  /\ forall c, c ∈ fetched env m ->
       has_block (nb_Hash (cb_Block c)) (out_db (processMomentum env m)).
Proof.
  intros (ps & st & Hps & Hx & -> & _)%processMomentum_parts. split.
  - eapply (exec_from_establishes _ (fun db => is_Some (db_momentums db !! cm_Height m)));
      [| |apply (insert_in_batch env m ps)|exact Hx].
    + intros db db' H. rewrite (exec_momentums _ _ _ H), momentum_row_height.
      apply insert_nothing_is_Some. by left.
    + intros s db db' [r Hr] H. exists r. by apply (has_momentum_kept _ r s db).
  - intros c Hc.
    eapply (exec_from_establishes _ (has_block (nb_Hash (cb_Block c))));
      [| |apply (block_insert_in_batch env m ps c Hps Hc)|exact Hx].
    + intros db db' H. destruct (exec_blocks _ _ _ H) as (r & Hr & _).
      unfold has_block. rewrite Hr. change (ab_Hash (block_row m c)) with (nb_Hash (cb_Block c)).
      rewrite lookup_insert_eq. by eexists.
    + intros s db db' Hb H. by eapply has_block_kept.
Qed.

(** A property every statement keeps is kept by a call, whatever its outcome. *)
Lemma processMomentum_keeps (P : Db -> Prop) env m :
  (forall s db db', P db -> exec_row s db = Ok db' -> P db') ->
  P (pl_db (env_pool env)) -> P (out_db (processMomentum env m)).
Proof.
  intros Hs HP. destruct (out_err (processMomentum env m)) as [e|] eqn:Ee.
  - by rewrite (processMomentum_Err _ _ _ Ee).
  - apply processMomentum_Ok in Ee as (b & ev & st & _ & Hx & ->). simpl.
    eapply (exec_from_invariant _ P (fun _ => True)); [|by apply Forall_true| |exact Hx].
    + eauto.
    + exact HP.
Qed.

(** A failing transaction for a statement that cannot be stored. *)
Lemma momentum_height_in_range env m :
  out_err (processMomentum env m) = None -> in_int64 (cm_Height m) = true.
Proof.
  intros (ps & st & Hps & Hx & _)%processMomentum_parts.
  destruct (exec_from_member _ _ _ _ _ _ (insert_in_batch env m ps) Hx)
    as (s1 & s2 & b2 & k & Hs & _).
  apply exec_stmt_Ok, exec_momentum_in_range in Hs. by rewrite momentum_row_height in Hs.
Qed.

Definition momentum_inserted (s : stmt) : option Momentum :=
  match s with SMomentumInsert mo => Some mo | _ => None end.

Lemma exec_from_momentums faults b j st st' :
  exec_from faults j b st = Ok st' ->
  db_momentums (tx_db st')
  = fold_left (fun t mo => insert_nothing (mom_Height mo) mo t) (omap momentum_inserted b)
      (db_momentums (tx_db st)).
Proof.
  revert j st. induction b as [|s b IH]; intros j st; [by intros [= <-]|].
  intros (_ & st1 & H1 & H2)%exec_from_cons. rewrite (IH _ _ H2).
  apply exec_stmt_Ok, exec_momentums in H1. rewrite H1. by destruct s.
Qed.

Lemma no_momentum_block env m c p : omap momentum_inserted (block_stmts env m c p) = [].
Proof.
  unfold block_stmts. rewrite !omap_bind_app.
  drop_kinds (@omap_kind Momentum) env m c.
  done.
Qed.

(** The momentums table after a success: the momentum's row, unless one was there. *)
Lemma momentum_momentums env m :
  out_err (processMomentum env m) = None ->
  db_momentums (out_db (processMomentum env m))
  = insert_nothing (cm_Height m) (momentum_row env m) (db_momentums (pl_db (env_pool env))).
Proof.
  intros (ps & st & Hps & Hx & -> & _)%processMomentum_parts.
  rewrite (exec_from_momentums _ _ _ _ _ Hx), !omap_bind_app.
  rewrite (omap_kind _ _ _ (balances_part_kind env m)) by by_kind.
  assert (omap momentum_inserted (blocks_stmts env m (fetched env m) ps) = []) as ->.
  { clear Hx. unfold blocks_stmts. induction Hps as [|c p blocks ps _ _ IH]; [done|].
    cbn [zip_with concat]. by rewrite omap_bind_app, no_momentum_block, IH. }
  assert (omap momentum_inserted (tail_part env m) = [momentum_row env m]) as ->.
  { unfold tail_part. rewrite omap_bind_app. by case_match. }
  rewrite <- (momentum_row_height env m). done.
Qed.

(** ** Preservation by a whole momentum *)

Lemma preserves_kind (P : Db -> Prop) kind b :
  (forall s db db', kind s = true -> P db -> exec_row s db = Ok db' -> P db') ->
  all_of kind b -> preserves P b.
Proof. intros Hs. apply preserves_forall. exact Hs. Qed.

(** Lifts a preservation from the parts of a block's batch to a whole momentum. *)
Lemma momentum_preserves (P : Db -> Prop) env m :
  (forall s db db', is_embedded s = false -> P db -> exec_row s db = Ok db' -> P db') ->
  (forall c, c ∈ fetched env m -> preserves P (embedded_stmts env c m)) ->
  P (pl_db (env_pool env)) -> P (out_db (processMomentum env m)).
Proof.
  intros Hs He HP. destruct (out_err (processMomentum env m)) as [e|] eqn:Ee.
  { by rewrite (processMomentum_Err _ _ _ Ee). }
  apply processMomentum_parts in Ee as (ps & st & Hps & Hx & -> & _).
  assert (Hk : forall kind b, all_of kind b ->
            (forall s, kind s = true -> is_embedded s = false) -> preserves P b).
  { intros kind b Hb Hkind. apply (preserves_kind _ kind); [|exact Hb].
    intros s db db' Hks. by apply Hs, Hkind. }
  assert (Hlit : forall b, all_of (fun s => negb (is_embedded s)) b -> preserves P b).
  { intros b Hb. apply (Hk _ _ Hb). intros s Hn. by apply negb_true_iff. }
  cut (preserves P (blocks_stmts env m (fetched env m) ps ++ balances_part env m
                    ++ tail_part env m)%list); [intros Hp; exact (Hp _ _ (mkTxState _ []) _ HP Hx)|].
  clear Hx. apply preserves_app; [|apply preserves_app].
  - unfold blocks_stmts. revert He.
    induction Hps as [|c p blocks ps _ _ IH]; intros He; [apply preserves_nil|].
    cbn [zip_with concat]. apply preserves_app; [|apply IH; intros c' Hc; apply He; by right].
    unfold block_stmts.
    apply preserves_app; [apply Hlit; repeat constructor|].
    apply preserves_app; [apply (Hk _ _ (flow_stmts_kind m _)); by_kind|].
    apply preserves_app; [apply (Hk _ _ (bump_stmts_kind m _)); by_kind|].
    apply preserves_app; [apply (Hk _ _ (link_stmts_kind c)); by_kind|].
    apply preserves_app; [apply He; by left|].
    apply preserves_app; [apply (Hk _ _ (reward_block_stmts_kind env c m)); by_kind|].
    apply (Hk _ _ (token_stmts_kind c)). by_kind.
  - apply (Hk _ _ (balances_part_kind env m)). by_kind.
  - apply Hlit. unfold tail_part. apply Forall_app. split; [by case_match; repeat constructor|].
    repeat constructor.
Qed.

(** The statements of the blocks, block by block and kind by kind. *)
Lemma blocks_stmts_forall (P : stmt -> Prop) env m blocks ps :
  Forall2 (block_payload env m) blocks ps ->
  (forall c p, c ∈ blocks -> Forall P (block_stmts env m c p)) ->
  Forall P (blocks_stmts env m blocks ps).
Proof.
  intros Hps HP. unfold blocks_stmts.
  induction Hps as [|c p blocks ps _ _ IH]; [constructor|].
  cbn [zip_with concat]. apply Forall_app. split; [apply HP; by left|].
  apply IH. intros c' p' Hc. apply HP. by right.
Qed.

Lemma block_stmts_forall (P : stmt -> Prop) env m c p :
  (forall s, (is_flow s || is_bump s || is_link s || is_embedded s || is_token s) = true -> P s) ->
  Forall P (reward_block_stmts env c m) ->
  P (SAccountUpsert (account_row (cb_Block c))) ->
  P (SBlockInsert (block_row m c) (block_call env c)) ->
  P (SNotify "account_block_new" p) ->
  Forall P (block_stmts env m c p).
Proof.
  intros Hk Hr H1 H2 H3.
  assert (Hkind : forall kind b, all_of kind b ->
    (forall s, kind s = true -> (is_flow s || is_bump s || is_link s || is_embedded s
                                 || is_token s) = true) -> Forall P b).
  { intros kind b Hb Hi. eapply Forall_impl; [exact Hb|]. intros s Hs. by apply Hk, Hi. }
  unfold block_stmts. apply Forall_app. split; [by repeat constructor|].
  apply Forall_app. split; [apply (Hkind _ _ (flow_stmts_kind m _)); by_kind|].
  apply Forall_app. split; [apply (Hkind _ _ (bump_stmts_kind m _)); by_kind|].
  apply Forall_app. split; [apply (Hkind _ _ (link_stmts_kind c)); by_kind|].
  apply Forall_app. split; [apply (Hkind _ _ (embedded_stmts_kind env c m)); by_kind|].
  apply Forall_app. split; [exact Hr|].
  apply (Hkind _ _ (token_stmts_kind c)). by_kind.
Qed.

(** A condition on statements that the rewards' kind gives. *)
Lemma reward_stmts_forall (P : stmt -> Prop) env c m :
  (forall s, is_reward s = true -> P s) -> Forall P (reward_block_stmts env c m).
Proof.
  intros H. eapply Forall_impl; [apply (reward_block_stmts_kind env c m)|]. exact H.
Qed.

(** ** Where rows come from *)

(** The rows a statement of the momentum inserts are those of its fetched blocks. *)
Definition of_momentum (env : Env) (m : ChainMomentum) (s : stmt) : Prop :=
  match s with
  | SBlockInsert ab _ => exists c, c ∈ fetched env m /\ ab = block_row m c
  | SRewardTransaction rt =>
      exists c paired rtype, c ∈ fetched env m /\ rt = reward_row (cb_Block c) paired rtype m
  | _ => True
  end.

Lemma batch_of_momentum env m ps :
  Forall2 (block_payload env m) (fetched env m) ps ->
  Forall (of_momentum env m) (blocks_stmts env m (fetched env m) ps ++ balances_part env m
                              ++ tail_part env m)%list.
Proof.
  intros Hps. apply Forall_app. split; [|apply Forall_app; split].
  - apply blocks_stmts_forall; [done|]. intros c p Hc. apply block_stmts_forall; try done.
    + intros s Hs. by destruct s.
    + unfold reward_block_stmts, indexLiquidityReward, indexReceivedReward.
      repeat case_match; try apply Forall_nil_2;
        (apply Forall_cons_2; [by do 3 eexists|by repeat constructor]).
    + by exists c.
  - eapply Forall_impl; [apply (balances_part_kind env m)|]. intros s Hs. by destruct s.
  - unfold tail_part. apply Forall_app. split; [case_match; by repeat constructor|].
    by repeat constructor.
Qed.

(** After a success a stored block was stored before, with the same chain columns, or is the
    row of a fetched block. *)
Lemma momentum_blocks_from env m :
  out_err (processMomentum env m) = None ->
  forall h row, db_account_blocks (out_db (processMomentum env m)) !! h = Some row ->
    has_columns h (chain_columns row) (pl_db (env_pool env))
    \/ ~ has_block h (pl_db (env_pool env))
       /\ exists c, c ∈ fetched env m /\ nb_Hash (cb_Block c) = h /\ stored_as m c row.
Proof.
  intros (ps & st & Hps & Hx & -> & _)%processMomentum_parts.
  set (db0 := pl_db (env_pool env)).
  cut ((forall h, has_block h db0 -> has_block h (tx_db st))
       /\ forall h row, db_account_blocks (tx_db st) !! h = Some row ->
            has_columns h (chain_columns row) db0
            \/ ~ has_block h db0
               /\ exists c, c ∈ fetched env m /\ nb_Hash (cb_Block c) = h /\ stored_as m c row);
    [by intros [_ H]|].
  eapply (exec_from_invariant _ (fun db => (forall h, has_block h db0 -> has_block h db)
    /\ forall h row, db_account_blocks db !! h = Some row -> _) (of_momentum env m));
    [|by apply batch_of_momentum| |exact Hx].
  - intros s db db' Hs [Hg HP] H. pose proof (exec_blocks _ _ _ H) as He.
    split; [intros h Hh; by eapply has_block_kept, H; apply Hg|]. intros h row Hrow.
    destruct s; try (destruct He as [_ Hc]; destruct (Hc _ _ Hrow) as (r0 & Hr0 & E);
                     unfold stored_as; rewrite E; by apply HP).
    destruct He as (r' & Hdb & Hc). rewrite Hdb in Hrow.
    destruct (decide (ab_Hash ab = h)) as [<-|Hne].
    2: { rewrite lookup_insert_ne in Hrow by done. by apply HP. }
    rewrite lookup_insert_eq in Hrow. injection Hrow as ->. unfold stored_as. rewrite Hc.
    destruct (db_account_blocks db !! ab_Hash ab) as [r|] eqn:E; [by apply HP|].
    destruct Hs as (c & Hin & ->). right. split; [|by exists c].
    intros [r Hr]%Hg. congruence.
  - cbn [tx_db]. split; [done|]. intros h row Hrow. left. by exists row.
Qed.

(** The row a height gets: the momentum's, unless it has one. *)
Lemma momentum_height_row env m :
  out_err (processMomentum env m) = None ->
  db_momentums (out_db (processMomentum env m)) !! cm_Height m
  = Some (default (momentum_row env m) (db_momentums (pl_db (env_pool env)) !! cm_Height m)).
Proof.
  intros Ee. rewrite (momentum_momentums _ _ Ee), insert_nothing_lookup.
  by rewrite decide_True.
Qed.

(** The row a new block has: its own chain columns, if no other fetched block has its hash. *)
Lemma momentum_new_block env m c :
  out_err (processMomentum env m) = None -> NoDup (fetched_hashes env m) ->
  c ∈ fetched env m -> ~ has_block (nb_Hash (cb_Block c)) (pl_db (env_pool env)) ->
  exists row, db_account_blocks (out_db (processMomentum env m)) !! nb_Hash (cb_Block c) = Some row
    /\ stored_as m c row.
Proof.
  intros Ee Hnd Hc Hn. destruct (momentum_stored _ _ Ee) as [_ Hs].
  destruct (Hs c Hc) as [row Hrow]. exists row. split; [exact Hrow|].
  destruct (momentum_blocks_from env m Ee _ _ Hrow) as [(r & Hr & _)|(_ & c' & Hc' & Eh & Hst)].
  - by destruct Hn; exists r.
  - replace c with c'; [exact Hst|]. unfold fetched_hashes in Hnd. clear -Hnd Hc Hc' Eh.
    revert Hnd Hc Hc'. induction (fetched env m) as [|x l IH]; cbn [map];
      [by intros _ ?%elem_of_nil|].
    intros [Hx Hnd]%NoDup_cons [->|Hc]%elem_of_cons [->|Hc']%elem_of_cons; [done|..|by apply IH].
    + destruct Hx. rewrite <- Eh. by apply (list_elem_of_fmap_2 (fun c => nb_Hash (cb_Block c))).
    + destruct Hx. rewrite Eh. by apply (list_elem_of_fmap_2 (fun c => nb_Hash (cb_Block c))).
Qed.

(** A reward stored after a success was stored before, or is one of a fetched block. *)
Lemma momentum_rewards_from env m :
  out_err (processMomentum env m) = None ->
  forall h rt, db_reward_transactions (out_db (processMomentum env m)) !! h = Some rt ->
    db_reward_transactions (pl_db (env_pool env)) !! h = Some rt
    \/ exists c paired rtype, c ∈ fetched env m /\ nb_Hash (cb_Block c) = h
         /\ rt = reward_row (cb_Block c) paired rtype m.
Proof.
  intros (ps & st & Hps & Hx & -> & _)%processMomentum_parts.
  eapply (exec_from_invariant _ (fun db => forall h rt,
    db_reward_transactions db !! h = Some rt -> _) (of_momentum env m));
    [|by apply batch_of_momentum| |exact Hx].
  - intros s db db' Hs HP H h rt. rewrite (exec_reward_transactions _ _ _ H).
    destruct s; try apply HP. rewrite insert_nothing_lookup. case_decide as Hd; [|apply HP].
    destruct (db_reward_transactions db !! rt_Hash rt0) as [old|] eqn:E; cbn; intros [= <-].
    + subst h. by apply HP.
    + destruct Hs as (c & paired & rtype & Hin & ->). right. exists c, paired, rtype. by subst h.
  - intros h rt Hrt. by left.
Qed.
