(* ===== verification/Samples.v ===== *)
(** A small concrete world for the witnesses: a toy SDK whose codec round-trips, a node
    that answers with given blocks, and a few momentums. *)

From S2P Require Import Prelude.
From S2P Require Import Models.
From S2P Require Import Chain.
From S2P Require Import RepoContracts.
From S2P Require Import Database.
From S2P Require Import Decoder.
From S2P Require Import Embedded.
#[local] Open Scope string_scope.
#[local] Open Scope Z_scope.

Fixpoint split_commas (cur s : string) : list string :=
  match s with
  | EmptyString => [cur]
  | String "," s' => cur :: split_commas "" s'
  | String c s' => split_commas (cur +:+ String c "") s'
  end%char.

Definition toy_decode (data : string) : result (list AbiArg) :=
  match data with
  | String _ (String _ (String _ (String _ (String "#" h)))) => Ok [ArgHash h]
  | String _ (String _ (String _ (String _ rest))) => Ok (map ArgString (split_commas "" rest))
  | _ => Err (EMsg "short data")
  end%char.

Definition toy_encode (method : string) (args : list AbiArg) : result string :=
  match args with
  | [ArgHash h] => Ok ("call#" +:+ h)
  | _ => Err (EMsg "unsupported arguments")
  end.

(** An ABI of functions given by selector, name and parameters. *)
Definition toy_abi (fns : list (string * string * list string)) : Abi :=
  mkAbi (map (fun '(sel, name, params) => mkAbiEntry true name params sel) fns)
    toy_decode toy_encode.

Lemma toy_codec fns method : abi_codec_ok (toy_abi fns) method.
Proof.
  intros args data. simpl. unfold toy_encode.
  destruct args as [|[b|s|h|r] [|y args]]; try done. by intros [= <-].
Qed.

Definition toy_sdk : Sdk :=
  mkSdk (toy_abi [])
    (toy_abi [("fuse", "Fuse", ["address"]); ("cfus", "CancelFuse", ["id"])])
    (toy_abi [("dele", "Delegate", ["name"]); ("unde", "Undelegate", [])])
    (toy_abi [("mint", "Mint", ["tokenStandard"; "amount"; "receiveAddress"])])
    (toy_abi [("revk", "Revoke", [])])
    (toy_abi [("stak", "Stake", ["durationInSec"]); ("canc", "Cancel", ["id"])])
    (toy_abi [("vote", "VoteByName", ["id"; "name"; "vote"])])
    (toy_abi [("retr", "RetrieveAssets", ["publicKey"])])
    (toy_abi []) (toy_abi [])
    (toy_abi [("crea", "Create", ["hashLocked"; "expirationTime"; "hashType"; "keyMaxSize";
                                  "hashLock"]);
              ("unlk", "Unlock", ["id"; "preimage"]); ("recl", "Reclaim", ["id"])])
    Ok.

(** A node that knows the given blocks and nothing else. *)
Definition toy_ledger (blocks : list ChainBlock) : LedgerApi :=
  mkLedgerApi
    (fun h => Ok (List.find (fun c => String.eqb (nb_Hash (cb_Block c)) h) blocks))
    (fun _ => Err (EMsg "no account")).

Definition toy_env (db : Db) (blocks : list ChainBlock) : Env :=
  mkEnv toy_sdk (<["pillar-one" := "z1owner"]> ∅)
    (mkPool db (fun _ => None) no_faults) (toy_ledger blocks) true.

Definition header_of (c : ChainBlock) : AccountHeader :=
  mkAccountHeader (nb_Address (cb_Block c)) (nb_Hash (cb_Block c)).

Definition toy_momentum (height : Z) (blocks : list ChainBlock) : ChainMomentum :=
  mkChainMomentum height ("m" +:+ format_int height) (1000 + 10 * height)
    (map header_of blocks) "z1producer".

(** A user's send, with its call data. *)
Definition toy_send (hash from to data : string) (amount : Z) : NomBlock :=
  mkNomBlock hash BlockTypeUserSend 1 from to (Some amount) ZnnTokenStandard data "".

Definition transfer : ChainBlock :=
  mkChainBlock (toy_send "tx1" "z1alice" "z1bob" "" 10) None None [].

(** The contract's receive of a call. *)
Definition contract_receive (hash contract : string) (call : NomBlock) : ChainBlock :=
  mkChainBlock (mkNomBlock hash BlockTypeContractReceive 1 contract EmptyAddress (Some 0)
                  EmptyTokenStandard "" "")
    None (Some call) [].

(** A reward paid by a contract and received by its beneficiary. *)
Definition reward_receive (hash to source : string) (amount : Z) : ChainBlock :=
  mkChainBlock (mkNomBlock hash BlockTypeUserReceive 2 to EmptyAddress (Some 0)
                  EmptyTokenStandard "" "")
    None
    (Some (mkNomBlock "paid" BlockTypeContractSend 9 source to (Some amount)
             ZnnTokenStandard "" ""))
    [].
