(* ===== verification/LedgerTheorems.v ===== *)
(** The theorems about [processMomentum] and the ledger tables. *)

From S2P Require Import Prelude.
From S2P Require Import Models.
From S2P Require Import Chain.
From S2P Require Import Json.
From S2P Require Import RepoLedger.
From S2P Require Import RepoContracts.
From S2P Require Import Database.
From S2P Require Import ExecFacts.
From S2P Require Import Webhooks.
From S2P Require Import Embedded.
From S2P Require Import Processor.
From S2P Require Import ProcessorShape.
From S2P Require Import LedgerFacts.
From S2P Require Import LedgerProps.
From S2P Require Import Samples.
#[local] Open Scope string_scope.
#[local] Open Scope Z_scope.

(** C1. A call of [processMomentum] is all or nothing. If it fails, the committed tables are
    those it started from, nothing is notified and no webhook event is emitted. If it
    succeeds, the momentum has a row at its height, every block that could be fetched has
    a row, and the webhook events are the momentum's followed by one per fetched block, in
    order (none when webhooks are off). *)
Theorem processMomentum_all_or_nothing env m :
  let out := processMomentum env m in
  match out_err out with
  | Some _ => out_db out = pl_db (env_pool env) /\ out_notes out = [] /\ out_events out = []
  | None =>
      is_Some (db_momentums (out_db out) !! cm_Height m)
      /\ (forall c, c ∈ fetched env m -> is_Some (db_account_blocks (out_db out)
                                                  !! nb_Hash (cb_Block c)))
      /\ out_events out
         = (if env_webhooks env
            then momentum_event m :: map (fun c => block_event m (cb_Block c)) (fetched env m)
            else [])
  end.
Proof.
  cbv zeta. destruct (out_err (processMomentum env m)) as [e|] eqn:Ee.
  - by rewrite (processMomentum_Err _ _ _ Ee).
  - destruct (momentum_stored _ _ Ee) as [Hm Hb]. split_and!; [exact Hm|exact Hb|].
    apply processMomentum_Ok in Ee as (b & ev & st & Hbatch & _ & ->). simpl.
    apply momentum_batch_Ok in Hbatch as (ps & _ & _ & ->).
    unfold block_events. by destruct (env_webhooks env).
Qed.

(** C8. History is append-only: whatever a call answers, every stored momentum keeps its
    row, and every stored account block keeps its chain columns (hash, momentum, type,
    height, addresses, amount, token, data); only the decoded call and the links to the
    paired and parent blocks can change. *)
Theorem processMomentum_history env m :
  let before := pl_db (env_pool env) in
  let after := out_db (processMomentum env m) in
  db_momentums before ⊆ db_momentums after
  /\ chain_columns <$> db_account_blocks before ⊆ chain_columns <$> db_account_blocks after.
Proof.
  cbv zeta. split; apply map_subseteq_spec.
  - intros h r Hr. apply (processMomentum_keeps (has_momentum h r)); [|exact Hr].
    intros s db db' Hh Hs. by eapply has_momentum_kept.
  - intros h c. rewrite !lookup_fmap. intros (r & Hl & ->)%fmap_Some.
    destruct (processMomentum_keeps (has_columns h (chain_columns r)) env m)
      as (r' & -> & Hc).
    + intros s db db' Hh Hs. by eapply has_columns_kept.
    + by exists r.
    + simpl. by rewrite Hc.
Qed.

(** After a success the latest stored height, the height the sync loop resumes from,
    is the maximum of the previous one and the momentum's: it never goes back, and stored
    heights stay within BIGINT's non-negative range. *)
Theorem processMomentum_latest_height env m :
  heights_ok (db_momentums (pl_db (env_pool env))) -> 0 <= cm_Height m ->
  out_err (processMomentum env m) = None ->
  MomentumRepository.GetLatestHeight (db_momentums (out_db (processMomentum env m)))
  = Z.max (MomentumRepository.GetLatestHeight (db_momentums (pl_db (env_pool env))))
      (cm_Height m)
  /\ heights_ok (db_momentums (out_db (processMomentum env m))).
Proof.
  intros Hok Hh Hs. pose proof (momentum_height_in_range _ _ Hs) as Hr%in_int64_spec.
  rewrite (momentum_momentums _ _ Hs). split.
  - apply GetLatestHeight_insert; [done|lia].
  - intros h [->|Hin]%insert_nothing_is_Some; [lia|by apply Hok].
Qed.

Lemma processMomentum_latest_height_witness :
  let env := toy_env empty_db [transfer] in
  let m := toy_momentum 5 [transfer] in
  MomentumRepository.GetLatestHeight (db_momentums (out_db (processMomentum env m)))
  = Z.max 0 5
  /\ heights_ok (db_momentums (out_db (processMomentum env m))).
Proof.
  apply (processMomentum_latest_height (toy_env empty_db [transfer])
           (toy_momentum 5 [transfer])).
  - intros h [r Hr]. discriminate Hr.
  - simpl. lia.
  - vm_compute. reflexivity.
Defined.

(** C17. Notifications of a success: one ["account_block_new"] payload per fetched block, of
    at most 7,900 bytes, in the blocks' order with repeats folded, then exactly one
    ["momentum_new"], last and below PostgreSQL's limit. Its payload is that of the row the
    call inserts, which is the stored one unless the height had a row before, which then
    stays; and the block payloads are of the inserted rows, which are the stored ones but for
    the decoded call and the links, where the blocks' hashes are distinct and new. *)
Theorem processMomentum_notifications env m :
  out_err (processMomentum env m) = None ->
  let before := pl_db (env_pool env) in
  let after := out_db (processMomentum env m) in
  exists ps : list string,
    Forall2 (fun c p =>
        queueAccountBlockNotify (block_row m c) (block_call env c)
          = Ok [SNotify "account_block_new" p]
        /\ Z.of_nat (String.length p) <= payload_cap) (fetched env m) ps
    /\ (let notes := fold_left add_note (map (pair "account_block_new") ps) [] in
        let last := momentum_payload (momentum_row env m) in
        out_notes (processMomentum env m) = (notes ++ [("momentum_new", last)])%list
        /\ NoDup notes /\ (forall n, n ∈ notes <-> exists p, p ∈ ps /\ n = ("account_block_new", p))
        /\ Z.of_nat (String.length last) < notify_limit)
    /\ db_momentums after !! cm_Height m
       = Some (default (momentum_row env m) (db_momentums before !! cm_Height m))
    /\ (NoDup (fetched_hashes env m) -> forall c, c ∈ fetched env m ->
        ~ has_block (nb_Hash (cb_Block c)) before ->
        exists row, db_account_blocks after !! nb_Hash (cb_Block c) = Some row
          /\ chain_columns row = chain_columns (block_row m c)).
Proof.
  intros Ee. cbv zeta. pose proof (momentum_height_row env m Ee) as Hrow.
  pose proof (fun Hnd c => momentum_new_block env m c Ee Hnd) as Hnew.
  destruct (processMomentum_parts _ _ Ee) as (ps & st & Hps & Hx & _ & En). exists ps.
  split_and!; [|..|exact Hrow|exact Hnew].
  { eapply Forall2_impl; [exact Hps|]. intros c p Hp. split; [exact Hp|].
    apply queueAccountBlockNotify_Ok in Hp as (p' & [= ->] & Hlen). exact Hlen. }
  - rewrite En. cbn [out_notes].
    rewrite (exec_from_notes _ _ _ _ _ Hx), (notes_momentum _ _ _ Hps).
    by apply fold_momentum_last.
  - apply fold_add_note_nodup, NoDup_nil_2.
  - intros n. rewrite fold_add_note_elem, list_elem_of_fmap. set_solver.
  - eapply (note_fits _ _ _ _ _ "momentum_new"); [|exact Hx]. unfold tail_part. set_solver.
Qed.

(** A momentum with one new block: both notifications, of the rows that are stored. *)
Lemma processMomentum_notifications_witness :
  let env := toy_env empty_db [transfer] in
  let m := toy_momentum 5 [transfer] in
  let after := out_db (processMomentum env m) in
  length (out_notes (processMomentum env m)) = 2%nat
  /\ db_momentums after !! 5 = Some (momentum_row env m)
  /\ (exists row, db_account_blocks after !! "tx1" = Some row
       /\ chain_columns row = chain_columns (block_row m transfer)).
Proof.
  destruct (processMomentum_notifications (toy_env empty_db [transfer])
              (toy_momentum 5 [transfer])) as (ps & _ & _ & Hm & Hb); [vm_compute; reflexivity|].
  split_and!; [vm_compute; reflexivity|exact Hm|].
  apply (Hb ltac:(vm_compute; apply NoDup_singleton) transfer).
  - vm_compute. left.
  - intros [r Hr]. discriminate Hr.
Defined.

(** C7. The cached transaction counter behind [ListByAddress]' total stays exact: as long
    as the momentum's blocks are new and pairwise distinct, an account whose [tx_count] is
    the number of stored blocks it sends or receives still has that after a call,
    whatever the call answers. *)
Theorem tx_count_exact env m a :
  a <> "" ->
  NoDup (fetched_hashes env m) ->
  (forall h, h ∈ fetched_hashes env m -> ~ has_block h (pl_db (env_pool env))) ->
  tx_count a (pl_db (env_pool env)) = blocks_touching a (pl_db (env_pool env)) ->
  let after := out_db (processMomentum env m) in
  AccountBlockRepository.ListByAddress_total a (db_accounts after)
  = Ok (AccountBlockRepository.count_touching a (db_account_blocks after)).
Proof.
  intros Ha Hnd Hf Hinv. cbv zeta. unfold AccountBlockRepository.ListByAddress_total.
  destruct a as [|c a]; [done|]. simpl str_empty. cbv iota. f_equal.
  fold (tx_count (String c a) (out_db (processMomentum env m))).
  fold (blocks_touching (String c a) (out_db (processMomentum env m))).
  destruct (out_err (processMomentum env m)) as [e|] eqn:Ee.
  - by rewrite (processMomentum_Err _ _ _ Ee).
  - rewrite (momentum_tx_count _ _ _ Ha Ee), (momentum_touching_fresh _ _ _ Hnd Hf Ee). lia.
Qed.

Lemma tx_count_exact_witness :
  let env := toy_env empty_db [transfer] in
  let m := toy_momentum 5 [transfer] in
  tx_count "z1bob" (out_db (processMomentum env m)) = 1
  /\ AccountBlockRepository.ListByAddress_total "z1bob"
       (db_accounts (out_db (processMomentum env m)))
     = Ok (AccountBlockRepository.count_touching "z1bob"
             (db_account_blocks (out_db (processMomentum env m)))).
Proof.
  split; [vm_compute; reflexivity|].
  apply (tx_count_exact (toy_env empty_db [transfer]) (toy_momentum 5 [transfer]) "z1bob").
  - done.
  - vm_compute. constructor; [|constructor]. intros H. inversion H.
  - intros h _ [r Hr]. discriminate Hr.
  - reflexivity.
Defined.

(** Processing a momentum whose blocks are all stored already (what a backfill of an
    incomplete height does) counts them again: the stored rows an account touches stay the
    same while its [tx_count] grows by each of the momentum's blocks, so the cached total
    is no longer the number of rows. *)
Theorem reprocessing_inflates_tx_count env m a :
  a <> "" ->
  (forall h, h ∈ fetched_hashes env m -> has_block h (pl_db (env_pool env))) ->
  out_err (processMomentum env m) = None ->
  let before := pl_db (env_pool env) in
  let after := out_db (processMomentum env m) in
  blocks_touching a after = blocks_touching a before
  /\ tx_count a after = tx_count a before + fetched_touching a env m.
Proof.
  intros Ha Hs He. cbv zeta. split.
  - by apply momentum_touching_stored.
  - by apply momentum_tx_count.
Qed.

Definition transfer_stored : Db :=
  out_db (processMomentum (toy_env empty_db [transfer]) (toy_momentum 5 [transfer])).

Lemma reprocessing_inflates_tx_count_witness :
  let env := toy_env transfer_stored [transfer] in
  let m := toy_momentum 5 [transfer] in
  let after := out_db (processMomentum env m) in
  tx_count "z1bob" after = 2 /\ blocks_touching "z1bob" after = 1
  /\ blocks_touching "z1bob" after = blocks_touching "z1bob" transfer_stored
  /\ tx_count "z1bob" after
     = tx_count "z1bob" transfer_stored + fetched_touching "z1bob" env m.
Proof.
  split; [vm_compute; reflexivity|]. split; [vm_compute; reflexivity|].
  apply (reprocessing_inflates_tx_count (toy_env transfer_stored [transfer])
           (toy_momentum 5 [transfer]) "z1bob").
  - done.
  - intros h ->%list_elem_of_singleton. vm_compute. by eexists.
  - vm_compute. reflexivity.
Defined.


