(* ===== verification/DelegationTheorems.v ===== *)
(** Delegations and HTLCs under [processMomentum]: invariants of the two tables and the
    effect of the handlers that write them. *)

From S2P Require Import Prelude.
From S2P Require Import Models.
From S2P Require Import Chain.
From S2P Require Import RepoLedger.
From S2P Require Import RepoContracts.
From S2P Require Import Database.
From S2P Require Import ExecFacts.
From S2P Require Import Decoder.
From S2P Require Import Embedded.
From S2P Require Import Processor.
From S2P Require Import ProcessorShape.
From S2P Require Import LedgerFacts.
From S2P Require Import LedgerProps.
From S2P Require Import Samples.
#[local] Open Scope string_scope.
#[local] Open Scope Z_scope.

(** ** Statements on delegations *)

Lemma exec_delegations s db db' :
  exec_row s db = Ok db' ->
  match s with
  | SDelegationClose d ts =>
      DelegationRepository.CloseActive d ts (db_delegations db) = Ok (db_delegations db')
  | SDelegationOpen d p ts =>
      DelegationRepository.Open d p ts (db_delegations db) = Ok (db_delegations db')
  | _ => db_delegations db' = db_delegations db
  end.
Proof. intros H. exec_cases s H; try reflexivity; exact Ht. Qed.

(** The open delegations of an address. *)
Definition open_of (d : string) (db : Db) : list Delegation :=
  List.filter (DelegationRepository.open_for d) (db_delegations db).

Definition one_open (db : Db) : Prop := forall d, (length (open_of d db) <= 1)%nat.

Lemma filter_close_self d ts t :
  List.filter (DelegationRepository.open_for d)
    (map (fun x => if DelegationRepository.open_for d x then x <| del_EndedAt := Some ts |>
                   else x) t) = [].
Proof.
  induction t as [|x t IH]; simpl; [done|].
  destruct (DelegationRepository.open_for d x) eqn:E.
  - unfold DelegationRepository.open_for at 1. simpl. by rewrite andb_false_r.
  - by rewrite E.
Qed.

Lemma filter_close_other d d' ts t :
  d <> d' ->
  List.filter (DelegationRepository.open_for d')
    (map (fun x => if DelegationRepository.open_for d x then x <| del_EndedAt := Some ts |>
                   else x) t)
  = List.filter (DelegationRepository.open_for d') t.
Proof.
  intros Hne. induction t as [|x t IH]; simpl; [done|]. rewrite IH.
  destruct (DelegationRepository.open_for d x) eqn:E; [|done].
  unfold DelegationRepository.open_for in *. simpl.
  apply andb_prop in E as [Ex%String.eqb_eq _].
  destruct (String.eqb_spec (del_DelegatorAddress x) d') as [Ey|]; [congruence|done].
Qed.

Lemma open_after_close d ts db db' d' :
  exec_row (SDelegationClose d ts) db = Ok db' ->
  open_of d' db' = if decide (d = d') then [] else open_of d' db.
Proof.
  intros H%exec_delegations. simpl in H. injection H as H. unfold open_of. rewrite <- H.
  case_decide; subst; [apply filter_close_self|by apply filter_close_other].
Qed.

Lemma open_after_open d p ts db db' d' :
  exec_row (SDelegationOpen d p ts) db = Ok db' ->
  open_of d' db'
  = (open_of d' db ++ if decide (d = d') then
       [mkDelegation d p ts None] else [])%list.
Proof.
  intros H%exec_delegations. simpl in H. injection H as H. unfold open_of. rewrite <- H.
  rewrite List.filter_app. f_equal. simpl. unfold DelegationRepository.open_for. simpl.
  rewrite andb_true_r. case_decide; subst.
  - by rewrite String.eqb_refl.
  - by destruct (String.eqb_spec d d').
Qed.

Definition is_open_stmt (s : stmt) : bool :=
  match s with SDelegationOpen _ _ _ => true | _ => false end.

Lemma one_open_stmt s db db' :
  is_open_stmt s = false -> one_open db -> exec_row s db = Ok db' -> one_open db'.
Proof.
  intros Hs Ho H d.
  destruct s; try discriminate Hs;
    try (pose proof (exec_delegations _ _ _ H) as He; unfold open_of; cbv iota in He;
         rewrite He; apply Ho).
  rewrite (open_after_close _ _ _ _ d H). case_decide; simpl; [lia|apply Ho].
Qed.

(** The three statements of a Delegate call. *)
Definition delegate_switch (d p : string) (ts : Z) : batch :=
  [SAccountUpdateDelegate d p ts; SDelegationClose d ts; SDelegationOpen d p ts].

Lemma delegate_switch_open d p ts faults j st st' d' :
  exec_from faults j (delegate_switch d p ts) st = Ok st' ->
  if decide (d = d') then
    open_of d' (tx_db st') = [mkDelegation d p ts None]
  else open_of d' (tx_db st') = open_of d' (tx_db st).
Proof.
  unfold delegate_switch.
  intros (_ & st1 & H1 & (_ & st2 & H2 & (_ & st3 & H3 & [= <-])%exec_from_cons)
            %exec_from_cons)%exec_from_cons.
  apply exec_stmt_Ok in H1, H2, H3.
  rewrite (open_after_open _ _ _ _ _ d' H3), (open_after_close _ _ _ _ d' H2).
  assert (Hu : open_of d' (tx_db st1) = open_of d' (tx_db st)).
  { pose proof (exec_delegations _ _ _ H1) as He. cbv iota in He. unfold open_of. by rewrite He. }
  case_decide; simpl; [done|]. by rewrite app_nil_r, Hu.
Qed.

(** What a pillar call does to the delegations: switch, close, or nothing. *)
Definition no_delegation (s : stmt) : bool :=
  match s with SDelegationOpen _ _ _ | SDelegationClose _ _ => false | _ => true end.

Definition known_delegate (env : Env) (d : TxData) : bool :=
  String.eqb (tx_Method d) "Delegate" && negb (str_empty (get_str (tx_Inputs d) "name"))
  && negb (str_empty (getPillarOwnerAddress env (get_str (tx_Inputs d) "name"))).

Lemma pillar_delegation_cases env block paired d m :
  cb_PairedAccountBlock block = Some paired ->
  let b := indexPillarContract env block d m in
  if known_delegate env d then
    b = delegate_switch (nb_Address paired)
          (getPillarOwnerAddress env (get_str (tx_Inputs d) "name")) (m_ts m)
  else if String.eqb (tx_Method d) "Undelegate" then
    b = [SAccountUpdateDelegate (nb_Address paired) "" 0;
         SDelegationClose (nb_Address paired) (m_ts m)]
  else all_of no_delegation b.
Proof.
  intros Hp. cbv zeta. unfold indexPillarContract, known_delegate. rewrite Hp.
  destruct (String.eqb_spec (tx_Method d) "Delegate") as [->|Hd].
  - simpl. destruct (str_empty (get_str _ _)); simpl; [constructor|].
    destruct (str_empty (getPillarOwnerAddress _ _)); simpl; [constructor|done].
  - simpl. destruct (String.eqb_spec (tx_Method d) "Undelegate") as [->|Hu]; [done|].
    solve_kind.
Qed.

(** A contract call's statements open a delegation only as part of a switch. *)
Lemma embedded_open env c m :
  all_of (fun s => negb (is_open_stmt s)) (embedded_stmts env c m)
  \/ exists d p ts, embedded_stmts env c m = delegate_switch d p ts.
Proof.
  unfold embedded_stmts. destruct (cb_PairedAccountBlock c) as [paired|] eqn:Hp;
    [|left; constructor].
  case_match; [|left; constructor].
  destruct (tryDecodeTxData (env_sdk env) paired) as [d|]; [|left; constructor].
  unfold indexEmbeddedContracts. case_match.
  - pose proof (pillar_delegation_cases env c paired d m Hp) as Hcase. cbv zeta in Hcase.
    destruct (known_delegate env d); [right; eauto|left].
    destruct (String.eqb (tx_Method d) "Undelegate"); [rewrite Hcase; repeat constructor|].
    eapply Forall_impl; [exact Hcase|]. intros s. by destruct s.
  - left. unfold indexStakeContract, indexSentinelContract, indexPlasmaContract,
      indexAcceleratorContract, indexTokenContract, indexHtlcContract, indexSwapContract.
    solve_kind.
Qed.

(** With no delegate known, nothing opens a delegation. *)
Lemma embedded_no_open env c m :
  (forall d, known_delegate env d = false) ->
  all_of (fun s => negb (is_open_stmt s)) (embedded_stmts env c m).
Proof.
  intros Hk. unfold embedded_stmts. destruct (cb_PairedAccountBlock c) as [paired|] eqn:Hp;
    [|constructor].
  case_match; [|constructor].
  destruct (tryDecodeTxData (env_sdk env) paired) as [d|]; [|constructor].
  unfold indexEmbeddedContracts. case_match.
  - pose proof (pillar_delegation_cases env c paired d m Hp) as Hcase. cbv zeta in Hcase.
    rewrite Hk in Hcase.
    destruct (String.eqb (tx_Method d) "Undelegate"); [rewrite Hcase; repeat constructor|].
    eapply Forall_impl; [exact Hcase|]. intros s. by destruct s.
  - unfold indexStakeContract, indexSentinelContract, indexPlasmaContract,
      indexAcceleratorContract, indexTokenContract, indexHtlcContract, indexSwapContract.
    solve_kind.
Qed.

Lemma momentum_one_open env m :
  one_open (pl_db (env_pool env)) -> one_open (out_db (processMomentum env m)).
Proof.
  intros Ho. apply momentum_preserves; [| |exact Ho].
  - intros s db db' Hs. apply one_open_stmt. by destruct s.
  - intros c _. destruct (embedded_open env c m) as [Hno|(d & p & ts & ->)].
    + eapply preserves_kind; [|exact Hno]. intros s db db' Hs%negb_true_iff.
      by apply one_open_stmt.
    + intros faults j st st' HP Hx d'.
      pose proof (delegate_switch_open _ _ _ _ _ _ _ d' Hx) as Hopen.
      case_decide; [rewrite Hopen; simpl; lia|rewrite Hopen; apply HP].
Qed.

(** At most one delegation of an address is open at any time: processing a momentum,
    whatever it contains, keeps every address at one open row or none, because a Delegate
    call closes the previous row in the same transaction that opens the new one. *)
Theorem one_open_delegation env m d :
  one_open (pl_db (env_pool env)) ->
  (length (List.filter (DelegationRepository.open_for d)
             (db_delegations (out_db (processMomentum env m)))) <= 1)%nat.
Proof. intros Ho. by apply momentum_one_open. Qed.

Definition delegate_block : ChainBlock :=
  contract_receive "r1" PillarAddress (toy_send "c1" "z1alice" PillarAddress "delepillar-one" 0).

Definition delegated_db : Db :=
  out_db (processMomentum (toy_env empty_db [delegate_block]) (toy_momentum 5 [delegate_block])).

Lemma one_open_delegation_witness :
  let env := toy_env delegated_db [delegate_block] in
  let after := out_db (processMomentum env (toy_momentum 6 [delegate_block])) in
  length (db_delegations after) = 2%nat
  /\ (length (List.filter (DelegationRepository.open_for "z1alice") (db_delegations after))
      <= 1)%nat.
Proof.
  split; [vm_compute; reflexivity|].
  apply (one_open_delegation (toy_env delegated_db [delegate_block])
           (toy_momentum 6 [delegate_block]) "z1alice").
  intros d. unfold open_of.
  change (db_delegations (pl_db (env_pool (toy_env delegated_db [delegate_block]))))
    with (db_delegations delegated_db).
  replace (db_delegations delegated_db)
    with [mkDelegation "z1alice" "z1owner" 1050 None] by (vm_compute; reflexivity).
  simpl. destruct (DelegationRepository.open_for d _); simpl; lia.
Defined.

Lemma no_delegation_open b faults j st st' other :
  all_of no_delegation b -> exec_from faults j b st = Ok st' ->
  open_of other (tx_db st') = open_of other (tx_db st).
Proof.
  intros Hb Hx.
  apply (preserves_kind (fun db => open_of other db = open_of other (tx_db st))
           no_delegation b) in Hx;
    [exact Hx| |exact Hb|reflexivity].
  intros s db db' Hs Hdb H. rewrite <- Hdb. unfold open_of.
  pose proof (exec_delegations _ _ _ H) as He.
  destruct s; try discriminate Hs; cbv iota in He; by rewrite He.
Qed.

Lemma undelegate_open a ts faults j st st' other :
  exec_from faults j [SAccountUpdateDelegate a "" 0; SDelegationClose a ts] st = Ok st' ->
  open_of other (tx_db st') = if decide (a = other) then [] else open_of other (tx_db st).
Proof.
  intros (_ & st1 & H1 & (_ & st2 & H2 & [= <-])%exec_from_cons)%exec_from_cons.
  apply exec_stmt_Ok in H1, H2. rewrite (open_after_close _ _ _ _ other H2).
  pose proof (exec_delegations _ _ _ H1) as He. cbv iota in He. unfold open_of. by rewrite He.
Qed.

(** A Delegate call to a known pillar makes that pillar's owner the delegator's active
    pillar, an Undelegate call leaves the delegator with none, every other pillar call
    leaves the delegator's active pillar alone, and no call changes anyone else's. *)
Theorem delegate_sets_active env block paired d m j st st' :
  cb_PairedAccountBlock block = Some paired ->
  exec_from (fun _ => None) j (indexPillarContract env block d m) st = Ok st' ->
  forall a,
    DelegationRepository.GetActivePillarFor a (db_delegations (tx_db st'))
    = if String.eqb a (nb_Address paired) then
        if known_delegate env d then
          getPillarOwnerAddress env (get_str (tx_Inputs d) "name")
        else if String.eqb (tx_Method d) "Undelegate" then ""
        else DelegationRepository.GetActivePillarFor a (db_delegations (tx_db st))
      else DelegationRepository.GetActivePillarFor a (db_delegations (tx_db st)).
Proof.
  intros Hp Hx a. unfold DelegationRepository.GetActivePillarFor.
  fold (open_of a (tx_db st')) (open_of a (tx_db st)).
  pose proof (pillar_delegation_cases env block paired d m Hp) as Hcase. cbv zeta in Hcase.
  destruct (known_delegate env d); [|destruct (String.eqb (tx_Method d) "Undelegate")].
  - rewrite Hcase in Hx. pose proof (delegate_switch_open _ _ _ _ _ _ _ a Hx) as Ho.
    destruct (String.eqb_spec a (nb_Address paired)) as [->|Hne].
    + rewrite decide_True in Ho by done. by rewrite Ho.
    + rewrite decide_False in Ho by done. by rewrite Ho.
  - rewrite Hcase in Hx. rewrite (undelegate_open _ _ _ _ _ _ a Hx).
    destruct (String.eqb_spec a (nb_Address paired)) as [->|Hne].
    + by rewrite decide_True.
    + by rewrite decide_False.
  - rewrite (no_delegation_open _ _ _ _ _ a Hcase Hx). by destruct (String.eqb a (nb_Address paired)).
Qed.

Lemma delegate_sets_active_witness :
  match exec_from (fun _ => None) 0
      (indexPillarContract (toy_env empty_db []) delegate_block
         (mkTxData "Delegate" (<["name" := "pillar-one"]> ∅)) (toy_momentum 5 []))
      (mkTxState empty_db []) with
  | Ok st' =>
      DelegationRepository.GetActivePillarFor "z1alice" (db_delegations (tx_db st')) = "z1owner"
  | Err _ => False
  end.
Proof.
  destruct (exec_from _ _ _ _) as [st'|e] eqn:E; [|vm_compute in E; discriminate E].
  rewrite (delegate_sets_active _ delegate_block
             (toy_send "c1" "z1alice" PillarAddress "delepillar-one" 0)
             _ _ _ _ _ eq_refl E "z1alice").
  reflexivity.
Defined.
