(* ===== verification/ContractTheorems.v ===== *)
(** HTLCs, stakes, fusions, votes and the legacy swap: lifecycle invariants under
    [processMomentum] and the exact effect of the calls that change rows. *)

From S2P Require Import Prelude.
From S2P Require Import Models.
From S2P Require Import Chain.
From S2P Require Import RepoLedger.
From S2P Require Import RepoContracts.
From S2P Require Import Database.
From S2P Require Import ExecFacts.
From S2P Require Import Decoder.
From S2P Require Import Embedded.
From S2P Require Import Processor.
From S2P Require Import ProcessorShape.
From S2P Require Import LedgerProps.
From S2P Require Import Samples.
#[local] Open Scope string_scope.
#[local] Open Scope Z_scope.

(** ** HTLCs *)

(** A lock's row: active and unsettled, unlocked, or reclaimed without a preimage. *)
Definition htlc_ok (h : Htlc) : Prop :=
  (htlc_Status h = HtlcStatusActive /\ htlc_Preimage h = "" /\ htlc_SettleMomentumHeight h = 0
   /\ htlc_SettleMomentumTimestamp h = 0)
  \/ htlc_Status h = HtlcStatusUnlocked
  \/ (htlc_Status h = HtlcStatusReclaimed /\ htlc_Preimage h = "").

Definition htlcs_ok (db : Db) : Prop := forall id h, db_htlcs db !! id = Some h -> htlc_ok h.

(** The columns fixed at creation. *)
Definition htlc_terms (h : Htlc) : Htlc :=
  h <| htlc_Status := 0 |> <| htlc_Preimage := "" |> <| htlc_SettleMomentumHeight := 0 |>
    <| htlc_SettleMomentumTimestamp := 0 |>.

(** What the handlers queue for the table. *)
Definition htlc_good (s : stmt) : bool :=
  match s with
  | SHtlcInsert h => (htlc_Status h =? HtlcStatusActive) && str_empty (htlc_Preimage h)
      && (htlc_SettleMomentumHeight h =? 0) && (htlc_SettleMomentumTimestamp h =? 0)
  | SHtlcSettle _ st p _ _ =>
      (st =? HtlcStatusUnlocked) || ((st =? HtlcStatusReclaimed) && str_empty p)
  | _ => true
  end.

Lemma str_empty_true s : str_empty s = true -> s = "".
Proof. by destruct s. Qed.

Lemma embedded_htlc_good env c m : all_of htlc_good (embedded_stmts env c m).
Proof.
  unfold embedded_stmts, indexEmbeddedContracts, indexPillarContract, indexStakeContract,
    indexSentinelContract, indexPlasmaContract, indexAcceleratorContract,
    indexTokenContract, indexHtlcContract, indexSwapContract.
  solve_kind.
Qed.

Lemma exec_htlcs s db db' :
  exec_row s db = Ok db' ->
  match s with
  | SHtlcInsert h => db_htlcs db' = insert_nothing (htlc_ID h) h (db_htlcs db)
  | SHtlcSettle i st p ht ts => HtlcRepository.Settle i st p ht ts (db_htlcs db) = Ok (db_htlcs db')
  | _ => db_htlcs db' = db_htlcs db
  end.
Proof.
  intros H. exec_cases s H; try reflexivity; [by injection Ht as <-|exact Ht].
Qed.

(** What is kept of the row [h] once stored under [id]. *)
Definition htlc_follows (id : string) (h : Htlc) (db : Db) : Prop :=
  exists h', db_htlcs db !! id = Some h' /\ htlc_terms h' = htlc_terms h
    /\ (htlc_Status h <> HtlcStatusActive -> htlc_Status h' <> HtlcStatusActive).

Lemma htlc_step_ok s db db' :
  htlc_good s = true -> htlcs_ok db -> exec_row s db = Ok db' -> htlcs_ok db'.
Proof.
  intros Hg Hok H id h. pose proof (exec_htlcs _ _ _ H) as He.
  destruct s; try (rewrite He; apply Hok).
  - rewrite He, insert_nothing_lookup. case_decide as Hid; [|apply Hok]. subst id.
    intros [= <-].
    destruct (db_htlcs db !! htlc_ID h0) eqn:E; [by eapply Hok|]. left. simpl in Hg |- *.
    rewrite !andb_true_iff, !Z.eqb_eq in Hg. destruct Hg as [[[? ?%str_empty_true] ?] ?]. done.
  - apply update_row_Ok in He as [[_ ->]|(v & v' & E & [= <-] & ->)]; [apply Hok|].
    destruct (decide (id0 = id)) as [->|Hne]; [|rewrite lookup_insert_ne by done; apply Hok].
    rewrite lookup_insert_eq. intros [= <-]. simpl in Hg.
    rewrite orb_true_iff, andb_true_iff, !Z.eqb_eq in Hg. unfold htlc_ok. simpl.
    destruct Hg as [?|[? ?%str_empty_true]]; tauto.
Qed.

Lemma htlc_step_follows id h s db db' :
  htlc_good s = true -> htlc_follows id h db -> exec_row s db = Ok db' ->
  htlc_follows id h db'.
Proof.
  intros Hg (h1 & Hl & Ht & Hst) H. pose proof (exec_htlcs _ _ _ H) as He.
  unfold htlc_follows.
  destruct s; try (rewrite He; eauto).
  - exists h1. split; [|done]. rewrite insert_nothing_lookup.
    case_decide; [subst|done]. by rewrite Hl.
  - apply update_row_Ok in He as [[_ ->]|(v & v' & E & [= <-] & ->)]; [by eauto|].
    destruct (decide (id0 = id)) as [->|Hne]; [|exists h1; by rewrite lookup_insert_ne].
    rewrite lookup_insert_eq. rewrite Hl in E. injection E as <-.
    eexists. split; [done|]. split; [exact Ht|]. intros _. simpl.
    simpl in Hg. rewrite orb_true_iff, andb_true_iff, !Z.eqb_eq in Hg.
    destruct Hg as [->|[-> _]]; done.
Qed.

(** C38. The HTLC state machine. Processing a momentum, whatever it contains, keeps every
    stored lock's terms, never removes a lock, never takes a settled lock back to active
    (a repeated Create does not reset it), and leaves each row either active with no
    preimage and no settlement, unlocked, or reclaimed with no preimage. *)
Theorem htlc_lifecycle env m id h :
  htlcs_ok (pl_db (env_pool env)) ->
  db_htlcs (pl_db (env_pool env)) !! id = Some h ->
  let after := out_db (processMomentum env m) in
  (exists h', db_htlcs after !! id = Some h' /\ htlc_terms h' = htlc_terms h
     /\ (htlc_Status h <> HtlcStatusActive -> htlc_Status h' <> HtlcStatusActive))
  /\ htlcs_ok after.
Proof.
  intros Hok Hl. cbv zeta. split.
  - change (htlc_follows id h (out_db (processMomentum env m))).
    apply momentum_preserves; [| |by exists h].
    + intros s db db' Hs. apply htlc_step_follows. by destruct s.
    + intros c _. eapply preserves_kind; [|apply embedded_htlc_good].
      intros s db db'. apply htlc_step_follows.
  - apply momentum_preserves; [| |exact Hok].
    + intros s db db' Hs. apply htlc_step_ok. by destruct s.
    + intros c _. eapply preserves_kind; [|apply embedded_htlc_good].
      intros s db db'. apply htlc_step_ok.
Qed.

Definition htlc_create : ChainBlock :=
  contract_receive "r1" HtlcAddress
    (toy_send "lock1" "z1alice" HtlcAddress "creaz1bob,99,0,32,hh" 50).
Definition htlc_unlock : ChainBlock :=
  contract_receive "r2" HtlcAddress
    (toy_send "c2" "z1bob" HtlcAddress "unlklock1,pp" 0).

Definition locked_db : Db :=
  out_db (processMomentum (toy_env empty_db [htlc_create]) (toy_momentum 5 [htlc_create])).

Definition locked_row : Htlc :=
  mkHtlc "lock1" "z1alice" "z1bob" ZnnTokenStandard 50 99 0 32 "6868" 0 "" 5 1050 0 0.

Lemma locked_rows : db_htlcs locked_db = {[ "lock1" := locked_row ]}.
Proof. vm_compute. reflexivity. Qed.

Lemma locked_ok : htlcs_ok locked_db.
Proof.
  intros id h. rewrite locked_rows. intros [_ <-]%lookup_singleton_Some. left.
  repeat split.
Qed.

Lemma htlc_lifecycle_witness :
  let env := toy_env locked_db [htlc_unlock; htlc_create] in
  let m := toy_momentum 6 [htlc_unlock; htlc_create] in
  let after := out_db (processMomentum env m) in
  (fun h => (htlc_Status h, htlc_Preimage h)) <$> db_htlcs after !! "lock1"
    = Some (HtlcStatusUnlocked, "7070")
  /\ (exists h', db_htlcs after !! "lock1" = Some h' /\ htlc_terms h' = htlc_terms locked_row
       /\ (htlc_Status locked_row <> HtlcStatusActive -> htlc_Status h' <> HtlcStatusActive))
  /\ htlcs_ok after.
Proof.
  split; [vm_compute; reflexivity|].
  apply (htlc_lifecycle (toy_env locked_db [htlc_unlock; htlc_create])
           (toy_momentum 6 [htlc_unlock; htlc_create]) "lock1" locked_row).
  - exact locked_ok.
  - vm_compute. reflexivity.
Defined.

(** ** Stakes and fusions *)

(** Rows are keyed by their id and carry the cancel id computed from it. *)
Definition stakes_ok (sdk : Sdk) (db : Db) : Prop :=
  forall id s, db_stakes db !! id = Some s ->
    stk_ID s = id /\ stk_CancelID s = getStakeCancelID sdk id.

Definition fusions_ok (sdk : Sdk) (db : Db) : Prop :=
  forall id f, db_fusions db !! id = Some f ->
    fus_ID f = id /\ fus_CancelID f = getFusionCancelID sdk id.

Definition cancel_good (sdk : Sdk) (s : stmt) : bool :=
  match s with
  | SStakeInsert x => String.eqb (stk_CancelID x) (getStakeCancelID sdk (stk_ID x))
  | SFusionInsert x => String.eqb (fus_CancelID x) (getFusionCancelID sdk (fus_ID x))
  | _ => true
  end.

Lemma embedded_cancel_good env c m : all_of (cancel_good (env_sdk env)) (embedded_stmts env c m).
Proof.
  unfold embedded_stmts, indexEmbeddedContracts, indexPillarContract, indexStakeContract,
    indexSentinelContract, indexPlasmaContract, indexAcceleratorContract,
    indexTokenContract, indexHtlcContract, indexSwapContract.
  unfold all_of, cancel_good. repeat (case_match; try subst);
    repeat first [apply Forall_nil_2 | apply Forall_cons_2];
    cbn [stk_ID stk_CancelID fus_ID fus_CancelID];
    first [simple apply String.eqb_refl | exact (eq_refl true)].
Qed.

Lemma stakes_step_ok sdk s db db' :
  cancel_good sdk s = true -> stakes_ok sdk db -> exec_row s db = Ok db' -> stakes_ok sdk db'.
Proof.
  intros Hg Hok H id x. exec_cases s H; try apply Hok.
  - apply bind_Ok in Ht as (_ & _ & [= <-]). simpl. rewrite insert_nothing_lookup.
    case_decide as Hid; [|apply Hok]. subst id. intros [= <-].
    destruct (db_stakes db !! stk_ID s) eqn:E; [by eapply Hok|]. split; [done|].
    by apply String.eqb_eq.
  - injection Ht as <-. simpl. rewrite update_where_lookup. intros (y & Hy & ->)%fmap_Some.
    destruct (Hok _ _ Hy). by destruct (StakeRepository.matches cancelID address y).
Qed.

Lemma fusions_step_ok sdk s db db' :
  cancel_good sdk s = true -> fusions_ok sdk db -> exec_row s db = Ok db' -> fusions_ok sdk db'.
Proof.
  intros Hg Hok H id x. exec_cases s H; try apply Hok.
  - injection Ht as <-. simpl. rewrite insert_nothing_lookup.
    case_decide as Hid; [|apply Hok]. subst id. intros [= <-].
    destruct (db_fusions db !! fus_ID f) eqn:E; [by eapply Hok|]. split; [done|].
    by apply String.eqb_eq.
  - injection Ht as <-. simpl. rewrite update_where_lookup. intros (y & Hy & ->)%fmap_Some.
    destruct (Hok _ _ Hy). by destruct (FusionRepository.matches cancelID address y).
Qed.

(** The identifiers cancellations match on are always the ones computed from the rows'
    own ids: processing a momentum keeps every stake and every fusion keyed by its id with
    the matching cancel id. *)
Theorem cancel_ids_consistent env m :
  stakes_ok (env_sdk env) (pl_db (env_pool env)) ->
  fusions_ok (env_sdk env) (pl_db (env_pool env)) ->
  stakes_ok (env_sdk env) (out_db (processMomentum env m))
  /\ fusions_ok (env_sdk env) (out_db (processMomentum env m)).
Proof.
  intros Hs Hf. split.
  - apply momentum_preserves; [| |exact Hs].
    + intros s db db' He. apply stakes_step_ok. by destruct s.
    + intros c _. eapply preserves_kind; [|apply embedded_cancel_good].
      intros s db db'. apply stakes_step_ok.
  - apply momentum_preserves; [| |exact Hf].
    + intros s db db' He. apply fusions_step_ok. by destruct s.
    + intros c _. eapply preserves_kind; [|apply embedded_cancel_good].
      intros s db db'. apply fusions_step_ok.
Qed.

Definition stake_block : ChainBlock :=
  contract_receive "r1" StakeAddress (toy_send "stake1" "z1alice" StakeAddress "stak3600" 50).

Definition staked_db : Db :=
  out_db (processMomentum (toy_env empty_db [stake_block]) (toy_momentum 5 [stake_block])).

Lemma cancel_ids_consistent_witness :
  is_Some (db_stakes staked_db !! "stake1")
  /\ stakes_ok toy_sdk staked_db /\ fusions_ok toy_sdk staked_db.
Proof.
  split; [vm_compute; by eexists|].
  apply (cancel_ids_consistent (toy_env empty_db [stake_block]) (toy_momentum 5 [stake_block])).
  - intros id s Hs. discriminate Hs.
  - intros id s Hs. discriminate Hs.
Defined.

(** The SDK's codec on one cancellation method: it encodes every id and decodes what it
    encoded. *)
Definition cancel_codec (abi : Abi) (method : string) : Prop :=
  abi_codec_ok abi method
  /\ forall h, is_ok (abi_EncodeFunction abi method [ArgHash h]) = true.

Lemma reencoded_canonical sdk abi method given id :
  cancel_codec abi method -> sdk_HexToHash sdk given = Ok id ->
  reencoded_id sdk abi method [] given = id.
Proof.
  intros [Hc He] Hh. rewrite reencoded_id_spec by done. by rewrite Hh, He.
Qed.

Lemma exec_one faults j s st st' :
  exec_from faults j [s] st = Ok st' -> exec_row s (tx_db st) = Ok (tx_db st').
Proof. intros (_ & st1 & H & [= <-])%exec_from_cons. by apply exec_stmt_Ok. Qed.

(** Cancelling a stake deactivates exactly the stake with the given id, and only when
    the caller is its owner: with stored ids in canonical form, after the Cancel call every
    other row, and the row itself for any other caller, is what it was. *)
Theorem stake_cancel_exact env block paired d m id j st st' :
  cancel_codec (sdk_Stake (env_sdk env)) "Cancel" ->
  stakes_ok (env_sdk env) (tx_db st) ->
  (forall k, is_Some (db_stakes (tx_db st) !! k) -> sdk_HexToHash (env_sdk env) k = Ok k) ->
  cb_PairedAccountBlock block = Some paired ->
  tx_Method d = "Cancel" -> get_str (tx_Inputs d) "id" <> "" ->
  sdk_HexToHash (env_sdk env) (get_str (tx_Inputs d) "id") = Ok id ->
  exec_from (fun _ => None) j (indexStakeContract env block d m) st = Ok st' ->
  forall k, db_stakes (tx_db st') !! k
    = (fun s => if String.eqb k id && String.eqb (stk_Address s) (nb_Address paired)
                then s <| stk_IsActive := false |> else s) <$> db_stakes (tx_db st) !! k.
Proof.
  intros Hcod Hok Hcan Hp Hm Hid Hhex Hx k. unfold indexStakeContract in Hx.
  rewrite Hp, Hm in Hx. simpl in Hx.
  destruct (str_empty (get_str (tx_Inputs d) "id")) eqn:E; [by apply str_empty_true in E|].
  apply exec_one in Hx. apply on_table_Ok in Hx as (t & [= <-] & ->). simpl.
  rewrite update_where_lookup.
  destruct (db_stakes (tx_db st) !! k) as [s|] eqn:Ek; [|done]. simpl. f_equal.
  destruct (Hok _ _ Ek) as [_ Hc]. unfold StakeRepository.matches. rewrite Hc.
  unfold getStakeCancelID.
  rewrite (reencoded_canonical _ _ _ _ _ Hcod (Hcan k ltac:(by eexists))).
  by rewrite (reencoded_canonical _ _ _ _ _ Hcod Hhex).
Qed.

Lemma staked_rows :
  db_stakes staked_db
  = {[ "stake1" := mkStake "stake1" "z1alice" 1050 4650 50 3600 true "stake1" ]}.
Proof. vm_compute. reflexivity. Qed.

Lemma staked_ok : stakes_ok toy_sdk staked_db.
Proof.
  intros id s. rewrite staked_rows. intros [<- <-]%lookup_singleton_Some. done.
Qed.

Lemma stake_cancel_exact_witness :
  match exec_from (fun _ => None) 0
      (indexStakeContract (toy_env empty_db []) stake_block
         (mkTxData "Cancel" (<["id" := "stake1"]> ∅)) (toy_momentum 6 []))
      (mkTxState staked_db []) with
  | Ok st' => stk_IsActive <$> db_stakes (tx_db st') !! "stake1" = Some false
  | Err _ => False
  end.
Proof.
  destruct (exec_from _ _ _ _) as [st'|e] eqn:E; [|vm_compute in E; discriminate E].
  assert (Hne : get_str (tx_Inputs (mkTxData "Cancel" (<["id" := "stake1"]> ∅))) "id" <> "")
    by discriminate.
  rewrite (stake_cancel_exact (toy_env empty_db []) stake_block
             (toy_send "stake1" "z1alice" StakeAddress "stak3600" 50)
             (mkTxData "Cancel" (<["id" := "stake1"]> ∅)) (toy_momentum 6 []) "stake1" 0
             (mkTxState staked_db []) st'
             (conj (toy_codec _ _) (fun _ => eq_refl)) staked_ok (fun _ _ => eq_refl)
             eq_refl eq_refl Hne eq_refl E "stake1").
  change (tx_db (mkTxState staked_db [])) with staked_db. rewrite staked_rows. reflexivity.
Defined.
