(* ===== verification/HandlerTheorems.v ===== *)
(** The pieces a momentum's statements are computed from: decoding, reward classification,
    the producer's identity, notification payloads, balances, the swap and the votes. *)

From S2P Require Import Prelude.
From S2P Require Import Models.
From S2P Require Import Chain.
From S2P Require Import Json.
From S2P Require Import RepoLedger.
From S2P Require Import RepoContracts.
From S2P Require Import Database.
From S2P Require Import ExecFacts.
From S2P Require Import Decoder.
From S2P Require Import Embedded.
From S2P Require Import Processor.
From S2P Require Import ProcessorShape.
From S2P Require Import LedgerProps.
From S2P Require Import ContractTheorems.
From S2P Require Import Samples.
#[local] Open Scope string_scope.
#[local] Open Scope Z_scope.

(** ** Decoding *)

(** [t] is what the ABI's first function with the call's selector makes of the data. *)
Definition decodes_as (abi : Abi) (data : string) (t : TxData) : Prop :=
  exists sig e,
    take_bytes 4 data = Some sig /\ e ∈ abi_Entries abi /\ ae_IsFunction e = true
    /\ take_bytes 4 (ae_Signature e) = Some sig /\ tx_Method t = ae_Name e
    /\ (tx_Inputs t = ∅
        \/ exists args, abi_DecodeFunction abi data = Ok args
             /\ tx_Inputs t = collect_inputs (ae_Inputs e) args).

Lemma tryDecodeFromAbi_decodes abi data t :
  tryDecodeFromAbi data (Some abi) = Some t -> decodes_as abi data t.
Proof.
  unfold tryDecodeFromAbi, decodes_as.
  destruct (take_bytes 4 data) as [sig|] eqn:Et; [|done].
  destruct (find_entry sig (abi_Entries abi)) as [e|] eqn:Ef; [|done].
  apply find_entry_Some in Ef as (Hin & Hfn & Hsig). intros H. exists sig, e.
  split_and!; try done.
  - repeat case_match; by simplify_eq/=.
  - repeat case_match; simplify_eq/=; eauto.
Qed.

Lemma collect_inputs_dom ps args k :
  is_Some (collect_inputs ps args !! k) -> k ∈ ps.
Proof.
  unfold collect_inputs.
  assert (Hgen : forall l (m : gmap string string),
    is_Some (fold_left (fun m '(p, a) => <[p := formatArg a]> m) l m !! k) ->
    is_Some (m !! k) \/ k ∈ l.*1).
  { induction l as [|[p a] l IH]; intros m; simpl; [by left|].
    intros [H|H]%IH; [|right; by right].
    destruct (decide (p = k)) as [->|Hne]; [right; by left|].
    rewrite lookup_insert_ne in H by done. by left. }
  intros [H|H]%Hgen; [rewrite lookup_empty in H; by destruct H|].
  apply list_elem_of_fmap in H as ([p a] & -> & Hin). by apply elem_of_zip_l in Hin.
Qed.

(** A decoded call is never made up: the block calls an embedded contract with at least
    a selector, the method is the non-empty name of a function of the shared ABI or, when
    the shared one gives none, of the contract's own ABI, selected by the data's first four
    bytes, and the inputs, if any, are the decoder's arguments under the function's
    parameter names. *)
Theorem tryDecodeTxData_sound sdk block t :
  tryDecodeTxData sdk block = Some t ->
  IsEmbeddedContract (nb_ToAddress block) = true /\ tx_Method t <> ""
  /\ (decodes_as (sdk_Common sdk) (nb_Data block) t
      \/ named (tryDecodeFromAbi (nb_Data block) (Some (sdk_Common sdk))) = None
         /\ exists abi, contract_abi sdk (nb_ToAddress block) = Some abi
              /\ decodes_as abi (nb_Data block) t).
Proof.
  unfold tryDecodeTxData. case_match; [done|].
  destruct (IsEmbeddedContract (nb_ToAddress block)); [|done]. cbn [negb].
  destruct (named (tryDecodeFromAbi (nb_Data block) (Some (sdk_Common sdk)))) as [t'|] eqn:Ec.
  - intros H'. injection H' as ->. apply named_Some in Ec as [Ec Hm]. split_and!; [done|done|left].
    by apply tryDecodeFromAbi_decodes.
  - intros [Hd Hm]%named_Some. split_and!; [done|done|right]. split; [done|].
    destruct (contract_abi sdk (nb_ToAddress block)) as [abi|]; [|done].
    exists abi. split; [done|]. by apply tryDecodeFromAbi_decodes.
Qed.

Definition stake_call : TxData := mkTxData "Stake" (<["durationInSec" := "3600"]> ∅).

Lemma tryDecodeTxData_sound_witness :
  tryDecodeTxData toy_sdk (toy_send "s" "z1alice" StakeAddress "stak3600" 1) = Some stake_call
  /\ IsEmbeddedContract StakeAddress = true /\ tx_Method stake_call <> "".
Proof.
  assert (E : tryDecodeTxData toy_sdk (toy_send "s" "z1alice" StakeAddress "stak3600" 1)
              = Some stake_call) by (vm_compute; reflexivity).
  split; [exact E|].
  destruct (tryDecodeTxData_sound _ _ _ E) as (H1 & H2 & _). split; assumption.
Defined.

(** ** Rewards *)

(** The live reward path and the historical one agree on every source except the pillar
    contract, where the live path also asks whether the receiver is a withdraw address:
    it stays a pillar reward if the answer is yes or the lookup fails, and becomes a
    delegation reward otherwise. *)
Theorem classifyReward_agrees env source receiver :
  classifyReward env source receiver
  = if String.eqb source PillarAddress
       && is_ok (query (env_pool env) "IsWithdrawAddress" (fun _ => Ok tt))
       && negb (PillarRepository.IsWithdrawAddress receiver (db_pillars (pl_db (env_pool env)))
                  (db_pillar_updates (pl_db (env_pool env))))
    then RewardTypeDelegation
    else determineRewardType source.
Proof.
  unfold classifyReward, determineRewardType, query.
  destruct (String.eqb_spec source PillarAddress) as [->|Hp].
  - simpl. destruct (pl_query_err (env_pool env) "IsWithdrawAddress"); simpl; [done|].
    by destruct (PillarRepository.IsWithdrawAddress _ _ _).
  - simpl. by repeat case_match.
Qed.

(** ** The momentum's producer *)

Lemma newest_matching (f : PillarUpdate -> bool) l1 u l2 :
  f u = true -> Forall (fun x => f x = false) l2 ->
  query_row (List.filter f (rev (l1 ++ u :: l2)%list)) = Ok u.
Proof.
  intros Hu Hl. rewrite rev_app_distr. simpl. rewrite !List.filter_app. simpl. rewrite Hu.
  assert (List.filter f (rev l2) = []) as ->; [|done].
  apply Forall_rev in Hl. induction Hl as [|x l Hx _ IH]; [done|]. simpl. by rewrite Hx.
Qed.

(** The producer's identity is read from history: with no read failing, the owner and
    name are those of the newest pillar update, at or before the momentum's height, that
    names this producer address; only when history has no such row (or one without an
    owner) is the current pillars table asked, and an unknown producer gives empty text. *)
Theorem producer_from_history env producer height :
  (forall name, pl_query_err (env_pool env) name = None) ->
  let f u := String.eqb (pu_ProducerAddress u) producer
             && (pu_MomentumHeight u <=? int64 height) in
  let current :=
    match PillarRepository.GetByProducer producer (db_pillars (pl_db (env_pool env))) with
    | Ok p => (pil_OwnerAddress p, pil_Name p)
    | Err _ => ("", "")
    end in
  (forall l1 u l2, db_pillar_updates (pl_db (env_pool env)) = (l1 ++ u :: l2)%list ->
     f u = true -> Forall (fun x => f x = false) l2 ->
     getPillarInfoForProducer env producer height
     = if str_empty (pu_OwnerAddress u) then current else (pu_OwnerAddress u, pu_Name u))
  /\ (Forall (fun x => f x = false) (db_pillar_updates (pl_db (env_pool env))) ->
      getPillarInfoForProducer env producer height = current).
Proof.
  intros Hq. cbv zeta. unfold getPillarInfoForProducer, query. rewrite !Hq.
  unfold PillarUpdateRepository.GetInfoAtHeightByProducer. split.
  - intros l1 u l2 -> Hu Hl. rewrite (newest_matching _ _ _ _ Hu Hl). done.
  - intros Hl. assert (List.filter (fun u => String.eqb (pu_ProducerAddress u) producer
        && (pu_MomentumHeight u <=? int64 height)) (rev (db_pillar_updates (pl_db (env_pool env))))
      = []) as ->; [|done].
    apply Forall_rev in Hl. induction Hl as [|x l Hx _ IH]; [done|]. simpl. by rewrite Hx.
Qed.

Definition renamed_db : Db :=
  empty_db <| db_pillar_updates :=
    [mkPillarUpdate 1 "old" "z1owner" "z1producer" "w" 0 3 "m3" 0 0;
     mkPillarUpdate 2 "new" "z1owner" "z1producer" "w" 0 9 "m9" 0 0] |>.

Lemma producer_from_history_witness :
  getPillarInfoForProducer (toy_env renamed_db []) "z1producer" 5 = ("z1owner", "old").
Proof.
  destruct (producer_from_history (toy_env renamed_db []) "z1producer" 5 (fun _ => eq_refl))
    as [H _].
  apply (H [] (mkPillarUpdate 1 "old" "z1owner" "z1producer" "w" 0 3 "m3" 0 0)
           [mkPillarUpdate 2 "new" "z1owner" "z1producer" "w" 0 9 "m9" 0 0] eq_refl eq_refl).
  repeat constructor.
Defined.

(** ** Notification payloads *)

(** The block notification drops as little as it can: the payload sent is the first, of
    all fields, the fields without [input], and the fields without [input] and [data], that
    is at most 7,900 bytes, and the momentum is aborted only when even the last is too
    long. *)
Theorem queueAccountBlockNotify_spec ab txData :
  let fields := block_fields ab txData in
  let p0 := json_marshal fields in
  let p1 := json_marshal (delete "input" fields) in
  let p2 := json_marshal (delete "data" (delete "input" fields)) in
  match queueAccountBlockNotify ab txData with
  | Ok b =>
      exists p, b = [SNotify "account_block_new" p] /\ too_long p = false
        /\ (p = p0 \/ (too_long p0 = true /\ p = p1)
            \/ (too_long p0 = true /\ too_long p1 = true /\ p = p2))
  | Err _ => too_long p0 = true /\ too_long p1 = true /\ too_long p2 = true
  end.
Proof.
  cbv zeta. unfold queueAccountBlockNotify.
  destruct (too_long (json_marshal (block_fields ab txData))) eqn:E0.
  - destruct (too_long (json_marshal (delete "input" (block_fields ab txData)))) eqn:E1.
    + destruct (too_long (json_marshal (delete "data" _))) eqn:E2; [done|].
      eexists. split; [done|]. tauto.
    + rewrite E1. eexists. split; [done|]. tauto.
  - rewrite E0, E0. eexists. split; [done|]. tauto.
Qed.

(** ** Votes *)

(** A vote call sets the voter's row for the voting id to this momentum's vote,
    whatever momentum the stored row came from: the row kept is the one processed last, not
    the one of the greatest height. No other voter's or voting id's row changes. *)
Theorem vote_last_processed_wins env block paired d m j st st' :
  (tx_Method d = "VoteByName" \/ tx_Method d = "VoteByProdAddress") ->
  get_str (tx_Inputs d) "id" <> "" ->
  cb_PairedAccountBlock block = Some paired ->
  exec_from (fun _ => None) j (indexAcceleratorContract env block d m) st = Ok st' ->
  let k := (voter_address env (tx_Method d) d paired, get_str (tx_Inputs d) "id") in
  (exists v, db_votes (tx_db st') !! k = Some v
     /\ vote_Vote v = int16 (atoi_or_zero (get_str (tx_Inputs d) "vote"))
     /\ vote_MomentumHeight v = m_height m /\ vote_MomentumHash v = cm_Hash m)
  /\ forall k', k' <> k -> db_votes (tx_db st') !! k' = db_votes (tx_db st) !! k'.
Proof.
  intros Hm Hid Hp Hx. cbv zeta. unfold indexAcceleratorContract in Hx.
  assert (String.eqb (tx_Method d) "VoteByName"
          || String.eqb (tx_Method d) "VoteByProdAddress" = true) as Hb
    by (by destruct Hm as [-> | ->]).
  rewrite Hb, Hp in Hx.
  destruct (str_empty (get_str (tx_Inputs d) "id")) eqn:E; [by apply str_empty_true in E|].
  destruct (resolve_voting_id env (get_str (tx_Inputs d) "id")) as [pid phid].
  apply exec_one in Hx. apply on_table_Ok in Hx as (t & Ht & ->).
  apply insert_update_Ok in Ht as [[Hn ->]|(v & v' & Hv & [= <-] & ->)]; simpl in *;
    (split; [rewrite lookup_insert_eq; eexists; split; [reflexivity|done]
            |intros k' Hk; by rewrite lookup_insert_ne]).
Qed.

Definition vote_block : ChainBlock :=
  contract_receive "r1" AcceleratorAddress
    (toy_send "c1" "z1alice" AcceleratorAddress "votev1,pillar-one,1" 0).

Definition late_vote : Vote := mkVote 1 "m9" 90 9 "z1owner" "p1" "" "v1" 0.

Definition early_vote : TxData :=
  mkTxData "VoteByName" (<["id" := "v1"]> (<["name" := "pillar-one"]> (<["vote" := "1"]> ∅))).

Lemma vote_last_processed_wins_witness :
  match exec_from (fun _ => None) 0
      (indexAcceleratorContract (toy_env empty_db []) vote_block early_vote (toy_momentum 5 []))
      (mkTxState (empty_db <| db_votes := {[ ("z1owner", "v1") := late_vote ]} |>) []) with
  | Ok st' => exists v, db_votes (tx_db st') !! ("z1owner", "v1") = Some v
      /\ vote_Vote v = 1 /\ vote_MomentumHeight v = 5
  | Err _ => False
  end.
Proof.
  destruct (exec_from _ _ _ _) as [st'|e] eqn:E; [|vm_compute in E; discriminate E].
  assert (Hne : get_str (tx_Inputs early_vote) "id" <> "") by discriminate.
  destruct (vote_last_processed_wins (toy_env empty_db []) vote_block
              (toy_send "c1" "z1alice" AcceleratorAddress "votev1,pillar-one,1" 0)
              early_vote (toy_momentum 5 []) _ _ _
              (or_introl eq_refl) Hne eq_refl E) as [(v & Hv & Hvote & Hh & _) _].
  exists v. split; [exact Hv|]. split; [exact Hvote|exact Hh].
Defined.

(** ** The legacy swap *)

(** The token and amount of a Mint descendant, when it is one. *)
Definition mint_of (sdk : Sdk) (descendant : NomBlock) : option (string * Z) :=
  match tryDecodeFromAbi (nb_Data descendant) (Some (sdk_Token sdk)) with
  | Some dec =>
      if String.eqb (tx_Method dec) "Mint" then
        amt ← parse_big (get_str (tx_Inputs dec) "amount");
        Some (get_str (tx_Inputs dec) "tokenStandard", safeBigIntToInt64 (Some amt))
      else None
  | None => None
  end.

Definition minted (sdk : Sdk) (token : string) (ds : list NomBlock) : Z :=
  foldr (fun x acc => match mint_of sdk x with
                      | Some (t, v) => if String.eqb t token then v + acc else acc
                      | None => acc
                      end) 0 ds.

Lemma swap_step_mint sdk znn qsr x :
  swap_step sdk (znn, qsr) x
  = match mint_of sdk x with
    | Some (t, v) => if String.eqb t ZnnTokenStandard then (int64 (znn + v), qsr)
                     else if String.eqb t QsrTokenStandard then (znn, int64 (qsr + v))
                     else (znn, qsr)
    | None => (znn, qsr)
    end.
Proof.
  unfold swap_step, mint_of. destruct (tryDecodeFromAbi _ _) as [dec|]; [|done].
  destruct (String.eqb (tx_Method dec) "Mint"); simpl; [|done].
  by destruct (parse_big _).
Qed.

Lemma swap_fold sdk ds znn qsr :
  int64 znn = znn -> int64 qsr = qsr ->
  fold_left (swap_step sdk) ds (znn, qsr)
  = (int64 (znn + minted sdk ZnnTokenStandard ds), int64 (qsr + minted sdk QsrTokenStandard ds)).
Proof.
  revert znn qsr. induction ds as [|x ds IH]; intros znn qsr Hz Hq; simpl.
  - by rewrite !Z.add_0_r, Hz, Hq.
  - pose proof (swap_step_mint sdk znn qsr x) as Hs. simpl in Hs. rewrite Hs.
    assert (Hid : forall a, int64 (int64 a) = int64 a).
    { intros a. apply int64_id, int64_range. }
    destruct (mint_of sdk x) as [[t v]|]; [|by apply IH].
    destruct (String.eqb_spec t ZnnTokenStandard) as [->|Hz'].
    + rewrite IH by (apply Hid || done). rewrite int64_add. simpl. do 2 f_equal. lia.
    + destruct (String.eqb_spec t QsrTokenStandard) as [->|Hq']; [|by apply IH].
      rewrite IH by (apply Hid || done). rewrite int64_add. do 2 f_equal. lia.
Qed.

(** A swap claim's row carries the total ZNN and the total QSR its Mint descendants
    issue, each descendant counted in the bucket of its own token and the totals in Go's
    64-bit arithmetic: exact whenever the true total fits. *)
Theorem swap_amounts env block paired d m :
  tx_Method d = "RetrieveAssets" -> cb_PairedAccountBlock block = Some paired ->
  exists r, indexSwapContract env block d m = [SSwapRetrieval r]
    /\ sr_ID r = nb_Hash paired
    /\ sr_ZnnAmount r = int64 (minted (env_sdk env) ZnnTokenStandard (cb_DescendantBlocks block))
    /\ sr_QsrAmount r = int64 (minted (env_sdk env) QsrTokenStandard (cb_DescendantBlocks block))
    /\ (in_int64 (minted (env_sdk env) ZnnTokenStandard (cb_DescendantBlocks block)) = true ->
        sr_ZnnAmount r = minted (env_sdk env) ZnnTokenStandard (cb_DescendantBlocks block)).
Proof.
  intros Hm Hp. unfold indexSwapContract. rewrite Hm, Hp. simpl.
  rewrite swap_fold by reflexivity. simpl. eexists. split; [reflexivity|]. simpl.
  split_and!; try reflexivity. apply int64_id.
Qed.

Definition swap_block : ChainBlock :=
  mkChainBlock (mkNomBlock "r1" BlockTypeContractReceive 1 SwapAddress EmptyAddress (Some 0)
                  EmptyTokenStandard "" "")
    None (Some (toy_send "c1" "z1alice" SwapAddress "retrpk" 0))
    [toy_send "d1" SwapAddress TokenAddress ("mint" +:+ ZnnTokenStandard +:+ ",30,z1alice") 0;
     toy_send "d2" SwapAddress TokenAddress ("mint" +:+ QsrTokenStandard +:+ ",7,z1alice") 0].

Lemma swap_amounts_witness :
  exists r, indexSwapContract (toy_env empty_db []) swap_block (mkTxData "RetrieveAssets" ∅)
              (toy_momentum 5 []) = [SSwapRetrieval r]
    /\ sr_ZnnAmount r = 30 /\ sr_QsrAmount r = 7.
Proof.
  destruct (swap_amounts (toy_env empty_db []) swap_block _ (mkTxData "RetrieveAssets" ∅)
              (toy_momentum 5 []) eq_refl eq_refl) as (r & Hr & _ & Hz & Hq & _).
  exists r. split; [exact Hr|]. split; [rewrite Hz|rewrite Hq]; vm_compute; reflexivity.
Defined.

(** ** Balances *)

(** Every balance statement of the momentum for this key stores this amount. *)
Definition balance_for (a t : string) (v ts : Z) (s : stmt) : Prop :=
  match s with
  | SBalanceUpsert b =>
      bal_Address b = a -> bal_TokenStandard b = t -> bal_Balance b = v
        /\ bal_LastUpdatedTimestamp b = ts
  | _ => True
  end.

Definition has_balance (a t : string) (v ts : Z) (db : Db) : Prop :=
  exists b, db_balances db !! (a, t) = Some b /\ bal_Balance b = v
    /\ bal_LastUpdatedTimestamp b = ts.

Lemma exec_balances s db db' :
  exec_row s db = Ok db' ->
  match s with
  | SBalanceUpsert b => BalanceRepository.Upsert b (db_balances db) = Ok (db_balances db')
  | _ => db_balances db' = db_balances db
  end.
Proof. intros H. exec_cases s H; try reflexivity; exact Ht. Qed.

Lemma has_balance_upsert b db db' :
  exec_row (SBalanceUpsert b) db = Ok db' ->
  has_balance (bal_Address b) (bal_TokenStandard b) (bal_Balance b)
    (bal_LastUpdatedTimestamp b) db'.
Proof.
  intros H%exec_balances. cbv iota in H. unfold has_balance.
  apply insert_update_Ok in H as [[_ ->]|(v & v' & _ & [= <-] & ->)];
    rewrite lookup_insert_eq; eauto.
Qed.

Lemma has_balance_kept a t v ts s db db' :
  balance_for a t v ts s -> has_balance a t v ts db -> exec_row s db = Ok db' ->
  has_balance a t v ts db'.
Proof.
  intros Hg (b0 & Hl & Hv & Hts) H. pose proof (exec_balances _ _ _ H) as He.
  destruct s; try (unfold has_balance; rewrite He; by eauto).
  destruct (decide (bal_Address b = a /\ bal_TokenStandard b = t)) as [[Ha Ht]|Hne].
  - destruct (Hg Ha Ht) as [<- <-]. rewrite <- Ha, <- Ht. by apply (has_balance_upsert _ db).
  - exists b0. split; [|done].
    apply insert_update_Ok in He as [[_ ->]|(x & x' & _ & [= <-] & ->)];
      (rewrite lookup_insert_ne; [done|intros [= <- <-]; by apply Hne]).
Qed.

(** In one momentum all the statements for a key agree: the node is asked about an address
    with a function, and an answer lists each token once. *)
Lemma updateBalances_agree env hs ts a infos t z :
  GetAccountInfoByAddress (env_ledger env) a = Ok infos -> NoDup infos.*1 ->
  (t, Some z) ∈ infos ->
  Forall (balance_for a t (safeBigIntToInt64 (Some z)) ts) (updateBalances env hs ts).
Proof.
  intros Hi Hnd Hin. unfold updateBalances. apply Forall_bind, Forall_true. intros h. simpl.
  destruct (GetAccountInfoByAddress (env_ledger env) (hd_Address h)) as [infos'|] eqn:E;
    [|constructor].
  unfold balance_stmts. apply Forall_bind, Forall_forall. intros [t' bal] Hin'. simpl.
  destruct bal as [z'|]; [|constructor]. destruct (0 <=? z'); [|constructor].
  constructor; [|constructor]. intros Ha Ht. cbn in Ha, Ht |- *. subst a t'.
  rewrite Hi in E. injection E as <-. split; [|done].
  assert (Some z = Some z') as [= ->]; [|done].
  clear -Hnd Hin Hin'. induction infos as [|[k b] infos IH]; [by apply not_elem_of_nil in Hin|].
  simpl in Hnd. apply NoDup_cons in Hnd as [Hn Hnd].
  apply elem_of_cons in Hin as [[= <- <-]|Hin]; apply elem_of_cons in Hin' as [H'|Hin'].
  - by injection H' as <-.
  - destruct Hn. by apply (list_elem_of_fmap_2 fst) in Hin'.
  - injection H' as <- <-. destruct Hn. by apply (list_elem_of_fmap_2 fst) in Hin.
  - by apply IH.
Qed.

Lemma updateBalances_member env hs ts h infos t z :
  h ∈ hs -> GetAccountInfoByAddress (env_ledger env) (hd_Address h) = Ok infos ->
  (t, Some z) ∈ infos -> 0 <= z ->
  SBalanceUpsert (mkBalance (hd_Address h) t (safeBigIntToInt64 (Some z)) ts)
  ∈ updateBalances env hs ts.
Proof.
  intros Hh Hi Hin Hz. unfold updateBalances. apply list_elem_of_bind. exists h.
  split; [|exact Hh]. rewrite Hi. unfold balance_stmts. apply list_elem_of_bind.
  exists (t, Some z). split; [|exact Hin]. apply Z.leb_le in Hz. rewrite Hz. by left.
Qed.

(** Balances are refreshed for every address of a momentum that is neither genesis nor
    too large: after a success, each token the node reports with a non-negative balance for
    an address of the momentum is stored with that amount (capped at the largest BIGINT)
    and the momentum's timestamp. *)
Theorem balances_refreshed env m h infos t z :
  wants_balances m = true -> h ∈ cm_Content m ->
  GetAccountInfoByAddress (env_ledger env) (hd_Address h) = Ok infos ->
  NoDup infos.*1 -> (t, Some z) ∈ infos -> 0 <= z ->
  out_err (processMomentum env m) = None ->
  exists b, db_balances (out_db (processMomentum env m)) !! (hd_Address h, t) = Some b
    /\ bal_Balance b = Z.min z max_int64 /\ bal_LastUpdatedTimestamp b = m_ts m.
Proof.
  intros Hw Hh Hi Hnd Hin Hz (ps & st & Hps & Hx & -> & _)%processMomentum_parts.
  assert (Z.min z max_int64 = safeBigIntToInt64 (Some z)) as ->.
  { unfold safeBigIntToInt64. destruct (in_int64 z) eqn:E.
    - apply in_int64_spec in E. lia.
    - assert (~ (min_int64 <= z <= max_int64)) as Hn
        by (intros Hr%in_int64_spec; congruence). unfold min_int64 in Hn. lia. }
  assert (Hbal : balances_part env m = updateBalances env (cm_Content m) (m_ts m)).
  { unfold balances_part. rewrite Hw. destruct (cm_Content m); [by apply not_elem_of_nil in Hh|].
    done. }
  eapply (exec_from_establishes_good
    (has_balance (hd_Address h) t (safeBigIntToInt64 (Some z)) (m_ts m))
    (balance_for (hd_Address h) t (safeBigIntToInt64 (Some z)) (m_ts m))
    (SBalanceUpsert (mkBalance (hd_Address h) t (safeBigIntToInt64 (Some z)) (m_ts m))));
    [| | | |exact Hx].
  - intros db db' H. by apply has_balance_upsert in H.
  - intros s db db'. apply has_balance_kept.
  - apply Forall_app. split; [|apply Forall_app; split].
    + apply (blocks_stmts_forall _ _ _ _ _ Hps). intros c p _.
      apply block_stmts_forall; try exact I; [|apply reward_stmts_forall]; intros s Hs; by destruct s.
    + rewrite Hbal. by eapply updateBalances_agree.
    + unfold tail_part. apply Forall_app. split; [by case_match; repeat constructor|].
      repeat constructor.
  - apply elem_of_app. right. apply elem_of_app. left. rewrite Hbal.
    by apply updateBalances_member with (infos := infos).
Qed.

Definition balance_env : Env :=
  mkEnv toy_sdk ∅ (mkPool empty_db (fun _ => None) no_faults)
    (mkLedgerApi (fun _ => Ok (Some transfer))
       (fun a => if String.eqb a "z1alice" then Ok [(ZnnTokenStandard, Some 90)]
                 else Err (EMsg "no account"))) false.

Lemma balances_refreshed_witness :
  exists b, db_balances (out_db (processMomentum balance_env (toy_momentum 5 [transfer])))
              !! ("z1alice", ZnnTokenStandard) = Some b
    /\ bal_Balance b = 90 /\ bal_LastUpdatedTimestamp b = 1050.
Proof.
  apply (balances_refreshed balance_env (toy_momentum 5 [transfer]) (header_of transfer)
           [(ZnnTokenStandard, Some 90)] ZnnTokenStandard 90).
  - reflexivity.
  - apply list_elem_of_here.
  - reflexivity.
  - apply NoDup_singleton.
  - apply list_elem_of_here.
  - lia.
  - vm_compute. reflexivity.
Defined.
