(* ===== verification/Retry.v ===== *)
(** internal/indexer/retry.go: bounded retries with exponential backoff, for an operation
    with a state of its own. Durations are nanoseconds in Go's [int64]. *)

From S2P Require Import Prelude.
#[local] Open Scope string_scope.
#[local] Open Scope Z_scope.

Definition Millisecond : Z := 1000000.
Definition Second : Z := 1000 * Millisecond.

Record retryConfig : Type := mkRetryConfig {
  MaxAttempts : Z;
  BaseDelay : Z;
  MaxBackoff : Z
}.

Definition defaultRetry : retryConfig := mkRetryConfig 6 (500 * Millisecond) (30 * Second).

(** When the context is seen as canceled: before an attempt, and during the wait after it. *)
Record Ctx : Type := mkCtx {
  ctx_err : nat -> bool;
  ctx_done : nat -> bool
}.

Definition live_ctx : Ctx := mkCtx (fun _ => false) (fun _ => false).

(** What a run did: the operation's state, the waits, the number of calls, the answer. *)
Record Run (S A : Type) : Type := mkRun {
  run_state : S;
  run_waits : list Z;
  run_calls : nat;
  run_result : result A
}.
Arguments mkRun {S A}.
Arguments run_state {S A}.
Arguments run_waits {S A}.
Arguments run_calls {S A}.
Arguments run_result {S A}.

(** The doubling, capped at [MaxBackoff]. *)
Definition next_delay (cfg : retryConfig) (delay : Z) : Z :=
  if delay <? MaxBackoff cfg then
    let d := int64 (delay * 2) in if MaxBackoff cfg <? d then MaxBackoff cfg else d
  else delay.

Definition attempts (cfg : retryConfig) : Z := if MaxAttempts cfg <? 1 then 1 else MaxAttempts cfg.

Section retry.
Context {S A : Type}.
Variables (ctx : Ctx) (label : string) (cfg : retryConfig) (fn : S -> result A * S).

Definition exhausted (e : error) : error :=
  EWrap (label +:+ " failed after " +:+ format_int (attempts cfg) +:+ " attempts") e.

(** The loop; [left] is the number of attempts after the current one. *)
Fixpoint retry_loop (left attempt : nat) (delay : Z) (s : S) (waits : list Z) : Run S A :=
  if ctx_err ctx attempt then mkRun s waits (pred attempt) (Err ECanceled)
  else
    match fn s with
    | (Ok a, s') => mkRun s' waits attempt (Ok a)
    | (Err e, s') =>
        match left with
        | O => mkRun s' waits attempt (Err (exhausted e))
        | Datatypes.S left' =>
            if ctx_done ctx attempt then mkRun s' waits attempt (Err ECanceled)
            else retry_loop left' (Datatypes.S attempt) (next_delay cfg delay) s'
                   (waits ++ [delay])%list
        end
    end.

Definition withRetryConfig (s : S) : Run S A :=
  retry_loop (Z.to_nat (attempts cfg) - 1) 1 (BaseDelay cfg) s [].
End retry.

Definition withRetry {S A} (ctx : Ctx) (label : string) (fn : S -> result A * S) (s : S) : Run S A :=
  withRetryConfig ctx label defaultRetry fn s.

(** ** Theorems *)

(** The answers of the successive calls. *)
Fixpoint nth_call {S A} (fn : S -> result A * S) (n : nat) (s : S) : result A * S :=
  match n with
  | O => fn s
  | Datatypes.S n' => nth_call fn n' (fn s).2
  end.

(** The waits of a run that never succeeds: [n] delays from [d]. *)
Fixpoint delays (cfg : retryConfig) (n : nat) (d : Z) : list Z :=
  match n with
  | O => []
  | Datatypes.S n' => d :: delays cfg n' (next_delay cfg d)
  end.

Section facts.
Context {S A : Type}.
Variables (label : string) (cfg : retryConfig) (fn : S -> result A * S).

Lemma retry_loop_calls ctx left attempt d s w :
  (attempt <= run_calls (retry_loop ctx label cfg fn left attempt d s w) + 1)%nat
  /\ (run_calls (retry_loop ctx label cfg fn left attempt d s w) <= attempt + left)%nat.
Proof.
  revert attempt d s w. induction left as [|left IH]; intros attempt d s w; simpl;
    (destruct (ctx_err ctx attempt); [simpl; lia|]);
    destruct (fn s) as [[a|e] s']; simpl; try lia.
  destruct (ctx_done ctx attempt); simpl; [lia|].
  specialize (IH (Datatypes.S attempt) (next_delay cfg d) s' (w ++ [d])%list). lia.
Qed.

Lemma retry_loop_live left attempt d s w n a :
  (n <= left)%nat -> (forall k, (k < n)%nat -> is_ok (nth_call fn k s).1 = false) ->
  (nth_call fn n s).1 = Ok a ->
  retry_loop live_ctx label cfg fn left attempt d s w
  = mkRun (nth_call fn n s).2 (w ++ delays cfg n d)%list (attempt + n) (Ok a).
Proof.
  revert left attempt d s w. induction n as [|n IH]; intros left attempt d s w Hle Hf Ha;
    simpl in Ha.
  - destruct left; simpl; destruct (fn s) as [[a'|e] s'] eqn:E; simpl in *; simplify_eq;
      by rewrite app_nil_r, Nat.add_0_r.
  - destruct left as [|left]; [lia|]. simpl.
    pose proof (Hf 0%nat ltac:(lia)) as H0. simpl in H0.
    destruct (fn s) as [[a'|e] s'] eqn:E; [done|].
    rewrite IH; [|lia| |exact Ha].
    + rewrite Nat.add_succ_r, <- app_assoc. simpl. done.
    + intros k Hk. specialize (Hf (Datatypes.S k) ltac:(lia)). simpl in Hf.
      by rewrite E in Hf.
Qed.

Lemma retry_loop_fail left attempt d s w :
  (forall k, (k <= left)%nat -> is_ok (nth_call fn k s).1 = false) ->
  exists e, retry_loop live_ctx label cfg fn left attempt d s w
    = mkRun (nth_call fn left s).2 (w ++ delays cfg left d)%list (attempt + left)
        (Err (exhausted label cfg e)) /\ (nth_call fn left s).1 = Err e.
Proof.
  revert attempt d s w. induction left as [|left IH]; intros attempt d s w Hf.
  - specialize (Hf 0%nat ltac:(lia)). simpl in *. destruct (fn s) as [[a|e] s']; [done|].
    exists e. by rewrite app_nil_r, Nat.add_0_r.
  - pose proof (Hf 0%nat ltac:(lia)) as H0. simpl in *.
    destruct (fn s) as [[a|e] s'] eqn:E; [done|]. simpl.
    destruct (IH (Datatypes.S attempt) (next_delay cfg d) s' (w ++ [d])%list) as (e' & -> & He).
    + intros k Hk. specialize (Hf (Datatypes.S k) ltac:(lia)). simpl in Hf.
      by rewrite E in Hf.
    + exists e'. split; [|done]. rewrite Nat.add_succ_r, <- app_assoc. done.
Qed.

(** The waits of any run are the first ones of the schedule. *)
Lemma retry_loop_prefix ctx left attempt d s w :
  exists n, (n <= left)%nat
    /\ run_waits (retry_loop ctx label cfg fn left attempt d s w) = (w ++ delays cfg n d)%list.
Proof.
  revert attempt d s w. induction left as [|left IH]; intros attempt d s w; simpl.
  - exists 0%nat. rewrite app_nil_r. split; [lia|].
    destruct (ctx_err ctx attempt); [done|]. by destruct (fn s) as [[a|e] s'].
  - assert (H0 : exists n, (n <= Datatypes.S left)%nat /\ w = (w ++ delays cfg n d)%list)
      by (exists 0%nat; rewrite app_nil_r; split; [lia|done]).
    destruct (ctx_err ctx attempt); [exact H0|]. destruct (fn s) as [[a|e] s']; [exact H0|].
    destruct (ctx_done ctx attempt); [exact H0|].
    destruct (IH (Datatypes.S attempt) (next_delay cfg d) s' (w ++ [d])%list) as (n & Hn & ->).
    exists (Datatypes.S n). split; [lia|]. rewrite <- app_assoc. done.
Qed.
End facts.

Lemma first_success {S A} (fn : S -> result A * S) left s :
  (exists n a, (n <= left)%nat /\ (forall k, (k < n)%nat -> is_ok (nth_call fn k s).1 = false)
     /\ (nth_call fn n s).1 = Ok a)
  \/ (forall k, (k <= left)%nat -> is_ok (nth_call fn k s).1 = false).
Proof.
  induction left as [|left [(n & a & Hn & Hf & Ha)|Hf]].
  - destruct (nth_call fn 0 s).1 as [a|e] eqn:E.
    + left. exists 0%nat, a. split; [lia|]. split; [lia|done].
    + right. intros k Hk. assert (k = 0%nat) as -> by lia. by rewrite E.
  - left. exists n, a. split; [lia|done].
  - destruct (nth_call fn (Datatypes.S left) s).1 as [a|e] eqn:E.
    + left. exists (Datatypes.S left), a. split; [lia|]. split; [|done]. intros k Hk. apply Hf. lia.
    + right. intros k Hk. destruct (decide (k = Datatypes.S left)) as [->|]; [by rewrite E|].
      apply Hf. lia.
Qed.

Lemma next_delay_bounds cfg d :
  in_int64 (2 * MaxBackoff cfg) = true -> 0 <= d <= MaxBackoff cfg ->
  next_delay cfg d = Z.min (2 * d) (MaxBackoff cfg).
Proof.
  intros Hr%in_int64_spec Hd. unfold next_delay. destruct (Z.ltb_spec d (MaxBackoff cfg)).
  - rewrite int64_id by (apply in_int64_spec; unfold min_int64 in *; lia).
    destruct (Z.ltb_spec (MaxBackoff cfg) (d * 2)); lia.
  - lia.
Qed.

Lemma delays_nth cfg n d i :
  in_int64 (2 * MaxBackoff cfg) = true -> 0 <= d <= MaxBackoff cfg -> (i < n)%nat ->
  delays cfg n d !! i = Some (Z.min (d * 2 ^ Z.of_nat i) (MaxBackoff cfg)).
Proof.
  intros Hr. revert n d. induction i as [|i IH]; intros n d Hd Hi; destruct n as [|n]; try lia.
  - cbn [delays]. simpl. f_equal. lia.
  - cbn [delays]. rewrite lookup_cons_ne_0 by done. simpl pred.
    rewrite next_delay_bounds by done. rewrite IH by lia. f_equal.
    rewrite Nat2Z.inj_succ, Z.pow_succ_r by lia.
    assert (1 <= 2 ^ Z.of_nat i) by (pose proof (Z.pow_pos_nonneg 2 (Z.of_nat i)); lia).
    destruct (Z.min_spec (2 * d) (MaxBackoff cfg)) as [[? ->]|[? ->]]; nia.
Qed.

Lemma delays_length cfg n d : length (delays cfg n d) = n.
Proof. revert d. induction n as [|n IH]; intros d; simpl; [done|]. by rewrite IH. Qed.

(** Retries on a live context: the operation is called until it first succeeds, at most
    [max(1, MaxAttempts)] times, and the answer is that success or, when every call failed,
    the last failure under the label and the attempt count. Between calls number [i+1] and
    [i+2] the wait is [min(BaseDelay * 2^i, MaxBackoff)]; there is no wait after the last
    call. *)
Theorem withRetry_spec {S A} label cfg (fn : S -> result A * S) s :
  in_int64 (2 * MaxBackoff cfg) = true -> 0 <= BaseDelay cfg <= MaxBackoff cfg ->
  let run := withRetryConfig live_ctx label cfg fn s in
  let last := (run_calls run - 1)%nat in
  (1 <= run_calls run)%nat /\ Z.of_nat (run_calls run) <= Z.max 1 (MaxAttempts cfg)
  /\ (forall k, (k < last)%nat -> is_ok (nth_call fn k s).1 = false)
  /\ run_state run = (nth_call fn last s).2
  /\ length (run_waits run) = last
  /\ (forall i, (i < last)%nat ->
        run_waits run !! i = Some (Z.min (BaseDelay cfg * 2 ^ Z.of_nat i) (MaxBackoff cfg)))
  /\ match (nth_call fn last s).1 with
     | Ok a => run_result run = Ok a
     | Err e => Z.of_nat (run_calls run) = Z.max 1 (MaxAttempts cfg)
                /\ run_result run = Err (exhausted label cfg e)
     end.
Proof.
  intros Hr Hb. cbv zeta. unfold withRetryConfig.
  assert (Hatt : attempts cfg = Z.max 1 (MaxAttempts cfg))
    by (unfold attempts; destruct (Z.ltb_spec (MaxAttempts cfg) 1); lia).
  set (left := (Z.to_nat (attempts cfg) - 1)%nat).
  assert (Hleft : Z.of_nat (1 + left) = Z.max 1 (MaxAttempts cfg)) by (unfold left; lia).
  destruct (first_success fn left s) as [(n & a & Hn & Hf & Ha)|Hf].
  - rewrite (retry_loop_live label cfg fn left 1 _ s [] n a Hn Hf Ha).
    cbn [run_calls run_state run_waits run_result app].
    replace (1 + n - 1)%nat with n by lia. rewrite Ha, delays_length.
    split_and!; try done; try lia. intros i Hi. by apply delays_nth.
  - destruct (retry_loop_fail label cfg fn left 1 (BaseDelay cfg) s [] Hf) as (e & -> & He).
    cbn [run_calls run_state run_waits run_result app].
    replace (1 + left - 1)%nat with left by lia. rewrite He, delays_length.
    split_and!; try done; try lia.
    + intros k Hk. apply Hf. lia.
    + intros i Hi. by apply delays_nth.
Qed.

(** A counter that fails [k] times and then answers. *)
Definition flaky (k : nat) (n : nat) : result nat * nat :=
  (if decide (n < k)%nat then Err (EMsg "not yet") else Ok n, Datatypes.S n).

Lemma withRetry_spec_witness :
  let run := withRetryConfig live_ctx "op" defaultRetry (flaky 2) 0%nat in
  run_calls run = 3%nat /\ run_waits run = [500000000; 1000000000]
  /\ run_result run = Ok 2%nat
  /\ (1 <= run_calls run)%nat.
Proof.
  cbv zeta. split; [reflexivity|]. split; [reflexivity|]. split; [reflexivity|].
  apply (withRetry_spec "op" defaultRetry (flaky 2) 0%nat).
  - reflexivity.
  - vm_compute. split; discriminate.
Defined.

Definition total (waits : list Z) : Z := foldr Z.add 0 waits.

(** The default configuration waits 15.5 seconds in total before it gives up: six
    attempts have five waits between them, of 0.5, 1, 2, 4 and 8 seconds; a sixth wait of
    16 seconds never happens. Any run, canceled or not, waits at most that long. *)
Theorem default_backoff_total {S A} ctx label (fn : S -> result A * S) s :
  total (run_waits (withRetry ctx label fn s)) <= 15500 * Millisecond
  /\ ((forall k, is_ok (nth_call fn k s).1 = false) ->
      run_waits (withRetry live_ctx label fn s)
      = [500 * Millisecond; 1 * Second; 2 * Second; 4 * Second; 8 * Second]
      /\ total (run_waits (withRetry live_ctx label fn s)) = 15500 * Millisecond).
Proof.
  split.
  - unfold withRetry, withRetryConfig. change (Z.to_nat (attempts defaultRetry) - 1)%nat with 5%nat.
    destruct (retry_loop_prefix label defaultRetry fn ctx 5 1 (BaseDelay defaultRetry) s [])
      as (n & Hn & ->).
    simpl app. do 6 (destruct n as [|n]; [vm_compute; discriminate|]). lia.
  - intros Hf. unfold withRetry, withRetryConfig.
    change (Z.to_nat (attempts defaultRetry) - 1)%nat with 5%nat.
    destruct (retry_loop_fail label defaultRetry fn 5 1 (BaseDelay defaultRetry) s [])
      as (e & -> & _); [by intros k _|]. split; reflexivity.
Qed.
