(* ===== verification/NodePool.v ===== *)
(** internal/indexer/nodepool.go and syncinfo.go: probe URLs, JSON-RPC over HTTP, the
    navigation of decoded JSON, and probes with their cache of chain identities.

    The network is a parameter: what the n-th HTTP exchange of the process answers. *)

From S2P Require Import Prelude.
From S2P Require Import Models.
From S2P Require Import Retry.
#[local] Open Scope string_scope.
#[local] Open Scope Z_scope.

Record NodeEntry : Type := mkNodeEntry {
  ne_URL : string;
  ne_Label : string;
  ne_ProbeURL : string
}.

(** [rpcURL]: wss first, then ws. *)
Definition rpcURL (u : string) : string :=
  replace_first "ws://" "http://" (replace_first "wss://" "https://" u).

Definition probeEndpoint (e : NodeEntry) : string :=
  if str_empty (ne_ProbeURL e) then rpcURL (ne_URL e) else ne_ProbeURL e.

(** ** Decoded JSON *)

(** What [json.Decode] puts in an [any]: a number is a [float64]. *)
#[warnings="-register-all"]
Inductive any : Type :=
| ANull
| ABool (b : bool)
| ANum (f : spec_float)
| AStr (s : string)
| AArr (l : list any)
| AObj (m : gmap string any).

(** Go's [uint64(f)]: the value truncated toward zero. Out of range the language leaves the
    result to the implementation; the low 64 bits stand for it. *)
Definition float_trunc (f : spec_float) : Z :=
  match f with
  | S754_finite s m e =>
      let a := if 0 <=? e then Z.pos m * 2 ^ e else Z.pos m / 2 ^ (- e) in
      if s then - a else a
  | _ => 0
  end.

Definition float_uint64 (f : spec_float) : Z := uint64 (float_trunc f).

(** [strings.Split(path, ".")]. *)
Fixpoint split_on (sep : ascii) (cur s : string) : list string :=
  match s with
  | EmptyString => [cur]
  | String c s' =>
      if Ascii.eqb c sep then cur :: split_on sep "" s'
      else split_on sep (cur +:+ String c "") s'
  end.

(** One path component. *)
Definition descend (v : any) (p : string) : result any :=
  match v with
  | AObj m => Ok (default ANull (m !! p))
  | AArr l =>
      match parse_int64 p with
      | None => Err (EMsg ("non-numeric slice segment " +:+ p))
      | Some idx =>
          if (idx <? 0) || (Z.of_nat (length l) <=? idx) then
            Err (EMsg ("index " +:+ format_int idx +:+ " out of range at " +:+ p))
          else Ok (default ANull (l !! Z.to_nat idx))
      end
  | _ => Err (EMsg ("cannot descend at " +:+ p))
  end.

Fixpoint descend_all (v : any) (ps : list string) : result any :=
  match ps with
  | [] => Ok v
  | p :: ps' => v' ← descend v p; descend_all v' ps'
  end.

Definition navigate (v : any) (path : string) : result any :=
  if str_empty path then Ok v else descend_all v (split_on "." "" path).

(** ** Exchanges *)

(** A decoded response envelope, for a result of type [A]. *)
Record Envelope (A : Type) : Type := mkEnvelope {
  env_Result : A;
  env_Error : option (Z * string)
}.
Arguments mkEnvelope {A}.
Arguments env_Result {A}.
Arguments env_Error {A}.

Record SyncInfo : Type := mkSyncInfo {
  si_State : Z;
  si_CurrentHeight : Z;
  si_TargetHeight : Z
}.

(** The network: for each exchange, identified by its number, the URL posted to, the method
    and its parameters, a transport or decoding error or the envelope. *)
Record Net : Type := mkNet {
  net_sync : nat -> string -> result (Envelope (option SyncInfo));
  net_rpc : nat -> string -> string -> list Z -> result (Envelope any)
}.

(** The pool: its entries, the identities cached per node, and the exchanges so far. *)
Record NodePool : Type := mkNodePool {
  np_entries : list NodeEntry;
  np_genesisHash : gmap Z string;
  np_calls : nat
}.

#[export] Instance NodePool_eta : Eta NodePool := fun r =>
  mkNodePool (np_entries r) (np_genesisHash r) (np_calls r).

Definition NewNodePool (entries : list NodeEntry) : NodePool := mkNodePool entries ∅ 0.

Definition Len (p : NodePool) : Z := Z.of_nat (length (np_entries p)).

Definition Entry (p : NodePool) (idx : Z) : NodeEntry :=
  nth (Z.to_nat idx) (np_entries p) (mkNodeEntry "" "" "").

Record ProbeResult : Type := mkProbeResult {
  pr_Frontier : Z;
  pr_Target : Z;
  pr_State : Z;
  pr_GenesisHash : string
}.

(** The zero value answered with an error. *)
Definition zero_probe : ProbeResult := mkProbeResult 0 0 0 "".

Section probes.
Variable net : Net.

Definition tick_call (p : NodePool) : NodePool := p <| np_calls := S (np_calls p) |>.

Definition fetchSyncInfo (p : NodePool) (url : string) : result SyncInfo * NodePool :=
  (match net_sync net (np_calls p) (rpcURL url) with
   | Err e => Err (EWrap "syncInfo POST" e)
   | Ok env =>
       match env_Error env, env_Result env with
       | Some (code, msg), _ =>
           Err (EMsg ("syncInfo rpc error " +:+ format_int code +:+ ": " +:+ msg))
       | None, None => Err (EMsg "syncInfo empty result")
       | None, Some info => Ok info
       end
   end, tick_call p).

Definition rpcCall (p : NodePool) (url method : string) (params : list Z)
  : result any * NodePool :=
  (match net_rpc net (np_calls p) (rpcURL url) method params with
   | Err e => Err e
   | Ok env =>
       match env_Error env with
       | Some (code, msg) =>
           Err (EMsg ("rpc " +:+ method +:+ ": code=" +:+ format_int code +:+ " msg=" +:+ msg))
       | None => Ok (env_Result env)
       end
   end, tick_call p).

Definition callForUint64 (p : NodePool) (url method : string) (params : list Z)
    (path : string) : result Z * NodePool :=
  let '(res, p') := rpcCall p url method params in
  (leaf ← (v ← res; navigate v path);
   match leaf with
   | ANum f => Ok (float_uint64 f)
   | _ => Err (EMsg ("expected number at " +:+ path))
   end, p').

Definition callForString (p : NodePool) (url method : string) (params : list Z)
    (path : string) : result string * NodePool :=
  let '(res, p') := rpcCall p url method params in
  (leaf ← (v ← res; navigate v path);
   match leaf with
   | AStr s => Ok s
   | _ => Err (EMsg ("expected string at " +:+ path))
   end, p').

(** [genesisFor]: the cached identity, or the one fetched now and cached. *)
Definition genesisFor (p : NodePool) (idx : Z) (url : string) : result string * NodePool :=
  match np_genesisHash p !! idx with
  | Some h => (Ok h, p)
  | None =>
      let '(res, p') :=
        callForString p url "ledger.getMomentumsByHeight" [1; 1] "list.0.hash" in
      match res with
      | Err e => (Err e, p')
      | Ok h => (Ok h, p' <| np_genesisHash := <[idx := h]> (np_genesisHash p') |>)
      end
  end.

Definition Probe (idx : Z) (p : NodePool) : result ProbeResult * NodePool :=
  if (idx <? 0) || (Len p <=? idx) then
    (Err (EMsg ("probe: idx " +:+ format_int idx +:+ " out of range (len="
                +:+ format_int (Len p) +:+ ")")), p)
  else
    let probeURL := probeEndpoint (Entry p idx) in
    let '(info, p1) := fetchSyncInfo p probeURL in
    match info with
    | Err e => (Err (EWrap "syncInfo" e), p1)
    | Ok info =>
        let '(frontier, p2) :=
          callForUint64 p1 probeURL "ledger.getFrontierMomentum" [] "height" in
        match frontier with
        | Err e => (Err (EWrap "frontier" e), p2)
        | Ok frontier =>
            let '(genesis, p3) := genesisFor p2 idx probeURL in
            match genesis with
            | Err e => (Err (EWrap "genesis" e), p3)
            | Ok genesis =>
                (Ok (mkProbeResult frontier (si_TargetHeight info) (si_State info) genesis), p3)
            end
        end
    end.

Definition ProbeWithRetry (ctx : Ctx) (idx : Z) (attempts : Z) (baseDelay : Z) (p : NodePool)
  : Run NodePool ProbeResult :=
  withRetryConfig ctx ("startup probe node " +:+ format_int idx)
    (mkRetryConfig attempts baseDelay (10 * Second)) (Probe idx) p.

(** ** Facts *)

(** What a probe can do to the pool: more exchanges, and at most one identity, the one of
    the probed node, when none was cached for it. *)
Definition pool_grows (idx : Z) (p p' : NodePool) : Prop :=
  np_entries p' = np_entries p /\ (np_calls p <= np_calls p')%nat
  /\ (np_genesisHash p' = np_genesisHash p
      \/ np_genesisHash p !! idx = None /\ exists h, np_genesisHash p' = <[idx := h]> (np_genesisHash p)).

Lemma genesisFor_spec p idx url :
  let '(res, p') := genesisFor p idx url in
  pool_grows idx p p'
  /\ match res with
     | Ok h => np_genesisHash p' !! idx = Some h
     | Err _ => np_genesisHash p' = np_genesisHash p
     end.
Proof.
  unfold genesisFor, pool_grows. destruct (np_genesisHash p !! idx) as [h|] eqn:E.
  - split_and!; try done. by left.
  - unfold callForString, rpcCall. destruct (_ ≫= _) as [h|e]; simpl.
    + split_and!; try done; [lia| |by rewrite lookup_insert_eq]. right. eauto.
    + split_and!; try done; [lia|]. by left.
Qed.

Lemma Probe_spec idx p :
  let '(res, p') := Probe idx p in
  pool_grows idx p p'
  /\ match res with
     | Ok r => 0 <= idx < Len p /\ np_genesisHash p' !! idx = Some (pr_GenesisHash r)
     | Err _ => np_genesisHash p' = np_genesisHash p
     end.
Proof.
  unfold Probe. destruct ((idx <? 0) || (Len p <=? idx)) eqn:Er.
  { split; [|done]. unfold pool_grows. split_and!; try done. by left. }
  apply orb_false_iff in Er as [Hlo%Z.ltb_ge Hhi%Z.leb_gt].
  unfold fetchSyncInfo, callForUint64, rpcCall.
  assert (Hg : forall q, np_entries q = np_entries p -> np_genesisHash q = np_genesisHash p ->
    (np_calls p <= np_calls q)%nat -> pool_grows idx p q) by (unfold pool_grows; tauto).
  destruct (match net_sync _ _ _ with Ok _ => _ | Err _ => _ end) as [info|e];
    [|split; [apply Hg; simpl; lia || done|done]].
  destruct (_ ≫= _) as [fr|e]; [|split; [apply Hg; simpl; lia || done|done]].
  pose proof (genesisFor_spec (tick_call (tick_call p)) idx (probeEndpoint (Entry p idx))) as Hs.
  destruct (genesisFor _ _ _) as [[h|e] p3]; destruct Hs as [(He & Hc & Hh) Hres];
    simpl in *; (split; [split_and!; [done|lia|done]|]); [split; [lia|done]|done].
Qed.
End probes.

(** A node's chain identity is fetched at most once and never changes: once cached, a
    probe of any node leaves it alone, every successful probe of the node reports it, and
    a probe's success leaves the reported identity in the cache. *)
Theorem genesis_pinned net p idx other h :
  np_genesisHash p !! other = Some h ->
  let '(res, p') := Probe net idx p in
  np_genesisHash p' !! other = Some h
  /\ np_entries p' = np_entries p
  /\ match res with
     | Ok r => np_genesisHash p' !! idx = Some (pr_GenesisHash r)
               /\ (idx = other -> pr_GenesisHash r = h)
     | Err _ => np_genesisHash p' = np_genesisHash p
     end.
Proof.
  intros Hh. pose proof (Probe_spec net idx p) as Hs.
  destruct (Probe net idx p) as [res p']. destruct Hs as [(He & _ & Hg) Hres].
  assert (Hk : np_genesisHash p' !! other = Some h).
  { destruct Hg as [->|[Hn [h' ->]]]; [done|].
    rewrite lookup_insert_ne; [done|congruence]. }
  split_and!; [done|done|]. destruct res as [r|e]; [|done].
  destruct Hres as [_ Hr]. split; [done|]. intros ->. congruence.
Qed.

(** A network on which every node answers the given heights and genesis hash. *)
Definition toy_net (frontier target : Z) (genesis : string) : Net :=
  mkNet
    (fun _ _ => Ok (mkEnvelope (Some (mkSyncInfo 2 frontier target)) None))
    (fun _ _ method _ =>
       Ok (mkEnvelope
             (if String.eqb method "ledger.getFrontierMomentum"
              then AObj {[ "height" := ANum (S754_finite false (Z.to_pos frontier) 0) ]}
              else AObj {[ "list" := AArr [AObj {[ "hash" := AStr genesis ]}] ]})
             None)).

Definition toy_pool : NodePool :=
  NewNodePool [mkNodeEntry "ws://a:35998" "primary" "http://a:35997";
               mkNodeEntry "wss://b" "fallback" ""].

Lemma genesis_pinned_witness :
  let p := (Probe (toy_net 90 100 "g") 0 toy_pool).2 in
  np_genesisHash p !! 0 = Some "g"
  /\ match Probe (toy_net 95 100 "other") 0 p with
     | (Ok r, p') => pr_GenesisHash r = "g" /\ np_genesisHash p' !! 0 = Some "g"
     | (Err _, _) => False
     end.
Proof.
  set (p := (Probe (toy_net 90 100 "g") 0 toy_pool).2).
  assert (Hp : np_genesisHash p !! 0 = Some "g") by (vm_compute; reflexivity).
  split; [exact Hp|].
  pose proof (genesis_pinned (toy_net 95 100 "other") p 0 0 "g" Hp) as H.
  destruct (Probe (toy_net 95 100 "other") 0 p) as [[r|e] p'] eqn:E.
  - destruct H as (H1 & _ & _ & H2). split; [by apply H2|exact H1].
  - vm_compute in E. discriminate E.
Defined.

(** A probe URL never keeps a websocket scheme: a [ws://] or [wss://] node without an
    explicit probe URL is probed at the same address over [http://] or [https://], an
    [http(s)://] URL whose rest names no websocket scheme is unchanged, and an explicit
    probe URL is used as it is. *)
Theorem probeEndpoint_scheme rest label probe :
  contains "ws://" rest = false -> contains "wss://" rest = false ->
  probeEndpoint (mkNodeEntry ("ws://" +:+ rest) label "") = "http://" +:+ rest
  /\ probeEndpoint (mkNodeEntry ("wss://" +:+ rest) label "") = "https://" +:+ rest
  /\ probeEndpoint (mkNodeEntry ("http://" +:+ rest) label "") = "http://" +:+ rest
  /\ probeEndpoint (mkNodeEntry ("https://" +:+ rest) label "") = "https://" +:+ rest
  /\ (probe <> "" -> probeEndpoint (mkNodeEntry ("ws://" +:+ rest) label probe) = probe).
Proof.
  intros Hws Hwss. unfold probeEndpoint. simpl ne_ProbeURL. simpl ne_URL. cbn [str_empty].
  unfold rpcURL. split_and!.
  - simpl. by rewrite (replace_first_absent "wss://").
  - simpl. by rewrite (replace_first_absent "ws://").
  - simpl. by rewrite (replace_first_absent "wss://"), (replace_first_absent "ws://").
  - simpl. by rewrite (replace_first_absent "wss://"), (replace_first_absent "ws://").
  - by destruct probe.
Qed.

Lemma probeEndpoint_scheme_witness :
  probeEndpoint (mkNodeEntry "ws://node:35998" "n" "") = "http://node:35998"
  /\ probeEndpoint (mkNodeEntry "wss://node:35998" "n" "") = "https://node:35998".
Proof.
  destruct (probeEndpoint_scheme "node:35998" "n" "" eq_refl eq_refl) as (H1 & H2 & _).
  split; assumption.
Defined.
