(* ===== verification/Watchdog.v ===== *)
(** internal/indexer/watchdog.go, with the parts of indexer.go it drives: the classification
    of a tick, the streaks, failover and failback between nodes, the published status and
    the health snapshot.

    Durations are nanoseconds; a tick's clock readings, the database's answer and the
    outcome of building a client are its inputs. *)

From S2P Require Import Prelude.
From S2P Require Import Models.
From S2P Require Import RepoBridge.
From S2P Require Import Retry.
From S2P Require Import NodePool.
#[local] Open Scope string_scope.
#[local] Open Scope Z_scope.

Record WatchdogConfigForIndexer : Type := mkWatchdogConfig {
  wc_Enabled : bool;
  wc_Interval : Z;
  wc_StallThreshold : Z;
  wc_IndexerDriftThreshold : Z;
  wc_NodeDriftThreshold : Z;
  wc_UnhealthyStreak : Z;
  wc_FailbackStreak : Z
}.

Inductive syncClass : Type :=
| classSynced
| classIndexerLagging
| classNodeLagging
| classStalled
| classProbeFailed.

#[export] Instance syncClass_eq_dec : EqDecision syncClass.
Proof. solve_decision. Defined.

Definition syncClass_String (c : syncClass) : string :=
  match c with
  | classSynced => "synced"
  | classIndexerLagging => "indexer_lagging"
  | classNodeLagging => "node_lagging"
  | classStalled => "stalled"
  | classProbeFailed => "probe_failed"
  end.

Record classifyConfig : Type := mkClassifyConfig {
  cc_StallThreshold : Z;
  cc_IndexerDriftThreshold : Z;
  cc_NodeDriftThreshold : Z
}.

(** [now.Sub(last)], for a [last] read from Unix seconds; Go saturates the difference. *)
Definition time_sub (now_ns last_s : Z) : Z :=
  Z.max min_int64 (Z.min max_int64 (now_ns - last_s * Second)).

(** [int64(a) - int64(b)] on [uint64] heights. *)
Definition height_diff (a b : Z) : Z := int64 (int64 a - int64 b).

Definition node_behind (probe : ProbeResult) (cfg : classifyConfig) : bool :=
  cc_NodeDriftThreshold cfg <? height_diff (pr_Target probe) (pr_Frontier probe).

Definition indexer_behind (probe : ProbeResult) (dbHeight : Z) (cfg : classifyConfig) : bool :=
  cc_IndexerDriftThreshold cfg <? int64 (int64 (pr_Frontier probe) - dbHeight).

Definition classify (probe : result ProbeResult) (dbHeight elapsed : Z) (cfg : classifyConfig)
  : syncClass :=
  match probe with
  | Err _ => classProbeFailed
  | Ok probe =>
      let nodeBehind := node_behind probe cfg in
      let indexerBehind := indexer_behind probe dbHeight cfg in
      if cc_StallThreshold cfg <? elapsed then
        if indexerBehind && negb nodeBehind then classIndexerLagging else classStalled
      else if nodeBehind then classNodeLagging
      else if indexerBehind then classIndexerLagging
      else classSynced
  end.

(** ** Streaks *)

Record nodeStreaks : Type := mkNodeStreaks { healthy : Z; unhealthy : Z }.

#[export] Instance nodeStreaks_eta : Eta nodeStreaks := fun r =>
  mkNodeStreaks (healthy r) (unhealthy r).

Definition zero_streaks : nodeStreaks := mkNodeStreaks 0 0.

Record syncState : Type := mkSyncState {
  activeIdx : Z;
  streaks : gmap Z nodeStreaks;
  chainIdentifier : string;
  failedOverAt : option Z;
  lastClass : string;
  lastDrift : Z
}.

#[export] Instance syncState_eta : Eta syncState := fun r =>
  mkSyncState (activeIdx r) (streaks r) (chainIdentifier r) (failedOverAt r) (lastClass r)
    (lastDrift r).

Definition newSyncState (numNodes : Z) : syncState :=
  mkSyncState 0 (list_to_map (map (fun i => (i, zero_streaks)) (seqZ 0 numNodes))) "" None "" 0.

Definition streak (s : syncState) (idx : Z) : nodeStreaks :=
  default zero_streaks (streaks s !! idx).

Definition set_streak (idx : Z) (st : nodeStreaks) (s : syncState) : syncState :=
  s <| streaks := <[idx := st]> (streaks s) |>.

(** [for k := range streaks { streaks[k] = nodeStreaks{} }] *)
Definition reset_streaks (s : syncState) : syncState :=
  s <| streaks := (fun _ => zero_streaks) <$> streaks s |>.

Record watchdogReactConfig : Type := mkReactConfig {
  UnhealthyStreak : Z;
  FailbackStreak : Z
}.

Record reactIntent : Type := mkReactIntent {
  signalRestart : bool;
  failoverIdx : Z;
  failbackIdx : Z
}.

Definition react (s : syncState) (active : Z) (c : syncClass) (cfg : watchdogReactConfig)
  : syncState * reactIntent :=
  let st := streak s active in
  match c with
  | classSynced =>
      (set_streak active (mkNodeStreaks (healthy st + 1) 0) s, mkReactIntent false (-1) (-1))
  | classIndexerLagging => (s, mkReactIntent true (-1) (-1))
  | classNodeLagging =>
      let st' := mkNodeStreaks 0 (unhealthy st + 1) in
      (set_streak active st' s,
       mkReactIntent false (if UnhealthyStreak cfg <=? unhealthy st' then active else -1) (-1))
  | classStalled =>
      let st' := st <| unhealthy := unhealthy st + 1 |> in
      (set_streak active st' s,
       mkReactIntent true (if UnhealthyStreak cfg <=? unhealthy st' then active else -1) (-1))
  | classProbeFailed =>
      let st' := st <| unhealthy := unhealthy st + 1 |> in
      (set_streak active st' s,
       mkReactIntent false (if UnhealthyStreak cfg <=? unhealthy st' then active else -1) (-1))
  end.

Definition selectFailback (s : syncState) (candidate : Z) (cfg : watchdogReactConfig)
  : syncState * Z :=
  let st := streak s candidate in
  let st' := st <| healthy := healthy st + 1 |> in
  (set_streak candidate st' s,
   if FailbackStreak cfg <=? healthy st' then candidate else -1).

Definition canAttemptFailback (c : syncClass) (active failover : Z) : bool :=
  if (active <=? 0) || negb (failover =? -1) then false
  else match c with classSynced | classIndexerLagging => true | _ => false end.

(** ** Node selection *)

Section selection.
Variable net : Net.

(** The conditions of [selectFailoverTarget] on one successful probe. *)
Definition fallback_ok (storedGenesis : string) (cfg : classifyConfig) (probe : ProbeResult)
  : bool :=
  negb (node_behind probe cfg)
  && (str_empty storedGenesis || String.eqb (pr_GenesisHash probe) storedGenesis).

(** The loop over the candidates [idx], [idx + 1], ...; [n] of them are left. *)
Fixpoint failover_from (n : nat) (idx : Z) (storedGenesis : string) (cfg : classifyConfig)
    (p : NodePool) : Z * NodePool :=
  match n with
  | O => (-1, p)
  | S n' =>
      let '(res, p') := Probe net idx p in
      match res with
      | Err _ => failover_from n' (idx + 1) storedGenesis cfg p'
      | Ok probe =>
          if fallback_ok storedGenesis cfg probe then (idx, p')
          else failover_from n' (idx + 1) storedGenesis cfg p'
      end
  end.

Definition selectFailoverTarget (p : NodePool) (currentIdx : Z) (storedGenesis : string)
    (cfg : classifyConfig) : Z * NodePool :=
  failover_from (Z.to_nat (Len p - (currentIdx + 1))) (currentIdx + 1) storedGenesis cfg p.
End selection.

(** ** The indexer's part of the state *)

Record WState : Type := mkWState {
  w_sync : syncState;
  w_pool : NodePool;
  w_client : string;
  w_restart : bool;
  w_status : option SyncStatus
}.

#[export] Instance WState_eta : Eta WState := fun r =>
  mkWState (w_sync r) (w_pool r) (w_client r) (w_restart r) (w_status r).

(** The one-slot restart channel: a pending signal absorbs the next. *)
Definition signalSubscriptionRestart (w : WState) : WState := w <| w_restart := true |>.

(** The inputs of one tick. *)
Record Tick : Type := mkTick {
  tk_net : Net;
  tk_dbHeight : result Z;
  tk_lastProgress : Z;
  tk_now : Z;
  tk_factory : string -> result unit;
  tk_upsert_err : option error
}.

Definition now_unix (t : Tick) : Z := tk_now t / Second.

(** [swapActiveClient]; the old client's delayed Stop is not modelled. *)
Definition swapActiveClient (factory : string -> result unit) (url : string) (w : WState)
  : result WState :=
  _ ← wrap_err ("build client for " +:+ url) (factory url);
  Ok (signalSubscriptionRestart (w <| w_client := url |>)).

Definition StartupSwap (factory : string -> result unit) (now idx : Z) (w : WState)
  : result WState :=
  w' ← swapActiveClient factory (ne_URL (Entry (w_pool w) idx)) w;
  Ok (w' <| w_sync := (w_sync w') <| activeIdx := idx |> <| failedOverAt := Some now |> |>).

(** Entering a node after a swap: streaks are reset. *)
Definition enter_node (idx : Z) (since : option Z) (w : WState) : WState :=
  w <| w_sync := reset_streaks ((w_sync w) <| activeIdx := idx |> <| failedOverAt := since |>) |>.

Definition failover_step (t : Tick) (cCfg : classifyConfig) (active : Z) (chainID : string)
    (w : WState) : WState :=
  let '(target, p') := selectFailoverTarget (tk_net t) (w_pool w) active chainID cCfg in
  let w1 := w <| w_pool := p' |> in
  if target =? -1 then w1
  else match swapActiveClient (tk_factory t) (ne_URL (Entry p' target)) w1 with
       | Err _ => w1
       | Ok w2 => enter_node target (Some (now_unix t)) w2
       end.

(** The failback loop over the candidates [idx], ...; [n] of them are left below the active
    node. *)
Fixpoint failback_from (t : Tick) (cCfg : classifyConfig) (rCfg : watchdogReactConfig)
    (chainID : string) (n : nat) (idx : Z) (w : WState) : WState :=
  match n with
  | O => w
  | S n' =>
      let '(res, p') := Probe (tk_net t) idx (w_pool w) in
      let w1 := w <| w_pool := p' |> in
      let usable := match res with
                    | Ok probe => String.eqb (pr_GenesisHash probe) chainID
                                  && negb (node_behind probe cCfg)
                    | Err _ => false
                    end in
      if usable then
        let '(s', picked) := selectFailback (w_sync w1) idx rCfg in
        let w2 := w1 <| w_sync := s' |> in
        if picked =? -1 then failback_from t cCfg rCfg chainID n' (idx + 1) w2
        else match swapActiveClient (tk_factory t) (ne_URL (Entry p' picked)) w2 with
             | Err _ => w2
             | Ok w3 => enter_node picked None w3
             end
      else
        let st := streak (w_sync w1) idx in
        failback_from t cCfg rCfg chainID n' (idx + 1)
          (w1 <| w_sync := set_streak idx (st <| healthy := 0 |>) (w_sync w1) |>)
  end.

Definition probe_or_zero (probe : result ProbeResult) : ProbeResult :=
  match probe with Ok p => p | Err _ => zero_probe end.

Definition publishSyncStatus (t : Tick) (probe : result ProbeResult) (dbHeight : Z)
    (c : syncClass) (active : Z) (w : WState) : WState :=
  let pr := probe_or_zero probe in
  let entry := Entry (w_pool w) active in
  let record := mkSyncStatus dbHeight (int64 (pr_Frontier pr)) (int64 (pr_Target pr))
    (int64 (int64 (pr_Frontier pr) - dbHeight)) (height_diff (pr_Target pr) (pr_Frontier pr))
    (syncClass_String c) (unhealthy (streak (w_sync w) active)) (ne_URL entry) (ne_Label entry)
    (chainIdentifier (w_sync w)) (failedOverAt (w_sync w)) (tk_lastProgress t) (now_unix t) in
  match tk_upsert_err t with
  | Some _ => w
  | None => match SyncStatusRepository.Upsert record (w_status w) with
            | Ok s => w <| w_status := s |>
            | Err _ => w
            end
  end.

(** The state after [react] and the observations of the tick. *)
Definition observe (probe : result ProbeResult) (dbHeight active : Z) (c : syncClass)
    (rCfg : watchdogReactConfig) (s : syncState) : syncState * reactIntent :=
  let '(s1, intent) := react s active c rCfg in
  let s2 := match probe with
            | Ok pr => if str_empty (chainIdentifier s1)
                       then s1 <| chainIdentifier := pr_GenesisHash pr |> else s1
            | Err _ => s1
            end in
  (s2 <| lastClass := syncClass_String c |>
      <| lastDrift := int64 (int64 (pr_Frontier (probe_or_zero probe)) - dbHeight) |>, intent).

Definition runWatchdogTick (t : Tick) (cCfg : classifyConfig) (rCfg : watchdogReactConfig)
    (w : WState) : WState :=
  let active := activeIdx (w_sync w) in
  let '(probe, p') := Probe (tk_net t) active (w_pool w) in
  let w0 := w <| w_pool := p' |> in
  match tk_dbHeight t with
  | Err _ => w0
  | Ok dbHeightU =>
      let dbHeight := int64 dbHeightU in
      let c := classify probe dbHeight (time_sub (tk_now t) (tk_lastProgress t)) cCfg in
      let '(s1, intent) := observe probe dbHeight active c rCfg (w_sync w0) in
      let w1 := w0 <| w_sync := s1 |> in
      let chainID := chainIdentifier s1 in
      let w2 := if failoverIdx intent =? -1 then w1
                else failover_step t cCfg active chainID w1 in
      let w3 := if canAttemptFailback c active (failoverIdx intent)
                then failback_from t cCfg rCfg chainID (Z.to_nat active) 0 w2 else w2 in
      let w4 := if signalRestart intent then signalSubscriptionRestart w3 else w3 in
      publishSyncStatus t probe dbHeight c active w4
  end.

(** ** Health *)

Record HealthSnapshot : Type := mkHealthSnapshot {
  hs_Ready : bool;
  hs_State : string;
  hs_NodeLabel : string;
  hs_Drift : Z
}.

(** [None] for a disabled watchdog (no node pool). *)
Definition Indexer_HealthSnapshot (cfg : WatchdogConfigForIndexer) (w : option WState)
  : HealthSnapshot :=
  match w with
  | None => mkHealthSnapshot true "watchdog_disabled" "" 0
  | Some w =>
      let s := w_sync w in
      let threshold := if wc_UnhealthyStreak cfg <=? 0 then 2 else wc_UnhealthyStreak cfg in
      mkHealthSnapshot (unhealthy (streak s (activeIdx s)) <? threshold) (lastClass s)
        (ne_Label (Entry (w_pool w) (activeIdx s))) (lastDrift s)
  end.
