(* ===== verification/WatchdogTheorems.v ===== *)
(** The watchdog's safety and liveness conditions: which node is active and why. *)

From S2P Require Import Prelude.
From S2P Require Import Models.
From S2P Require Import RepoBridge.
From S2P Require Import Retry.
From S2P Require Import NodePool.
From S2P Require Import Watchdog.
#[local] Open Scope string_scope.
#[local] Open Scope Z_scope.

(** ** Pools only grow *)

Definition pool_le (p p' : NodePool) : Prop :=
  np_entries p' = np_entries p /\ np_genesisHash p ⊆ np_genesisHash p'.

#[export] Instance pool_le_preorder : PreOrder pool_le.
Proof.
  split.
  - intros p. by split.
  - intros p q r [H1 H2] [H3 H4]. split; [congruence|by etrans].
Qed.

Lemma pool_le_Len p p' : pool_le p p' -> Len p' = Len p.
Proof. intros [H _]. unfold Len. by rewrite H. Qed.

Lemma pool_le_Entry p p' i : pool_le p p' -> Entry p' i = Entry p i.
Proof. intros [H _]. unfold Entry. by rewrite H. Qed.

Lemma pool_le_genesis p p' i h :
  pool_le p p' -> np_genesisHash p !! i = Some h -> np_genesisHash p' !! i = Some h.
Proof. intros [_ H] Hl. by eapply lookup_weaken. Qed.

Lemma Probe_le net idx p : pool_le p (Probe net idx p).2.
Proof.
  pose proof (Probe_spec net idx p) as H. destruct (Probe net idx p) as [res p'].
  destruct H as [(He & _ & Hg) _]. simpl. split; [done|].
  destruct Hg as [->|[Hn [h ->]]]; [done|]. by apply insert_subseteq.
Qed.

Lemma Probe_Ok_facts net idx p r p' :
  Probe net idx p = (Ok r, p') ->
  pool_le p p' /\ 0 <= idx < Len p /\ np_genesisHash p' !! idx = Some (pr_GenesisHash r).
Proof.
  intros E. pose proof (Probe_le net idx p) as Hle. pose proof (Probe_spec net idx p) as H.
  rewrite E in H, Hle. destruct H as [_ [? ?]]. done.
Qed.

(** ** Failover targets *)

(** The candidates [idx], ... below [hi] all fail their probe or are unsuitable, in the
    pools the loop has by then. *)
Lemma failover_from_spec net n idx g cfg p target p' :
  failover_from net n idx g cfg p = (target, p') ->
  pool_le p p'
  /\ (target = -1
      \/ idx <= target < idx + Z.of_nat n /\ target < Len p
         /\ exists q q' r, pool_le p q /\ Probe net target q = (Ok r, q')
              /\ fallback_ok g cfg r = true /\ pool_le q' p').
Proof.
  revert idx p. induction n as [|n IH]; intros idx p; simpl.
  - intros [= <- <-]. split; [done|by left].
  - destruct (Probe net idx p) as [[r|e] q] eqn:E;
      pose proof (Probe_le net idx p) as Hle; rewrite E in Hle; simpl in Hle.
    + destruct (fallback_ok g cfg r) eqn:Ef.
      * intros [= <- <-]. split; [done|right].
        destruct (Probe_Ok_facts _ _ _ _ _ E) as (_ & Hr & _). split; [lia|]. split; [lia|].
        exists p, q, r. done.
      * intros H. destruct (IH _ _ H) as [Hle' Ht]. split; [by etrans|].
        destruct Ht as [->|(Hb & Hl & q1 & q2 & r1 & H1 & H2 & H3 & H4)]; [by left|right].
        rewrite (pool_le_Len _ _ Hle) in Hl. split; [lia|]. split; [lia|].
        exists q1, q2, r1. split; [by etrans|done].
    + intros H. destruct (IH _ _ H) as [Hle' Ht]. split; [by etrans|].
      destruct Ht as [->|(Hb & Hl & q1 & q2 & r1 & H1 & H2 & H3 & H4)]; [by left|right].
      rewrite (pool_le_Len _ _ Hle) in Hl. split; [lia|]. split; [lia|].
      exists q1, q2, r1. split; [by etrans|done].
Qed.

Lemma failover_from_none net n idx g cfg p p' :
  failover_from net n idx g cfg p = (-1, p') -> 0 <= idx ->
  forall i, idx <= i < idx + Z.of_nat n ->
    exists q, pool_le p q /\
      match (Probe net i q).1 with Ok r => fallback_ok g cfg r = false | Err _ => True end.
Proof.
  revert idx p. induction n as [|n IH]; intros idx p H Hidx i Hi; [lia|]. simpl in H.
  pose proof (Probe_le net idx p) as Hle.
  destruct (decide (i = idx)) as [->|Hne].
  - exists p. split; [done|]. destruct (Probe net idx p) as [[r|e] q]; simpl; [|done].
    destruct (fallback_ok g cfg r); [|done]. injection H as H _. lia.
  - destruct (Probe net idx p) as [[r|e] q]; simpl in Hle.
    + destruct (fallback_ok g cfg r); [injection H as H _; lia|].
      destruct (IH (idx + 1) q H ltac:(lia) i ltac:(lia)) as (q' & Hq & Hm).
      exists q'. split; [by etrans|done].
    + destruct (IH (idx + 1) q H ltac:(lia) i ltac:(lia)) as (q' & Hq & Hm).
      exists q'. split; [by etrans|done].
Qed.

(** The failover target: any answer other than -1 is a node after the current one whose
    probe succeeded, that is not behind the network by more than the threshold and, once a
    chain is known, is on that chain; the answer is -1 only when every node after the
    current one failed one of these. *)
Theorem selectFailoverTarget_spec net p current stored cfg :
  0 <= current < Len p ->
  let '(target, p') := selectFailoverTarget net p current stored cfg in
  (target = -1 /\
   forall i, current < i < Len p -> exists q, pool_le p q /\
     match (Probe net i q).1 with Ok r => fallback_ok stored cfg r = false | Err _ => True end)
  \/ (current < target < Len p /\ exists q q' r, pool_le p q /\ Probe net target q = (Ok r, q')
        /\ height_diff (pr_Target r) (pr_Frontier r) <= cc_NodeDriftThreshold cfg
        /\ (stored <> "" -> pr_GenesisHash r = stored
                            /\ np_genesisHash p' !! target = Some stored)).
Proof.
  intros Hc. destruct (selectFailoverTarget net p current stored cfg) as [target p'] eqn:E.
  unfold selectFailoverTarget in E.
  destruct (failover_from_spec _ _ _ _ _ _ _ _ E) as [Hle [->|(Hb & Hl & q & q' & r & Hq & HP & Hf & Hq')]].
  - left. split; [done|]. intros i Hi.
    apply (failover_from_none _ _ _ _ _ _ _ E); lia.
  - right. split; [lia|]. exists q, q', r. split; [done|]. split; [done|].
    unfold fallback_ok, node_behind in Hf. apply andb_prop in Hf as [Hn%negb_true_iff Hg].
    apply Z.ltb_ge in Hn. split; [done|]. intros Hs.
    apply orb_prop in Hg as [Hg|Hg%String.eqb_eq]; [by destruct stored|].
    split; [done|]. destruct (Probe_Ok_facts _ _ _ _ _ HP) as (_ & _ & Hcache).
    rewrite <- Hg. by eapply pool_le_genesis.
Qed.

Lemma selectFailoverTarget_spec_witness :
  let '(target, p') := selectFailoverTarget (toy_net 90 100 "g") toy_pool 0 "g"
                         (mkClassifyConfig 0 0 20) in
  target = 1 /\ np_genesisHash p' !! 1 = Some "g".
Proof.
  pose proof (selectFailoverTarget_spec (toy_net 90 100 "g") toy_pool 0 "g"
                (mkClassifyConfig 0 0 20) ltac:(vm_compute; split; [discriminate|reflexivity]))
    as H.
  destruct (selectFailoverTarget _ _ _ _ _) as [target p'] eqn:E.
  assert (Et : target = 1) by (vm_compute in E; congruence). subst target. split; [done|].
  destruct H as [[H _]|(_ & q & q' & r & _ & _ & _ & H)]; [discriminate H|].
  by destruct H.
Defined.

(** ** The invariant *)

(** What holds between ticks: the active index names a node of the pool, the SDK client is
    connected to that node, the node's cached identity is the recorded chain, and the
    primary is never marked as failed over. *)
Record watch_ok (w : WState) : Prop := mkWatchOk {
  wo_range : 0 <= activeIdx (w_sync w) < Len (w_pool w);
  wo_client : w_client w = ne_URL (Entry (w_pool w) (activeIdx (w_sync w)));
  wo_chain : chainIdentifier (w_sync w) <> "" ->
    np_genesisHash (w_pool w) !! activeIdx (w_sync w) = Some (chainIdentifier (w_sync w));
  wo_primary : activeIdx (w_sync w) = 0 -> failedOverAt (w_sync w) = None
}.

(** A change of nothing but the pool's caches and of streaks. *)
Lemma watch_ok_same w w' :
  watch_ok w -> pool_le (w_pool w) (w_pool w') -> w_client w' = w_client w ->
  activeIdx (w_sync w') = activeIdx (w_sync w) ->
  chainIdentifier (w_sync w') = chainIdentifier (w_sync w) ->
  failedOverAt (w_sync w') = failedOverAt (w_sync w) -> watch_ok w'.
Proof.
  intros [H1 H2 H3 H4] Hle Hc Ha Hch Hf. split.
  - rewrite Ha, (pool_le_Len _ _ Hle). done.
  - rewrite Ha, Hc, (pool_le_Entry _ _ _ Hle). done.
  - rewrite Ha, Hch. intros Hne. eapply pool_le_genesis; [done|by apply H3].
  - rewrite Ha, Hf. done.
Qed.

(** Entering a node whose probe has just put the recorded chain in the cache. *)
Lemma watch_ok_enter factory url idx since w w2 :
  swapActiveClient factory url w = Ok w2 ->
  url = ne_URL (Entry (w_pool w) idx) -> 0 <= idx < Len (w_pool w) ->
  (chainIdentifier (w_sync w) <> "" ->
   np_genesisHash (w_pool w) !! idx = Some (chainIdentifier (w_sync w))) ->
  (idx = 0 -> since = None) ->
  watch_ok (enter_node idx since w2).
Proof.
  unfold swapActiveClient. intros (u & _ & [= <-])%bind_Ok -> Hr Hg H0.
  split; simpl; auto.
Qed.

Lemma enter_node_chain factory url idx since w w2 :
  swapActiveClient factory url w = Ok w2 ->
  chainIdentifier (w_sync (enter_node idx since w2)) = chainIdentifier (w_sync w).
Proof. unfold swapActiveClient. by intros (u & _ & [= <-])%bind_Ok. Qed.

Lemma failover_step_ok t cCfg w :
  watch_ok w ->
  let w' := failover_step t cCfg (activeIdx (w_sync w)) (chainIdentifier (w_sync w)) w in
  watch_ok w' /\ chainIdentifier (w_sync w') = chainIdentifier (w_sync w)
  /\ (activeIdx (w_sync w') = activeIdx (w_sync w)
      \/ activeIdx (w_sync w) < activeIdx (w_sync w')).
Proof.
  intros Hok. cbv zeta. unfold failover_step.
  set (active := activeIdx (w_sync w)). set (chain := chainIdentifier (w_sync w)).
  destruct (selectFailoverTarget _ _ _ _ _) as [target p'] eqn:E.
  unfold selectFailoverTarget in E.
  destruct (failover_from_spec _ _ _ _ _ _ _ _ E) as [Hle Ht].
  assert (Hstay : watch_ok (w <| w_pool := p' |>)) by (by apply (watch_ok_same w)).
  destruct (Z.eqb_spec target (-1)) as [->|Hne]; [by split_and!; [|done|left]|].
  destruct Ht as [?|(Hb & Hl & q & q' & r & _ & HP & Hf & Hq')]; [done|].
  destruct (swapActiveClient _ _ _) as [w2|e] eqn:Es; [|by split_and!; [|done|left]].
  pose proof (wo_range _ Hok) as Hrange. fold active in Hrange.
  split_and!.
  - eapply watch_ok_enter; [exact Es|done| | |lia].
    + simpl. rewrite (pool_le_Len _ _ Hle). lia.
    + simpl. fold chain. intros Hc. destruct (Probe_Ok_facts _ _ _ _ _ HP) as (_ & _ & Hg).
      unfold fallback_ok in Hf. apply andb_prop in Hf as [_ Hf].
      apply orb_prop in Hf as [Hf|Hf%String.eqb_eq]; [by destruct chain|].
      rewrite <- Hf. by eapply pool_le_genesis.
  - by rewrite (enter_node_chain _ _ _ _ _ _ Es).
  - right. simpl. lia.
Qed.

(** The failback loop. *)
Definition failback_result (t : Tick) (cCfg : classifyConfig) (rCfg : watchdogReactConfig)
    (lo hi : Z) (w w' : WState) : Prop :=
  activeIdx (w_sync w') = activeIdx (w_sync w)
  \/ lo <= activeIdx (w_sync w') < hi
     /\ FailbackStreak rCfg <= healthy (streak (w_sync w) (activeIdx (w_sync w'))) + 1
     /\ exists q r q', Probe (tk_net t) (activeIdx (w_sync w')) q = (Ok r, q')
          /\ pr_GenesisHash r = chainIdentifier (w_sync w) /\ node_behind r cCfg = false.

Lemma streak_set_ne i j st s : i <> j -> streak (set_streak i st s) j = streak s j.
Proof. intros H. unfold streak, set_streak. simpl. by rewrite lookup_insert_ne. Qed.

Lemma streak_set_eq i st s : streak (set_streak i st s) i = st.
Proof. unfold streak, set_streak. simpl. by rewrite lookup_insert_eq. Qed.

Lemma failback_from_ok t cCfg rCfg n idx w :
  watch_ok w -> 0 <= idx -> idx + Z.of_nat n <= activeIdx (w_sync w) ->
  let w' := failback_from t cCfg rCfg (chainIdentifier (w_sync w)) n idx w in
  watch_ok w' /\ chainIdentifier (w_sync w') = chainIdentifier (w_sync w)
  /\ failback_result t cCfg rCfg idx (idx + Z.of_nat n) w w'.
Proof.
  revert idx w. induction n as [|n IH]; intros idx w Hok Hidx Hn; cbv zeta; simpl.
  { split_and!; [done|done|by left]. }
  destruct (Probe (tk_net t) idx (w_pool w)) as [res p'] eqn:E.
  pose proof (Probe_le (tk_net t) idx (w_pool w)) as Hle. rewrite E in Hle. simpl in Hle.
  (* the iteration that only touches the candidate's streak *)
  assert (Hnext : forall st,
    let w1 := w <| w_pool := p' |> in
    let w2 := w1 <| w_sync := set_streak idx st (w_sync w1) |> in
    let w' := failback_from t cCfg rCfg (chainIdentifier (w_sync w)) n (idx + 1) w2 in
    watch_ok w' /\ chainIdentifier (w_sync w') = chainIdentifier (w_sync w)
    /\ failback_result t cCfg rCfg idx (idx + Z.of_nat (S n)) w w').
  { intros st w1 w2 w'.
    assert (Hok2 : watch_ok w2) by (by apply (watch_ok_same w)).
    destruct (IH (idx + 1) w2 Hok2 ltac:(lia) ltac:(simpl; lia)) as (H1 & H2 & H3).
    split_and!; [exact H1|exact H2|]. destruct H3 as [H3|(Hb & Hs & Hp)]; [by left|right].
    change (chainIdentifier (w_sync w2)) with (chainIdentifier (w_sync w)) in *.
    fold w' in Hb, Hs, Hp |- *. split; [lia|]. split; [|exact Hp].
    unfold w2 in Hs. simpl in Hs. by rewrite streak_set_ne in Hs by lia. }
  destruct res as [r|e]; [|apply Hnext].
  destruct (String.eqb_spec (pr_GenesisHash r) (chainIdentifier (w_sync w))) as [Hg|Hg];
    [|apply Hnext].
  destruct (node_behind r cCfg) eqn:Hb; [apply Hnext|]. cbn [andb negb].
  unfold selectFailback.
  lazymatch goal with
  | |- context [FailbackStreak rCfg <=? ?h] =>
      change h with (healthy (streak (w_sync w) idx) + 1)
  end.
  destruct (Z.leb_spec (FailbackStreak rCfg) (healthy (streak (w_sync w) idx) + 1))
    as [Hstr|Hstr]; [|apply Hnext].
  destruct (Z.eqb_spec idx (-1)); [lia|].
  destruct (swapActiveClient _ _ _) as [w3|e] eqn:Es.
  - destruct (Probe_Ok_facts _ _ _ _ _ E) as (_ & Hr & Hcache).
    split_and!.
    + eapply watch_ok_enter; [exact Es|done| | |done].
      * simpl. rewrite (pool_le_Len _ _ Hle). lia.
      * simpl. intros _. rewrite Hcache. by f_equal.
    + by rewrite (enter_node_chain _ _ _ _ _ _ Es).
    + right. simpl. split; [lia|]. split; [exact Hstr|]. eauto 6.
  - split_and!; [by apply (watch_ok_same w)|done|by left].
Qed.

(** ** One tick *)

Definition is_bad (c : syncClass) : bool :=
  match c with classSynced | classIndexerLagging => false | _ => true end.

Lemma react_spec s active c cfg s1 intent :
  react s active c cfg = (s1, intent) ->
  activeIdx s1 = activeIdx s /\ chainIdentifier s1 = chainIdentifier s
  /\ failedOverAt s1 = failedOverAt s
  /\ (forall i, i <> active -> streak s1 i = streak s i)
  /\ (failoverIdx intent = -1
      \/ failoverIdx intent = active /\ is_bad c = true
         /\ UnhealthyStreak cfg <= unhealthy (streak s active) + 1).
Proof.
  assert (Hif : forall (h : Z), h = unhealthy (streak s active) + 1 ->
    let i := if UnhealthyStreak cfg <=? h then active else -1 in
    i = -1 \/ i = active /\ UnhealthyStreak cfg <= unhealthy (streak s active) + 1).
  { intros h ->. cbv zeta. destruct (Z.leb_spec (UnhealthyStreak cfg)
      (unhealthy (streak s active) + 1)); [by right|by left]. }
  unfold react. destruct c; intros [= <- <-];
    (split; [done|]; split; [done|]; split; [done|]; split;
     [intros i Hi; first [done | by rewrite streak_set_ne by done]|]);
    cbn [failoverIdx is_bad unhealthy]; try (by left);
    (edestruct Hif as [Hi|[Hi Hu]]; [|left; exact Hi|right; split; [exact Hi|done]];
     reflexivity).
Qed.

Lemma observe_ok net w rCfg c dbHeight s1 intent probe p' :
  watch_ok w -> Probe net (activeIdx (w_sync w)) (w_pool w) = (probe, p') ->
  observe probe dbHeight (activeIdx (w_sync w)) c rCfg (w_sync w) = (s1, intent) ->
  let w1 := (w <| w_pool := p' |>) <| w_sync := s1 |> in
  watch_ok w1 /\ activeIdx s1 = activeIdx (w_sync w)
  /\ (chainIdentifier (w_sync w) <> "" -> chainIdentifier s1 = chainIdentifier (w_sync w))
  /\ (forall i, i <> activeIdx (w_sync w) -> streak s1 i = streak (w_sync w) i)
  /\ (failoverIdx intent = -1
      \/ failoverIdx intent = activeIdx (w_sync w) /\ is_bad c = true
         /\ UnhealthyStreak rCfg <= unhealthy (streak (w_sync w) (activeIdx (w_sync w))) + 1).
Proof.
  intros [H1 H2 H3 H4] E. unfold observe.
  destruct (react _ _ _ _) as [s0 i0] eqn:Er. intros [= <- <-]. cbv zeta.
  destruct (react_spec _ _ _ _ _ _ Er) as (Ha & Hc & Hf & Hs & Hi).
  pose proof (Probe_le net (activeIdx (w_sync w)) (w_pool w)) as Hle. rewrite E in Hle.
  simpl in Hle.
  assert (Hact : activeIdx (match probe with
      | Ok pr => if str_empty (chainIdentifier s0) then s0 <| chainIdentifier := pr_GenesisHash pr |>
                 else s0
      | Err _ => s0 end) = activeIdx (w_sync w)).
  { destruct probe; [destruct (str_empty _)|]; done. }
  split_and!; [split| | | |].
  - simpl. rewrite Hact, (pool_le_Len _ _ Hle). done.
  - simpl. rewrite Hact, (pool_le_Entry _ _ _ Hle). done.
  - simpl. rewrite Hact. destruct probe as [r|e].
    + destruct (Probe_Ok_facts _ _ _ _ _ E) as (_ & _ & Hg).
      destruct (str_empty (chainIdentifier s0)) eqn:Ee; simpl; [by intros _|].
      rewrite Hc. intros Hne. by eapply pool_le_genesis; [|apply H3].
    + rewrite Hc. intros Hne. by eapply pool_le_genesis; [|apply H3].
  - simpl. rewrite Hact. intros H0. rewrite <- (H4 H0), <- Hf.
    destruct probe; [destruct (str_empty _)|]; done.
  - simpl. exact Hact.
  - simpl. intros Hne. rewrite <- Hc. rewrite <- Hc in Hne. destruct probe; [|done].
    destruct (str_empty (chainIdentifier s0)) eqn:Ee; [|done].
    by destruct (chainIdentifier s0).
  - intros i Hne. rewrite <- (Hs i Hne). unfold streak. simpl.
    destruct probe; [destruct (str_empty _)|]; done.
  - exact Hi.
Qed.

(** The class a tick computes, when the database answered. *)
Definition tick_class (t : Tick) (cCfg : classifyConfig) (w : WState) : option syncClass :=
  match tk_dbHeight t with
  | Err _ => None
  | Ok h => Some (classify (Probe (tk_net t) (activeIdx (w_sync w)) (w_pool w)).1 (int64 h)
                    (time_sub (tk_now t) (tk_lastProgress t)) cCfg)
  end.

(** What one tick may do to the active node. *)
Definition tick_move (t : Tick) (cCfg : classifyConfig) (rCfg : watchdogReactConfig)
    (w w' : WState) : Prop :=
  let a := activeIdx (w_sync w) in
  let a' := activeIdx (w_sync w') in
  a' = a
  \/ (a < a' /\ (exists c, tick_class t cCfg w = Some c /\ is_bad c = true)
      /\ UnhealthyStreak rCfg <= unhealthy (streak (w_sync w) a) + 1)
  \/ (0 <= a' < a /\ (exists c, tick_class t cCfg w = Some c /\ is_bad c = false)
      /\ FailbackStreak rCfg <= healthy (streak (w_sync w) a') + 1
      /\ exists q r q', Probe (tk_net t) a' q = (Ok r, q')
           /\ pr_GenesisHash r = chainIdentifier (w_sync w') /\ node_behind r cCfg = false).

Lemma publish_sync t probe h c a w :
  w_sync (publishSyncStatus t probe h c a w) = w_sync w
  /\ w_pool (publishSyncStatus t probe h c a w) = w_pool w
  /\ w_client (publishSyncStatus t probe h c a w) = w_client w.
Proof.
  unfold publishSyncStatus. destruct (tk_upsert_err t); [done|].
  by destruct (SyncStatusRepository.Upsert _ _).
Qed.

Lemma tick_spec t cCfg rCfg w :
  watch_ok w ->
  let w' := runWatchdogTick t cCfg rCfg w in
  watch_ok w'
  /\ (chainIdentifier (w_sync w) <> "" ->
      chainIdentifier (w_sync w') = chainIdentifier (w_sync w))
  /\ tick_move t cCfg rCfg w w'.
Proof.
  intros Hok. cbv zeta. unfold runWatchdogTick, tick_move, tick_class.
  destruct (Probe (tk_net t) (activeIdx (w_sync w)) (w_pool w)) as [probe p'] eqn:E.
  destruct (tk_dbHeight t) as [h|e].
  2: { pose proof (Probe_le (tk_net t) (activeIdx (w_sync w)) (w_pool w)) as Hle.
       rewrite E in Hle. split_and!; [by apply (watch_ok_same w)|done|by left]. }
  cbn [fst w_sync w_pool update_field].
  change (w_sync (w <| w_pool := p' |>)) with (w_sync w).
  set (c := classify _ _ _ _).
  destruct (observe _ _ _ _ _ _) as [s1 intent] eqn:Eo.
  destruct (observe_ok _ _ _ _ _ _ _ _ _ Hok E Eo) as (Hok1 & Ha & Hch & Hst & Hi).
  set (w1 := (w <| w_pool := p' |>) <| w_sync := s1 |>) in *.
  assert (Hfin : forall w3, watch_ok w3 ->
    let w' := publishSyncStatus t probe (int64 h) c (activeIdx (w_sync w))
                (if signalRestart intent then signalSubscriptionRestart w3 else w3) in
    watch_ok w' /\ w_sync w' = w_sync w3).
  { intros w3 H3 w'.
    destruct (publish_sync t probe (int64 h) c (activeIdx (w_sync w))
                (if signalRestart intent then signalSubscriptionRestart w3 else w3))
      as (Hs & Hp & Hcl).
    assert (w_sync w' = w_sync w3) as Hs' by (unfold w'; rewrite Hs; by destruct (signalRestart _)).
    split; [|exact Hs']. apply (watch_ok_same w3); try (by rewrite Hs'); [done| |].
    - unfold w'. rewrite Hp. by destruct (signalRestart intent).
    - unfold w'. rewrite Hcl. by destruct (signalRestart intent). }
  destruct Hi as [Hi|(Hi & Hbad & Hun)].
  - rewrite Hi. change (-1 =? -1) with true. cbv iota.
    destruct (canAttemptFailback c (activeIdx (w_sync w)) (-1)) eqn:Ec.
    + assert (Hgood : is_bad c = false).
      { unfold canAttemptFailback in Ec. destruct (_ || _); [done|]. by destruct c. }
      pose proof (wo_range _ Hok) as Hr.
      destruct (failback_from_ok t cCfg rCfg (Z.to_nat (activeIdx (w_sync w))) 0 w1 Hok1
                  ltac:(lia) ltac:(simpl; lia)) as (H1 & H2 & H3).
      change (chainIdentifier (w_sync w1)) with (chainIdentifier s1) in *.
      destruct (Hfin _ H1) as [Hf1 Hf2]. rewrite Hf2. split_and!; [exact Hf1| |].
      * intros Hne. rewrite H2. by apply Hch.
      * destruct H3 as [H3|(Hb & Hs & q & r & q' & HP & Hg & Hn)].
        { left. rewrite H3. exact Ha. }
        right. right. split; [lia|]. split; [by exists c|]. split.
        { simpl in Hs. rewrite Hst in Hs by lia. exact Hs. }
        exists q, r, q'. rewrite H2. done.
    + destruct (Hfin _ Hok1) as [Hf1 Hf2]. rewrite Hf2.
      split_and!; [exact Hf1|exact Hch|left; exact Ha].
  - rewrite Hi. pose proof (wo_range _ Hok) as Hr.
    destruct (Z.eqb_spec (activeIdx (w_sync w)) (-1)); [lia|].
    assert (canAttemptFailback c (activeIdx (w_sync w)) (activeIdx (w_sync w)) = false) as ->.
    { unfold canAttemptFailback. destruct (Z.eqb_spec (activeIdx (w_sync w)) (-1)); [lia|].
      by rewrite orb_true_r. }
    destruct (failover_step_ok t cCfg w1 Hok1) as (H1 & H2 & H3).
    change (activeIdx (w_sync w1)) with (activeIdx s1) in *.
    change (chainIdentifier (w_sync w1)) with (chainIdentifier s1) in *. rewrite Ha in H1, H2, H3.
    destruct (Hfin _ H1) as [Hf1 Hf2]. rewrite Hf2. split_and!; [exact Hf1| |].
    + intros Hne. rewrite H2. by apply Hch.
    + destruct H3 as [H3|H3]; [by left|right; left]. split; [exact H3|]. split; [by exists c|].
      exact Hun.
Qed.

(** *** The pool through a tick *)

Lemma swap_pool factory url w w2 :
  swapActiveClient factory url w = Ok w2 -> w_pool w2 = w_pool w.
Proof. unfold swapActiveClient. by intros (u & _ & [= <-])%bind_Ok. Qed.

Lemma failover_step_pool t cCfg active chain w :
  pool_le (w_pool w) (w_pool (failover_step t cCfg active chain w)).
Proof.
  unfold failover_step. destruct (selectFailoverTarget _ _ _ _ _) as [target p'] eqn:E.
  destruct (failover_from_spec _ _ _ _ _ _ _ _ E) as [Hle _].
  destruct (target =? -1); [exact Hle|].
  destruct (swapActiveClient _ _ _) as [w2|e] eqn:Es; [|exact Hle].
  simpl. by rewrite (swap_pool _ _ _ _ Es).
Qed.

Lemma failback_from_pool t cCfg rCfg chain n idx w :
  pool_le (w_pool w) (w_pool (failback_from t cCfg rCfg chain n idx w)).
Proof.
  revert idx w. induction n as [|n IH]; intros idx w; simpl; [done|].
  pose proof (Probe_le (tk_net t) idx (w_pool w)) as Hle.
  destruct (Probe (tk_net t) idx (w_pool w)) as [res p']. simpl in Hle.
  destruct (match res with Ok _ => _ | Err _ => _ end); [|etrans; [exact Hle|apply IH]].
  unfold selectFailback. cbv zeta.
  destruct (_ =? -1); [etrans; [exact Hle|apply IH]|].
  destruct (swapActiveClient _ _ _) as [w3|e] eqn:Es; [|exact Hle].
  simpl. by rewrite (swap_pool _ _ _ _ Es).
Qed.

Lemma tick_entries t cCfg rCfg w :
  np_entries (w_pool (runWatchdogTick t cCfg rCfg w)) = np_entries (w_pool w).
Proof.
  unfold runWatchdogTick.
  pose proof (Probe_le (tk_net t) (activeIdx (w_sync w)) (w_pool w)) as [Hle _].
  destruct (Probe _ _ _) as [probe p']. destruct (tk_dbHeight t) as [h|e]; [|exact Hle].
  destruct (observe _ _ _ _ _ _) as [s1 intent]. cbv zeta.
  rewrite (proj1 (proj2 (publish_sync _ _ _ _ _ _))).
  set (w1 := (w <| w_pool := p' |>) <| w_sync := s1 |>).
  transitivity (np_entries (w_pool w1)); [|exact Hle].
  set (w2 := if failoverIdx intent =? -1 then w1 else _).
  assert (H2 : np_entries (w_pool w2) = np_entries (w_pool w1)).
  { unfold w2. destruct (_ =? -1); [done|apply failover_step_pool]. }
  destruct (signalRestart intent); simpl;
    (destruct (canAttemptFailback _ _ _); [|exact H2]);
    (etrans; [apply failback_from_pool|exact H2]).
Qed.

(** ** Theorems on ticks *)

Definition run_ticks (cCfg : classifyConfig) (rCfg : watchdogReactConfig) (ts : list Tick)
    (w : WState) : WState :=
  fold_left (fun w t => runWatchdogTick t cCfg rCfg w) ts w.

(** C5. Safety of the watchdog over any sequence of ticks, whatever the nodes and the
    database answer and whichever client builds fail: the active index names a configured
    node, the SDK client is connected to that node, once a chain identity is recorded it
    never changes and the active node's own cached identity is that chain, and the primary
    is never marked as failed over. *)
Theorem watchdog_safety cCfg rCfg ts w :
  watch_ok w ->
  let w' := run_ticks cCfg rCfg ts w in
  watch_ok w'
  /\ (chainIdentifier (w_sync w) <> "" ->
      chainIdentifier (w_sync w') = chainIdentifier (w_sync w)).
Proof.
  unfold run_ticks. revert w. induction ts as [|t ts IH]; intros w Hok; cbv zeta; simpl; [done|].
  destruct (tick_spec t cCfg rCfg w Hok) as (Hok1 & Hch & _).
  destruct (IH _ Hok1) as [Hok2 Hch2]. split; [done|]. intros Hne.
  rewrite <- (Hch Hne). apply Hch2. by rewrite (Hch Hne).
Qed.

(** The state [NewIndexerWithNodes] builds, with the client of the first node. *)
Definition fresh_watch (p : NodePool) : WState :=
  mkWState (newSyncState (Len p)) p (ne_URL (Entry p 0)) false None.

Lemma fresh_watch_ok p : 0 < Len p -> watch_ok (fresh_watch p).
Proof. intros H. split; simpl; [lia|done|done|done]. Qed.

(** A tick in which both nodes answer the given frontier. *)
Definition toy_tick (net : Net) (now : Z) : Tick :=
  mkTick net (Ok 80) now (now * Second) (fun _ => Ok tt) None.

(** The primary's probes fail; the fallback answers. *)
Definition primary_down : Net :=
  mkNet
    (fun n url => if String.eqb url "http://a:35997" then Err (EMsg "refused")
                  else net_sync (toy_net 90 90 "g") n url)
    (net_rpc (toy_net 90 90 "g")).

Definition toy_cCfg : classifyConfig := mkClassifyConfig (300 * Second) 20 20.
Definition toy_rCfg : watchdogReactConfig := mkReactConfig 2 2.

Lemma watchdog_safety_witness :
  let w' := run_ticks toy_cCfg toy_rCfg
              [toy_tick (toy_net 90 90 "g") 1000; toy_tick primary_down 1030;
               toy_tick primary_down 1060] (fresh_watch toy_pool) in
  activeIdx (w_sync w') = 1 /\ w_client w' = "wss://b" /\ chainIdentifier (w_sync w') = "g"
  /\ watch_ok w'.
Proof.
  cbv zeta. split; [vm_compute; reflexivity|]. split; [vm_compute; reflexivity|].
  split; [vm_compute; reflexivity|].
  apply (watchdog_safety toy_cCfg toy_rCfg
           [toy_tick (toy_net 90 90 "g") 1000; toy_tick primary_down 1030;
            toy_tick primary_down 1060] (fresh_watch toy_pool)).
  apply fresh_watch_ok. reflexivity.
Defined.

(** C19. Why the active node changes in a tick. It moves to a later node only when the tick's
    class blames the active node (node lagging, stalled or probe failed) and its unhealthy
    streak reaches the threshold; it moves to an earlier node only when the class does not
    blame the active node and the candidate, probed on the recorded chain and at the
    network's head, has reached its own healthy streak. Otherwise it stays. *)
Theorem watchdog_moves t cCfg rCfg w :
  watch_ok w ->
  let w' := runWatchdogTick t cCfg rCfg w in
  let a := activeIdx (w_sync w) in
  let a' := activeIdx (w_sync w') in
  a' = a
  \/ (a < a' /\ (exists c, tick_class t cCfg w = Some c /\ is_bad c = true)
      /\ UnhealthyStreak rCfg <= unhealthy (streak (w_sync w) a) + 1)
  \/ (0 <= a' < a /\ (exists c, tick_class t cCfg w = Some c /\ is_bad c = false)
      /\ FailbackStreak rCfg <= healthy (streak (w_sync w) a') + 1
      /\ exists q r q', Probe (tk_net t) a' q = (Ok r, q')
           /\ pr_GenesisHash r = chainIdentifier (w_sync w') /\ node_behind r cCfg = false).
Proof. intros Hok. exact (proj2 (proj2 (tick_spec t cCfg rCfg w Hok))). Qed.

Lemma watchdog_moves_witness :
  let w1 := run_ticks toy_cCfg toy_rCfg
              [toy_tick primary_down 1000; toy_tick primary_down 1030;
               toy_tick (toy_net 90 90 "g") 1060] (fresh_watch toy_pool) in
  let w2 := runWatchdogTick (toy_tick (toy_net 90 90 "g") 1090) toy_cCfg toy_rCfg w1 in
  activeIdx (w_sync w1) = 1 /\ activeIdx (w_sync w2) = 0
  /\ FailbackStreak toy_rCfg <= healthy (streak (w_sync w1) 0) + 1.
Proof.
  cbv zeta. set (w1 := run_ticks _ _ _ _).
  assert (H1 : activeIdx (w_sync w1) = 1) by (vm_compute; reflexivity).
  set (t := toy_tick (toy_net 90 90 "g") 1090).
  assert (H2 : activeIdx (w_sync (runWatchdogTick t toy_cCfg toy_rCfg w1)) = 0)
    by (vm_compute; reflexivity).
  split; [exact H1|]. split; [exact H2|].
  assert (Hok : watch_ok w1).
  { apply (mkWatchOk w1); [vm_compute; split; [discriminate|reflexivity]|vm_compute; reflexivity
      |intros _; vm_compute; reflexivity|rewrite H1; discriminate]. }
  destruct (watchdog_moves t toy_cCfg toy_rCfg w1 Hok) as [H|[(H & _)|(_ & _ & H & _)]].
  - exfalso. rewrite H1, H2 in H. discriminate H.
  - exfalso. rewrite H1, H2 in H. discriminate H.
  - rewrite H2 in H. exact H.
Defined.

(** Failover does not wrap around. With the last configured node active, as long as that
    node's probes fail, no sequence of ticks moves away from it, however healthy the other
    nodes are: failover looks only at later nodes and failback needs a healthy active
    node. *)
Theorem last_node_strands cCfg rCfg ts w :
  watch_ok w -> activeIdx (w_sync w) = Len (w_pool w) - 1 ->
  Forall (fun t => forall q, np_entries q = np_entries (w_pool w) ->
            is_ok (Probe (tk_net t) (Len (w_pool w) - 1) q).1 = false) ts ->
  activeIdx (w_sync (run_ticks cCfg rCfg ts w)) = Len (w_pool w) - 1.
Proof.
  intros Hok Ha Hts. unfold run_ticks. revert w Hok Ha Hts.
  induction ts as [|t ts IH]; intros w Hok Ha Hts; simpl; [done|].
  apply Forall_cons in Hts as [Ht Hts].
  destruct (tick_spec t cCfg rCfg w Hok) as (Hok1 & _ & Hmove).
  pose proof (tick_entries t cCfg rCfg w) as He.
  assert (HLen : Len (w_pool (runWatchdogTick t cCfg rCfg w)) = Len (w_pool w))
    by (unfold Len; by rewrite He).
  rewrite <- HLen. apply IH; [done| |by rewrite HLen, He].
  rewrite HLen. destruct Hmove as [H|[(H & _)|(_ & (c & Hc & Hg) & _)]].
  - congruence.
  - pose proof (wo_range _ Hok1). lia.
  - exfalso. unfold tick_class in Hc. destruct (tk_dbHeight t); [|done].
    injection Hc as Hc. rewrite Ha in Hc. specialize (Ht (w_pool w) eq_refl).
    destruct (Probe (tk_net t) (Len (w_pool w) - 1) (w_pool w)) as [[r|e] q]; [done|].
    simpl in Hc. subst c. done.
Qed.

(** The last node of the pool refuses; every other node answers. *)
Definition last_down : Net :=
  mkNet
    (fun n url => if String.eqb url "https://b" then Err (EMsg "refused")
                  else net_sync (toy_net 90 90 "g") n url)
    (net_rpc (toy_net 90 90 "g")).

Definition on_fallback : WState :=
  run_ticks toy_cCfg toy_rCfg
    [toy_tick (toy_net 90 90 "g") 970; toy_tick primary_down 1000; toy_tick primary_down 1030]
    (fresh_watch toy_pool).

Lemma last_node_strands_witness :
  is_ok (Probe last_down 0 (w_pool on_fallback)).1 = true
  /\ activeIdx (w_sync (run_ticks toy_cCfg toy_rCfg
       [toy_tick last_down 2000; toy_tick last_down 2030; toy_tick last_down 2060]
       on_fallback)) = Len (w_pool on_fallback) - 1.
Proof.
  split; [vm_compute; reflexivity|].
  apply (last_node_strands toy_cCfg toy_rCfg
           [toy_tick last_down 2000; toy_tick last_down 2030; toy_tick last_down 2060]
           on_fallback).
  - apply (mkWatchOk on_fallback).
    + vm_compute. split; [discriminate|reflexivity].
    + vm_compute. reflexivity.
    + intros _. vm_compute. reflexivity.
    + intros H. vm_compute in H. discriminate H.
  - vm_compute. reflexivity.
  - assert (Hq : forall q, np_entries q = np_entries (w_pool on_fallback) ->
      is_ok (Probe last_down (Len (w_pool on_fallback) - 1) q).1 = false).
    { intros [es g n] He. simpl in He.
      assert (He' : es = np_entries toy_pool) by (rewrite He; vm_compute; reflexivity).
      subst es. reflexivity. }
    repeat constructor; exact Hq.
Defined.

(** ** Streaks over time *)

(** The ticks' reactions on one active node, oldest first. *)
Definition run_react (active : Z) (cfg : watchdogReactConfig) (cs : list syncClass)
    (s : syncState) : syncState :=
  fold_left (fun s c => (react s active c cfg).1) cs s.

(** The bad classes since the last synced one; indexer lagging counts for neither. *)
Definition count_bad (n : Z) (c : syncClass) : Z :=
  match c with
  | classSynced => 0
  | classIndexerLagging => n
  | _ => n + 1
  end.
Definition bad_since_synced (cs : list syncClass) : Z := fold_left count_bad cs 0.

Lemma react_unhealthy s active c cfg :
  unhealthy (streak (react s active c cfg).1 active)
  = count_bad (unhealthy (streak s active)) c.
Proof. destruct c; simpl; rewrite ?streak_set_eq; done. Qed.

Lemma run_react_unhealthy active cfg cs s :
  unhealthy (streak s active) = 0 ->
  unhealthy (streak (run_react active cfg cs s) active) = bad_since_synced cs.
Proof.
  intros H. unfold run_react, bad_since_synced. revert H. generalize 0 as n. revert s.
  induction cs as [|c cs IH]; intros s n H; simpl; [done|].
  apply IH. by rewrite react_unhealthy, H.
Qed.

(** The unhealthy streak is not a run of consecutive ticks: it is the number of ticks
    that blamed the node since the last synced tick, and indexer-lagging ticks in between
    neither count nor reset it. Failover is requested exactly at the ticks that blame the
    node with that number at or above the threshold, and the readiness endpoint reports
    not ready exactly while the number is at or above its threshold, so an indexer that
    only lags stays ready for ever. *)
Theorem unhealthy_streak_meaning active cfg cs c s wcfg w :
  unhealthy (streak s active) = 0 -> activeIdx s = active -> active <> -1 ->
  let before := run_react active cfg cs s in
  let n := bad_since_synced (cs ++ [c]) in
  unhealthy (streak (react before active c cfg).1 active) = n
  /\ (failoverIdx (react before active c cfg).2 <> -1 <->
      is_bad c = true /\ UnhealthyStreak cfg <= n)
  /\ (w_sync w = (react before active c cfg).1 -> 0 < wc_UnhealthyStreak wcfg ->
      hs_Ready (Indexer_HealthSnapshot wcfg (Some w)) = (n <? wc_UnhealthyStreak wcfg)).
Proof.
  intros H0 Ha Hne. cbv zeta. set (before := run_react active cfg cs s).
  assert (Hn : unhealthy (streak (react before active c cfg).1 active)
               = bad_since_synced (cs ++ [c])).
  { rewrite <- (run_react_unhealthy active cfg (cs ++ [c]) s H0). unfold run_react.
    by rewrite fold_left_app. }
  split; [exact Hn|]. split.
  - rewrite <- Hn, react_unhealthy.
    destruct c; simpl; try (split; [intros Hx; by destruct Hx|by intros [? _]]);
      match goal with |- context [UnhealthyStreak cfg <=? ?h] =>
        change h with (unhealthy (streak before active) + 1);
        destruct (Z.leb_spec (UnhealthyStreak cfg) (unhealthy (streak before active) + 1)) end;
      (split; [|intros [_ ?]]); try done; lia.
  - intros Hw Hpos. simpl. rewrite Hw.
    assert (activeIdx (react before active c cfg).1 = active) as ->.
    { destruct (react before active c cfg) as [s1 i1] eqn:E.
      cbn [fst]. destruct (react_spec _ _ _ _ _ _ E) as (-> & _). unfold before, run_react.
      clear -Ha. revert s Ha. induction cs as [|c cs IH]; intros s Ha; simpl; [done|].
      apply IH. destruct (react s active c cfg) as [s1 i1] eqn:E.
      cbn [fst]. by destruct (react_spec _ _ _ _ _ _ E) as (-> & _). }
    rewrite Hn. destruct (Z.leb_spec (wc_UnhealthyStreak wcfg) 0); [lia|done].
Qed.

(** Two node-lagging ticks far apart, threshold 2: failover. *)
Lemma unhealthy_streak_meaning_witness :
  let cs := [classNodeLagging; classIndexerLagging; classIndexerLagging] in
  let s := newSyncState 2 in
  failoverIdx (react (run_react 0 toy_rCfg cs s) 0 classNodeLagging toy_rCfg).2 <> -1.
Proof.
  cbv zeta.
  apply (unhealthy_streak_meaning 0 toy_rCfg
           [classNodeLagging; classIndexerLagging; classIndexerLagging] classNodeLagging
           (newSyncState 2) (mkWatchdogConfig true 1 1 1 1 2 2) on_fallback).
  - reflexivity.
  - reflexivity.
  - discriminate.
  - split; [reflexivity|vm_compute; discriminate].
Defined.
