(* ===== verification/CachedData.v ===== *)
(** internal/indexer/indexer.go: the refresh of cached data - the pillar cache, sentinels,
    accelerator projects and phases, and the legacy swap balances - as paged reads from the
    node followed by row-by-row upserts whose failures are only logged. *)

From S2P Require Import Prelude.
From S2P Require Import Models.
From S2P Require Import Chain.
From S2P Require Import RepoLedger.
From S2P Require Import RepoContracts.
From S2P Require Import Database.
From S2P Require Import ExecFacts.
From S2P Require Import Decoder.
From S2P Require Import Embedded.
#[local] Open Scope string_scope.
#[local] Open Scope Z_scope.

(** ** The node's answers *)

(** [embedded.PillarInfo], [SentinelInfo], [Project], [Phase] and the swap entry, as far as
    they are read. *)
Record PillarInfo : Type := mkPillarInfo {
  pi_Name : string;
  pi_Rank : Z;
  pi_OwnerAddress : string;
  pi_ProducerAddress : string;
  pi_WithdrawAddress : string;
  pi_GiveMomentumRewardPercentage : Z;
  pi_GiveDelegateRewardPercentage : Z;
  pi_IsRevocable : bool;
  pi_RevokeCooldown : Z;
  pi_RevokeTimestamp : Z;
  pi_Weight : option Z;
  pi_ProducedMomentums : Z;
  pi_ExpectedMomentums : Z
}.

Record SentinelInfo : Type := mkSentinelInfo {
  si_Owner : string;
  si_RegistrationTimestamp : Z;
  si_IsRevocable : bool;
  si_RevokeCooldown : Z;
  si_Active : bool
}.

Record VoteBreakdown : Type := mkVoteBreakdown { vb_Yes : Z; vb_No : Z; vb_Total : Z }.

Record PhaseInfo : Type := mkPhaseInfo {
  phi_Id : string;
  phi_Name : string;
  phi_Description : string;
  phi_Url : string;
  phi_ZnnFundsNeeded : option Z;
  phi_QsrFundsNeeded : option Z;
  phi_CreationTimestamp : Z;
  phi_AcceptedTimestamp : Z;
  phi_Status : Z
}.

Record ProjectInfo : Type := mkProjectInfo {
  pji_Id : string;
  pji_Owner : string;
  pji_Name : string;
  pji_Description : string;
  pji_Url : string;
  pji_ZnnFundsNeeded : option Z;
  pji_QsrFundsNeeded : option Z;
  pji_CreationTimestamp : Z;
  pji_LastUpdateTimestamp : Z;
  pji_Status : Z;
  pji_Votes : option VoteBreakdown;
  pji_Phases : list (option PhaseInfo * option VoteBreakdown)
}.

(** The RPC calls of one refresh. A Go map is visited in some order; the entries come in
    that order. *)
Record CacheApi : Type := mkCacheApi {
  PillarGetAll : Z -> Z -> result (list PillarInfo);
  SentinelGetAllActive : Z -> Z -> result (list SentinelInfo);
  AcceleratorGetAll : Z -> Z -> result (list ProjectInfo);
  SwapGetAssets : result (list (string * option (option Z * option Z)))
}.

(** ** Pages *)

Definition uint32 (z : Z) : Z := z mod 4294967296.

(** The paging loop shared by sentinels and projects: pages of [size] from [idx] on, until
    an error, an empty page or a short one. [None] when [fuel] pages were not enough. *)
Fixpoint paged {A} (fuel : nat) (api : Z -> Z -> result (list A)) (size idx : Z)
  : option (list A) :=
  match fuel with
  | O => None
  | S fuel' =>
      match api idx size with
      | Err _ | Ok [] => Some []
      | Ok page =>
          if Z.of_nat (length page) <? size then Some page
          else rest ← paged fuel' api size (uint32 (idx + 1)); Some (page ++ rest)%list
      end
  end.

(** ** Writes *)

(** Row-by-row writes: the k-th fails when the oracle says so or the statement is rejected;
    the loop goes on after a failure. *)
Fixpoint run_writes (calls : nat -> Call) (k : nat) (ops : list (Db -> result Db)) (db : Db)
  : Db :=
  match ops with
  | [] => db
  | op :: ops' =>
      run_writes calls (S k) ops' (exec_call (calls k) op db).2
  end.

(** ** The pillar cache *)

Definition pillar_row (p : PillarInfo) : Pillar :=
  mkPillar (pi_OwnerAddress p) (pi_ProducerAddress p) (pi_WithdrawAddress p) (pi_Name p)
    (pi_Rank p) (int16 (pi_GiveMomentumRewardPercentage p))
    (int16 (pi_GiveDelegateRewardPercentage p)) (pi_IsRevocable p) (pi_RevokeCooldown p)
    (pi_RevokeTimestamp p) (safeBigIntToInt64 (pi_Weight p)) (int16 (pi_ProducedMomentums p))
    (int16 (pi_ExpectedMomentums p)) 0 0 (S754_zero false) 0 false.

Definition name_to_owner (ps : list PillarInfo) : gmap string string :=
  fold_left (fun m p => <[pi_Name p := pi_OwnerAddress p]> m) ps ∅.

(** What the indexer keeps between momentums: the committed tables and the published
    pillar snapshot. *)
Record IndexerSt : Type := mkIndexerSt {
  ix_db : Db;
  ix_pillars : list Pillar;
  ix_pillarNameToOwner : gmap string string
}.

#[export] Instance IndexerSt_eta : Eta IndexerSt := fun r =>
  mkIndexerSt (ix_db r) (ix_pillars r) (ix_pillarNameToOwner r).

Definition updatePillarCache (api : CacheApi) (calls : nat -> Call) (s : IndexerSt)
  : result unit * IndexerSt :=
  match PillarGetAll api 0 200 with
  | Err e => (Err (EWrap "failed to get pillars" e), s)
  | Ok ps =>
      let rows := map pillar_row ps in
      (Ok tt,
       mkIndexerSt
         (run_writes calls 0
            (map (fun r => on_table db_pillars (PillarRepository.Upsert r)) rows) (ix_db s))
         rows (name_to_owner ps))
  end.

(** ** The other tables *)

Definition sentinel_row (s : SentinelInfo) : Sentinel :=
  mkSentinel (si_Owner s) (si_RegistrationTimestamp s) (si_IsRevocable s)
    (format_int (si_RevokeCooldown s)) (si_Active s).

Definition vote_counts (v : option VoteBreakdown) : Z * Z * Z :=
  match v with
  | Some b => (int16 (vb_Yes b), int16 (vb_No b), int16 (vb_Total b))
  | None => (0, 0, 0)
  end.

Definition project_row (sdk : Sdk) (p : ProjectInfo) : Project :=
  let '(yes, no, tot) := vote_counts (pji_Votes p) in
  mkProject (pji_Id p) (getVotingID sdk (pji_Id p)) (pji_Owner p) (pji_Name p)
    (pji_Description p) (pji_Url p) (safeBigIntToInt64 (pji_ZnnFundsNeeded p))
    (safeBigIntToInt64 (pji_QsrFundsNeeded p)) (pji_CreationTimestamp p)
    (pji_LastUpdateTimestamp p) (int16 (pji_Status p)) yes no tot.

Definition phase_row (sdk : Sdk) (projectID : string) (p : PhaseInfo) (v : option VoteBreakdown)
  : ProjectPhase :=
  let '(yes, no, tot) := vote_counts v in
  mkProjectPhase (phi_Id p) projectID (getVotingID sdk (phi_Id p)) (phi_Name p)
    (phi_Description p) (phi_Url p) (safeBigIntToInt64 (phi_ZnnFundsNeeded p))
    (safeBigIntToInt64 (phi_QsrFundsNeeded p)) (phi_CreationTimestamp p)
    (phi_AcceptedTimestamp p) (int16 (phi_Status p)) yes no tot.

(** A project's upsert, then those of its phases that are present. *)
Definition project_writes (sdk : Sdk) (p : ProjectInfo) : list (Db -> result Db) :=
  on_table db_projects (ProjectRepository.Upsert (project_row sdk p))
  :: omap (fun '(phase, votes) =>
       match phase with
       | Some ph => Some (on_table db_project_phases
                            (ProjectPhaseRepository.Upsert (phase_row sdk (pji_Id p) ph votes)))
       | None => None
       end) (pji_Phases p).

Definition swap_writes (now : Z) (assets : list (string * option (option Z * option Z)))
  : list (Db -> result Db) :=
  omap (fun '(k, entry) =>
    match entry with
    | Some (znn, qsr) =>
        Some (on_table db_swap_assets
                (SwapRepository.UpsertAsset
                   (mkSwapAsset k (safeBigIntToInt64 znn) (safeBigIntToInt64 qsr) now)))
    | None => None
    end) assets.

Definition syncSwapAssets (api : CacheApi) (calls : nat -> Call) (now : Z) (db : Db) : Db :=
  match SwapGetAssets api with
  | Err _ => db
  | Ok assets => run_writes calls 0 (swap_writes now assets) db
  end.

(** [updateCachedData]; [None] when a paging loop ran out of [fuel]. The oracles give the
    write failures of the four parts. *)
Definition updateCachedData (sdk : Sdk) (api : CacheApi) (calls : nat -> nat -> Call)
    (now : Z) (fuel : nat) (s : IndexerSt) : option (result unit * IndexerSt) :=
  match updatePillarCache api (calls 0%nat) s with
  | (Err e, s1) => Some (Err e, s1)
  | (Ok _, s1) =>
      sentinels ← paged fuel (SentinelGetAllActive api) 10 0;
      projects ← paged fuel (AcceleratorGetAll api) 10 0;
      let db1 := run_writes (calls 1%nat) 0
                   (map (fun x => on_table db_sentinels (SentinelRepository.Upsert (sentinel_row x)))
                        sentinels) (ix_db s1) in
      let db2 := run_writes (calls 2%nat) 0 (projects ≫= project_writes sdk) db1 in
      let db3 := syncSwapAssets api (calls 3%nat) now db2 in
      Some (Ok tt, s1 <| ix_db := db3 |>)
  end.

(** ** Facts *)

(** A paged read that answers slices of a fixed list. *)
Definition serves {A} (api : Z -> Z -> result (list A)) (xs : list A) : Prop :=
  forall idx size, 0 <= idx -> 0 < size ->
    api idx size = Ok (take (Z.to_nat size) (drop (Z.to_nat (idx * size)) xs)).

(** Paging reads everything exactly once: over a node that serves a fixed list in pages
    of [size], the loop stops after at most [length / size + 1] pages and has collected
    the whole list in order. *)
Theorem paged_complete {A} (api : Z -> Z -> result (list A)) xs size fuel :
  serves api xs -> 0 < size -> Z.of_nat (length xs) / size < 4294967295 ->
  (Z.to_nat (Z.of_nat (length xs) / size) < fuel)%nat ->
  paged fuel api size 0 = Some xs.
Proof.
  intros Hs Hsize Hlen Hfuel.
  assert (Hgen : forall fuel idx,
    0 <= idx <= Z.of_nat (length xs) / size ->
    (Z.to_nat (Z.of_nat (length xs) / size - idx) < fuel)%nat ->
    paged fuel api size idx = Some (drop (Z.to_nat (idx * size)) xs)).
  { clear Hfuel fuel. induction fuel as [|fuel IH]; intros idx Hidx Hf; [lia|]. simpl.
    rewrite (Hs idx size) by lia.
    pose proof (Z.div_mod (Z.of_nat (length xs)) size) as Hdm.
    pose proof (Z.mod_pos_bound (Z.of_nat (length xs)) size Hsize) as Hmod.
    set (page := take (Z.to_nat size) (drop (Z.to_nat (idx * size)) xs)).
    assert (Hpl : Z.of_nat (length page)
                  = Z.min size (Z.of_nat (length xs) - idx * size)).
    { unfold page. rewrite length_take, length_drop.
      assert (idx * size <= Z.of_nat (length xs)) by nia. lia. }
    destruct page as [|x page'] eqn:Ep.
    - simpl in Hpl. f_equal. symmetry. apply nil_length_inv. rewrite length_drop.
      assert (idx * size = Z.of_nat (length xs)) by nia. lia.
    - rewrite <- Ep in *. destruct (Z.ltb_spec (Z.of_nat (length page)) size) as [Hlt|Hge].
      + f_equal. unfold page. apply take_ge. rewrite length_drop. lia.
      + assert (Hnext : (idx + 1) * size <= Z.of_nat (length xs)) by nia.
        assert (Hidx' : idx + 1 <= Z.of_nat (length xs) / size)
          by (apply Z.div_le_lower_bound; lia).
        assert (uint32 (idx + 1) = idx + 1) as -> by (apply Z.mod_small; lia).
        rewrite IH by lia. simpl. f_equal. unfold page.
        replace (Z.to_nat ((idx + 1) * size)) with (Z.to_nat (idx * size) + Z.to_nat size)%nat
          by nia.
        rewrite <- drop_drop. apply take_drop. }
  rewrite Hgen; [done| |lia].
  split; [lia|]. apply Z.div_pos; lia.
Qed.

Lemma paged_complete_witness :
  paged 3 (fun idx size => Ok (take (Z.to_nat size) (drop (Z.to_nat (idx * size)) [1; 2; 3; 4; 5])))
    2 0 = Some [1; 2; 3; 4; 5].
Proof.
  apply (paged_complete _ [1; 2; 3; 4; 5] 2 3).
  - intros idx size _ _. reflexivity.
  - lia.
  - reflexivity.
  - vm_compute. lia.
Defined.

(** A write that cannot touch a table a fact is about. *)
Lemma exec_call_keeps (P : Db -> Prop) c op db :
  (forall d, cl_others c d = d) -> (forall d d', op d = Ok d' -> P d -> P d') -> P db ->
  P (exec_call c op db).2.
Proof.
  intros Hc Hop HP. unfold exec_call. rewrite Hc. destruct (cl_err c); [done|].
  destruct (op db) as [d|e] eqn:E; [|done]. by eapply Hop.
Qed.

Lemma run_writes_keeps (P : Db -> Prop) calls k ops db :
  undisturbed calls ->
  Forall (fun op => forall d d', op d = Ok d' -> P d -> P d') ops -> P db ->
  P (run_writes calls k ops db).
Proof.
  intros Hc Hops. revert k db. induction Hops as [|op ops Hop _ IH]; intros k db HP; simpl; [done|].
  by apply IH, exec_call_keeps.
Qed.

(** No undisturbed refresh touches the momentums. *)
Lemma on_table_momentums {T} (f : Db -> T) (X : Setter f) (op : T -> result T) d d' :
  (forall g (d : Db), db_momentums (update_field f g d) = db_momentums d) ->
  on_table f op d = Ok d' -> db_momentums d' = db_momentums d.
Proof. intros Hf (t & _ & ->)%on_table_Ok. apply Hf. Qed.

Lemma updatePillarCache_momentums api calls s :
  undisturbed calls ->
  db_momentums (ix_db (updatePillarCache api calls s).2) = db_momentums (ix_db s).
Proof.
  intros Hc. unfold updatePillarCache. destruct (PillarGetAll api 0 200) as [ps|e]; [|done]. simpl.
  apply (run_writes_keeps (fun d => db_momentums d = db_momentums (ix_db s))); [done| |done].
  apply Forall_map, Forall_map, Forall_true. intros p d d' Ho <-.
  by apply on_table_momentums in Ho.
Qed.

Lemma updateCachedData_momentums sdk api calls now fuel s r s' :
  (forall i, undisturbed (calls i)) ->
  updateCachedData sdk api calls now fuel s = Some (r, s') ->
  db_momentums (ix_db s') = db_momentums (ix_db s).
Proof.
  intros Hc. unfold updateCachedData.
  pose proof (updatePillarCache_momentums api (calls 0%nat) s (Hc 0%nat)) as Hp.
  destruct (updatePillarCache api (calls 0%nat) s) as [[u|e] s1]; simpl in Hp;
    [|by intros [= <- <-]].
  destruct (paged fuel (SentinelGetAllActive api) 10 0) as [sens|]; [|done].
  destruct (paged fuel (AcceleratorGetAll api) 10 0) as [projs|]; [|done].
  simpl. intros [= <- <-]. simpl. rewrite <- Hp.
  set (Pm d := db_momentums d = db_momentums (ix_db s1)).
  assert (H1 : forall d k, Pm d -> Pm (run_writes (calls 2%nat) k (projs ≫= project_writes sdk) d)).
  { intros d k. apply run_writes_keeps; [done|]. apply Forall_bind, Forall_true. intros p.
    apply Forall_cons. split.
    - intros x x' Hx. unfold Pm. intros <-. by apply on_table_momentums in Hx.
    - apply Forall_forall. intros op ([ph v] & _ & Hop)%list_elem_of_omap x x' Hx. unfold Pm.
      intros <-. destruct ph; [|done]. injection Hop as <-. by apply on_table_momentums in Hx. }
  assert (H2 : forall d, Pm d -> Pm (syncSwapAssets api (calls 3%nat) now d)).
  { intros d Hd. unfold syncSwapAssets. destruct (SwapGetAssets api) as [assets|]; [|done].
    apply run_writes_keeps; [done| |done]. apply Forall_forall.
    intros op ([k entry] & _ & Hop)%list_elem_of_omap x x' Hx. unfold Pm. intros <-.
    destruct entry as [[znn qsr]|]; [|done]. injection Hop as <-.
    by apply on_table_momentums in Hx. }
  apply H2, H1. apply run_writes_keeps; [done| |done]. apply Forall_map, Forall_true.
  intros x d d' Hx. unfold Pm. intros <-. by apply on_table_momentums in Hx.
Qed.
