(* ===== verification/BridgeSync.v ===== *)
(** internal/indexer/indexer.go: the bridge sync - wrap and unwrap requests read back to the
    stop height, and the bridge configuration - against the node's bridge API. *)

From S2P Require Import Prelude.
From S2P Require Import Models.
From S2P Require Import RepoBridge.
From S2P Require Import Database.
From S2P Require Import Embedded.
From S2P Require Import CachedData.
#[local] Open Scope string_scope.
#[local] Open Scope Z_scope.

(** ** The node's answers *)

(** [embedded.WrapTokenRequest] and the other bridge types of go-zenon, as far as they are
    read. Unsigned fields are their values; conversions are written where the code has
    them. *)
Record WrapInfo : Type := mkWrapInfo {
  wi_Id : string;
  wi_NetworkClass : Z;
  wi_ChainId : Z;
  wi_ToAddress : string;
  wi_TokenStandard : string;
  wi_TokenAddress : string;
  wi_Amount : option Z;
  wi_Fee : option Z;
  wi_Signature : string;
  wi_CreationMomentumHeight : Z;
  wi_ConfirmationsToFinality : Z
}.

Record UnwrapInfo : Type := mkUnwrapInfo {
  ui_TransactionHash : string;
  ui_LogIndex : Z;
  ui_NetworkClass : Z;
  ui_ChainId : Z;
  ui_ToAddress : string;
  ui_TokenStandard : string;
  ui_TokenAddress : string;
  ui_Amount : option Z;
  ui_Signature : string;
  ui_RegistrationMomentumHeight : Z;
  ui_Redeemed : Z;
  ui_Revoked : Z;
  ui_RedeemableIn : Z
}.

Record BridgeInfo : Type := mkBridgeInfo {
  bi_Administrator : string;
  bi_CompressedTssECDSAPubKey : string;
  bi_DecompressedTssECDSAPubKey : string;
  bi_AllowKeyGen : bool;
  bi_Halted : bool;
  bi_UnhaltedAt : Z;
  bi_UnhaltDurationInMomentums : Z;
  bi_TssNonce : Z;
  bi_Metadata : string
}.

Record SecurityInfo : Type := mkSecurityInfo {
  si_Guardians : list string;
  si_GuardiansVotes : list string;
  si_AdministratorDelay : Z;
  si_SoftDelay : Z
}.

Record OrchestratorInfo : Type := mkOrchestratorInfo {
  oi_WindowSize : Z;
  oi_KeyGenThreshold : Z;
  oi_ConfirmationsToFinality : Z;
  oi_EstimatedMomentumTime : Z;
  oi_AllowKeyGenHeight : Z
}.

Record TokenPair : Type := mkTokenPair {
  tp_TokenStandard : string;
  tp_TokenAddress : string;
  tp_Bridgeable : bool;
  tp_Redeemable : bool;
  tp_Owned : bool;
  tp_MinAmount : option Z;
  tp_FeePercentage : Z;
  tp_RedeemDelay : Z;
  tp_Metadata : string
}.

Record NetworkInfo : Type := mkNetworkInfo {
  ni_NetworkClass : Z;
  ni_ChainId : Z;
  ni_Name : string;
  ni_ContractAddress : string;
  ni_Metadata : string;
  ni_TokenPairs : list TokenPair
}.

Record TimeChallenge : Type := mkTimeChallenge {
  ci_MethodName : string;
  ci_ParamsHash : string;
  ci_ChallengeStartHeight : Z
}.

(** A [nil] answer without an error is [Ok None]; a [nil] list is the empty one. *)
Record BridgeApi : Type := mkBridgeApi {
  GetBridgeInfo : result (option BridgeInfo);
  GetSecurityInfo : result (option SecurityInfo);
  GetOrchestratorInfo : result (option OrchestratorInfo);
  GetAllNetworks : Z -> Z -> result (list NetworkInfo);
  GetTimeChallengesInfo : result (option (list TimeChallenge));
  GetAllWrapTokenRequests : Z -> Z -> result (list WrapInfo);
  GetAllUnwrapTokenRequests : Z -> Z -> result (list UnwrapInfo)
}.

(** ** Wrap and unwrap requests *)

(** The paging loop of the two request syncs: pages of [size] from [idx] on, until an error
    (which is returned), an empty page, a page with a request for which [reached] holds, or
    a short page. The answer comes with the requests of the pages read, which are upserted
    page by page whatever follows. [None] when [fuel] pages were not enough. *)
Fixpoint paged_until {A} (fuel : nat) (api : Z -> Z -> result (list A)) (reached : A -> bool)
    (size idx : Z) : option (result unit * list A) :=
  match fuel with
  | O => None
  | S fuel' =>
      match api idx size with
      | Err e => Some (Err e, [])
      | Ok [] => Some (Ok tt, [])
      | Ok page =>
          if existsb reached page then Some (Ok tt, page)
          else if Z.of_nat (length page) <? size then Some (Ok tt, page)
          else '(res, rest) ← paged_until fuel' api reached size (uint32 (idx + 1));
               Some (res, page ++ rest)%list
      end
  end.

Definition wrap_row (w : WrapInfo) : WrapTokenRequest :=
  mkWrapTokenRequest (wi_Id w) (wi_NetworkClass w) (wi_ChainId w) (wi_ToAddress w)
    (wi_TokenStandard w) (wi_TokenAddress w) (safeBigIntToInt64 (wi_Amount w))
    (safeBigIntToInt64 (wi_Fee w)) (wi_Signature w) (int64 (wi_CreationMomentumHeight w))
    (int64 (wi_ConfirmationsToFinality w)).

Definition unwrap_row (u : UnwrapInfo) : UnwrapTokenRequest :=
  mkUnwrapTokenRequest (ui_TransactionHash u) (int64 (ui_LogIndex u)) (ui_NetworkClass u)
    (ui_ChainId u) (ui_ToAddress u) (ui_TokenStandard u) (ui_TokenAddress u)
    (safeBigIntToInt64 (ui_Amount u)) (ui_Signature u)
    (int64 (ui_RegistrationMomentumHeight u)) (0 <? ui_Redeemed u) (0 <? ui_Revoked u)
    (int64 (ui_RedeemableIn u)).

Definition wrap_write (w : WrapInfo) : Db -> result Db :=
  on_table db_wraps (BridgeRepository.UpsertWrapRequest (wrap_row w)).

Definition unwrap_write (u : UnwrapInfo) : Db -> result Db :=
  on_table db_unwraps (BridgeRepository.UpsertUnwrapRequest (unwrap_row u)).

(** [stopHeight > 0 && int64(height) <= stopHeight] *)
Definition reached_stop (stopHeight height : Z) : bool :=
  (0 <? stopHeight) && (int64 height <=? stopHeight).

(** [stop] is the stop-height query. *)
Definition updateBridgeWrapRequests (stop : Call) (api : BridgeApi)
    (calls : nat -> Call) (fuel : nat) (db : Db) : option (result unit * Db) :=
  let db := cl_others stop db in
  match cl_err stop with
  | Some e => Some (Err (EWrap "failed to get wrap sync stop height" e), db)
  | None =>
      let stopHeight := BridgeRepository.GetWrapSyncStopHeight (db_wraps db) in
      '(res, ws) ← paged_until fuel (GetAllWrapTokenRequests api)
                     (fun w => reached_stop stopHeight (wi_CreationMomentumHeight w)) 100 0;
      Some (res, run_writes calls 0 (map wrap_write ws) db)
  end.

Definition updateBridgeUnwrapRequests (stop : Call) (api : BridgeApi)
    (calls : nat -> Call) (fuel : nat) (db : Db) : option (result unit * Db) :=
  let db := cl_others stop db in
  match cl_err stop with
  | Some e => Some (Err (EWrap "failed to get unwrap sync stop height" e), db)
  | None =>
      let stopHeight := BridgeRepository.GetUnwrapSyncStopHeight (db_unwraps db) in
      '(res, us) ← paged_until fuel (GetAllUnwrapTokenRequests api)
                     (fun u => reached_stop stopHeight (ui_RegistrationMomentumHeight u)) 100 0;
      Some (res, run_writes calls 0 (map unwrap_write us) db)
  end.

(** ** Configuration *)

(** One write of the configuration refresh: whether it succeeded, the number of the next
    write and the tables. A failure is logged. *)
Definition try_write (calls : nat -> Call) (op : Db -> result Db) (w : nat * Db)
  : bool * (nat * Db) :=
  let '(k, db) := w in let '(ok, db1) := exec_call (calls k) op db in (ok, (S k, db1)).

Definition write_all (calls : nat -> Call) (ops : list (Db -> result Db)) (w : nat * Db)
  : nat * Db :=
  fold_left (fun w op => (try_write calls op w).2) ops w.

Definition admin_row (now : Z) (info : BridgeInfo) : BridgeAdmin :=
  mkBridgeAdmin (bi_Administrator info) (bi_CompressedTssECDSAPubKey info)
    (bi_DecompressedTssECDSAPubKey info) (bi_AllowKeyGen info) (bi_Halted info)
    (int64 (bi_UnhaltedAt info)) (int64 (bi_UnhaltDurationInMomentums info))
    (int64 (bi_TssNonce info)) (bi_Metadata info) now.

Definition admin_step (calls : nat -> Call) (now : Z) (api : BridgeApi) (w : nat * Db)
  : nat * Db :=
  match GetBridgeInfo api with
  | Ok (Some info) =>
      (try_write calls (on_table db_bridge_admin
                           (BridgeConfigRepository.UpsertAdmin (admin_row now info))) w).2
  | _ => w
  end.

(** Every address nominated or voted for, in the order a Go map happens to give. *)
Definition current_guardians (sec : SecurityInfo) : list string :=
  remove_dups (si_Guardians sec ++ si_GuardiansVotes sec).

Definition guardian_row (now : Z) (sec : SecurityInfo) (addr : string) : BridgeGuardian :=
  mkBridgeGuardian addr (bool_decide (addr ∈ si_Guardians sec))
    (bool_decide (addr ∈ si_GuardiansVotes sec)) now.

Definition guardian_write (now : Z) (sec : SecurityInfo) (addr : string) : Db -> result Db :=
  on_table db_bridge_guardians
    (BridgeConfigRepository.UpsertGuardian (guardian_row now sec addr)).

(** The security step also answers (SoftDelay, AdministratorDelay), zero without an answer. *)
Definition security_step (calls : nat -> Call) (now : Z) (api : BridgeApi) (w : nat * Db)
  : (Z * Z) * (nat * Db) :=
  match GetSecurityInfo api with
  | Ok (Some sec) =>
      let w1 := (try_write calls
                   (on_table db_bridge_security
                      (BridgeConfigRepository.UpsertSecurityInfo
                         (mkBridgeSecurityInfo (int64 (si_AdministratorDelay sec))
                            (int64 (si_SoftDelay sec)) now))) w).2 in
      let w2 := write_all calls (map (guardian_write now sec) (current_guardians sec)) w1 in
      ((si_SoftDelay sec, si_AdministratorDelay sec),
       (try_write calls (on_table db_bridge_guardians
                            (BridgeConfigRepository.MarkGuardiansAbsent now)) w2).2)
  | _ => ((0, 0), w)
  end.

Definition orchestrator_step (calls : nat -> Call) (now : Z) (api : BridgeApi)
    (w : nat * Db) : nat * Db :=
  match GetOrchestratorInfo api with
  | Ok (Some o) =>
      (try_write calls
         (on_table db_bridge_orchestrator
            (BridgeConfigRepository.UpsertOrchestratorInfo
               (mkBridgeOrchestratorInfo (int64 (oi_WindowSize o)) (oi_KeyGenThreshold o)
                  (oi_ConfirmationsToFinality o) (oi_EstimatedMomentumTime o)
                  (int64 (oi_AllowKeyGenHeight o)) now))) w).2
  | _ => w
  end.

Definition network_row (now : Z) (n : NetworkInfo) : BridgeNetwork :=
  mkBridgeNetwork (ni_NetworkClass n) (ni_ChainId n) (ni_Name n) (ni_ContractAddress n)
    (ni_Metadata n) now.

Definition network_token_row (n : NetworkInfo) (tp : TokenPair) : BridgeNetworkToken :=
  mkBridgeNetworkToken (ni_NetworkClass n) (ni_ChainId n) (tp_TokenStandard tp)
    (tp_TokenAddress tp) (tp_Bridgeable tp) (tp_Redeemable tp) (tp_Owned tp)
    (safeBigIntToInt64 (tp_MinAmount tp)) (tp_FeePercentage tp) (tp_RedeemDelay tp)
    (tp_Metadata tp).

(** A network whose upsert fails is skipped with its token pairs. *)
Definition network_write (calls : nat -> Call) (now : Z) (w : nat * Db) (n : NetworkInfo)
  : nat * Db :=
  match try_write calls (on_table db_bridge_networks
                            (BridgeConfigRepository.UpsertNetwork (network_row now n))) w with
  | (false, w') => w'
  | (true, w') =>
      write_all calls
        (map (fun tp => on_table db_bridge_network_tokens
                          (BridgeConfigRepository.UpsertNetworkToken (network_token_row n tp)))
           (ni_TokenPairs n)) w'
  end.

(** The first executable height of a challenge, [start + delay + 1] in 64 bits. *)
Definition challenge_row (now softDelay adminDelay : Z) (tc : TimeChallenge)
  : BridgeTimeChallenge :=
  let delay := if String.eqb (ci_MethodName tc) "ChangeAdministrator"
                  || String.eqb (ci_MethodName tc) "NominateGuardians"
               then int64 adminDelay else int64 softDelay in
  mkBridgeTimeChallenge (ci_MethodName tc) (ci_ParamsHash tc)
    (int64 (ci_ChallengeStartHeight tc)) delay
    (int64 (int64 (int64 (ci_ChallengeStartHeight tc) + delay) + 1)) now.

Definition challenge_write (now softDelay adminDelay : Z) (tc : TimeChallenge)
  : Db -> result Db :=
  on_table db_time_challenges
    (BridgeConfigRepository.UpsertTimeChallenge (challenge_row now softDelay adminDelay tc)).

(** The upserts of the listed challenges, and the method names that were stored. *)
Fixpoint challenge_writes (calls : nat -> Call) (now softDelay adminDelay : Z)
    (tcs : list TimeChallenge) (w : nat * Db) : list string * (nat * Db) :=
  match tcs with
  | [] => ([], w)
  | tc :: tcs' =>
      let '(ok, w1) := try_write calls (challenge_write now softDelay adminDelay tc) w in
      let '(keep, w2) := challenge_writes calls now softDelay adminDelay tcs' w1 in
      (if ok then ci_MethodName tc :: keep else keep, w2)
  end.

Definition challenge_step (calls : nat -> Call) (now : Z) (delays : Z * Z) (api : BridgeApi)
    (w : nat * Db) : nat * Db :=
  match GetTimeChallengesInfo api with
  | Ok (Some tcs) =>
      let '(keep, w1) := challenge_writes calls now delays.1 delays.2 tcs w in
      (try_write calls (on_table db_time_challenges
                           (BridgeConfigRepository.DeleteTimeChallengesNotIn keep)) w1).2
  | _ => w
  end.

(** [updateBridgeConfig]: no step's failure stops the next; [None] when the networks' pages
    did not end within [fuel]. *)
Definition updateBridgeConfig (now : Z) (api : BridgeApi) (calls : nat -> Call) (fuel : nat)
    (db : Db) : option Db :=
  networks ← paged fuel (GetAllNetworks api) 50 0;
  let w1 := admin_step calls now api (0%nat, db) in
  let '(delays, w2) := security_step calls now api w1 in
  let w3 := orchestrator_step calls now api w2 in
  let w4 := fold_left (network_write calls now) networks w3 in
  Some (challenge_step calls now delays api w4).2.

(** [syncBridgeData]: the three parts in order, each failure logged. *)
Definition syncBridgeData (now : Z) (wrap_stop unwrap_stop : Call) (api : BridgeApi)
    (calls : nat -> nat -> Call) (fuel : nat) (db : Db) : option Db :=
  '(_, db1) ← updateBridgeWrapRequests wrap_stop api (calls 0%nat) fuel db;
  '(_, db2) ← updateBridgeUnwrapRequests unwrap_stop api (calls 1%nat) fuel db1;
  updateBridgeConfig now api (calls 2%nat) fuel db2.
