(* ===== verification/BridgeTheorems.v ===== *)
(** What the bridge sync leaves in the tables: the requests refreshed by a wrap sync, and the
    guardians and time challenges after a configuration refresh. *)

From S2P Require Import Prelude.
From S2P Require Import Models.
From S2P Require Import RepoBridge.
From S2P Require Import Database.
From S2P Require Import ExecFacts.
From S2P Require Import Embedded.
From S2P Require Import CachedData.
From S2P Require Import BridgeSync.
#[local] Open Scope string_scope.
#[local] Open Scope Z_scope.

(** ** The pages read *)

(** The requests up to the end of the page that holds the first one reached. *)
Definition sync_prefix {A} (reached : A -> bool) (size : nat) (xs : list A) : list A :=
  match list_find (fun x => reached x = true) xs with
  | Some (i, _) => take ((i / size + 1) * size) xs
  | None => xs
  end.

Lemma existsb_find {A} (f : A -> bool) l :
  existsb f l = false -> list_find (fun x => f x = true) l = None.
Proof.
  intros H. apply list_find_None, Forall_forall. intros x Hx Hf.
  apply not_true_iff_false in H. apply H, existsb_exists. exists x.
  by rewrite <- list_elem_of_In.
Qed.

Lemma sync_prefix_page {A} (reached : A -> bool) size (ys : list A) :
  existsb reached (take size ys) = true -> sync_prefix reached size ys = take size ys.
Proof.
  intros (x & Hx%list_elem_of_In & Hr)%existsb_exists.
  destruct (list_find (fun x => reached x = true) (take size ys)) as [[i y]|] eqn:E.
  - unfold sync_prefix. rewrite <- (take_drop size ys) at 1.
    rewrite (list_find_app_l _ _ _ _ _ E).
    apply list_find_Some in E as (Hi & _ & _). apply lookup_lt_Some in Hi.
    rewrite length_take in Hi. rewrite Nat.div_small by lia. f_equal. lia.
  - apply list_find_None in E. rewrite Forall_forall in E. by destruct (E x Hx).
Qed.

Lemma sync_prefix_next {A} (reached : A -> bool) size (ys : list A) :
  (0 < size <= length ys)%nat -> existsb reached (take size ys) = false ->
  sync_prefix reached size ys = (take size ys ++ sync_prefix reached size (drop size ys))%list.
Proof.
  intros Hs E%existsb_find. unfold sync_prefix at 1. rewrite <- (take_drop size ys) at 1.
  rewrite (list_find_app_r _ _ _ E), length_take, Nat.min_l by lia.
  unfold sync_prefix.
  destruct (list_find _ (drop size ys)) as [[j y]|]; simpl; [|by rewrite take_drop].
  replace (j + size)%nat with (j + 1 * size)%nat by lia. rewrite Nat.div_add by lia.
  rewrite <- (take_drop size ys) at 1. rewrite take_app, length_take, Nat.min_l by lia.
  rewrite take_take, Nat.min_r by nia. do 2 f_equal. nia.
Qed.

Lemma paged_until_prefix {A} (api : Z -> Z -> result (list A)) reached xs size fuel idx :
  serves api xs -> 0 < size -> Z.of_nat (length xs) / size < 4294967295 ->
  0 <= idx <= Z.of_nat (length xs) / size ->
  (Z.to_nat (Z.of_nat (length xs) / size - idx) < fuel)%nat ->
  paged_until fuel api reached size idx
  = Some (Ok tt, sync_prefix reached (Z.to_nat size) (drop (Z.to_nat (idx * size)) xs)).
Proof.
  intros Hs Hsize Hlen. revert idx. induction fuel as [|fuel IH]; intros idx Hidx Hf; [lia|].
  simpl. rewrite (Hs idx size) by lia.
  pose proof (Z.div_mod (Z.of_nat (length xs)) size) as Hdm.
  pose proof (Z.mod_pos_bound (Z.of_nat (length xs)) size Hsize) as Hmod.
  set (ys := drop (Z.to_nat (idx * size)) xs).
  assert (Hys : Z.of_nat (length ys) = Z.of_nat (length xs) - idx * size).
  { unfold ys. rewrite length_drop. assert (idx * size <= Z.of_nat (length xs)) by nia. lia. }
  set (page := take (Z.to_nat size) ys).
  assert (Hpl : length page = Nat.min (Z.to_nat size) (length ys)) by apply length_take.
  destruct page as [|x page'] eqn:Ep.
  { assert (ys = []) as -> by (apply nil_length_inv; simpl in Hpl; lia). done. }
  rewrite <- Ep in *. destruct (existsb reached page) eqn:Er.
  { by rewrite sync_prefix_page. }
  destruct (Z.ltb_spec (Z.of_nat (length page)) size) as [Hlt|Hge].
  { assert (page = ys) as Epy by (apply take_ge; lia). do 2 f_equal. rewrite Epy in *.
    unfold sync_prefix. by rewrite (existsb_find _ _ Er). }
  assert (Hnext : (idx + 1) * size <= Z.of_nat (length xs)) by lia.
  assert (Hidx' : idx + 1 <= Z.of_nat (length xs) / size)
    by (apply Z.div_le_lower_bound; lia).
  assert (uint32 (idx + 1) = idx + 1) as -> by (apply Z.mod_small; lia).
  rewrite IH by lia. simpl. do 2 f_equal.
  rewrite (sync_prefix_next _ (Z.to_nat size) ys); [|lia|exact Er]. f_equal. f_equal.
  unfold ys. rewrite drop_drop. f_equal. nia.
Qed.

(** In a newest-first list, everything above the stop height is in the prefix. *)
Lemma sync_prefix_above {A} (height : A -> Z) stop size xs x :
  (0 < size)%nat ->
  StronglySorted (fun a b => int64 (height b) <= int64 (height a)) xs ->
  x ∈ xs -> reached_stop stop (height x) = false ->
  x ∈ sync_prefix (fun a => reached_stop stop (height a)) size xs.
Proof.
  intros Hsize Hsort Hx Hr. unfold sync_prefix.
  destruct (list_find _ xs) as [[i y]|] eqn:E; [|done].
  apply list_find_Some in E as (Hi & Hy & _). apply list_elem_of_lookup in Hx as [j Hj].
  apply list_elem_of_lookup. exists j. rewrite lookup_take_lt; [done|].
  destruct (decide (j < i)%nat) as [Hlt|Hge].
  { pose proof (Nat.div_mod i size ltac:(lia)). pose proof (Nat.mod_upper_bound i size ltac:(lia)).
    nia. }
  exfalso. destruct (decide (i = j)) as [->|Hne].
  { rewrite Hi in Hj. injection Hj as ->. congruence. }
  rewrite <- (take_drop (S i) xs) in Hsort.
  assert (Hle : int64 (height x) <= int64 (height y)).
  { apply (StronglySorted_app_1_elem_of _ _ _ y x Hsort).
    - apply list_elem_of_lookup. exists i. rewrite lookup_take_lt; [done|lia].
    - apply list_elem_of_lookup. exists (j - S i)%nat. rewrite lookup_drop, <- Hj. f_equal. lia. }
  unfold reached_stop in *. destruct (0 <? stop); [|done]. simpl in *. lia.
Qed.

(** ** Wrap requests *)

Lemma run_writes_app calls k ops1 ops2 db :
  run_writes calls k (ops1 ++ ops2) db
  = run_writes calls (k + length ops1) ops2 (run_writes calls k ops1 db).
Proof.
  revert k db. induction ops1 as [|op ops1 IH]; intros k db; simpl.
  - by rewrite Nat.add_0_r.
  - rewrite IH. f_equal. lia.
Qed.

(** The mutable columns of a stored request are those of the node's answer. *)
Definition wrap_current (w : WrapInfo) (db : Db) : Prop :=
  exists r, db_wraps db !! wi_Id w = Some r
    /\ wrap_Signature r = wi_Signature w
    /\ wrap_ConfirmationsToFinality r = int64 (wi_ConfirmationsToFinality w).

Definition wrap_fits (w : WrapInfo) : bool :=
  in_int32 (wi_NetworkClass w) && in_int32 (wi_ChainId w)
  && in_int32 (int64 (wi_ConfirmationsToFinality w)).

Lemma wrap_write_current w db :
  wrap_fits w = true -> exists db', wrap_write w db = Ok db' /\ wrap_current w db'.
Proof.
  intros Hf. unfold wrap_write, on_table, BridgeRepository.UpsertWrapRequest, wrap_fits in *.
  simpl. rewrite Hf. unfold insert_update. simpl.
  destruct (db_wraps db !! wi_Id w) as [old|]; simpl; eexists; split; [done| |done|];
    (eexists; simpl; split; [apply lookup_insert_eq|done]).
Qed.

Lemma wrap_write_keeps w v db db' :
  wi_Id v <> wi_Id w -> wrap_write v db = Ok db' -> wrap_current w db -> wrap_current w db'.
Proof.
  intros Hne (t & Ht & ->)%on_table_Ok (r & Hr & Hcur). exists r. split; [|done]. simpl.
  unfold BridgeRepository.UpsertWrapRequest in Ht. apply bind_Ok in Ht as (_ & _ & Ht).
  apply insert_update_Ok in Ht as [[_ ->]|(? & ? & _ & _ & ->)]; by rewrite lookup_insert_ne.
Qed.

Lemma alone_undisturbed calls : (forall i, calls i = alone None) -> undisturbed calls.
Proof. intros H i db. by rewrite H. Qed.

Lemma exec_call_alone op db d : op db = Ok d -> exec_call (alone None) op db = (true, d).
Proof. unfold exec_call. cbn. by intros ->. Qed.

Lemma run_wraps_current calls k ws db w :
  (forall i, calls i = alone None) -> NoDup (map wi_Id ws) -> w ∈ ws -> wrap_fits w = true ->
  wrap_current w (run_writes calls k (map wrap_write ws) db).
Proof.
  intros Hf Hnd (l1 & l2 & ->)%list_elem_of_split Hw.
  rewrite map_app, run_writes_app. simpl. rewrite Hf.
  destruct (wrap_write_current w (run_writes calls k (map wrap_write l1) db) Hw)
    as (db' & Hok & Hcur).
  rewrite (exec_call_alone _ _ _ Hok).
  apply (run_writes_keeps (wrap_current w)); [by apply alone_undisturbed| |done].
  apply Forall_map, Forall_forall. intros v Hv d d' Hd. apply (wrap_write_keeps w v); [|done].
  rewrite map_app in Hnd. apply NoDup_app in Hnd as (_ & _ & Hnd). simpl in Hnd.
  apply NoDup_cons in Hnd as [Hnot _]. intros E. apply Hnot. rewrite <- E.
  by apply list_elem_of_fmap_2.
Qed.

(** The stop height is at or below every stored request that is not final. *)
Lemma wrap_stop_below t id r :
  t !! id = Some r -> 0 < wrap_ConfirmationsToFinality r ->
  BridgeRepository.GetWrapSyncStopHeight t <= wrap_CreationMomentumHeight r.
Proof.
  intros Hr Hc. unfold BridgeRepository.GetWrapSyncStopHeight.
  set (l := map wrap_CreationMomentumHeight _).
  assert (Hin : wrap_CreationMomentumHeight r ∈ l).
  { apply list_elem_of_fmap_2. unfold select_where. apply list_elem_of_In, filter_In.
    split; [|lia]. apply list_elem_of_In, list_elem_of_fmap. exists (id, r). split; [done|].
    by apply elem_of_map_to_list. }
  destruct (BridgeRepository.min_of l) as [h|] eqn:E.
  - by apply (BridgeRepository.min_of_spec l h).
  - apply BridgeRepository.min_of_None in E. rewrite E in Hin. by apply elem_of_nil in Hin.
Qed.

Lemma sync_prefix_take {A} (reached : A -> bool) size (xs : list A) :
  exists n, sync_prefix reached size xs = take n xs.
Proof.
  unfold sync_prefix. destruct (list_find _ xs) as [[i y]|]; [by eexists|].
  exists (length xs). by rewrite firstn_all.
Qed.

(** A wrap sync against a node that lists its requests newest first reads exactly the
    pages up to the one that holds the first request at or below the stop height, and
    upserts their requests in order, whichever writes fail; without other sessions no other
    request's row changes. The stop height is at or below every stored request that is not
    final. So, with no write failing and no other session, every listed request above the
    stop height has the node's signature and confirmations afterwards; requests at the stop
    height itself have them only up to the end of that page. *)
Theorem wrap_sync_refreshes api calls fuel db xs :
  serves (GetAllWrapTokenRequests api) xs ->
  StronglySorted (fun a b => int64 (wi_CreationMomentumHeight b)
                             <= int64 (wi_CreationMomentumHeight a)) xs ->
  Z.of_nat (length xs) / 100 < 4294967295 ->
  (Z.to_nat (Z.of_nat (length xs) / 100) < fuel)%nat ->
  let stop := BridgeRepository.GetWrapSyncStopHeight (db_wraps db) in
  let read := sync_prefix (fun w => reached_stop stop (wi_CreationMomentumHeight w)) 100 xs in
  let after := run_writes calls 0 (map wrap_write read) db in
  updateBridgeWrapRequests (alone None) api calls fuel db = Some (Ok tt, after)
  /\ (undisturbed calls ->
      forall id, id ∉ map wi_Id read -> db_wraps after !! id = db_wraps db !! id)
  /\ (forall id r, db_wraps db !! id = Some r -> 0 < wrap_ConfirmationsToFinality r ->
        stop <= wrap_CreationMomentumHeight r)
  /\ ((forall i, calls i = alone None) -> NoDup (map wi_Id xs) ->
      forall w, w ∈ xs -> wrap_fits w = true ->
        stop <= 0 \/ stop < int64 (wi_CreationMomentumHeight w) -> wrap_current w after).
Proof.
  intros Hs Hsort Hlen Hfuel stop read after. split_and!.
  - unfold updateBridgeWrapRequests. fold stop.
    assert (0 <= Z.of_nat (length xs) / 100) by (apply Z.div_pos; lia).
    rewrite (paged_until_prefix _ _ xs 100 fuel 0); [done|done|lia|done|lia|].
    by rewrite Z.sub_0_r.
  - intros Hc id Hid.
    apply (run_writes_keeps (fun d => db_wraps d !! id = db_wraps db !! id)); [done| |done].
    apply Forall_map, Forall_forall. intros v Hv d d' (t & Ht & ->)%on_table_Ok <-. simpl.
    apply bind_Ok in Ht as (_ & _ & Ht).
    assert (wi_Id v <> id) by (intros <-; by apply Hid, list_elem_of_fmap_2).
    apply insert_update_Ok in Ht as [[_ ->]|(? & ? & _ & _ & ->)]; by rewrite lookup_insert_ne.
  - intros id r. apply wrap_stop_below.
  - intros Hf Hnd w Hw Hfits Habove. apply run_wraps_current; [done| | |done].
    + unfold read. destruct (sync_prefix_take (fun w => reached_stop stop
        (wi_CreationMomentumHeight w)) 100 xs) as [n ->].
      rewrite <- (take_drop n xs), map_app in Hnd. by apply NoDup_app in Hnd as [? _].
    + apply sync_prefix_above; [lia|done|done|]. unfold reached_stop.
      apply andb_false_iff. destruct Habove; [left|right]; lia.
Qed.

(** ** Configuration *)

Section undisturbed.
Variable calls : nat -> Call.
Hypothesis Hcalls : undisturbed calls.

Lemma try_write_keeps (P : Db -> Prop) op w :
  (forall d d', op d = Ok d' -> P d -> P d') -> P w.2 -> P (try_write calls op w).2.2.
Proof.
  intros Hop HP. destruct w as [k d]. unfold try_write.
  pose proof (exec_call_keeps P (calls k) op d (Hcalls k) Hop HP) as H.
  by destruct (exec_call (calls k) op d).
Qed.

Lemma write_all_keeps (P : Db -> Prop) ops w :
  Forall (fun op => forall d d', op d = Ok d' -> P d -> P d') ops -> P w.2 ->
  P (write_all calls ops w).2.
Proof.
  unfold write_all. intros Hops. revert w.
  induction Hops as [|op ops Hop _ IH]; intros w HP; simpl; [done|].
  by apply IH, try_write_keeps.
Qed.

(** A step on one table keeps a fact about another. *)
Lemma on_table_other {T U} (f : Db -> T) (X : Setter f) (g : Db -> U) (op : T -> result T) u d d' :
  (forall h (d : Db), g (update_field f h d) = g d) ->
  on_table f op d = Ok d' -> g d = u -> g d' = u.
Proof. intros Hfg (t & _ & ->)%on_table_Ok <-. apply Hfg. Qed.

Lemma networks_keep {U} (g : Db -> U) now ns w :
  (forall h (d : Db), g (update_field db_bridge_networks h d) = g d) ->
  (forall h (d : Db), g (update_field db_bridge_network_tokens h d) = g d) ->
  g (fold_left (network_write calls now) ns w).2 = g w.2.
Proof.
  intros H1 H2. revert w. induction ns as [|n ns IH]; intros w; simpl; [done|].
  rewrite IH. unfold network_write.
  pose proof (try_write_keeps (fun d => g d = g w.2)
    (on_table db_bridge_networks (BridgeConfigRepository.UpsertNetwork (network_row now n))) w)
    as Hk.
  destruct (try_write calls _ w) as [[|] w']; simpl in Hk.
  - apply (write_all_keeps (fun d => g d = g w.2)).
    + apply Forall_map, Forall_true. intros tp ? ?. by eapply on_table_other.
    + apply Hk; [|done]. intros ? ?. by eapply on_table_other.
  - apply Hk; [|done]. intros ? ?. by eapply on_table_other.
Qed.

Lemma orchestrator_keep {U} (g : Db -> U) now api w :
  (forall h (d : Db), g (update_field db_bridge_orchestrator h d) = g d) ->
  g (orchestrator_step calls now api w).2 = g w.2.
Proof.
  intros Hg. unfold orchestrator_step. destruct (GetOrchestratorInfo api) as [[o|]|e]; [|done..].
  apply (try_write_keeps (fun d => g d = g w.2)); [|done].
  intros ? ?. by eapply on_table_other.
Qed.

Lemma challenge_keep {U} (g : Db -> U) now delays api w :
  (forall h (d : Db), g (update_field db_time_challenges h d) = g d) ->
  g (challenge_step calls now delays api w).2 = g w.2.
Proof.
  intros Hg. unfold challenge_step. destruct (GetTimeChallengesInfo api) as [[tcs|]|e]; [|done..].
  assert (Hw : g (challenge_writes calls now delays.1 delays.2 tcs w).2.2 = g w.2).
  { revert w. induction tcs as [|tc tcs IH]; intros w; simpl; [done|].
    pose proof (try_write_keeps (fun d => g d = g w.2)
      (challenge_write now delays.1 delays.2 tc) w) as Hk.
    destruct (try_write calls _ w) as [ok w1]. specialize (IH w1).
    destruct (challenge_writes calls now delays.1 delays.2 tcs w1) as [keep w2]. simpl in *.
    rewrite IH. apply Hk; [|done]. intros ? ?. by eapply on_table_other. }
  destruct (challenge_writes calls now delays.1 delays.2 tcs w) as [keep w1]. simpl in Hw.
  apply (try_write_keeps (fun d => g d = g w.2)); [|done].
  intros ? ?. by eapply on_table_other.
Qed.

Lemma admin_keep {U} (g : Db -> U) now api w :
  (forall h (d : Db), g (update_field db_bridge_admin h d) = g d) ->
  g (admin_step calls now api w).2 = g w.2.
Proof.
  intros Hg. unfold admin_step. destruct (GetBridgeInfo api) as [[o|]|e]; [|done..].
  apply (try_write_keeps (fun d => g d = g w.2)); [|done].
  intros ? ?. by eapply on_table_other.
Qed.
End undisturbed.

(** The end height, where nothing wraps. *)
Lemma challenge_end now soft admin tc :
  let delay := if bool_decide (ci_MethodName tc ∈ ["ChangeAdministrator"; "NominateGuardians"])
               then admin else soft in
  0 <= ci_ChallengeStartHeight tc -> 0 <= delay ->
  ci_ChallengeStartHeight tc + delay + 1 <= max_int64 ->
  tc_EndHeight (challenge_row now soft admin tc) = ci_ChallengeStartHeight tc + delay + 1.
Proof.
  intros delay Hs Hd Hmax.
  assert (Hid : forall z, 0 <= z <= max_int64 -> int64 z = z).
  { intros z Hz. apply int64_id, in_int64_spec. unfold min_int64. lia. }
  assert (Hdelay : (if String.eqb (ci_MethodName tc) "ChangeAdministrator"
                       || String.eqb (ci_MethodName tc) "NominateGuardians"
                    then int64 admin else int64 soft) = delay).
  { unfold delay in *. destruct (String.eqb_spec (ci_MethodName tc) "ChangeAdministrator") as [E|E];
      [|destruct (String.eqb_spec (ci_MethodName tc) "NominateGuardians") as [E'|E']]; simpl.
    - rewrite bool_decide_eq_true_2 in * by set_solver. apply Hid. simpl in *. lia.
    - rewrite bool_decide_eq_true_2 in * by set_solver. apply Hid. simpl in *. lia.
    - rewrite bool_decide_eq_false_2 in * by set_solver. apply Hid. simpl in *. lia. }
  unfold challenge_row. rewrite Hdelay. simpl. clearbody delay.
  rewrite (Hid (ci_ChallengeStartHeight tc)) by lia.
  rewrite (Hid (ci_ChallengeStartHeight tc + delay)) by lia. apply Hid. lia.
Qed.

Section no_faults.
Variable calls : nat -> Call.
Hypothesis Hcalls : forall i, calls i = alone None.

Let Hothers : undisturbed calls := alone_undisturbed calls Hcalls.

Lemma try_write_Ok op w d :
  op w.2 = Ok d -> exists k, try_write calls op w = (true, (k, d)).
Proof.
  destruct w as [k d0]. simpl. intros E. exists (S k). unfold try_write. rewrite Hcalls.
  by rewrite (exec_call_alone _ _ _ E).
Qed.

Definition guardian_is (now : Z) (sec : SecurityInfo) (a : string) (d : Db) : Prop :=
  exists g, db_bridge_guardians d !! a = Some g
    /\ gua_Nominated g = bool_decide (a ∈ si_Guardians sec)
    /\ gua_Accepted g = bool_decide (a ∈ si_GuardiansVotes sec)
    /\ gua_LastUpdatedTimestamp g = now.

Lemma guardian_write_Ok now sec x d :
  exists d', guardian_write now sec x d = Ok d' /\ guardian_is now sec x d'
    /\ forall a, a <> x -> db_bridge_guardians d' !! a = db_bridge_guardians d !! a.
Proof.
  unfold guardian_write, on_table, BridgeConfigRepository.UpsertGuardian, insert_update. simpl.
  destruct (db_bridge_guardians d !! x) as [g|]; simpl; eexists; (split; [done|]);
    (split; [eexists; simpl; split; [apply lookup_insert_eq|done]|]);
    intros a Ha; simpl; by rewrite lookup_insert_ne.
Qed.

Lemma guardians_written now sec addrs w a :
  let d := (write_all calls (map (guardian_write now sec) addrs) w).2 in
  (a ∈ addrs -> guardian_is now sec a d)
  /\ (a ∉ addrs -> db_bridge_guardians d !! a = db_bridge_guardians w.2 !! a).
Proof.
  simpl. revert w. induction addrs as [|x addrs IH]; intros w; simpl.
  - split; [by intros ?%elem_of_nil|done].
  - destruct (guardian_write_Ok now sec x w.2) as (d' & Hd' & His & Hother).
    destruct (try_write_Ok _ _ _ Hd') as [k Hk]. unfold write_all in *. simpl.
    rewrite Hk. simpl. destruct (IH (k, d')) as [IH1 IH2]. split.
    + intros Ha. destruct (decide (a ∈ addrs)) as [Hin|Hnin]; [by apply IH1|].
      apply elem_of_cons in Ha as [->|Ha]; [|done].
      unfold guardian_is in *. by rewrite IH2.
    + intros [Hne Hnin]%not_elem_of_cons. rewrite IH2 by done. simpl. by apply Hother.
Qed.

Lemma security_guardians now api sec w a :
  GetSecurityInfo api = Ok (Some sec) ->
  (forall g, db_bridge_guardians w.2 !! a = Some g -> gua_LastUpdatedTimestamp g < now) ->
  let d := (security_step calls now api w).2.2 in
  (a ∈ (si_Guardians sec ++ si_GuardiansVotes sec)%list ->
     is_Some (db_bridge_guardians d !! a))
  /\ forall g, db_bridge_guardians d !! a = Some g ->
       gua_Nominated g = bool_decide (a ∈ si_Guardians sec)
       /\ gua_Accepted g = bool_decide (a ∈ si_GuardiansVotes sec).
Proof.
  intros Hsec Hold. unfold security_step. rewrite Hsec. simpl.
  set (w1 := (try_write calls (on_table db_bridge_security _) w).2).
  assert (Hw1 : db_bridge_guardians w1.2 = db_bridge_guardians w.2).
  { apply (try_write_keeps _ Hothers (fun d => db_bridge_guardians d = db_bridge_guardians w.2));
      [|done].
    intros ? ?. by eapply on_table_other. }
  destruct (guardians_written now sec (current_guardians sec) w1 a) as [Hin Hout].
  set (w2 := write_all calls _ w1) in *.
  set (t := update_where (fun g => gua_LastUpdatedTimestamp g <? now)
              (fun g => g <| gua_Nominated := false |> <| gua_Accepted := false |>)
              (db_bridge_guardians w2.2)).
  destruct (try_write_Ok (on_table db_bridge_guardians
    (BridgeConfigRepository.MarkGuardiansAbsent now)) w2 (w2.2 <| db_bridge_guardians := t |>)
    eq_refl) as [k ->].
  change (db_bridge_guardians (true, (k, w2.2 <| db_bridge_guardians := t |>)).2.2) with t.
  unfold t. rewrite update_where_lookup. clear t k. unfold current_guardians in *.
  rewrite elem_of_remove_dups in Hin, Hout. split.
  - intros Ha. destruct (Hin Ha) as (g & Hg & _). rewrite Hg. by eexists.
  - intros g (g0 & Hg0 & ->)%fmap_Some.
    destruct (decide (a ∈ (si_Guardians sec ++ si_GuardiansVotes sec)%list)) as [Ha|Ha].
    + destruct (Hin Ha) as (g1 & Hg1 & Hn & Hacc & Hts). rewrite Hg1 in Hg0.
      injection Hg0 as ->. rewrite Hts, Z.ltb_irrefl. done.
    + rewrite Hout, Hw1 in Hg0 by done. apply Hold in Hg0.
      destruct (Z.ltb_spec (gua_LastUpdatedTimestamp g0) now); [simpl|lia].
      rewrite elem_of_app in Ha. by rewrite !bool_decide_eq_false_2 by tauto.
Qed.

Definition challenge_is (now soft admin : Z) (tc : TimeChallenge) (d : Db) : Prop :=
  exists r, db_time_challenges d !! ci_MethodName tc = Some r
    /\ tc_ParamsHash r = ci_ParamsHash tc
    /\ tc_EndHeight r = tc_EndHeight (challenge_row now soft admin tc).

Lemma challenge_write_Ok now soft admin tc d :
  exists d', challenge_write now soft admin tc d = Ok d' /\ challenge_is now soft admin tc d'
    /\ forall n, n <> ci_MethodName tc ->
         db_time_challenges d' !! n = db_time_challenges d !! n.
Proof.
  unfold challenge_write, on_table, BridgeConfigRepository.UpsertTimeChallenge, insert_update.
  simpl. destruct (db_time_challenges d !! ci_MethodName tc) as [r|]; simpl; eexists;
    (split; [done|]); (split; [eexists; simpl; split; [apply lookup_insert_eq|done]|]);
    intros n Hn; simpl; by rewrite lookup_insert_ne.
Qed.

Lemma challenges_written now soft admin tcs w :
  NoDup (map ci_MethodName tcs) ->
  let '(keep, w') := challenge_writes calls now soft admin tcs w in
  keep = map ci_MethodName tcs
  /\ (forall tc, tc ∈ tcs -> challenge_is now soft admin tc w'.2)
  /\ (forall n, n ∉ map ci_MethodName tcs ->
        db_time_challenges w'.2 !! n = db_time_challenges w.2 !! n).
Proof.
  revert w. induction tcs as [|tc tcs IH]; intros w Hnd; simpl.
  - split_and!; [done|by intros ? ?%elem_of_nil|done].
  - destruct (challenge_write_Ok now soft admin tc w.2) as (d' & Hd' & His & Hother).
    destruct (try_write_Ok _ _ _ Hd') as [k ->].
    apply NoDup_cons in Hnd as [Hnot Hnd]. specialize (IH (k, d') Hnd).
    destruct (challenge_writes calls now soft admin tcs (k, d')) as [keep w'].
    destruct IH as (-> & Hin & Hout). split_and!; [done| |].
    + intros x [->|Hx]%elem_of_cons; [|by apply Hin].
      unfold challenge_is in *. by rewrite Hout.
    + intros n [Hne Hn]%not_elem_of_cons. rewrite Hout by done. by apply Hother.
Qed.

Lemma challenge_step_exact now delays api tcs w :
  GetTimeChallengesInfo api = Ok (Some tcs) -> NoDup (map ci_MethodName tcs) ->
  let d := (challenge_step calls now delays api w).2 in
  (forall n, is_Some (db_time_challenges d !! n) <-> n ∈ map ci_MethodName tcs)
  /\ (forall tc, tc ∈ tcs -> challenge_is now delays.1 delays.2 tc d).
Proof.
  intros Ht Hnd. unfold challenge_step. rewrite Ht.
  pose proof (challenges_written now delays.1 delays.2 tcs w Hnd) as Hw.
  destruct (challenge_writes calls now delays.1 delays.2 tcs w) as [keep w1].
  destruct Hw as (-> & Hin & Hout).
  assert (Hdel : exists t,
    BridgeConfigRepository.DeleteTimeChallengesNotIn (map ci_MethodName tcs)
      (db_time_challenges w1.2) = Ok t
    /\ forall n, t !! n = if decide (n ∈ map ci_MethodName tcs)
                          then db_time_challenges w1.2 !! n else None).
  { unfold BridgeConfigRepository.DeleteTimeChallengesNotIn.
    destruct (map ci_MethodName tcs) as [|n0 ns] eqn:E; eexists; (split; [done|]); intros n.
    - case_decide as Hd; [by apply elem_of_nil in Hd|apply lookup_empty].
    - rewrite map_lookup_filter. case_decide as Hd;
        destruct (db_time_challenges w1.2 !! n) as [r|]; simpl; [|done| |done];
        case_guard; done. }
  destruct Hdel as (t & Ht' & Hlook).
  assert (Hop : on_table db_time_challenges
    (BridgeConfigRepository.DeleteTimeChallengesNotIn (map ci_MethodName tcs)) w1.2
    = Ok (w1.2 <| db_time_challenges := t |>)) by (unfold on_table; by rewrite Ht').
  destruct (try_write_Ok _ _ _ Hop) as [k ->]. simpl. split.
  - intros n. rewrite Hlook. case_decide as Hd; [|split; [by intros []|done]].
    split; [done|]. intros _. apply list_elem_of_fmap in Hd as (tc & -> & Htc).
    destruct (Hin tc Htc) as (r & -> & _). by eexists.
  - intros tc Htc. unfold challenge_is. simpl. rewrite Hlook.
    rewrite decide_True by by apply list_elem_of_fmap_2. by apply Hin.
Qed.
End no_faults.

(** The node's security info and challenge list are authoritative: after a configuration
    refresh in which both were answered, no write failed and every stored guardian row is
    older than this refresh, every nominated or voted address has a row, every guardian
    row's flags are the node's (false for an address in neither list), the stored challenges
    are exactly the listed ones, and each becomes executable one momentum after its start
    plus the delay of its method, whatever the other answers are. The refresh completes as
    soon as the networks' pages end. *)
Theorem bridge_config_authoritative now api calls fuel db sec tcs :
  (forall i, calls i = alone None) ->
  GetSecurityInfo api = Ok (Some sec) -> GetTimeChallengesInfo api = Ok (Some tcs) ->
  NoDup (map ci_MethodName tcs) ->
  (forall a g, db_bridge_guardians db !! a = Some g -> gua_LastUpdatedTimestamp g < now) ->
  is_Some (paged fuel (GetAllNetworks api) 50 0) ->
  exists db', updateBridgeConfig now api calls fuel db = Some db'
  /\ (forall a, a ∈ (si_Guardians sec ++ si_GuardiansVotes sec)%list ->
     is_Some (db_bridge_guardians db' !! a))
  /\ (forall a g, db_bridge_guardians db' !! a = Some g ->
        gua_Nominated g = bool_decide (a ∈ si_Guardians sec)
        /\ gua_Accepted g = bool_decide (a ∈ si_GuardiansVotes sec))
  /\ (forall n, is_Some (db_time_challenges db' !! n) <-> n ∈ map ci_MethodName tcs)
  /\ (forall tc, tc ∈ tcs ->
        let delay := if bool_decide (ci_MethodName tc ∈ ["ChangeAdministrator"; "NominateGuardians"])
                     then si_AdministratorDelay sec else si_SoftDelay sec in
        0 <= ci_ChallengeStartHeight tc -> 0 <= delay ->
        ci_ChallengeStartHeight tc + delay + 1 <= max_int64 ->
        exists r, db_time_challenges db' !! ci_MethodName tc = Some r
          /\ tc_EndHeight r = ci_ChallengeStartHeight tc + delay + 1).
Proof.
  intros Hf Hsec Htcs Hnd Hold [ns Hns]. unfold updateBridgeConfig. rewrite Hns. simpl.
  pose proof (alone_undisturbed calls Hf) as Hc.
  set (w1 := admin_step calls now api (0%nat, db)) in *.
  assert (Hw1 : db_bridge_guardians w1.2 = db_bridge_guardians db) by by apply admin_keep.
  assert (Hg := fun a => security_guardians calls Hf now api sec w1 a Hsec).
  assert (Hd : (security_step calls now api w1).1 = (si_SoftDelay sec, si_AdministratorDelay sec))
    by (unfold security_step; by rewrite Hsec).
  destruct (security_step calls now api w1) as [delays w2]. simpl in Hg, Hd. subst delays.
  eexists. split; [done|]. rewrite Hw1 in Hg.
  set (w4 := fold_left _ ns _).
  assert (Hw4 : db_bridge_guardians w4.2 = db_bridge_guardians w2.2).
  { unfold w4. rewrite networks_keep by done. by apply orchestrator_keep. }
  pose proof (challenge_step_exact calls Hf now (si_SoftDelay sec, si_AdministratorDelay sec)
    api tcs w4 Htcs Hnd) as [Hkeys Hrows].
  assert (Hw5 : db_bridge_guardians
    (challenge_step calls now (si_SoftDelay sec, si_AdministratorDelay sec) api w4).2
    = db_bridge_guardians w2.2) by (by rewrite challenge_keep).
  rewrite Hw5. split_and!; [| |done|].
  - intros a. apply Hg. apply Hold.
  - intros a. apply Hg. apply Hold.
  - intros tc Htc Hs Hdl Hmax. destruct (Hrows tc Htc) as (r & Hr & _ & He).
    exists r. split; [done|]. rewrite He. by apply challenge_end.
Qed.

(** ** Concrete runs *)

Definition toy_wrap (id : string) (height confirmations : Z) : WrapInfo :=
  mkWrapInfo id 1 1 "0xto" "zts1" "0xtoken" (Some 5) (Some 0) ("sig-" +:+ id) height confirmations.

Definition toy_wraps : list WrapInfo := [toy_wrap "w2" 7 12; toy_wrap "w1" 5 0].

Definition toy_security : SecurityInfo := mkSecurityInfo ["z1a"; "z1b"] ["z1b"] 20 5.

Definition toy_challenges : list TimeChallenge :=
  [mkTimeChallenge "ChangeAdministrator" "h1" 100; mkTimeChallenge "SetTokenPair" "h2" 100].

Definition toy_bridge : BridgeApi :=
  mkBridgeApi (Err (EMsg "down")) (Ok (Some toy_security)) (Ok None) (fun _ _ => Ok [])
    (Ok (Some toy_challenges))
    (fun idx size => Ok (take (Z.to_nat size) (drop (Z.to_nat (idx * size)) toy_wraps)))
    (fun _ _ => Ok []).

(** One stored request that is not final yet, an old guardian and an executed challenge. *)
Definition bridge_db : Db :=
  empty_db <| db_wraps := {["w1" := wrap_row (toy_wrap "w1" 5 3)]} |>
           <| db_bridge_guardians := {["z1old" := mkBridgeGuardian "z1old" true true 50]} |>
           <| db_time_challenges := {["Halt" := mkBridgeTimeChallenge "Halt" "h0" 1 5 7 50]} |>.

Lemma wrap_sync_refreshes_witness :
  updateBridgeWrapRequests (alone None) toy_bridge (fun _ => alone None) 1 bridge_db
    = Some (Ok tt, run_writes (fun _ => alone None) 0 (map wrap_write toy_wraps) bridge_db)
  /\ wrap_current (toy_wrap "w2" 7 12)
       (run_writes (fun _ => alone None) 0 (map wrap_write toy_wraps) bridge_db).
Proof.
  destruct (wrap_sync_refreshes toy_bridge (fun _ => alone None) 1 bridge_db toy_wraps)
    as (Hrun & _ & _ & Hcur).
  - intros idx size _ _. reflexivity.
  - repeat constructor; vm_compute; discriminate.
  - reflexivity.
  - vm_compute. lia.
  - split; [exact Hrun|]. apply Hcur; [done| | |reflexivity|right; reflexivity].
    + by apply (bool_decide_unpack _).
    + left.
Defined.

Lemma bridge_config_authoritative_witness :
  exists db', updateBridgeConfig 100 toy_bridge (fun _ => alone None) 1 bridge_db = Some db'
    /\ db_time_challenges db' !! "Halt" = None
    /\ (forall g, db_bridge_guardians db' !! "z1old" = Some g -> gua_Accepted g = false).
Proof.
  destruct (bridge_config_authoritative 100 toy_bridge (fun _ => alone None) 1 bridge_db
              toy_security toy_challenges) as (db' & E & _ & Hg & Hc & _);
    [done|reflexivity|reflexivity|by apply (bool_decide_unpack _)| |by eexists|].
  - intros a g Ha. simpl in Ha. apply lookup_singleton_Some in Ha as [_ <-]. reflexivity.
  - exists db'. split; [exact E|]. split.
    + apply eq_None_not_Some. intros Hs%Hc. revert Hs. apply (bool_decide_unpack _).
      vm_compute. exact I.
    + intros g Hg1. by destruct (Hg _ _ Hg1) as [_ ->].
Defined.
