(* ===== verification/Cron.v ===== *)
(** internal/indexer/cron.go: the periodic jobs - voting activity, token holder counts and
    the daily statistics - as sequences of single reads and writes on the committed tables.

    Theorems: what the periodic jobs leave in the tables: voting activity and token holder counts are
    those of the committed rows. *)

From Stdlib Require Import SpecFloat.
From S2P Require Import Prelude.
From S2P Require Import Models.
From S2P Require Import RepoLedger.
From S2P Require Import RepoContracts.
From S2P Require Import RepoBridge.
From S2P Require Import Database.
#[local] Open Scope string_scope.
#[local] Open Scope Z_scope.

(** ** Jobs

    The state of a job is the number of the next database call and the tables. [None] is
    the job's [continue] or [return err] after a call that failed: the k-th call fails when
    the oracle says so, or when the statement itself is rejected. The k-th call sees what
    other sessions have committed by then. *)

Definition job (A : Type) : Type := (nat * Db) -> option A * (nat * Db).

Definition done_job {A} (a : A) : job A := fun w => (Some a, w).

Definition job_bind {A B} (m : job A) (k : A -> job B) : job B := fun w =>
  match m w with
  | (Some a, w') => k a w'
  | (None, w') => (None, w')
  end.

Declare Scope job_scope.
Delimit Scope job_scope with job.
Notation "'let!' x := m 'in' k" := (job_bind m (fun x => k))
  (at level 10, x name, m at level 100, k at level 200) : job_scope.

Section jobs.
Variable calls : nat -> Call.
(** [ctx.Err() != nil] at the head of a loop's iteration, after the first [k] calls. *)
Variable canceled : nat -> bool.
#[local] Open Scope job_scope.

Definition ask {A} (read : Db -> result A) : job A := fun w =>
  let '(k, db) := w in
  let db1 := cl_others (calls k) db in
  match cl_err (calls k) with
  | Some _ => (None, (S k, db1))
  | None => match read db1 with Ok a => (Some a, (S k, db1)) | Err _ => (None, (S k, db1)) end
  end.

Definition tell (op : Db -> result Db) : job unit := fun w =>
  let '(k, db) := w in
  let '(ok, db1) := exec_call (calls k) op db in
  (if ok then Some tt else None, (S k, db1)).

(** A loop whose body goes on to the next element whatever happens to one, and which a
    canceled context ends. *)
Fixpoint for_each {A} (xs : list A) (body : A -> job unit) (w : nat * Db) : nat * Db :=
  match xs with
  | [] => w
  | x :: xs' => if canceled w.1 then w else for_each xs' body (body x w).2
  end.

(** ** Voting activity *)

(** [float32(votes) / float32(votable)], zero without a votable proposal: IEEE binary32. *)
Definition float32 (n : Z) : spec_float := binary_normalize 24 128 n 0 false.

Definition activity_of (votes votable : Z) : spec_float :=
  if 0 <? votable then SFdiv 24 128 (float32 votes) (float32 votable) else S754_zero false.

(** The body for one cached pillar. *)
Definition voting_activity_of (p : Pillar) : job unit :=
  let owner := pil_OwnerAddress p in
  let! spawnTimestamp := ask (fun db => PillarRepository.GetSpawnTimestampByOwner owner (db_pillars db)) in
  let! projectIDs := ask (fun db => Ok (ProjectRepository.GetIDsCreatedAtOrAfter spawnTimestamp
                                      (db_projects db))) in
  let! phaseIDs := ask (fun db => Ok (ProjectPhaseRepository.GetIDsCreatedAtOrAfter spawnTimestamp
                                    (db_project_phases db))) in
  let! n1 := match projectIDs with
         | [] => done_job 0
         | _ => ask (fun db => Ok (VoteRepository.GetVoteCountForProjects owner projectIDs
                                     (db_votes db)))
         end in
  let! n2 := match phaseIDs with
         | [] => done_job 0
         | _ => ask (fun db => Ok (VoteRepository.GetVoteCountForPhases owner phaseIDs
                                     (db_votes db)))
         end in
  let votable := Z.of_nat (length projectIDs) + Z.of_nat (length phaseIDs) in
  tell (on_table db_pillars
          (PillarRepository.UpdateVotingActivity owner (activity_of (n1 + n2) votable))).

(** [pillars] is the published snapshot ([GetPillars]); an empty one skips the job. *)
Definition runVotingActivity (pillars : list Pillar) (db : Db) : Db :=
  (for_each pillars voting_activity_of (0%nat, db)).2.

(** ** Token holder counts *)

Definition holder_count_of (t : Token) : job unit :=
  let! count := ask (fun db => Ok (BalanceRepository.GetHolderCount (tok_TokenStandard t)
                                 (db_balances db))) in
  tell (on_table db_tokens (TokenRepository.UpdateHolderCount (tok_TokenStandard t) count)).

Definition runTokenHolderCounts (db : Db) : Db :=
  match ask (fun db => Ok (TokenRepository.GetAll (db_tokens db))) (0%nat, db) with
  | (None, (_, db')) => db'
  | (Some tokens, w) => (for_each tokens holder_count_of w).2
  end.

(** ** Daily statistics

    [date] is the current day and [lo, hi) its bounds in Unix seconds. *)

Definition in_day (lo hi ts : Z) : bool := (lo <=? ts) && (ts <? hi).

Definition count_rows {K} `{Countable K} {V} (cond : V -> bool) (t : gmap K V) : Z :=
  Z.of_nat (length (select_where cond t)).

Definition opt_in_day (lo hi : Z) (ts : option Z) : bool :=
  match ts with Some z => in_day lo hi z | None => false end.

(** The aggregate query. [SUM(tx_count)] of INT columns is a BIGINT. *)
Definition network_stats (date : string) (lo hi : Z) (db : Db) : result NetworkStatHistory :=
  let total := map_sum (fun _ m => mom_TxCount m) (db_momentums db) in
  let daily := map_sum (fun _ m => if in_day lo hi (mom_Timestamp m) then mom_TxCount m else 0)
                 (db_momentums db) in
  _ ← check_range (in_int64 total && in_int64 daily);
  Ok (mkNetworkStatHistory date total daily
        (count_rows (fun _ => true) (db_accounts db))
        (count_rows (fun a => opt_in_day lo hi (acc_FirstActiveAt a)) (db_accounts db))
        (count_rows (fun a => opt_in_day lo hi (acc_LastActiveAt a)) (db_accounts db))
        (count_rows (fun _ => true) (db_tokens db)) 0
        (count_rows (fun _ => true) (db_stakes db))
        (count_rows (fun s => in_day lo hi (stk_StartTimestamp s)) (db_stakes db))
        (count_rows (fun _ => true) (db_fusions db))
        (count_rows (fun f => in_day lo hi (fus_MomentumTimestamp f)) (db_fusions db))
        (count_rows (fun p => negb (pil_IsRevoked p)) (db_pillars db))
        (count_rows (fun s => sen_Active s) (db_sentinels db))).

Definition snapshotNetworkStats (date : string) (lo hi : Z) : job unit :=
  let! stat := ask (network_stats date lo hi) in
  tell (on_table db_network_stats (StatHistoryRepository.UpsertNetworkStat stat)).

(** The day's lower bound is [$1::date AT TIME ZONE 'UTC'] and its upper bound
    [($1::date + INTERVAL '1 day') AT TIME ZONE 'UTC']. The operand of the first is a date,
    which Postgres converts to the instant of midnight in the session's time zone,
    [session_lo]; that of the second is a timestamp, which is read as UTC. *)
Definition token_stat_of (date : string) (session_lo hi : Z) (t : Token) : job unit :=
  let! sums := ask (fun db => TokenEventRepository.SumDailyMintsBurns (tok_TokenStandard t)
                            session_lo hi
                            (db_token_mints db) (db_token_burns db)) in
  tell (on_table db_token_stats
          (StatHistoryRepository.UpsertTokenStat
             (mkTokenStatHistory date (tok_TokenStandard t) (fst sums) (snd sums)
                (tok_TotalSupply t) (tok_HolderCount t) (tok_TransactionCount t)))).

Definition snapshotTokenStats (date : string) (session_lo hi : Z) (w : nat * Db) : nat * Db :=
  match ask (fun db => Ok (TokenRepository.GetAll (db_tokens db))) w with
  | (None, w') => w'
  | (Some tokens, w') => for_each tokens (token_stat_of date session_lo hi) w'
  end.

(** A failed delegator count is recorded as zero. *)
Definition pillar_stat_of (date : string) (p : Pillar) : job unit := fun w =>
  let '(n, w') := ask (fun db => Ok (DelegationRepository.CountActiveByPillar
                                       (pil_OwnerAddress p) (db_delegations db))) w in
  tell (on_table db_pillar_stats
          (StatHistoryRepository.UpsertPillarStat
             (mkPillarStatHistory date (pil_OwnerAddress p) (pil_Rank p) (pil_Weight p) 0 0
                (default 0 n)))) w'.

Definition snapshotPillarStats (date : string) (pillars : list Pillar) (w : nat * Db)
  : nat * Db := for_each pillars (pillar_stat_of date) w.

(** [GROUP BY network_class, chain_id, token_standard]: the number and the sum of the
    amounts of the rows of each group. *)
Definition group_by {A} (key : A -> Z * Z * string) (amount : A -> Z) (rows : list A)
  : gmap (Z * Z * string) (Z * Z) :=
  fold_right (fun a acc =>
    partial_alter (fun o => let '(n, s) := default (0, 0) o in Some (n + 1, s + amount a))
      (key a) acc) ∅ rows.

(** The heights a day's requests are filtered by. *)
Definition day_heights (lo hi : Z) (db : Db) : list Z :=
  map mom_Height (select_where (fun m => in_day lo hi (mom_Timestamp m)) (db_momentums db)).

(** The sums are cast to BIGINT, which rejects one that does not fit. *)
Definition checked_groups (g : gmap (Z * Z * string) (Z * Z)) : result (gmap (Z * Z * string) (Z * Z)) :=
  _ ← check_range (forallb (fun '(_, (_, s)) => in_int64 s) (map_to_list g)); Ok g.

Definition wrap_groups (lo hi : Z) (db : Db) : result (gmap (Z * Z * string) (Z * Z)) :=
  let heights := day_heights lo hi db in
  checked_groups
    (group_by (fun w => (wrap_NetworkClass w, wrap_ChainID w, wrap_TokenStandard w)) wrap_Amount
       (select_where (fun w => existsb (Z.eqb (wrap_CreationMomentumHeight w)) heights)
          (db_wraps db))).

Definition unwrap_groups (lo hi : Z) (db : Db) : result (gmap (Z * Z * string) (Z * Z)) :=
  let heights := day_heights lo hi db in
  checked_groups
    (group_by (fun u => (unw_NetworkClass u, unw_ChainID u, unw_TokenStandard u)) unw_Amount
       (select_where (fun u => existsb (Z.eqb (unw_RegistrationMomentumHeight u)) heights)
          (db_unwraps db))).

(** The row of one key of [stats]: the wrap side first, then the unwrap side on top; the
    volume is added in 64 bits. *)
Definition bridge_stat (date : string) (key : Z * Z * string) (wrap unwrap : option (Z * Z))
  : BridgeStatHistory :=
  let '(nc, ci, ts) := key in
  let s0 := match wrap with
            | Some (n, amount) => mkBridgeStatHistory date nc ci ts n amount 0 0 amount
            | None => mkBridgeStatHistory date nc ci ts 0 0 0 0 0
            end in
  match unwrap with
  | Some (n, amount) =>
      s0 <| bs_UnwrapTxCount := n |> <| bs_UnwrappedAmount := amount |>
         <| bs_TotalVolume := int64 (bs_TotalVolume s0 + amount) |>
  | None => s0
  end.

Definition bridge_stats (date : string) (wraps unwraps : gmap (Z * Z * string) (Z * Z))
  : list BridgeStatHistory :=
  map (fun '(key, (w, u)) => bridge_stat date key w u)
    (map_to_list (merge (fun w u => match w, u with
                                    | None, None => None
                                    | _, _ => Some (w, u)
                                    end) wraps unwraps)).

(** Each row is upserted on its own; a failure is logged. *)
Fixpoint upsert_bridge_stats (stats : list BridgeStatHistory) (w : nat * Db) : nat * Db :=
  match stats with
  | [] => w
  | s :: stats' =>
      upsert_bridge_stats stats'
        (tell (on_table db_bridge_stats (StatHistoryRepository.UpsertBridgeStat s)) w).2
  end.

Definition snapshotBridgeStats (date : string) (lo hi : Z) (w : nat * Db) : nat * Db :=
  match ask (wrap_groups lo hi) w with
  | (None, w1) => w1
  | (Some wraps, w1) =>
      match ask (unwrap_groups lo hi) w1 with
      | (None, w2) => w2
      | (Some unwraps, w2) => upsert_bridge_stats (bridge_stats date wraps unwraps) w2
      end
  end.

(** [runStatSnapshots]: the four snapshots in order, none of which stops the next. *)
Definition runStatSnapshots (date : string) (lo session_lo : Z) (pillars : list Pillar) (db : Db) : Db :=
  let hi := lo + 86400 in
  let w1 := (snapshotNetworkStats date lo hi (0%nat, db)).2 in
  let w2 := snapshotTokenStats date session_lo hi w1 in
  let w3 := snapshotPillarStats date pillars w2 in
  (snapshotBridgeStats date lo hi w3).2.
End jobs.

(** ** Distinct counts *)

Lemma count_distinct_le col cond t (ids : list string) :
  (forall v, v ∈ select_where cond t -> col v ∈ ids) ->
  0 <= VoteRepository.count_distinct col cond t <= Z.of_nat (length ids).
Proof.
  intros H. unfold VoteRepository.count_distinct. split; [lia|]. apply Nat2Z.inj_le.
  trans (size (list_to_set ids : gset string)).
  - apply subseteq_size. intros c. rewrite !elem_of_list_to_set.
    intros (v & -> & Hv)%list_elem_of_fmap. by apply H.
  - clear H. induction ids as [|i ids IH]; [apply Nat.eq_le_incl, size_empty|]. simpl.
    rewrite size_union_alt, size_singleton. etrans; [|apply le_n_S, IH].
    apply le_n_S, subseteq_size. set_solver.
Qed.

Lemma existsb_eqb_elem s l : existsb (String.eqb s) l = true -> s ∈ l.
Proof.
  intros (x & Hx%list_elem_of_In & ->%String.eqb_eq)%existsb_exists. done.
Qed.

Lemma select_where_cond {K} `{Countable K} {V} (cond : V -> bool) (t : gmap K V) v :
  v ∈ select_where cond t -> cond v = true.
Proof. intros Hv%list_elem_of_In. by apply filter_In in Hv as [_ ?]. Qed.

Lemma project_votes_le o ids t :
  0 <= VoteRepository.GetVoteCountForProjects o ids t <= Z.of_nat (length ids).
Proof.
  apply count_distinct_le. intros v Hv%select_where_cond.
  apply andb_prop in Hv as [[_ Hv]%andb_prop _]. by apply existsb_eqb_elem.
Qed.

Lemma phase_votes_le o ids t :
  0 <= VoteRepository.GetVoteCountForPhases o ids t <= Z.of_nat (length ids).
Proof.
  apply count_distinct_le. intros v Hv%select_where_cond.
  apply andb_prop in Hv as [_ Hv]. by apply existsb_eqb_elem.
Qed.

(** ** Loops of jobs without failures

    No call fails and no other session writes while the job runs. *)

Section no_failures.
Variables (calls : nat -> Call) (canceled : nat -> bool).
Hypothesis Hcalls : forall i, calls i = alone None.
Hypothesis Hcanceled : forall i, canceled i = false.

(** A property of the visited elements and the state, kept by every body, holds after all
    elements are visited. *)
Lemma for_each_visits {A} (body : A -> job unit) (I : list A -> Db -> Prop) xs seen w :
  (forall seen x w, I seen w.2 -> I (seen ++ [x])%list (body x w).2.2) ->
  I seen w.2 -> I (seen ++ xs)%list (for_each canceled xs body w).2.
Proof.
  intros Hbody. revert seen w. induction xs as [|x xs IH]; intros seen w HI; simpl.
  - by rewrite app_nil_r.
  - rewrite Hcanceled, cons_middle, app_assoc. by apply IH, Hbody.
Qed.

Lemma ask_Ok {A} (read : Db -> result A) k db :
  ask calls read (k, db)
  = (match read db with Ok a => Some a | Err _ => None end, (S k, db)).
Proof. unfold ask. rewrite Hcalls. cbn. by destruct (read db). Qed.

Lemma tell_Ok op k db :
  (tell calls op (k, db)).2 = (S k, match op db with Ok d => d | Err _ => db end).
Proof. unfold tell. rewrite Hcalls. cbn. by destruct (op db). Qed.

(** ** Voting activity *)

(** The proposals a pillar could vote on, and those it has voted on. *)
Definition eligible (r : Pillar) (db : Db) : Z :=
  Z.of_nat (length (ProjectRepository.GetIDsCreatedAtOrAfter (pil_SpawnTimestamp r)
                      (db_projects db)))
  + Z.of_nat (length (ProjectPhaseRepository.GetIDsCreatedAtOrAfter (pil_SpawnTimestamp r)
                        (db_project_phases db))).

Definition voted (o : string) (r : Pillar) (db : Db) : Z :=
  VoteRepository.GetVoteCountForProjects o
    (ProjectRepository.GetIDsCreatedAtOrAfter (pil_SpawnTimestamp r) (db_projects db))
    (db_votes db)
  + VoteRepository.GetVoteCountForPhases o
      (ProjectPhaseRepository.GetIDsCreatedAtOrAfter (pil_SpawnTimestamp r)
         (db_project_phases db)) (db_votes db).

Definition with_activity (o : string) (db : Db) (r : Pillar) : Pillar :=
  r <| pil_VotingActivity := activity_of (voted o r db) (eligible r db) |>.

Lemma voting_step p k db :
  let o := pil_OwnerAddress p in
  (voting_activity_of calls p (k, db)).2.2
  = match db_pillars db !! o with
    | Some r => db <| db_pillars := <[o := with_activity o db r]> (db_pillars db) |>
    | None => db
    end.
Proof.
  intros o. unfold voting_activity_of, job_bind. fold o. rewrite ask_Ok.
  unfold PillarRepository.GetSpawnTimestampByOwner.
  destruct (db_pillars db !! o) as [r|] eqn:Er; [|done].
  rewrite !ask_Ok.
  set (prs := ProjectRepository.GetIDsCreatedAtOrAfter _ _).
  set (phs := ProjectPhaseRepository.GetIDsCreatedAtOrAfter _ _).
  assert (Hn1 : forall k, match prs with
      | [] => done_job 0
      | _ => ask calls (fun db => Ok (VoteRepository.GetVoteCountForProjects o prs (db_votes db)))
      end (k, db)
    = (Some (VoteRepository.GetVoteCountForProjects o prs (db_votes db)),
       (match prs with [] => k | _ => S k end, db))).
  { intros k'. pose proof (project_votes_le o prs (db_votes db)) as Hle.
    destruct prs; [|by rewrite ask_Ok]. unfold done_job. repeat f_equal. simpl in Hle. lia. }
  assert (Hn2 : forall k, match phs with
      | [] => done_job 0
      | _ => ask calls (fun db => Ok (VoteRepository.GetVoteCountForPhases o phs (db_votes db)))
      end (k, db)
    = (Some (VoteRepository.GetVoteCountForPhases o phs (db_votes db)),
       (match phs with [] => k | _ => S k end, db))).
  { intros k'. pose proof (phase_votes_le o phs (db_votes db)) as Hle.
    destruct phs; [|by rewrite ask_Ok]. unfold done_job. repeat f_equal. simpl in Hle. lia. }
  rewrite Hn1, Hn2, tell_Ok. simpl.
  unfold on_table, PillarRepository.UpdateVotingActivity, update_row. rewrite Er. done.
Qed.

(** What the visited pillars leave: the other tables they read are untouched, and their rows
    have the activity computed from the tables the job started from. *)
Definition activities_done (db0 : Db) (seen : list Pillar) (db : Db) : Prop :=
  db_votes db = db_votes db0 /\ db_projects db = db_projects db0
  /\ db_project_phases db = db_project_phases db0
  /\ forall o, db_pillars db !! o
       = (fun r => if decide (o ∈ map pil_OwnerAddress seen) then with_activity o db0 r else r)
           <$> db_pillars db0 !! o.

Lemma activities_step db0 seen p w :
  activities_done db0 seen w.2 ->
  activities_done db0 (seen ++ [p])%list (voting_activity_of calls p w).2.2.
Proof.
  destruct w as [k db]. intros (Hv & Hp & Hph & Hrow). rewrite voting_step.
  set (o := pil_OwnerAddress p).
  assert (Hspec : forall o', o' <> o -> db_pillars db !! o'
    = (fun r => if decide (o' ∈ map pil_OwnerAddress (seen ++ [p])%list)
                then with_activity o' db0 r else r) <$> db_pillars db0 !! o').
  { intros o' Hne. rewrite Hrow. destruct (db_pillars db0 !! o'); [|done]. simpl. f_equal.
    apply decide_ext. rewrite map_app. simpl. set_solver. }
  destruct (db_pillars db !! o) as [r|] eqn:Er; 
    pose proof (eq_trans (eq_sym Er) (Hrow o)) as Ho; simpl; split_and!; try done.
  - intros o'. destruct (decide (o' = o)) as [->|Hne].
    + simpl. rewrite lookup_insert_eq. destruct (db_pillars db0 !! o) as [r0|]; simpl in *; [|done].
      injection Ho as ->. f_equal.
      assert (Hin : o ∈ map pil_OwnerAddress (seen ++ [p])%list)
        by (rewrite map_app; simpl; set_solver).
      rewrite (decide_True _ _ Hin).
      unfold with_activity, voted, eligible. rewrite Hv, Hp, Hph. by case_decide.
    + simpl. rewrite lookup_insert_ne by done. by apply Hspec.
  - intros o'. destruct (decide (o' = o)) as [->|Hne]; [|by apply Hspec].
    rewrite Er. by destruct (db_pillars db0 !! o).
Qed.

(** Voting activity is what it says: a run in which no call fails and no other session
    writes sets the activity of
    every cached pillar's row to the binary32 quotient of the eligible proposals it voted
    on by the proposals eligible since it spawned (zero without any), both counted on the
    tables the run started from; the first number is never above the second; every other
    row and column of the pillars is unchanged. *)
Theorem voting_activity_exact pillars db :
  let after := runVotingActivity calls canceled pillars db in
  (forall o, db_pillars after !! o
     = (fun r => if decide (o ∈ map pil_OwnerAddress pillars)
                 then r <| pil_VotingActivity := activity_of (voted o r db) (eligible r db) |>
                 else r) <$> db_pillars db !! o)
  /\ forall o r, 0 <= voted o r db <= eligible r db.
Proof.
  simpl. split.
  - pose proof (for_each_visits (voting_activity_of calls) (activities_done db) pillars []
      (0%nat, db) (activities_step db)) as Hv. simpl in Hv. apply Hv. split_and!; [done..|].
    intros o. by destruct (db_pillars db !! o).
  - intros o r. unfold voted, eligible.
    pose proof (project_votes_le o (ProjectRepository.GetIDsCreatedAtOrAfter
      (pil_SpawnTimestamp r) (db_projects db)) (db_votes db)).
    pose proof (phase_votes_le o (ProjectPhaseRepository.GetIDsCreatedAtOrAfter
      (pil_SpawnTimestamp r) (db_project_phases db)) (db_votes db)). lia.
Qed.

(** ** Holder counts *)

Definition holders_done (db0 : Db) (seen : list Token) (db : Db) : Prop :=
  db_balances db = db_balances db0
  /\ forall ts, db_tokens db !! ts
       = (fun t => if decide (ts ∈ map tok_TokenStandard seen)
                   then t <| tok_HolderCount := BalanceRepository.GetHolderCount ts
                                                  (db_balances db0) |>
                   else t) <$> db_tokens db0 !! ts.

Lemma holders_step db0 seen t w :
  holders_done db0 seen w.2 ->
  holders_done db0 (seen ++ [t])%list (holder_count_of calls t w).2.2.
Proof.
  destruct w as [k db]. intros [Hb Hrow]. unfold holder_count_of, job_bind.
  rewrite ask_Ok, tell_Ok. set (ts := tok_TokenStandard t). simpl.
  unfold on_table, TokenRepository.UpdateHolderCount, update_row.
  assert (Hspec : forall ts', ts' <> ts -> db_tokens db !! ts'
    = (fun x => if decide (ts' ∈ map tok_TokenStandard (seen ++ [t])%list)
                then x <| tok_HolderCount := BalanceRepository.GetHolderCount ts'
                                               (db_balances db0) |>
                else x) <$> db_tokens db0 !! ts').
  { intros ts' Hne. rewrite Hrow. destruct (db_tokens db0 !! ts'); [|done]. simpl. f_equal.
    apply decide_ext. rewrite map_app. simpl. set_solver. }
  destruct (db_tokens db !! ts) as [x|] eqn:Ex; 
    pose proof (eq_trans (eq_sym Ex) (Hrow ts)) as Ht; simpl; split;
    [done| |done|].
  - intros ts'. destruct (decide (ts' = ts)) as [->|Hne].
    + simpl. rewrite lookup_insert_eq. destruct (db_tokens db0 !! ts) as [x0|]; simpl in *; [|done].
      injection Ht as ->. f_equal.
      assert (Hin : ts ∈ map tok_TokenStandard (seen ++ [t])%list)
        by (rewrite map_app; simpl; set_solver).
      rewrite (decide_True _ _ Hin).
      rewrite Hb. by case_decide.
    + simpl. rewrite lookup_insert_ne by done. by apply Hspec.
  - intros ts'. destruct (decide (ts' = ts)) as [->|Hne]; [|by apply Hspec].
    etrans; [exact Ex|]. by destruct (db_tokens db0 !! ts).
Qed.

(** The rows a count counts are those of a filtered map. *)
Lemma length_select_where {K} `{Countable K} {V} (P : V -> Prop) (cond : V -> bool)
    `{forall v, Decision (P v)} (t : gmap K V) :
  (forall v, cond v = true <-> P v) ->
  length (select_where cond t) = size (filter (fun kv => P kv.2) t).
Proof.
  intros Hcond. unfold select_where. rewrite <- length_map_to_list.
  assert (Hp : map_to_list (filter (fun kv : K * V => P kv.2) t)
               ≡ₚ filter (fun kv => P kv.2) (map_to_list t)).
  { apply NoDup_Permutation; [apply NoDup_map_to_list|apply NoDup_filter, NoDup_map_to_list|].
    intros [k v]. rewrite list_elem_of_filter, !elem_of_map_to_list, map_lookup_filter_Some.
    simpl. tauto. }
  rewrite Hp. clear Hp. induction (map_to_list t) as [|[k v] l IH]; simpl; [done|].
  destruct (cond v) eqn:E.
  - rewrite filter_cons_True by by apply Hcond. simpl. by f_equal.
  - rewrite filter_cons_False; [done|]. simpl. intros HP%Hcond. congruence.
Qed.

(** Holder counts are exact: a run in which no call fails and no other session writes sets every token's holder
    count to the number of its balance rows with a positive balance, and changes nothing
    else of the tokens. *)
Theorem holder_counts_exact db :
  (forall k t, db_tokens db !! k = Some t -> tok_TokenStandard t = k) ->
  forall ts, db_tokens (runTokenHolderCounts calls canceled db) !! ts
  = (fun t => t <| tok_HolderCount :=
       Z.of_nat (size (filter (fun kb => bal_TokenStandard kb.2 = ts /\ 0 < bal_Balance kb.2)
                         (db_balances db))) |>) <$> db_tokens db !! ts.
Proof.
  intros Hkeys ts. unfold runTokenHolderCounts. rewrite ask_Ok. simpl.
  set (tokens := TokenRepository.GetAll (db_tokens db)).
  pose proof (for_each_visits (holder_count_of calls) (holders_done db) tokens [] (1%nat, db)
    (holders_step db)) as Hv. simpl in Hv.
  destruct Hv as [_ Hv]. { split; [done|]. intros ts'. by destruct (db_tokens db !! ts'). }
  etrans; [apply Hv|]. destruct (db_tokens db !! ts) as [t|] eqn:Et; [|done]. simpl. f_equal.
  assert (Hin : ts ∈ map tok_TokenStandard tokens).
  { rewrite <- (Hkeys ts t Et). apply list_elem_of_fmap_2. unfold tokens, TokenRepository.GetAll.
    apply list_elem_of_In, filter_In. split; [|done]. apply list_elem_of_In, list_elem_of_fmap.
    exists (ts, t). split; [done|]. by apply elem_of_map_to_list. }
  rewrite (decide_True _ _ Hin). unfold BalanceRepository.GetHolderCount.
  rewrite (length_select_where (fun b => bal_TokenStandard b = ts /\ 0 < bal_Balance b)
    _ (db_balances db));
    [done|]. intros b. rewrite andb_true_iff, String.eqb_eq, Z.ltb_lt. done.
Qed.
End no_failures.

(** ** Concrete runs *)

Definition quiet : nat -> Call := fun _ => alone None.

Definition cron_db : Db :=
  empty_db
    <| db_pillars := {["z1owner" := mkPillar "z1owner" "z1prod" "z1w" "Anvil" 1 0 0 true 0 0 0
                                      0 0 0 100 (S754_zero false) 0 false]} |>
    <| db_projects := {["p1" := mkProject "p1" "v1" "z1a" "One" "" "" 0 0 150 150 0 0 0 0]} |>
    <| db_project_phases := {["ph1" := mkProjectPhase "ph1" "p1" "v2" "Phase" "" "" 0 0 160 0 0 0 0 0]} |>
    <| db_votes := {[("z1owner", "v1") := mkVote 1 "m" 170 9 "z1owner" "p1" "" "v1" 0]} |>
    <| db_tokens := {["zts1" := mkToken "zts1" "T" "T" "" 8 "z1a" 10 10 false false false 0 0 7 0]} |>
    <| db_balances := {[("z1a", "zts1") := mkBalance "z1a" "zts1" 3 0]} |>.

(** One of two proposals voted on: an activity of one half. *)
Lemma voting_activity_exact_witness :
  pil_VotingActivity <$> db_pillars (runVotingActivity quiet (fun _ => false)
    (select_where (fun _ => true) (db_pillars cron_db)) cron_db) !! "z1owner"
  = Some (S754_finite false 8388608 (-24)).
Proof.
  destruct (voting_activity_exact quiet (fun _ => false) (fun _ => eq_refl)
    (fun _ => eq_refl) (select_where (fun _ => true) (db_pillars cron_db)) cron_db) as [Hrow _].
  rewrite Hrow. vm_compute. reflexivity.
Defined.

Lemma holder_counts_exact_witness :
  tok_HolderCount <$> db_tokens (runTokenHolderCounts quiet (fun _ => false) cron_db)
                        !! "zts1" = Some 1.
Proof.
  rewrite (holder_counts_exact quiet (fun _ => false) (fun _ => eq_refl)
             (fun _ => eq_refl) cron_db).
  - vm_compute. reflexivity.
  - intros k t Ht. simpl in Ht. apply lookup_singleton_Some in Ht as [<- <-]. reflexivity.
Defined.
