(* ===== verification/WebhookTheorems.v ===== *)
(** The webhook dispatcher: bounded, in-order queueing under any interleaving of emitters,
    worker and shutdown, and bounded delivery. *)

From S2P Require Import Prelude.
From S2P Require Import Json.
From S2P Require Import Webhooks.
#[local] Open Scope string_scope.

(** ** The queue *)

(** The events of a trace whose [Emit] passed the closed check, and those the queue took. *)
Definition emitted_by (a : Action) (d : Dispatcher) : list Event :=
  match a with AEmit e => if d_closed d then [] else [e] | _ => [] end.

Definition accepted_by (a : Action) (d : Dispatcher) : list Event :=
  match a with
  | ASend i =>
      if decide (length (d_queue d) < queue_cap)%nat then option_list (d_emitting d !! i) else []
  | _ => []
  end.

Fixpoint trace_of (f : Action -> Dispatcher -> list Event) (acts : list Action)
    (d : Dispatcher) : list Event :=
  match acts with
  | [] => []
  | a :: acts' => (f a d ++ trace_of f acts' (dispatcher_step a d))%list
  end.

Definition busy (d : Dispatcher) : list Event :=
  match d_worker d with WBusy e => [e] | _ => [] end.

(** The events in the worker's hands and behind it, in order. *)
Definition pipeline (d : Dispatcher) : list Event :=
  (d_dispatched d ++ busy d ++ d_queue d)%list.

Lemma step_pipeline a d : pipeline (dispatcher_step a d) = (pipeline d ++ accepted_by a d)%list.
Proof.
  unfold pipeline, busy. destruct a; simpl.
  - destruct (d_worker d) eqn:E; simpl; rewrite ?E, ?app_nil_r; done.
  - destruct (d_closed d); simpl; by rewrite app_nil_r.
  - destruct (d_emitting d !! i) as [e|]; simpl;
      case_decide; simpl; rewrite ?app_nil_r, <- ?app_assoc; done.
  - destruct (d_worker d) eqn:E, (d_queue d) eqn:Eq; simpl; rewrite ?E, ?Eq, ?app_nil_r; done.
  - destruct (d_worker d) eqn:E; simpl; rewrite ?E, ?app_nil_r, <- ?app_assoc; done.
  - destruct (d_worker d) eqn:E, (d_stop d); simpl; rewrite ?E, ?app_nil_r; done.
  - destruct (d_stop d); simpl; by rewrite app_nil_r.
  - destruct (d_stop d); simpl; by rewrite app_nil_r.
Qed.

Lemma step_conserves a d :
  (accepted_by a d ++ d_dropped (dispatcher_step a d) ++ d_emitting (dispatcher_step a d))%list
  ≡ₚ (d_dropped d ++ d_emitting d ++ emitted_by a d)%list.
Proof.
  destruct a; simpl.
  - destruct (d_worker d); simpl; by rewrite app_nil_r.
  - destruct (d_closed d); simpl; by rewrite ?app_nil_r.
  - destruct (d_emitting d !! i) as [e|] eqn:E; simpl.
    + rewrite app_nil_r, (delete_Permutation _ _ _ E). case_decide; simpl;
        [by rewrite Permutation_middle|by rewrite <- app_assoc].
    + case_decide; by rewrite app_nil_r.
  - destruct (d_worker d), (d_queue d); simpl; by rewrite app_nil_r.
  - destruct (d_worker d); simpl; by rewrite app_nil_r.
  - destruct (d_worker d), (d_stop d); simpl; by rewrite app_nil_r.
  - destruct (d_stop d); simpl; by rewrite app_nil_r.
  - destruct (d_stop d); simpl; by rewrite app_nil_r.
Qed.

Lemma step_bounded a d :
  (length (d_queue d) <= queue_cap)%nat ->
  (length (d_queue (dispatcher_step a d)) <= queue_cap)%nat.
Proof.
  intros H. destruct a; simpl.
  - by destruct (d_worker d).
  - by destruct (d_closed d).
  - destruct (d_emitting d !! i); [|done]. case_decide; simpl; [|done].
    rewrite length_app. simpl. lia.
  - destruct (d_worker d), (d_queue d) eqn:E; simpl in *; rewrite ?E; simpl; lia.
  - by destruct (d_worker d).
  - by destruct (d_worker d), (d_stop d).
  - by destruct (d_stop d).
  - by destruct (d_stop d).
Qed.

Lemma step_exited a d :
  d_worker d = WExited ->
  d_worker (dispatcher_step a d) = WExited
  /\ d_dispatched (dispatcher_step a d) = d_dispatched d.
Proof.
  intros H. destruct a; simpl; rewrite ?H; try done.
  - by destruct (d_closed d).
  - destruct (d_emitting d !! i); [|done]. by case_decide.
  - by destruct (d_stop d).
  - by destruct (d_stop d).
Qed.

(** C24. The webhook queue under any interleaving of emitters, worker and shutdown: it never
    holds more than 1,024 events, events are dispatched in exactly the order the queue took
    them with none lost or repeated on the way, every event whose Emit passed the closed
    check was taken, dropped because the queue was full, or is still at the select, and
    once the worker has exited nothing more is dispatched. *)
Theorem dispatcher_fifo acts more :
  let d := dispatcher_run acts New in
  (length (d_queue d) <= queue_cap)%nat
  /\ (d_dispatched d ++ busy d ++ d_queue d)%list = trace_of accepted_by acts New
  /\ trace_of emitted_by acts New
     ≡ₚ (trace_of accepted_by acts New ++ d_dropped d ++ d_emitting d)%list
  /\ (d_worker d = WExited -> d_dispatched (dispatcher_run more d) = d_dispatched d).
Proof.
  simpl.
  assert (Hgen : forall d0, (length (d_queue d0) <= queue_cap)%nat ->
    let d := dispatcher_run acts d0 in
    (length (d_queue d) <= queue_cap)%nat
    /\ pipeline d = (pipeline d0 ++ trace_of accepted_by acts d0)%list
    /\ (d_dropped d0 ++ d_emitting d0 ++ trace_of emitted_by acts d0)%list
       ≡ₚ (trace_of accepted_by acts d0 ++ d_dropped d ++ d_emitting d)%list).
  { induction acts as [|a acts IH]; intros d0 Hb; simpl.
    - by rewrite !app_nil_r.
    - destruct (IH (dispatcher_step a d0) (step_bounded a d0 Hb)) as (H1 & H2 & H3).
      split_and!; [done| |].
      + etrans; [exact H2|]. rewrite step_pipeline. by rewrite <- app_assoc.
      + rewrite <- app_assoc. etrans; [|apply Permutation_app_head, H3].
        rewrite !app_assoc. apply Permutation_app_tail. rewrite <- !app_assoc.
        symmetry. apply step_conserves. }
  destruct (Hgen New) as (H1 & H2 & H3); [simpl; lia|]. split_and!; [done|exact H2|exact H3|].
  intros He. clear -He. set (d := dispatcher_run acts New) in *. clearbody d. revert d He.
  induction more as [|a more IH]; intros d He; simpl; [done|].
  destruct (step_exited a d He) as [Hw Hd]. unfold dispatcher_run in IH. by rewrite IH, Hd.
Qed.

(** ** Delivery *)

Section delivery.
Variables (http : Http) (ep : Endpoint) (body : string).

(** The requests of a loop with [n] attempts left: an unbroken run of refused exchanges, the
    last of which may be accepted. *)
Lemma deliver_from_spec n attempt k :
  (0 <= attempt)%Z ->
  let d := deliver_from http ep body n attempt k in
  let sent := length (dl_requests d) in
  Forall (eq (request_for http ep body)) (dl_requests d)
  /\ (sent <= n)%nat
  /\ (forall i, (S i < sent)%nat -> accepted_status (http_answer http (k + i)) = false)
  /\ (dl_ok d = true <-> (0 < sent)%nat
                         /\ accepted_status (http_answer http (k + (sent - 1))) = true)
  /\ (http_builds http (ep_URL ep) = true -> dl_ok d = false -> sent = n)
  /\ (http_builds http (ep_URL ep) = false -> sent = 0%nat)
  /\ (http_builds http (ep_URL ep) = true ->
      dl_sleeps d = map (fun i => ((attempt + Z.of_nat i) * 200)%Z)
                      (seq (if (0 <? attempt)%Z then 0 else 1)
                         (if (0 <? attempt)%Z then sent else sent - 1))).
Proof.
  revert attempt k. induction n as [|n IH]; intros attempt k Ha; simpl.
  - split_and!; try done; [intros; lia|split; [done|intros [? _]; lia]|].
    intros _. by destruct (0 <? attempt)%Z.
  - destruct (http_builds http (ep_URL ep)) eqn:Eb; simpl.
    2: { split_and!; try done; [lia|intros; lia|split; [done|intros [? _]; lia]]. }
    destruct (accepted_status (http_answer http k)) eqn:Eok; simpl.
    { split_and!; try done; [by constructor|lia|intros; lia|split; [|done]..|].
      - intros _. split; [lia|]. by rewrite Nat.add_0_r.
      - intros _. destruct (Z.ltb_spec 0 attempt); simpl; [|done]. do 2 f_equal. lia. }
    destruct (IH (attempt + 1)%Z (S k) ltac:(lia)) as (H1 & H2 & H3 & H4 & H5 & _ & H7).
    set (d := deliver_from http ep body n (attempt + 1) (S k)) in *.
    assert (Hk : forall i, (S k + i = k + S i)%nat) by lia.
    split_and!; [by constructor|lia| | | |done|].
    + intros [|i] Hi; [by rewrite Nat.add_0_r|]. rewrite <- Hk. apply H3. lia.
    + rewrite H4. destruct (dl_requests d) as [|r rs] eqn:Er; simpl in *.
      * rewrite Nat.add_0_r, Eok. split; intros [? ?]; [lia|done].
      * rewrite !Nat.sub_0_r, Hk. split; intros [? ?]; (split; [lia|done]).
    + intros _ Hok. f_equal. by apply H5.
    + intros _. rewrite (H7 eq_refl). destruct (Z.ltb_spec 0 (attempt + 1)); [|lia].
      rewrite Nat.sub_0_r. destruct (Z.ltb_spec 0 attempt); simpl.
      * rewrite Z.add_0_r. f_equal. rewrite <- seq_shift, map_map. apply map_ext. intros i.
        f_equal. lia.
      * rewrite <- seq_shift, map_map. apply map_ext. intros i. f_equal. lia.
Qed.
End delivery.

(** C39. Delivery is bounded and stops at the first success: every attempt sends the same
    request, signed iff the endpoint has a secret; there are at most [maxRetries + 1], and
    exactly that many when none is accepted; every attempt but the last was refused and
    delivery succeeds iff the last was answered with a 2xx status; the sleep before attempt
    [i + 1] is [(i + 1) * 200] milliseconds; a URL that makes no request is never sent to. *)
Theorem deliver_bounded http maxRetries ep body k :
  let d := deliver http maxRetries ep body k in
  let sent := length (dl_requests d) in
  Forall (eq (mkRequest (ep_URL ep) body
                (if str_empty (ep_Secret ep) then None
                 else Some (ComputeSignature http (ep_Secret ep) body)))) (dl_requests d)
  /\ (Z.of_nat sent <= Z.max 0 (maxRetries + 1))%Z
  /\ (forall i, (S i < sent)%nat -> accepted_status (http_answer http (k + i)) = false)
  /\ (dl_ok d = true <-> (0 < sent)%nat
                         /\ accepted_status (http_answer http (k + (sent - 1))) = true)
  /\ (if http_builds http (ep_URL ep)
      then (dl_ok d = false -> Z.of_nat sent = Z.max 0 (maxRetries + 1))%Z
           /\ dl_sleeps d = map (fun i => (Z.of_nat i * 200)%Z) (seq 1 (sent - 1))
      else sent = 0%nat).
Proof.
  pose proof (deliver_from_spec http ep body (Z.to_nat (maxRetries + 1)) 0 k ltac:(lia))
    as (H1 & H2 & H3 & H4 & H5 & H6 & H7).
  fold (deliver http maxRetries ep body k) in *. simpl. split_and!; [done|lia|done|done|].
  destruct (http_builds http (ep_URL ep)); [|by apply H6]. split; [|by apply H7].
  intros Hok. rewrite H5 by done. lia.
Qed.
