(* ===== verification/StreamHub.v ===== *)
(** internal/api/stream/hub.go: the fan-out of one LISTEN connection to WebSocket
    subscribers, as the atomic actions of its goroutines.

    A subscriber object lives on after it leaves the hub's set, because its handler holds
    it: the hub keeps the set of registered ids, the store all objects ever created. A send
    on a closed channel and a second close are Go panics: an action that would do either
    answers [None]. *)

From S2P Require Import Prelude.
#[local] Open Scope string_scope.
#[local] Open Scope Z_scope.

Definition defaultClientBuffer : Z := 32.
Definition defaultPerSubjectMax : Z := 8.
(** Seconds. *)
Definition initialBackoff : Z := 1.
Definition maxBackoff : Z := 30.

Definition nextBackoff (d : Z) : Z :=
  let next := d * 2 in if maxBackoff <? next then maxBackoff else next.

Inductive HubState : Type := statePending | stateRunning | stateDegraded | stateStopped.

#[export] Instance HubState_eq_dec : EqDecision HubState.
Proof. solve_decision. Defined.

Section hub.
Context {T : Type}.

(** Where a [Close] call of this subscriber is: not called or returned early, past
    [closed.Swap(true)], past [unsubscribe], done. *)
Inductive ClosePhase : Type := CloseIdle | CloseSwapped | CloseUnsubscribed | CloseDone.

Record Subscriber : Type := mkSubscriber {
  sub_subject : string;
  sub_ch : list T;
  sub_ch_closed : bool;
  sub_closed : bool;
  sub_lagged : Z;
  sub_phase : ClosePhase
}.

#[global] Instance Subscriber_eta : Eta Subscriber := fun r =>
  mkSubscriber (sub_subject r) (sub_ch r) (sub_ch_closed r) (sub_closed r) (sub_lagged r)
    (sub_phase r).

(** Where [Run] is: before or in a connect attempt, in the wait loop, between flipping the
    state and closing the subscribers (whether it will return afterwards), in [drainAll]
    before and after the state is stored, returned. *)
Inductive RunPhase : Type :=
| RunConnecting
| RunListening
| RunClosing (returning : bool)
| RunStopping
| RunDraining
| RunReturned.

Record Hub : Type := mkHub {
  h_state : HubState;
  h_subs : gset nat;
  h_objects : gmap nat Subscriber;
  h_next : nat;
  h_perSubject : gmap string Z;
  h_run : RunPhase;
  h_backoff : Z
}.

#[global] Instance Hub_eta : Eta Hub := fun r =>
  mkHub (h_state r) (h_subs r) (h_objects r) (h_next r) (h_perSubject r) (h_run r) (h_backoff r).

(** [Config], with [New]'s defaults applied. *)
Record HubConfig : Type := mkHubConfig { bufSize : Z; perSubjectMax : Z }.

Definition NewConfig (clientBuf perSub : Z) : HubConfig :=
  mkHubConfig (if clientBuf <=? 0 then defaultClientBuffer else clientBuf)
    (if perSub =? 0 then defaultPerSubjectMax else perSub).

Definition New : Hub := mkHub statePending ∅ ∅ 0 ∅ RunConnecting initialBackoff.

Variable cfg : HubConfig.

Definition Running (h : Hub) : bool := bool_decide (h_state h = stateRunning).

Definition SubscriberCount (h : Hub) : Z := Z.of_nat (size (h_subs h)).

(** A missing key of a Go map reads as zero. *)
Definition SubjectCount (subject : string) (h : Hub) : Z :=
  default 0 (h_perSubject h !! subject).

Inductive SubscribeResult : Type :=
| Subscribed (id : nat)
| ErrHubNotRunning
| ErrTooManyForSubject.

(** [Subscribe], under the lock. The state is read again there; a store between that read
    and the insertion is one after the insertion, as the closing that follows a store needs
    the lock. *)
Definition Subscribe (subject : string) (h : Hub) : SubscribeResult * Hub :=
  if negb (Running h) then (ErrHubNotRunning, h)
  else if (0 <? perSubjectMax cfg) && (perSubjectMax cfg <=? SubjectCount subject h)
  then (ErrTooManyForSubject, h)
  else
    let id := h_next h in
    (Subscribed id,
     h <| h_subs := {[id]} ∪ h_subs h |>
       <| h_objects := <[id := mkSubscriber subject [] false false 0 CloseIdle]> (h_objects h) |>
       <| h_next := S id |>
       <| h_perSubject := <[subject := SubjectCount subject h + 1]> (h_perSubject h) |>).

Definition set_object (id : nat) (s : Subscriber) (h : Hub) : Hub :=
  h <| h_objects := <[id := s]> (h_objects h) |>.

(** The critical section of [unsubscribe]. *)
Definition unsubscribe (id : nat) (s : Subscriber) (h : Hub) : Hub :=
  if decide (id ∈ h_subs h) then
    let n := SubjectCount (sub_subject s) h - 1 in
    h <| h_subs := h_subs h ∖ {[id]} |>
      <| h_perSubject := if n <=? 0 then delete (sub_subject s) (h_perSubject h)
                         else <[sub_subject s := n]> (h_perSubject h) |>
  else h.

(** [close(ch)] *)
Definition close_channel (s : Subscriber) : option Subscriber :=
  if sub_ch_closed s then None else Some (s <| sub_ch_closed := true |>).

(** The body of [closeAllSubs]' loop. *)
Definition close_one (s : Subscriber) : option Subscriber :=
  if sub_closed s then Some s else close_channel (s <| sub_closed := true |>).

(** The non-blocking send of [dispatch]. *)
Definition send_one (ev : T) (s : Subscriber) : option Subscriber :=
  if Z.of_nat (length (sub_ch s)) <? bufSize cfg then
    if sub_ch_closed s then None else Some (s <| sub_ch := (sub_ch s ++ [ev])%list |>)
  else if sub_ch_closed s then None
  else Some (s <| sub_lagged := sub_lagged s + 1 |>).

(** A loop over the registered subscribers; a panic in one is a panic of the loop. *)
Definition for_subs (f : Subscriber -> option Subscriber) (h : Hub) : option Hub :=
  let step id (s : Subscriber) := if decide (id ∈ h_subs h) then f s else Some s in
  if decide (map_Forall (fun id s => step id s <> None) (h_objects h))
  then Some (h <| h_objects := map_imap step (h_objects h) |>)
  else None.

Definition closeAllSubs (h : Hub) : option Hub :=
  h' ← for_subs close_one h;
  Some (h' <| h_subs := ∅ |> <| h_perSubject := ∅ |>).

Definition dispatch (ev : T) (h : Hub) : option Hub := for_subs (send_one ev) h.

(** The atomic actions: a handler's [Subscribe], a receive and the three steps of its
    [Close]; and [Run]'s, in the order its code takes them. [ARunNotify None] is a payload
    that does not unmarshal. [ARunWaitError] says whether the context was canceled when the
    wait failed, and whether [Run] returns on that error for another reason (the error is a
    cancellation, or the context is canceled right after). *)
Inductive HubAction : Type :=
| ASubscribe (subject : string)
| ARecv (id : nat)
| ACloseSwap (id : nat)
| ACloseUnsubscribe (id : nat)
| ACloseChannel (id : nat)
| ARunListen
| ARunFail
| ARunNotify (ev : option T)
| ARunWaitError (canceled returning : bool)
| ARunCloseAll
| ARunCancel
| ARunStop
| ARunDrain.

(** One action; one that is not enabled changes nothing, [None] is a panic. *)
Definition hub_step (a : HubAction) (h : Hub) : option Hub :=
  match a with
  | ASubscribe subject => Some (Subscribe subject h).2
  | ARecv id =>
      match h_objects h !! id with
      | Some s => Some (set_object id (s <| sub_ch := tail (sub_ch s) |>) h)
      | None => Some h
      end
  | ACloseSwap id =>
      match h_objects h !! id with
      | Some s => if sub_closed s then Some h
                  else Some (set_object id (s <| sub_closed := true |>
                                              <| sub_phase := CloseSwapped |>) h)
      | None => Some h
      end
  | ACloseUnsubscribe id =>
      match h_objects h !! id with
      | Some s =>
          match sub_phase s with
          | CloseSwapped => Some (set_object id (s <| sub_phase := CloseUnsubscribed |>)
                                    (unsubscribe id s h))
          | _ => Some h
          end
      | None => Some h
      end
  | ACloseChannel id =>
      match h_objects h !! id with
      | Some s =>
          match sub_phase s with
          | CloseUnsubscribed =>
              s' ← close_channel s; Some (set_object id (s' <| sub_phase := CloseDone |>) h)
          | _ => Some h
          end
      | None => Some h
      end
  | ARunListen =>
      match h_run h with
      | RunConnecting => Some (h <| h_state := stateRunning |> <| h_run := RunListening |>)
      | _ => Some h
      end
  | ARunFail =>
      match h_run h with
      | RunConnecting => Some (h <| h_backoff := nextBackoff (h_backoff h) |>)
      | _ => Some h
      end
  | ARunNotify ev =>
      match h_run h, ev with
      | RunListening, Some ev => dispatch ev h
      | _, _ => Some h
      end
  | ARunWaitError canceled returning =>
      match h_run h with
      | RunListening =>
          Some ((if canceled then h else h <| h_state := stateDegraded |>)
                  <| h_run := RunClosing (canceled || returning) |>)
      | _ => Some h
      end
  | ARunCloseAll =>
      match h_run h with
      | RunClosing returning =>
          h' ← closeAllSubs h;
          Some (if returning then h' <| h_run := RunStopping |>
                else h' <| h_run := RunConnecting |>
                        <| h_backoff := nextBackoff initialBackoff |>)
      | _ => Some h
      end
  | ARunCancel =>
      match h_run h with RunConnecting => Some (h <| h_run := RunStopping |>) | _ => Some h end
  | ARunStop =>
      match h_run h with
      | RunStopping => Some (h <| h_state := stateStopped |> <| h_run := RunDraining |>)
      | _ => Some h
      end
  | ARunDrain =>
      match h_run h with
      | RunDraining => h' ← closeAllSubs h; Some (h' <| h_run := RunReturned |>)
      | _ => Some h
      end
  end.

Fixpoint hub_run (acts : list HubAction) (h : Hub) : option Hub :=
  match acts with
  | [] => Some h
  | a :: acts' => h' ← hub_step a h; hub_run acts' h'
  end.
End hub.

Arguments Subscriber : clear implicits.
Arguments mkSubscriber {T}.
Arguments Hub : clear implicits.
Arguments mkHub {T}.
Arguments HubAction : clear implicits.
