(* ===== verification/StreamTheorems.v ===== *)
(** The stream hub under any interleaving of its handlers and its LISTEN loop: no panic, exact
    connection counts, bounded buffers, and nothing left open when it has stopped. *)

From S2P Require Import Prelude.
From S2P Require Import StreamHub.
#[local] Open Scope string_scope.
#[local] Open Scope Z_scope.

Section hub_facts.
Context {T : Type}.
Variable cfg : HubConfig.

(** What holds of one subscriber object, given whether it is registered. *)
Definition object_ok (registered : Prop) (s : Subscriber T) : Prop :=
  Z.of_nat (length (sub_ch s)) <= Z.max 0 (bufSize cfg)
  /\ match sub_phase s with
     | CloseIdle => if sub_closed s then sub_ch_closed s = true /\ ~ registered
                    else sub_ch_closed s = false /\ registered
     | CloseSwapped => sub_closed s = true /\ sub_ch_closed s = false
     | CloseUnsubscribed => sub_closed s = true /\ sub_ch_closed s = false /\ ~ registered
     | CloseDone => sub_closed s = true /\ sub_ch_closed s = true /\ ~ registered
     end.

(** The registered connections of one subject. *)
Definition registered_of (subject : string) (h : Hub T) : gset nat :=
  filter (fun id => sub_subject <$> h_objects h !! id = Some subject) (h_subs h).

Record hub_ok (h : Hub T) : Prop := mkHubOk {
  ok_objects : forall id s, h_objects h !! id = Some s -> object_ok (id ∈ h_subs h) s;
  ok_fresh : forall id, is_Some (h_objects h !! id) -> (id < h_next h)%nat;
  ok_subs : forall id, id ∈ h_subs h -> is_Some (h_objects h !! id);
  ok_count : forall subject,
    SubjectCount subject h = Z.of_nat (size (registered_of subject h));
  ok_cap : 0 < perSubjectMax cfg -> forall subject, SubjectCount subject h <= perSubjectMax cfg;
  ok_run : match h_run h with
           | RunDraining => h_state h = stateStopped
           | RunReturned => h_state h = stateStopped /\ h_subs h = ∅
           | _ => True
           end
}.

(** ** Loops over the registered subscribers *)

Lemma for_subs_total f (h : Hub T) :
  (forall id s, id ∈ h_subs h -> h_objects h !! id = Some s -> is_Some (f s)) ->
  exists objs, for_subs f h = Some (h <| h_objects := objs |>)
    /\ forall id, objs !! id
       = h_objects h !! id ≫= fun s => if decide (id ∈ h_subs h) then f s else Some s.
Proof.
  intros Hf. unfold for_subs. rewrite decide_True.
  - eexists. split; [done|]. intros id. apply map_lookup_imap.
  - intros id s Hs. case_decide as Hin; [|done]. destruct (Hf id s Hin Hs) as [s' ->]. done.
Qed.

(** A registered subscriber's channel is open, so neither loop panics. *)
Lemma registered_open h id s :
  hub_ok h -> id ∈ h_subs h -> h_objects h !! id = Some s -> sub_ch_closed s = false.
Proof.
  intros Hok Hin Hs. pose proof (ok_objects h Hok id s Hs) as [_ Ho].
  destruct (sub_phase s); [|tauto..]. destruct (sub_closed s); tauto.
Qed.

(** The counts depend on the objects' subjects only. *)
Lemma registered_of_same (h h' : Hub T) subject :
  h_subs h' = h_subs h ->
  (forall id, sub_subject <$> h_objects h' !! id = sub_subject <$> h_objects h !! id) ->
  registered_of subject h' = registered_of subject h.
Proof.
  intros Hs Ho. unfold registered_of. apply set_eq. intros id.
  by rewrite !elem_of_filter, Hs, Ho.
Qed.

(** Replacing objects by ones of the same subject that are in order. *)
Lemma hub_ok_objects h objs :
  hub_ok h ->
  (forall id, sub_subject <$> objs !! id = sub_subject <$> h_objects h !! id) ->
  (forall id s, objs !! id = Some s -> object_ok (id ∈ h_subs h) s) ->
  hub_ok (h <| h_objects := objs |>).
Proof.
  intros [H1 H2 H3 H4 H5 H6] Hsub Hobj.
  assert (Hdom : forall id, is_Some (objs !! id) <-> is_Some (h_objects h !! id)).
  { intros id. rewrite <- !(fmap_is_Some sub_subject). by rewrite Hsub. }
  split; simpl; [done| | | |done|done].
  - intros id Hid. by apply H2, Hdom.
  - intros id Hid. by apply Hdom, H3.
  - intros subject. etrans; [apply H4|]. do 2 f_equal. symmetry. by apply registered_of_same.
Qed.

Lemma hub_ok_set h id s s' :
  hub_ok h -> h_objects h !! id = Some s -> sub_subject s' = sub_subject s ->
  object_ok (id ∈ h_subs h) s' -> hub_ok (set_object id s' h).
Proof.
  intros Hok Hs Hsub Ho. apply hub_ok_objects; [done| |].
  - intros id'. destruct (decide (id' = id)) as [->|Hne].
    + rewrite lookup_insert_eq, Hs. simpl. by rewrite Hsub.
    + by rewrite lookup_insert_ne.
  - intros id' s''. destruct (decide (id' = id)) as [->|Hne].
    + rewrite lookup_insert_eq. by intros [= <-].
    + rewrite lookup_insert_ne by done. by apply ok_objects.
Qed.

Lemma elem_of_not_empty_size (id : nat) (X : gset nat) : id ∈ X -> (0 < size X)%nat.
Proof.
  intros Hin. destruct (size X) eqn:E; [|lia]. apply size_empty_iff in E. set_solver.
Qed.

(** Actions of [Run] that only move its program counter, the state and the backoff. *)
Lemma hub_ok_run h st r b :
  hub_ok h ->
  match r with
  | RunDraining => st = stateStopped
  | RunReturned => st = stateStopped /\ h_subs h = ∅
  | _ => True
  end ->
  hub_ok (mkHub st (h_subs h) (h_objects h) (h_next h) (h_perSubject h) r b).
Proof. intros [H1 H2 H3 H4 H5 H6] Hr. by split. Qed.

Lemma dispatch_ok h ev :
  hub_ok h -> exists h', dispatch cfg ev h = Some h' /\ hub_ok h'.
Proof.
  intros Hok. unfold dispatch.
  destruct (for_subs_total (send_one cfg ev) h) as (objs & -> & Hobjs).
  { intros id s Hin Hs. unfold send_one. rewrite (registered_open h id s) by done.
    by destruct (_ <? _). }
  eexists. split; [done|].
  assert (Hlook : forall id s, objs !! id = Some s -> exists s0, h_objects h !! id = Some s0
    /\ sub_subject s = sub_subject s0 /\ sub_phase s = sub_phase s0
    /\ sub_closed s = sub_closed s0 /\ sub_ch_closed s = sub_ch_closed s0
    /\ Z.of_nat (length (sub_ch s)) <= Z.max (Z.of_nat (length (sub_ch s0))) (bufSize cfg)).
  { intros id s. rewrite Hobjs. intros (s0 & Hs0 & Hs)%bind_Some. exists s0. split; [done|].
    case_decide as Hin; [|injection Hs as <-; split_and!; try done; lia].
    pose proof (registered_open h id s0 Hok Hin Hs0) as Hopen.
    revert Hs. unfold send_one. rewrite Hopen.
    destruct (Z.ltb_spec (Z.of_nat (length (sub_ch s0))) (bufSize cfg)); intros [= <-];
      split_and!; try done; simpl; rewrite ?length_app; simpl; lia. }
  apply hub_ok_objects; [done| |].
  - intros id. destruct (objs !! id) as [s|] eqn:E.
    + destruct (Hlook id s E) as (s0 & -> & Hsub & _). simpl. by rewrite Hsub.
    + rewrite Hobjs in E. destruct (h_objects h !! id) as [s0|] eqn:E0; [|done]. simpl in E.
      case_decide as Hin; [|done]. revert E. unfold send_one.
      rewrite (registered_open h id s0) by done. by destruct (_ <? _).
  - intros id s E. destruct (Hlook id s E) as (s0 & E0 & _ & Hp & Hc & Hcc & Hlen).
    destruct (ok_objects h Hok id s0 E0) as [Hb Ho]. split; [lia|]. by rewrite Hp, Hc, Hcc.
Qed.

Lemma closeAllSubs_ok h :
  hub_ok h -> exists h', closeAllSubs h = Some h' /\ hub_ok h' /\ h_subs h' = ∅
    /\ h_state h' = h_state h /\ h_run h' = h_run h.
Proof.
  intros Hok. unfold closeAllSubs.
  destruct (for_subs_total close_one h) as (objs & -> & Hobjs).
  { intros id s Hin Hs. unfold close_one, close_channel. simpl.
    rewrite (registered_open h id s) by done. by destruct (sub_closed s). }
  simpl. eexists. split_and!; [done| |done..]. split; simpl.
  - intros id s Hs. rewrite Hobjs in Hs. apply bind_Some in Hs as (s0 & Hs0 & Hs).
    destruct (ok_objects h Hok id s0 Hs0) as [Hb Ho]. case_decide as Hin.
    + pose proof (registered_open h id s0 Hok Hin Hs0) as Hopen.
      revert Hs. unfold close_one, close_channel. simpl. rewrite Hopen.
      destruct (sub_closed s0) eqn:Ec; intros [= <-]; (split; [done|]); simpl;
        destruct (sub_phase s0) eqn:Ep; rewrite ?Ec in *; try done;
        destruct Ho as [Ho1 Ho2]; try congruence; try done; try (destruct Ho2; congruence).
    + injection Hs as <-. split; [done|]. destruct (sub_phase s0); [|done|set_solver..].
      destruct (sub_closed s0); set_solver.
  - intros id Hid. apply (ok_fresh h Hok). rewrite Hobjs in Hid. destruct Hid as [s Hs].
    apply bind_Some in Hs as (s0 & -> & _). by eexists.
  - intros id Hid. by apply elem_of_empty in Hid.
  - intros subject. unfold SubjectCount, registered_of. simpl. rewrite lookup_empty. simpl.
    replace (filter _ ∅) with (∅ : gset nat); [by rewrite size_empty|].
    apply set_eq. intros id. rewrite elem_of_filter. set_solver.
  - intros Hcap subject. unfold SubjectCount. simpl. rewrite lookup_empty. simpl. lia.
  - pose proof (ok_run h Hok) as Hr. destruct (h_run h); try done. by destruct Hr.
Qed.

Lemma Subscribe_ok subject h : hub_ok h -> hub_ok (Subscribe cfg subject h).2.
Proof.
  intros Hok. unfold Subscribe. destruct (Running h) eqn:Er; simpl; [|done].
  apply bool_decide_eq_true in Er.
  destruct ((0 <? perSubjectMax cfg) && (perSubjectMax cfg <=? SubjectCount subject h)) eqn:Ecap;
    simpl; [done|].
  set (id := h_next h).
  assert (Hnew : h_objects h !! id = None).
  { apply eq_None_not_Some. intros Hs%(ok_fresh h Hok). unfold id in Hs. lia. }
  assert (Hnin : id ∉ h_subs h).
  { intros Hin%(ok_subs h Hok). rewrite Hnew in Hin. by destruct Hin. }
  split; simpl.
  - intros id' s. destruct (decide (id' = id)) as [->|Hne].
    + rewrite lookup_insert_eq. intros [= <-]. split; [simpl; lia|]. simpl. set_solver.
    + rewrite lookup_insert_ne by done. intros Hs.
      destruct (ok_objects h Hok id' s Hs) as [Hb Ho]. split; [done|].
      destruct (sub_phase s); [|done|set_solver..]. destruct (sub_closed s); set_solver.
  - intros id'. destruct (decide (id' = id)) as [->|Hne]; [unfold id; lia|].
    rewrite lookup_insert_ne by done. intros Hs%(ok_fresh h Hok). lia.
  - intros id' [->%elem_of_singleton|Hin]%elem_of_union.
    + rewrite lookup_insert_eq. by eexists.
    + rewrite lookup_insert_ne; [by apply ok_subs|]. by intros ->.
  - intros subj. unfold SubjectCount at 1. simpl.
    assert (Hreg : forall subj', registered_of subj' (mkHub (h_state h) ({[id]} ∪ h_subs h)
        (<[id:=mkSubscriber subject [] false false 0 CloseIdle]> (h_objects h)) (S id)
        (<[subject:=SubjectCount subject h + 1]> (h_perSubject h)) (h_run h) (h_backoff h))
      = (if decide (subj' = subject) then {[id]} else ∅) ∪ registered_of subj' h).
    { intros subj'. apply set_eq. intros id'. unfold registered_of. simpl.
      rewrite elem_of_union, !elem_of_filter, elem_of_union.
      destruct (decide (id' = id)) as [->|Hne].
      - rewrite lookup_insert_eq. simpl. case_decide; [set_solver|]. set_solver.
      - rewrite lookup_insert_ne by done. case_decide; set_solver. }
    etrans; [|by rewrite Hreg]. destruct (decide (subj = subject)) as [->|Hne].
    + rewrite lookup_insert_eq. simpl. rewrite (ok_count h Hok subject), size_union, size_singleton.
      * lia.
      * intros id' ->%elem_of_singleton. unfold registered_of. rewrite elem_of_filter. tauto.
    + rewrite lookup_insert_ne by done. rewrite union_empty_l_L. apply (ok_count h Hok).
  - intros Hcap subj. unfold SubjectCount at 1. simpl.
    destruct (decide (subj = subject)) as [->|Hne].
    + rewrite lookup_insert_eq. simpl. apply andb_false_iff in Ecap. lia.
    + rewrite lookup_insert_ne by done. by apply (ok_cap h Hok).
  - pose proof (ok_run h Hok) as Hr. destruct (h_run h); try done. destruct Hr. congruence.
Qed.

Lemma unsubscribe_ok id s h :
  hub_ok h -> h_objects h !! id = Some s -> sub_phase s = CloseSwapped ->
  hub_ok (unsubscribe id s h).
Proof.
  intros Hok Hs Hp. unfold unsubscribe. case_decide as Hin; [|done].
  set (n := SubjectCount (sub_subject s) h - 1).
  assert (Hreg : forall subj, registered_of subj (mkHub (h_state h) (h_subs h ∖ {[id]})
      (h_objects h) (h_next h) ∅ (h_run h) (h_backoff h))
    = registered_of subj h ∖ (if decide (subj = sub_subject s) then {[id]} else ∅)).
  { intros subj. apply set_eq. intros id'. unfold registered_of. simpl.
    rewrite elem_of_filter, !elem_of_difference, elem_of_filter.
    destruct (decide (id' = id)) as [->|Hne].
    - rewrite Hs. simpl. case_decide; [set_solver|]. split; [set_solver|].
      intros [[E _] _]. congruence.
    - case_decide; set_solver. }
  assert (Hmem : id ∈ registered_of (sub_subject s) h).
  { unfold registered_of. rewrite elem_of_filter, Hs. done. }
  assert (Hcount : forall subj, default 0 ((if n <=? 0 then delete (sub_subject s) (h_perSubject h)
                     else <[sub_subject s := n]> (h_perSubject h)) !! subj)
    = if decide (subj = sub_subject s) then n else SubjectCount subj h).
  { assert (0 <= n).
    { unfold n. rewrite (ok_count h Hok). apply elem_of_not_empty_size in Hmem. lia. }
    intros subj. case_decide as Hd; [subst subj|].
    - destruct (Z.leb_spec n 0); [rewrite lookup_delete_eq; simpl; lia|].
      by rewrite lookup_insert_eq.
    - destruct (n <=? 0); [by rewrite lookup_delete_ne|by rewrite lookup_insert_ne]. }
  split; simpl.
  - intros id' s' Hs'. destruct (ok_objects h Hok id' s' Hs') as [Hb Ho]. split; [done|].
    destruct (decide (id' = id)) as [->|Hne].
    + rewrite Hs in Hs'. injection Hs' as <-. by rewrite Hp in *.
    + destruct (sub_phase s'); [|done|set_solver..]. destruct (sub_closed s'); set_solver.
  - apply (ok_fresh h Hok).
  - intros id' [Hid _]%elem_of_difference. by apply (ok_subs h Hok).
  - intros subj. unfold SubjectCount at 1. simpl. etrans; [apply Hcount|].
    etrans; [|exact (f_equal (fun X => Z.of_nat (size X)) (eq_sym (Hreg subj)))]. case_decide as Hd; [subst subj|].
    + unfold n. rewrite (ok_count h Hok), size_difference, size_singleton.
      * apply elem_of_not_empty_size in Hmem. lia.
      * by apply singleton_subseteq_l.
    + rewrite difference_empty_L. apply (ok_count h Hok).
  - intros Hcap subj. unfold SubjectCount at 1. simpl. rewrite Hcount.
    case_decide; [|by apply (ok_cap h Hok)]. unfold n.
    pose proof (ok_cap h Hok Hcap (sub_subject s)). lia.
  - pose proof (ok_run h Hok) as Hr. destruct (h_run h); try done. destruct Hr as [? E].
    split; [done|]. rewrite E. set_solver.
Qed.

Lemma New_ok : hub_ok New.
Proof.
  split; simpl.
  - intros id s Hs. by rewrite lookup_empty in Hs.
  - intros id [s Hs]. by rewrite lookup_empty in Hs.
  - set_solver.
  - intros subject. unfold SubjectCount, registered_of. simpl. rewrite lookup_empty. simpl.
    replace (filter _ ∅) with (∅ : gset nat); [by rewrite size_empty|].
    apply set_eq. intros id. rewrite elem_of_filter. set_solver.
  - intros Hcap subject. unfold SubjectCount. simpl. rewrite lookup_empty. simpl. lia.
  - done.
Qed.

Lemma hub_step_ok a h : hub_ok h -> exists h', hub_step cfg a h = Some h' /\ hub_ok h'.
Proof.
  intros Hok. destruct a as [subject|id|id|id|id| | |ev|canceled returning| | | |]; simpl.
  - eexists. split; [done|]. by apply Subscribe_ok.
  - destruct (h_objects h !! id) as [s|] eqn:Es; [|by eexists]. eexists. split; [done|].
    apply (hub_ok_set h id s); [done..|]. destruct (ok_objects h Hok id s Es) as [Hb Ho].
    split; [|done]. simpl. destruct (sub_ch s); simpl in *; lia.
  - destruct (h_objects h !! id) as [s|] eqn:Es; [|by eexists].
    destruct (ok_objects h Hok id s Es) as [Hb Ho].
    destruct (sub_closed s) eqn:Ec; [by eexists|]. eexists. split; [done|].
    apply (hub_ok_set h id s); [done..|]. split; [done|]. simpl. split; [done|].
    destruct (sub_phase s); tauto || (destruct Ho; congruence).
  - destruct (h_objects h !! id) as [s|] eqn:Es; [|by eexists].
    destruct (sub_phase s) eqn:Ep; try by eexists. eexists. split; [done|].
    destruct (ok_objects h Hok id s Es) as [Hb Ho]. rewrite Ep in Ho.
    apply (hub_ok_set _ id s); [by apply unsubscribe_ok| |done|].
    + unfold unsubscribe. by case_decide.
    + split; [done|]. simpl. split_and!; [tauto..|]. unfold unsubscribe.
      case_decide; simpl; set_solver.
  - destruct (h_objects h !! id) as [s|] eqn:Es; [|by eexists].
    destruct (sub_phase s) eqn:Ep; try by eexists.
    destruct (ok_objects h Hok id s Es) as [Hb Ho]. rewrite Ep in Ho.
    destruct Ho as (Hc & Hcc & Hnr). unfold close_channel. rewrite Hcc. simpl. eexists.
    split; [done|]. apply (hub_ok_set h id s); [done..|]. by split.
  - destruct (h_run h) eqn:Er; try by eexists. eexists. split; [done|]. by apply (hub_ok_run h).
  - destruct (h_run h) eqn:Er; try by eexists. eexists. split; [done|].
    pose proof (ok_run h Hok) as Hr. by apply (hub_ok_run h).
  - destruct (h_run h) eqn:Er; try by eexists. destruct ev; [by apply dispatch_ok|by eexists].
  - destruct (h_run h) eqn:Er; try by eexists. eexists. split; [done|].
    destruct canceled; by apply (hub_ok_run h).
  - destruct (h_run h) as [| |returning| | |] eqn:Er; try by eexists.
    destruct (closeAllSubs_ok h Hok) as (h' & -> & Hok' & _). simpl. eexists. split; [done|].
    destruct returning; by apply (hub_ok_run h').
  - destruct (h_run h) eqn:Er; try by eexists. eexists. split; [done|]. by apply (hub_ok_run h).
  - destruct (h_run h) eqn:Er; try by eexists. eexists. split; [done|]. by apply (hub_ok_run h).
  - destruct (h_run h) eqn:Er; try by eexists.
    destruct (closeAllSubs_ok h Hok) as (h' & -> & Hok' & He & Hst & _). simpl. eexists.
    split; [done|]. pose proof (ok_run h Hok) as Hr. rewrite Er in Hr.
    apply (hub_ok_run h'); [done|]. by rewrite Hst.
Qed.

Lemma hub_run_ok acts h : hub_ok h -> exists h', hub_run cfg acts h = Some h' /\ hub_ok h'.
Proof.
  revert h. induction acts as [|a acts IH]; intros h Hok; simpl; [by eexists|].
  destruct (hub_step_ok a h Hok) as (h1 & -> & Hok1). by apply IH.
Qed.
End hub_facts.

(** C21. The stream hub under any interleaving of its handlers, its LISTEN loop and shutdown:
    no action panics (no send on a closed channel, no second close); the connections
    counted for a subject are exactly its registered subscribers and never more than the
    configured cap; no channel holds more than its buffer; a registered subscriber's
    channel is open; and once Run has returned nothing is registered, Subscribe is refused,
    and every subscriber's channel is closed or about to be by its own Close. *)
Theorem hub_safe {T} clientBuf perSub (acts : list (HubAction T)) :
  let cfg := NewConfig clientBuf perSub in
  exists h, hub_run cfg acts New = Some h
    /\ (forall subject, SubjectCount subject h = Z.of_nat (size (registered_of subject h)))
    /\ (0 < perSubjectMax cfg -> forall subject, SubjectCount subject h <= perSubjectMax cfg)
    /\ (forall id s, h_objects h !! id = Some s ->
          Z.of_nat (length (sub_ch s)) <= bufSize cfg
          /\ (id ∈ h_subs h -> sub_ch_closed s = false))
    /\ (h_run h = RunReturned ->
          h_subs h = ∅ /\ (forall subject, (Subscribe cfg subject h).1 = ErrHubNotRunning)
          /\ forall id s, h_objects h !! id = Some s ->
               sub_ch_closed s = true \/ sub_phase s = CloseSwapped
               \/ sub_phase s = CloseUnsubscribed).
Proof.
  intros cfg. destruct (hub_run_ok cfg acts New (New_ok cfg)) as (h & Hrun & Hok).
  assert (Hbuf : 0 < bufSize cfg).
  { unfold cfg, NewConfig. simpl. destruct (Z.leb_spec clientBuf 0); [done|lia]. }
  exists h. split; [done|]. split_and!.
  - apply (ok_count cfg h Hok).
  - apply (ok_cap cfg h Hok).
  - intros id s Hs. destruct (ok_objects cfg h Hok id s Hs) as [Hb _]. split; [lia|].
    intros Hin. by apply (registered_open cfg h id s).
  - intros Hr. pose proof (ok_run cfg h Hok) as Hst. rewrite Hr in Hst.
    destruct Hst as [Hst He]. split_and!; [done| |].
    + intros subject. unfold Subscribe, Running. by rewrite Hst.
    + intros id s Hs. destruct (ok_objects cfg h Hok id s Hs) as [_ Ho].
      destruct (sub_phase s); [|tauto..]. destruct (sub_closed s); [tauto|set_solver].
Qed.
