(* ===== verification/Sync.v ===== *)
(** internal/indexer/indexer.go: catch-up sync, the subscription session and the main loop
    that alternates them, against an interface of the store that processes momentums.

    The loops read the node through a [Feed]: the answer of the n-th exchange. Each
    exchange, cancellation check and clock reading takes the next number, so any
    interleaving of answers, failures and cancellations is a feed. *)

From S2P Require Import Prelude.
From S2P Require Import Models.
From S2P Require Import Chain.
From S2P Require Import Retry.
#[local] Open Scope string_scope.
#[local] Open Scope Z_scope.

(** ** The store *)

(** What the loops need of the rest of the indexer: the latest height, the processing of
    one momentum, and the refreshes of cached data. *)
Class MomentumStore (S : Type) : Type := {
  store_latest : S -> Z;
  store_has : S -> Z -> Prop;
  store_process : ChainMomentum -> S -> option error * S;
  store_prime : nat -> S -> result unit * S;
  store_refresh : nat -> S -> S;
  store_ok : S -> Prop
}.

(** Its promises: processing is all or nothing, stores its momentum and nothing else, and
    refreshes leave the momentums alone. *)
Class MomentumStoreLaws (S : Type) `{MomentumStore S} : Prop := {
  store_latest_ok : forall s, store_ok s ->
    0 <= store_latest s <= max_int64
    /\ forall h, store_has s h -> 0 <= h <= store_latest s;
  store_latest_has : forall s, store_ok s -> 0 < store_latest s -> store_has s (store_latest s);
  store_process_ok : forall m s s', store_ok s -> 0 <= cm_Height m ->
    store_process m s = (None, s') ->
    store_ok s' /\ store_latest s' = Z.max (store_latest s) (cm_Height m)
    /\ forall h, store_has s' h <-> h = cm_Height m \/ store_has s h;
  store_process_err : forall m s e s', store_process m s = (Some e, s') -> s' = s;
  store_prime_ok : forall n s, store_ok s ->
    let s' := (store_prime n s).2 in
    store_ok s' /\ store_latest s' = store_latest s
    /\ forall h, store_has s' h <-> store_has s h;
  store_refresh_ok : forall n s, store_ok s ->
    store_ok (store_refresh n s) /\ store_latest (store_refresh n s) = store_latest s
    /\ forall h, store_has (store_refresh n s) h <-> store_has s h
}.

(** ** The node *)

Record Feed : Type := mkFeed {
  fd_latest_err : nat -> option error;
  fd_frontier : nat -> result Z;
  fd_momentums : nat -> Z -> Z -> result (list ChainMomentum);
  fd_canceled : nat -> bool;
  fd_clock : nat -> Z
}.

Section loops.
Context {S : Type} `{MomentumStore S}.
Variable feed : Feed.

Record SyncSt : Type := mkSyncSt {
  sy_store : S;
  sy_n : nat;
  sy_progress : Z
}.

Definition with_store (s : S) (st : SyncSt) : SyncSt :=
  mkSyncSt s (Datatypes.S (sy_n st)) (sy_progress st).
Definition step (st : SyncSt) : SyncSt := with_store (sy_store st) st.
Definition record_progress (st : SyncSt) : SyncSt :=
  mkSyncSt (sy_store st) (Datatypes.S (sy_n st)) (fd_clock feed (sy_n st)).

(** The context of a retried call, from the exchange it starts at. *)
Definition retry_ctx (st : SyncSt) : Ctx :=
  mkCtx (fun k => fd_canceled feed (sy_n st + 2 * k))
    (fun k => fd_canceled feed (sy_n st + 2 * k + 1)).

Definition retried {A} (label : string) (call : SyncSt -> result A) (st : SyncSt)
  : result A * SyncSt :=
  let run := withRetry (retry_ctx st) label (fun st => (call st, step st)) st in
  (run_result run, run_state run).

Definition get_latest (st : SyncSt) : result Z :=
  match fd_latest_err feed (sy_n st) with
  | Some e => Err e
  | None => Ok (store_latest (sy_store st))
  end.

Definition batchSize : Z := 100.

(** The inner loop over one page of momentums. *)
Fixpoint process_list (ms : list ChainMomentum) (st : SyncSt) : result unit * SyncSt :=
  match ms with
  | [] => (Ok tt, st)
  | m :: ms' =>
      if fd_canceled feed (sy_n st) then (Err ECanceled, st)
      else
        match store_process m (sy_store st) with
        | (Some e, s') =>
            (Err (EWrap ("failed to process momentum " +:+ format_int (cm_Height m)) e),
             with_store s' st)
        | (None, s') => process_list ms' (record_progress (with_store s' st))
        end
  end.

(** One iteration of the catch-up loop: [Some] ends it. *)
Definition sync_step (st : SyncSt) : option (result unit) * SyncSt :=
  if fd_canceled feed (sy_n st) then (Some (Err ECanceled), st)
  else
    let '(dbh, st1) := retried "GetLatestHeight" get_latest (step st) in
    match dbh with
    | Err e => (Some (Err (EWrap "failed to get latest height" e)), st1)
    | Ok dbHeight =>
        let '(fr, st2) := retried "GetFrontierMomentum" (fun st => fd_frontier feed (sy_n st)) st1 in
        match fr with
        | Err e => (Some (Err (EWrap "failed to get frontier momentum" e)), st2)
        | Ok frontierHeight =>
            if frontierHeight <=? dbHeight then (Some (Ok tt), st2)
            else
              let startHeight := if dbHeight =? 0 then 1 else uint64 (dbHeight + 1) in
              let '(page, st3) :=
                retried "GetMomentumsByHeight"
                  (fun st => fd_momentums feed (sy_n st) startHeight batchSize) st2 in
              match page with
              | Err e =>
                  (Some (Err (EWrap ("failed to get momentums at height "
                                     +:+ format_int startHeight) e)), st3)
              | Ok [] => (None, st3)
              | Ok ms =>
                  match process_list ms st3 with
                  | (Err e, st4) => (Some (Err e), st4)
                  | (Ok _, st4) =>
                      (None, if startHeight mod 1000 =? 0
                             then with_store (store_refresh (sy_n st4) (sy_store st4)) st4
                             else st4)
                  end
              end
        end
    end.

(** The loop, for at most [fuel] iterations; [None] when they were not enough. *)
Fixpoint catch_up (fuel : nat) (st : SyncSt) : option (result unit) * SyncSt :=
  match fuel with
  | O => (None, st)
  | Datatypes.S fuel' =>
      match sync_step st with
      | (Some res, st') => (Some res, st')
      | (None, st') => catch_up fuel' st'
      end
  end.

(** [sync]: the pillar cache is primed first, and catch-up does not begin without it. *)
Definition prime (st : SyncSt) : result unit * SyncSt :=
  let run := withRetry (retry_ctx st) "prime pillar cache"
               (fun st => let '(r, s') := store_prime (sy_n st) (sy_store st) in
                          (r, with_store s' st)) st in
  (wrap_err "prime pillar cache before catch-up" (run_result run), run_state run).

Definition sync (fuel : nat) (st : SyncSt) : option (result unit) * SyncSt :=
  match prime st with
  | (Err e, st1) => (Some (Err e), st1)
  | (Ok _, st1) => catch_up fuel st1
  end.

(** ** The subscription session *)

(** What the session's select observes, in order. *)
Inductive SubEvent : Type :=
| EvDone
| EvRestart
| EvClosed
| EvMomentums (heights : list Z).

(** The momentums of one notification: a failure is logged and the loop goes on. *)
Fixpoint on_momentums (heights : list Z) (st : SyncSt) : SyncSt :=
  match heights with
  | [] => st
  | h :: hs =>
      let st1 := step st in
      match fd_momentums feed (sy_n st) h 1 with
      | Ok (m :: _) =>
          match store_process m (sy_store st1) with
          | (Some _, s') => on_momentums hs (with_store s' st1)
          | (None, s') => on_momentums hs (record_progress (with_store s' st1))
          end
      | _ => on_momentums hs st1
      end
  end.

(** The session's loop ends at the first event that is not a notification; [None] while the
    events given are not enough to end it. *)
Fixpoint session_loop (events : list SubEvent) (st : SyncSt) : option (result unit) * SyncSt :=
  match events with
  | [] => (None, st)
  | EvDone :: _ => (Some (Err ECanceled), st)
  | EvRestart :: _ => (Some (Ok tt), st)
  | EvClosed :: _ => (Some (Err (EMsg "momentum subscription channel closed")), st)
  | EvMomentums hs :: rest => session_loop rest (on_momentums hs st)
  end.

(** What one session meets: whether subscribing fails, and the events after it. A restart
    signal pending before the subscription is drained, so it is none of them. *)
Record Session : Type := mkSession {
  ss_subscribe : option error;
  ss_events : list SubEvent
}.

Definition runSubscriptionSession (ss : Session) (st : SyncSt)
  : option (result unit) * SyncSt :=
  match ss_subscribe ss with
  | Some e => (Some (Err (EWrap "failed to subscribe to momentums" e)), step st)
  | None => session_loop (ss_events ss) (step st)
  end.

(** ** The indexer's main loop

    One element of [sessions] per iteration; [None] when they, a session's events or [fuel]
    ran out. A session's error is logged; a failed catch-up waits before the next one. *)
Fixpoint runSubscriptionLoop (fuel : nat) (sessions : list Session) (st : SyncSt)
  : option (result unit) * SyncSt :=
  match sessions with
  | [] => (None, st)
  | ss :: sessions' =>
      if fd_canceled feed (sy_n st) then (Some (Err ECanceled), st)
      else
        match runSubscriptionSession ss (step st) with
        | (None, st1) => (None, st1)
        | (Some _, st1) =>
            if fd_canceled feed (sy_n st1) then (Some (Err ECanceled), st1)
            else
              match sync fuel (step st1) with
              | (None, st2) => (None, st2)
              | (Some (Ok _), st2) => runSubscriptionLoop fuel sessions' st2
              | (Some (Err _), st2) =>
                  if fd_canceled feed (sy_n st2) then (Some (Err ECanceled), st2)
                  else runSubscriptionLoop fuel sessions' (step st2)
              end
        end
  end.

(** [Run], less the background loops it starts and stops, which share only the tables the
    store's refreshes write. *)
Definition Run (fuel : nat) (sessions : list Session) (st : SyncSt)
  : option (result unit) * SyncSt :=
  match sync fuel (record_progress st) with
  | (None, st1) => (None, st1)
  | (Some (Err e), st1) => (Some (Err (EWrap "initial sync failed" e)), st1)
  | (Some (Ok _), st1) => runSubscriptionLoop fuel sessions st1
  end.
End loops.
Arguments SyncSt : clear implicits.
Arguments mkSyncSt {S}.
Arguments sy_store {S}.
Arguments sy_n {S}.
Arguments sy_progress {S}.
