(* ===== verification/Indexer.v ===== *)
(** The indexer behind the loops of Sync.v: [processMomentum] and the cache refreshes as a
    [MomentumStore], with the proof of the interface's laws; and the backfill. *)

From S2P Require Import Prelude.
From S2P Require Import Models.
From S2P Require Import Chain.
From S2P Require Import RepoLedger.
From S2P Require Import Database.
From S2P Require Import Embedded.
From S2P Require Import Processor.
From S2P Require Import ProcessorShape.
From S2P Require Import LedgerFacts.
From S2P Require Import LedgerProps.
From S2P Require Import CachedData.
From S2P Require Import Retry.
From S2P Require Import Sync.
#[local] Open Scope string_scope.
#[local] Open Scope Z_scope.

(** What an indexer is connected to. The failures of the pool may differ from momentum to
    momentum, and the node's answers about cached data from refresh to refresh. *)
Record World : Type := mkWorld {
  wd_sdk : Sdk;
  wd_ledger : LedgerApi;
  wd_query_err : string -> option error;
  wd_faults : ChainMomentum -> PoolFaults;
  wd_webhooks : bool;
  wd_cache : nat -> CacheApi;
  wd_write_faults : nat -> nat -> nat -> option error;
  wd_clock : nat -> Z;
  wd_page_fuel : nat
}.

Section indexer.
Variable wd : World.

Definition env_of (s : IndexerSt) (m : ChainMomentum) : Env :=
  mkEnv (wd_sdk wd) (ix_pillarNameToOwner s)
    (mkPool (ix_db s) (wd_query_err wd) (wd_faults wd m)) (wd_ledger wd) (wd_webhooks wd).

Definition process (m : ChainMomentum) (s : IndexerSt) : option error * IndexerSt :=
  let out := processMomentum (env_of s m) m in (out_err out, s <| ix_db := out_db out |>).

(** The writes of the n-th refresh. No other session's commits come between them here;
    Loops.v has them. *)
Definition write_calls (n i k : nat) : Call := alone (wd_write_faults wd n i k).

(** A refresh whose paging does not end in [wd_page_fuel] pages counts as not done. *)
Definition refresh (n : nat) (s : IndexerSt) : IndexerSt :=
  match updateCachedData (wd_sdk wd) (wd_cache wd n) (write_calls n) (wd_clock wd n)
          (wd_page_fuel wd) s with
  | Some (_, s') => s'
  | None => s
  end.

#[local] Instance indexer_store : MomentumStore IndexerSt := {|
  store_latest s := MomentumRepository.GetLatestHeight (db_momentums (ix_db s));
  store_has s h := is_Some (db_momentums (ix_db s) !! h);
  store_process := process;
  store_prime n s := updatePillarCache (wd_cache wd n) (write_calls n 0%nat) s;
  store_refresh := refresh;
  store_ok s := heights_ok (db_momentums (ix_db s))
|}.

Lemma latest_bounds t :
  heights_ok t ->
  0 <= MomentumRepository.GetLatestHeight t <= max_int64
  /\ forall h, is_Some (t !! h) -> 0 <= h <= MomentumRepository.GetLatestHeight t.
Proof.
  intros Hok. destruct (decide (t = ∅)) as [->|Hne].
  - change (MomentumRepository.GetLatestHeight ∅) with 0. split; [done|].
    intros h [r Hr]. by rewrite lookup_empty in Hr.
  - destruct (GetLatestHeight_spec t Hok Hne) as [Hin Hmax]. split; [by apply Hok|].
    intros h Hh. split; [by apply Hok|by apply Hmax].
Qed.

Lemma refresh_momentums n s : db_momentums (ix_db (refresh n s)) = db_momentums (ix_db s).
Proof.
  unfold refresh. destruct (updateCachedData _ _ _ _ _ _) as [[r s']|] eqn:E; [|done].
  eapply updateCachedData_momentums; [|exact E]. by intros i k d.
Qed.

#[local] Instance indexer_store_laws : MomentumStoreLaws IndexerSt.
Proof.
  split; simpl.
  - intros s Hok. by apply latest_bounds.
  - intros s Hok Hpos. apply GetLatestHeight_spec; [exact Hok|]. intros E. rewrite E in Hpos.
    by vm_compute in Hpos.
  - intros m s s' Hok Hh [= He <-]. simpl.
    pose proof (momentum_height_in_range _ _ He) as Hr%in_int64_spec.
    rewrite (momentum_momentums _ _ He). split_and!.
    + intros h [->|Hin]%insert_nothing_is_Some; [lia|by apply Hok].
    + apply GetLatestHeight_insert; [exact Hok|lia].
    + intros h. apply insert_nothing_is_Some.
  - intros m s e s' [= He <-]. rewrite (processMomentum_Err _ _ _ He). by destruct s.
  - intros n s Hok. by rewrite updatePillarCache_momentums.
  - intros n s Hok. by rewrite refresh_momentums.
Qed.
End indexer.

(** ** Backfill *)

(** The heights of [1 .. MAX(height)] with no row, and the momentums with fewer stored
    blocks than their [tx_count], in ascending order without repeats. *)
Definition blocks_at (h : Z) (db : Db) : Z :=
  map_sum (fun _ b => if Z.eqb (ab_MomentumHeight b) h then 1 else 0) (db_account_blocks db).

Definition incomplete (db : Db) (mo : Momentum) : bool :=
  (0 <? mom_TxCount mo) && (blocks_at (mom_Height mo) db <? mom_TxCount mo).

Definition missing_heights (db : Db) : list Z :=
  match MomentumRepository.max_height (db_momentums db) with
  | None => []
  | Some top =>
      List.filter (fun h => match db_momentums db !! h with None => true | Some _ => false end)
        (seqZ 1 top)
  end.

Definition incomplete_heights (db : Db) : list Z :=
  map mom_Height (List.filter (incomplete db) (map_to_list (db_momentums db)).*2).

Definition backfill_heights (db : Db) : list Z :=
  merge_sort Z.le (remove_dups (missing_heights db ++ incomplete_heights db)).

(** [backfillMomentumDirect]: the momentum's row alone; a failure is logged. *)
Definition direct_row (m : ChainMomentum) : Momentum :=
  mkMomentum (cm_Height m) (cm_Hash m) (m_ts m) (Z.of_nat (length (cm_Content m)))
    (cm_Producer m) "" "".

Definition backfillMomentumDirect (fault : option error) (m : ChainMomentum) (db : Db) : Db :=
  match fault with
  | Some _ => db
  | None => match on_table db_momentums (MomentumRepository.Insert (direct_row m)) db with
            | Ok db' => db'
            | Err _ => db
            end
  end.

(** The loop over the heights found, and [Backfill]. [fetch h] is the node's answer to
    [GetMomentumsByHeight(h, 1)], [direct h] the failure of the fallback insert. *)
Section backfill.
Variables (wd : World) (fetch : Z -> result (list ChainMomentum))
  (direct : Z -> option error) (canceled : Z -> bool).

Fixpoint backfill_loop (heights : list Z) (s : IndexerSt) : result unit * IndexerSt :=
  match heights with
  | [] => (Ok tt, s)
  | h :: hs =>
      if canceled h then (Err ECanceled, s)
      else
        match fetch h with
        | Ok (m :: _) =>
            match process wd m s with
            | (None, s') => backfill_loop hs s'
            | (Some _, s') =>
                backfill_loop hs
                  (s' <| ix_db := backfillMomentumDirect (direct h) m (ix_db s') |>)
            end
        | _ => backfill_loop hs s
        end
  end.

Definition Backfill (query : option error) (s : IndexerSt) : result unit * IndexerSt :=
  match query with
  | Some e => (Err (EWrap "failed to query missing momentums" e), s)
  | None => backfill_loop (backfill_heights (ix_db s)) s
  end.
End backfill.
