(* ===== verification/SyncTheorems.v ===== *)
(** What catch-up sync guarantees, proved against the store interface: no gaps and
    termination; and what the main loop around it guarantees and does not. The theorems
    are instantiated with the indexer of Indexer.v in the witnesses. *)

From S2P Require Import Prelude.
From S2P Require Import Models.
From S2P Require Import Chain.
From S2P Require Import RepoLedger.
From S2P Require Import Database.
From S2P Require Import Embedded.
From S2P Require Import Processor.
From S2P Require Import LedgerFacts.
From S2P Require Import CachedData.
From S2P Require Import Retry.
From S2P Require Import Sync.
From S2P Require Import Indexer.
From S2P Require Import Samples.
#[local] Open Scope string_scope.
#[local] Open Scope Z_scope.

(** A page answers the heights asked for, one after the other: the node's documented
    contract for [GetMomentumsByHeight]. *)
Definition contiguous_from (start : Z) (ms : list ChainMomentum) : Prop :=
  forall i m, ms !! i = Some m -> cm_Height m = start + Z.of_nat i.

Definition contiguous_feed (feed : Feed) : Prop :=
  forall n start size ms, fd_momentums feed n start size = Ok ms -> contiguous_from start ms.

Section sync_facts.
Context {S : Type} `{HS : MomentumStore S} `{HL : !MomentumStoreLaws S}.
Variable feed : Feed.

(** *** Retried reads *)

Lemma retry_loop_store {A} ctx label (call : SyncSt S -> result A) left attempt d st w :
  let run := retry_loop ctx label defaultRetry (fun st => (call st, step st)) left attempt d
               st w in
  sy_store (run_state run) = sy_store st
  /\ forall a, run_result run = Ok a ->
       exists st', sy_store st' = sy_store st /\ call st' = Ok a.
Proof.
  revert attempt d st w.
  induction left as [|left IH]; intros attempt d st w; cbv zeta; simpl;
    (destruct (ctx_err ctx attempt); [by split|]);
    destruct (call st) as [a|e] eqn:E; try (split; [done|]; intros a' [= <-]; by eexists);
    try (by split).
  destruct (ctx_done ctx attempt); [by split|].
  destruct (IH (Datatypes.S attempt) (next_delay defaultRetry d) (step st) (w ++ [d])%list)
    as [H1 H2]. split; [exact H1|]. intros a Ha. destruct (H2 a Ha) as (st' & Hst & Hc).
  by exists st'.
Qed.

Lemma retried_spec {A} label (call : SyncSt S -> result A) st res st' :
  retried feed label call st = (res, st') ->
  sy_store st' = sy_store st
  /\ forall a, res = Ok a -> exists st0, sy_store st0 = sy_store st /\ call st0 = Ok a.
Proof.
  unfold retried. intros Heq. apply pair_eq in Heq as [<- <-].
  exact (retry_loop_store (retry_ctx feed st) label call _ _ _ st []).
Qed.

(** *** Pages *)

Definition below_stored (st : SyncSt S) : Prop :=
  forall h, 1 <= h <= store_latest (sy_store st) -> store_has (sy_store st) h.

(** What one part of the loop preserves: the store's invariant, a latest height that only
    grows, stored heights that stay, and nothing new below the latest height. *)
Record advances (s s' : S) : Prop := mkAdvances {
  adv_ok : store_ok s';
  adv_latest : store_latest s <= store_latest s';
  adv_keep : forall h, store_has s h -> store_has s' h;
  adv_new : forall h, store_has s' h -> store_has s h \/ store_latest s < h;
  adv_full : (forall h, 1 <= h <= store_latest s -> store_has s h) ->
             forall h, 1 <= h <= store_latest s' -> store_has s' h
}.

Lemma advances_refl s : store_ok s -> advances s s.
Proof. intros Hok. split; auto; lia. Qed.

Lemma advances_trans s1 s2 s3 : advances s1 s2 -> advances s2 s3 -> advances s1 s3.
Proof.
  intros [A1 A2 A3 A4 A5] [B1 B2 B3 B4 B5]. split; auto; [lia|].
  intros h [Hh|Hh]%B4; [by apply A4|right; lia].
Qed.

(** A change of cached data only. *)
Lemma advances_same s s' :
  store_ok s' -> store_latest s' = store_latest s ->
  (forall h, store_has s' h <-> store_has s h) -> advances s s'.
Proof.
  intros Hok Hl Hh. split; [done|lia|by intros h ?%Hh|intros h ?%Hh; by left|].
  intros Hf h Hr. apply Hh, Hf. lia.
Qed.

Lemma process_advances m s r s' :
  store_ok s -> 0 <= store_latest s -> cm_Height m = store_latest s + 1 ->
  store_process m s = (r, s') -> advances s s' /\ (r = None -> store_latest s' = cm_Height m).
Proof.
  intros Hok H0 Hm Hp. destruct r as [e|].
  - apply store_process_err in Hp as ->. split; [by apply advances_refl|done].
  - destruct (store_process_ok m s s' Hok ltac:(lia) Hp) as (Hok' & Hl & Hh).
    split; [|intros _; lia]. split; [done|lia| | |].
    + intros h ?. apply Hh. by right.
    + intros h [->|?]%Hh; [right; lia|by left].
    + intros Hf h Hr. apply Hh. destruct (decide (h = cm_Height m)); [by left|right].
      apply Hf. lia.
Qed.

Lemma process_list_advances ms st res st' :
  store_ok (sy_store st) ->
  contiguous_from (store_latest (sy_store st) + 1) ms ->
  process_list feed ms st = (res, st') ->
  advances (sy_store st) (sy_store st')
  /\ (res = Ok tt ->
      store_latest (sy_store st') = store_latest (sy_store st) + Z.of_nat (length ms)).
Proof.
  revert st. induction ms as [|m ms IH]; intros st Hok Hc; simpl.
  - intros [= <- <-]. split; [by apply advances_refl|lia].
  - destruct (fd_canceled feed (sy_n st)).
    { intros [= <- <-]. split; [by apply advances_refl|done]. }
    pose proof (Hc 0%nat m eq_refl) as Hm. rewrite Z.add_0_r in Hm.
    destruct (store_latest_ok _ Hok) as [[H0 _] _].
    destruct (store_process m (sy_store st)) as [[e|] s'] eqn:Ep;
      destruct (process_advances _ _ _ _ Hok H0 Hm Ep) as [Ha Hl].
    { intros [= <- <-]. by split. }
    intros Hx. destruct (IH (record_progress feed (with_store s' st))) as [Hb Hl2]; simpl.
    + apply Ha.
    + intros i m' Hi. rewrite (Hl eq_refl), Hm.
      specialize (Hc (Datatypes.S i) m' Hi). lia.
    + exact Hx.
    + simpl in Hb, Hl2. split; [by eapply advances_trans|]. intros Hr.
      rewrite (Hl2 Hr), (Hl eq_refl). lia.
Qed.

Lemma start_height d : 0 <= d <= max_int64 ->
  (if d =? 0 then 1 else uint64 (d + 1)) = d + 1.
Proof.
  intros Hd. unfold max_int64 in Hd. destruct (Z.eqb_spec d 0) as [->|Hne]; [done|].
  apply Z.mod_small. lia.
Qed.

Lemma sync_step_advances st res st' :
  contiguous_feed feed -> store_ok (sy_store st) -> sync_step feed st = (res, st') ->
  advances (sy_store st) (sy_store st')
  /\ (res = Some (Ok tt) ->
      exists n f, fd_frontier feed n = Ok f /\ f <= store_latest (sy_store st')).
Proof.
  intros Hfeed Hok. unfold sync_step. pose proof (advances_refl _ Hok) as Hrefl.
  destruct (fd_canceled feed (sy_n st)); [intros [= <- <-]; by split|].
  destruct (retried feed "GetLatestHeight" (get_latest feed) (step st)) as [dbh st1] eqn:E1.
  destruct (retried_spec _ _ _ _ _ E1) as [S1 V1]. simpl in S1.
  destruct dbh as [dbHeight|e]; [|intros [= <- <-]; rewrite S1; by split].
  destruct (V1 _ eq_refl) as (st0 & Hst0 & Hd). unfold get_latest in Hd.
  destruct (fd_latest_err feed (sy_n st0)); [done|]. injection Hd as Hd.
  simpl in Hst0. rewrite Hst0 in Hd.
  destruct (retried feed "GetFrontierMomentum" _ st1) as [fr st2] eqn:E2.
  destruct (retried_spec _ _ _ _ _ E2) as [S2 V2]. rewrite S1 in S2.
  destruct fr as [frontier|e]; [|intros [= <- <-]; rewrite S2; by split].
  destruct (V2 _ eq_refl) as (st02 & _ & Hf).
  destruct (Z.leb_spec frontier dbHeight) as [Hle|Hgt].
  { intros [= <- <-]. rewrite S2. split; [done|]. intros _.
    exists (sy_n st02), frontier. split; [exact Hf|lia]. }
  destruct (store_latest_ok _ Hok) as [Hb _].
  rewrite start_height by lia.
  destruct (retried feed "GetMomentumsByHeight" _ st2) as [page st3] eqn:E3.
  destruct (retried_spec _ _ _ _ _ E3) as [S3 V3]. rewrite S2 in S3.
  destruct page as [ms|e]; [|intros [= <- <-]; rewrite S3; by split].
  destruct (V3 _ eq_refl) as (st03 & _ & Hms).
  apply Hfeed in Hms.
  destruct ms as [|m ms]; [intros [= <- <-]; rewrite S3; by split|].
  destruct (process_list feed (m :: ms) st3) as [r st4] eqn:Ep.
  destruct (process_list_advances (m :: ms) st3 r st4) as [Ha _];
    [by rewrite S3|rewrite S3, Hd; exact Hms|exact Ep|].
  rewrite S3 in Ha. destruct r as [u|e]; [|intros [= <- <-]; by split].
  intros [= <- <-]. split; [|done].
  destruct (_ =? 0); [|exact Ha]. simpl. eapply advances_trans; [exact Ha|].
  destruct (store_refresh_ok (sy_n st4) (sy_store st4) (adv_ok _ _ Ha)) as (H1 & H2 & H3).
  by apply advances_same.
Qed.

Lemma catch_up_advances fuel st res st' :
  contiguous_feed feed -> store_ok (sy_store st) -> catch_up feed fuel st = (res, st') ->
  advances (sy_store st) (sy_store st')
  /\ (res = Some (Ok tt) ->
      exists n f, fd_frontier feed n = Ok f /\ f <= store_latest (sy_store st')).
Proof.
  intros Hfeed. revert st. induction fuel as [|fuel IH]; intros st Hok; simpl.
  - intros [= <- <-]. split; [by apply advances_refl|done].
  - destruct (sync_step feed st) as [[r|] st1] eqn:E;
      destruct (sync_step_advances _ _ _ Hfeed Hok E) as [Ha Hr].
    + intros [= <- <-]. by split.
    + intros Hx. destruct (IH st1 (adv_ok _ _ Ha) Hx) as [Hb Hr2].
      split; [by eapply advances_trans|done].
Qed.

Lemma prime_advances st res st' :
  store_ok (sy_store st) -> prime feed st = (res, st') ->
  advances (sy_store st) (sy_store st').
Proof.
  intros Hok. unfold prime. intros Heq. apply pair_eq in Heq as [_ <-].
  assert (Hgen : forall left attempt d st0 w, store_ok (sy_store st0) ->
    advances (sy_store st0) (sy_store (run_state
      (retry_loop (retry_ctx feed st) "prime pillar cache" defaultRetry
         (fun st => let '(r, s') := store_prime (sy_n st) (sy_store st) in
                    (r, with_store s' st)) left attempt d st0 w)))).
  { induction left as [|left IH]; intros attempt d st0 w Hok0; cbn [retry_loop];
      (destruct (ctx_err (retry_ctx feed st) attempt); [by apply advances_refl|]);
      destruct (store_prime_ok (sy_n st0) (sy_store st0) Hok0) as (H1 & H2 & H3);
      destruct (store_prime (sy_n st0) (sy_store st0)) as [[u|e] s'] eqn:Ep; simpl in H1, H2, H3;
      pose proof (advances_same (sy_store st0) s' H1 H2 H3) as Hs; try exact Hs.
    destruct (ctx_done (retry_ctx feed st) attempt); [exact Hs|].
    eapply advances_trans; [exact Hs|].
    apply (IH _ _ (with_store s' st0)). exact H1. }
  unfold withRetry, withRetryConfig. by apply Hgen.
Qed.

Lemma sync_advances fuel st res st' :
  contiguous_feed feed -> store_ok (sy_store st) -> sync feed fuel st = (res, st') ->
  advances (sy_store st) (sy_store st')
  /\ (res = Some (Ok tt) ->
      exists n f, fd_frontier feed n = Ok f /\ f <= store_latest (sy_store st')).
Proof.
  intros Hfeed Hok. unfold sync. destruct (prime feed st) as [[u|e] st1] eqn:Ep;
    pose proof (prime_advances _ _ _ Hok Ep) as Ha.
  - intros Hx. destruct (catch_up_advances _ _ _ _ Hfeed (adv_ok _ _ Ha) Hx) as [Hb Hr].
    split; [by eapply advances_trans|done].
  - intros [= <- <-]. by split.
Qed.

(** *** The main loop *)

(** The heights a node announces to the sessions. *)
Definition announced_by (ev : SubEvent) : list Z :=
  match ev with EvMomentums hs => hs | _ => [] end.
Definition announced (sessions : list Session) : list Z :=
  flat_map (fun ss => flat_map announced_by (ss_events ss)) sessions.

(** As [advances], but an announced height can be stored below the latest one. *)
Record grows (hs : list Z) (s s' : S) : Prop := mkGrows {
  gr_ok : store_ok s';
  gr_latest : store_latest s <= store_latest s';
  gr_keep : forall h, store_has s h -> store_has s' h;
  gr_new : forall h, store_has s' h -> store_has s h \/ store_latest s < h \/ h ∈ hs
}.

Lemma grows_refl hs s : store_ok s -> grows hs s s.
Proof. intros Hok. split; auto; lia. Qed.

Lemma grows_trans hs1 hs2 s1 s2 s3 :
  grows hs1 s1 s2 -> grows hs2 s2 s3 -> grows (hs1 ++ hs2) s1 s3.
Proof.
  intros [A1 A2 A3 A4] [B1 B2 B3 B4]. split; auto; [lia|].
  intros h [[?|[?|?]]%A4|[?|?]]%B4; rewrite elem_of_app; auto. right. left. lia.
Qed.

Lemma advances_grows hs s s' : advances s s' -> grows hs s s'.
Proof. intros [A1 A2 A3 A4 _]. split; auto. intros h [?|?]%A4; auto. Qed.

Lemma process_grows m s r s' :
  store_ok s -> 0 <= cm_Height m -> store_process m s = (r, s') -> grows [cm_Height m] s s'.
Proof.
  intros Hok Hm Hp. destruct r as [e|].
  - apply store_process_err in Hp as ->. by apply grows_refl.
  - destruct (store_process_ok m s s' Hok Hm Hp) as (Hok' & Hl & Hh).
    split; [done|lia|intros h ?; apply Hh; by right|].
    intros h [->|?]%Hh; [|by left]. right. right. by left.
Qed.

Lemma on_momentums_grows hs st :
  contiguous_feed feed -> Forall (Z.le 0) hs -> store_ok (sy_store st) ->
  grows hs (sy_store st) (sy_store (on_momentums feed hs st)).
Proof.
  intros Hfeed Hpos. revert st. induction Hpos as [|h hs Hh _ IH]; intros st Hok; simpl.
  { by apply grows_refl. }
  assert (Hskip : forall st1, sy_store st1 = sy_store st ->
    grows (h :: hs) (sy_store st) (sy_store (on_momentums feed hs st1))).
  { intros st1 Hst. rewrite <- Hst in *. eapply (grows_trans [h]); [by apply grows_refl|].
    by apply IH. }
  destruct (fd_momentums feed (sy_n st) h 1) as [[|m ms]|e] eqn:Ef; try by apply Hskip.
  pose proof (Hfeed _ _ _ _ Ef 0%nat m eq_refl) as Hm. rewrite Z.add_0_r in Hm.
  destruct (store_process m (sy_store st)) as [r s'] eqn:Ep.
  pose proof (process_grows m _ r s' Hok ltac:(lia) Ep) as Hg. rewrite Hm in Hg.
  destruct r; (eapply (grows_trans [h]); [exact Hg|]);
    apply (IH (with_store s' _)) || apply (IH (record_progress feed (with_store s' _)));
    apply Hg.
Qed.

Lemma session_grows ss st res st' :
  contiguous_feed feed -> Forall (Z.le 0) (announced [ss]) -> store_ok (sy_store st) ->
  runSubscriptionSession feed ss st = (res, st') ->
  grows (announced [ss]) (sy_store st) (sy_store st').
Proof.
  intros Hfeed Hpos Hok. unfold runSubscriptionSession, announced in *. simpl in *.
  rewrite app_nil_r in *. destruct (ss_subscribe ss).
  { intros [= <- <-]. by apply grows_refl. }
  change (sy_store st) with (sy_store (step st)) in *. generalize dependent (step st).
  clear st. revert Hpos. induction (ss_events ss) as [|ev evs IH]; intros Hpos st Hok; simpl.
  { intros [= <- <-]. by apply grows_refl. }
  destruct ev as [| | |hs]; try (intros [= <- <-]; by apply grows_refl).
  simpl in Hpos. apply Forall_app in Hpos as [Hp1 Hp2]. intros Hx.
  pose proof (on_momentums_grows hs st Hfeed Hp1 Hok) as Hg.
  eapply grows_trans; [exact Hg|]. apply IH; [done|apply Hg|exact Hx].
Qed.

Lemma loop_grows fuel sessions st res st' :
  contiguous_feed feed -> Forall (Z.le 0) (announced sessions) -> store_ok (sy_store st) ->
  runSubscriptionLoop feed fuel sessions st = (res, st') ->
  grows (announced sessions) (sy_store st) (sy_store st').
Proof.
  intros Hfeed Hpos. revert st.
  induction sessions as [|ss sessions IH]; intros st Hok; simpl.
  { intros [= <- <-]. by apply grows_refl. }
  simpl in Hpos. apply Forall_app in Hpos as [Hp1 Hp2].
  destruct (fd_canceled feed (sy_n st)); [intros [= <- <-]; by apply grows_refl|].
  destruct (runSubscriptionSession feed ss (step st)) as [r st1] eqn:E1.
  assert (Hg : grows (flat_map announced_by (ss_events ss)) (sy_store st) (sy_store st1)).
  { pose proof (session_grows ss (step st) r st1 Hfeed) as H. unfold announced in H.
    simpl in H. rewrite app_nil_r in H. by apply H. }
  assert (Hend : forall st2, grows [] (sy_store st1) (sy_store st2) ->
    grows (flat_map announced_by (ss_events ss) ++ announced sessions)
      (sy_store st) (sy_store st2)).
  { intros st2 Hs. eapply grows_trans; [exact Hg|]. eapply (grows_trans []); [exact Hs|].
    apply grows_refl, Hs. }
  destruct r as [r|].
  2: { intros [= <- <-]. apply Hend, grows_refl, Hg. }
  destruct (fd_canceled feed (sy_n st1)).
  { intros [= <- <-]. apply Hend, grows_refl, Hg. }
  destruct (sync feed fuel (step st1)) as [r2 st2] eqn:E2.
  destruct (sync_advances fuel (step st1) r2 st2 Hfeed (gr_ok _ _ _ Hg) E2) as [Ha _].
  apply (advances_grows []) in Ha. simpl in Ha.
  assert (Hrest : forall st3, sy_store st3 = sy_store st2 ->
    runSubscriptionLoop feed fuel sessions st3 = (res, st') ->
    grows (flat_map announced_by (ss_events ss) ++ announced sessions)
      (sy_store st) (sy_store st')).
  { intros st3 Hst Hx. eapply grows_trans; [exact Hg|].
    eapply (grows_trans []); [exact Ha|]. rewrite <- Hst. eapply IH; [done| |exact Hx].
    rewrite Hst. apply Ha. }
  destruct r2 as [[u|e]|]; [by apply Hrest| |intros [= <- <-]; by apply Hend].
  destruct (fd_canceled feed (sy_n st2)); [intros [= <- <-]; by apply Hend|].
  by apply (Hrest (step st2)).
Qed.

Lemma Run_grows fuel sessions st res st' :
  contiguous_feed feed -> Forall (Z.le 0) (announced sessions) -> store_ok (sy_store st) ->
  Run feed fuel sessions st = (res, st') ->
  grows (announced sessions) (sy_store st) (sy_store st').
Proof.
  intros Hfeed Hpos Hok. unfold Run.
  destruct (sync feed fuel (record_progress feed st)) as [r st1] eqn:E.
  destruct (sync_advances fuel (record_progress feed st) r st1 Hfeed Hok E) as [Ha _].
  simpl in Ha. destruct r as [[u|e]|]; [|intros [= <- <-]; by apply advances_grows..].
  intros Hx. eapply (grows_trans []); [by apply advances_grows|].
  eapply loop_grows; [done..|apply Ha|exact Hx].
Qed.

(** Run only ends on a cancellation or a failed initial sync. *)
Lemma Run_outcome fuel sessions st :
  match (Run feed fuel sessions st).1 with
  | None | Some (Err ECanceled) | Some (Err (EWrap "initial sync failed" _)) => True
  | _ => False
  end.
Proof.
  unfold Run. destruct (sync feed fuel _) as [[[u|e]|] st1]; [|done..]. clear st.
  revert st1. induction sessions as [|ss sessions IH]; intros st; simpl; [done|].
  destruct (fd_canceled feed (sy_n st)); [done|].
  destruct (runSubscriptionSession feed ss (step st)) as [[r|] st1]; [|done].
  destruct (fd_canceled feed (sy_n st1)); [done|].
  destruct (sync feed fuel (step st1)) as [[[u'|e]|] st2]; [by apply IH| |done].
  destruct (fd_canceled feed (sy_n st2)); [done|by apply IH].
Qed.
End sync_facts.

(** ** Catch-up *)

(** C2. Catch-up leaves no gaps. Against a node that answers contiguous pages, whatever
    fails or is canceled along the way and however far the loop gets, heights 1 to the
    latest are all stored afterwards if they were before, the latest height does not
    decrease, nothing stored disappears, and an answer of success means the latest height
    has reached a frontier the node reported. *)
Theorem sync_no_gaps {S} `{HS : MomentumStore S} `{HL : !MomentumStoreLaws S} feed fuel st res st' :
  contiguous_feed feed -> store_ok (sy_store st) ->
  (forall h, 1 <= h <= store_latest (sy_store st) -> store_has (sy_store st) h) ->
  sync feed fuel st = (res, st') ->
  (forall h, 1 <= h <= store_latest (sy_store st') -> store_has (sy_store st') h)
  /\ store_latest (sy_store st) <= store_latest (sy_store st')
  /\ (forall h, store_has (sy_store st) h -> store_has (sy_store st') h)
  /\ (res = Some (Ok tt) ->
      exists n f, fd_frontier feed n = Ok f /\ f <= store_latest (sy_store st')).
Proof.
  intros Hfeed Hok Hfull Hs. destruct (sync_advances feed _ _ _ _ Hfeed Hok Hs) as [Ha Hr].
  split_and!; [by apply Ha|by apply Ha|by apply Ha|done].
Qed.

(** The indexer never looks back: over a whole run - the initial catch-up and any
    number of subscription sessions and catch-ups, whatever fails in them - what is stored
    stays stored and the latest height does not decrease, but a height at or below the
    latest one that is not stored stays missing unless the node announces that very height
    to a session again, since catch-up only asks for heights above the latest. A momentum
    that fails in a session, where the error is logged and the next one is processed, is
    therefore lost until a backfill. *)
Theorem run_never_looks_back {S} `{HS : MomentumStore S} `{HL : !MomentumStoreLaws S}
    feed fuel sessions st res st' :
  contiguous_feed feed -> store_ok (sy_store st) -> Forall (Z.le 0) (announced sessions) ->
  Run feed fuel sessions st = (res, st') ->
  store_latest (sy_store st) <= store_latest (sy_store st')
  /\ (forall h, store_has (sy_store st) h -> store_has (sy_store st') h)
  /\ forall h, h <= store_latest (sy_store st) -> ~ store_has (sy_store st) h ->
       h ∉ announced sessions -> ~ store_has (sy_store st') h.
Proof.
  intros Hfeed Hok Hpos Hrun.
  destruct (Run_grows feed _ _ _ _ _ Hfeed Hpos Hok Hrun) as [_ Hl Hk Hn].
  split_and!; [done..|]. intros h Hh Hnot Hann Hin. destruct (Hn h Hin) as [?|[?|?]]; [done|lia|done].
Qed.

(** ** A concrete indexer *)

(** A cache refresh that reads no pillars and nothing else. *)
Definition empty_cache : CacheApi :=
  mkCacheApi (fun _ _ => Ok []) (fun _ _ => Ok []) (fun _ _ => Ok []) (Ok []).

Definition toy_world (faults : ChainMomentum -> PoolFaults) : World :=
  mkWorld toy_sdk (toy_ledger []) (fun _ => None) faults false (fun _ => empty_cache)
    (fun _ _ _ => None) (fun _ => 0) 2.

(** A chain of empty momentums up to [top], answered in pages. *)
Definition toy_page (top start size : Z) : list ChainMomentum :=
  map (fun h => toy_momentum h []) (seqZ start (Z.min size (top + 1 - start))).

Definition toy_feed (top : Z) : Feed :=
  mkFeed (fun _ => None) (fun _ => Ok top) (fun _ start size => Ok (toy_page top start size))
    (fun _ => false) (fun _ => 0).

Lemma toy_feed_contiguous top : contiguous_feed (toy_feed top).
Proof.
  intros n start size ms [= <-] i m Hm. unfold toy_page in Hm.
  apply list_lookup_fmap_Some in Hm as (h & -> & Hh).
  apply lookup_seqZ in Hh as [-> _]. done.
Qed.

Definition toy_start : SyncSt IndexerSt := mkSyncSt (mkIndexerSt empty_db [] ∅) 0 0.

Lemma empty_heights_ok : heights_ok (db_momentums empty_db).
Proof. intros h [r Hr]. discriminate Hr. Qed.

Definition toy_sync (wd : World) (top : Z) (fuel : nat) (st : SyncSt IndexerSt)
  : option (result unit) * SyncSt IndexerSt :=
  @sync IndexerSt (indexer_store wd) (toy_feed top) fuel st.

Lemma sync_no_gaps_witness :
  let '(res, st') := toy_sync (toy_world (fun _ => no_faults)) 3 5 toy_start in
  res = Some (Ok tt)
  /\ MomentumRepository.GetLatestHeight (db_momentums (ix_db (sy_store st'))) = 3
  /\ forall h, 1 <= h <= 3 -> is_Some (db_momentums (ix_db (sy_store st')) !! h).
Proof.
  destruct (toy_sync _ _ _ _) as [res st'] eqn:E.
  assert (Hl : MomentumRepository.GetLatestHeight (db_momentums (ix_db (sy_store st'))) = 3).
  { transitivity (MomentumRepository.GetLatestHeight (db_momentums (ix_db (sy_store
      (toy_sync (toy_world (fun _ => no_faults)) 3 5 toy_start).2))));
      [by rewrite E|vm_compute; reflexivity]. }
  assert (Hr : res = Some (Ok tt)).
  { transitivity (toy_sync (toy_world (fun _ => no_faults)) 3 5 toy_start).1;
      [by rewrite E|vm_compute; reflexivity]. }
  split; [exact Hr|]. split; [exact Hl|].
  destruct (sync_no_gaps (HS := indexer_store (toy_world (fun _ => no_faults)))
              (HL := indexer_store_laws (toy_world (fun _ => no_faults)))
              (toy_feed 3) 5 toy_start res st' (toy_feed_contiguous 3) empty_heights_ok) as [H _].
  - simpl. intros h Hh. exfalso. change (1 <= h <= 0) in Hh. lia.
  - exact E.
  - intros h Hh. apply H. simpl. rewrite Hl. exact Hh.
Defined.

(** Momentum 2 cannot be committed when it arrives; the pool works again for momentum 3. *)
Definition bad_commit : ChainMomentum -> PoolFaults :=
  fun m => if cm_Height m =? 2 then mkPoolFaults None (fun _ => None) None (Some (EMsg "lost"))
           else no_faults.

Definition after_session : SyncSt IndexerSt :=
  (@runSubscriptionSession IndexerSt (indexer_store (toy_world bad_commit)) (toy_feed 3)
     (mkSession None [EvMomentums [1]; EvMomentums [2; 3]; EvRestart]) toy_start).2.

Lemma after_session_state :
  MomentumRepository.GetLatestHeight (db_momentums (ix_db (sy_store after_session))) = 3
  /\ db_momentums (ix_db (sy_store after_session)) !! 2 = None
  /\ heights_ok (db_momentums (ix_db (sy_store after_session))).
Proof.
  split; [vm_compute; reflexivity|]. split; [vm_compute; reflexivity|].
  assert (E : dom (db_momentums (ix_db (sy_store after_session))) = {[1; 3]})
    by (vm_compute; reflexivity).
  intros h Hh%elem_of_dom. rewrite E in Hh. unfold max_int64. set_unfold. lia.
Qed.

(** The run after that session, on a pool that works: a catch-up to height 9, a session that
    announces height 9 again, another catch-up. Height 2 is still not stored. *)
Definition toy_run : option (result unit) * SyncSt IndexerSt :=
  @Run IndexerSt (indexer_store (toy_world (fun _ => no_faults))) (toy_feed 9) 5
    [mkSession None [EvMomentums [9]; EvClosed]] after_session.

Lemma run_never_looks_back_witness :
  MomentumRepository.GetLatestHeight (db_momentums (ix_db (sy_store toy_run.2))) = 9
  /\ ~ is_Some (db_momentums (ix_db (sy_store toy_run.2)) !! 2).
Proof.
  split; [vm_compute; reflexivity|].
  destruct after_session_state as (Hl & H2 & Hok).
  destruct (run_never_looks_back (HS := indexer_store (toy_world (fun _ => no_faults)))
              (HL := indexer_store_laws (toy_world (fun _ => no_faults)))
              (toy_feed 9) 5 [mkSession None [EvMomentums [9]; EvClosed]] after_session
              toy_run.1 toy_run.2 (toy_feed_contiguous 9)) as (_ & _ & H).
  - exact Hok.
  - repeat constructor. discriminate.
  - apply surjective_pairing.
  - apply (H 2).
    + change (2 <= MomentumRepository.GetLatestHeight
                     (db_momentums (ix_db (sy_store after_session)))). rewrite Hl. lia.
    + change (~ is_Some (db_momentums (ix_db (sy_store after_session)) !! 2)). rewrite H2.
      intros [r Hr2]. discriminate Hr2.
    + simpl. by apply (bool_decide_unpack _).
Defined.

(** ** Termination *)

(** A node that never fails or cancels, whose frontier is [top], and whose pages below the
    frontier are contiguous and not empty. *)
Record steady_feed (feed : Feed) (top : Z) : Prop := mkSteady {
  sf_canceled : forall n, fd_canceled feed n = false;
  sf_latest : forall n, fd_latest_err feed n = None;
  sf_frontier : forall n, fd_frontier feed n = Ok top;
  sf_page : forall n start size, 1 <= start <= top -> 0 < size -> exists m ms,
    fd_momentums feed n start size = Ok (m :: ms) /\ contiguous_from start (m :: ms)
}.

(** Stores on which the node's momentums are always processed and refreshes succeed. *)
Record good_store {S} `{HS : MomentumStore S} (feed : Feed) (top : Z) (Inv : S -> Prop) : Prop :=
  mkGoodStore {
    gs_ok : forall s, Inv s -> store_ok s;
    gs_process : forall n start size ms m s, 1 <= start <= top ->
      fd_momentums feed n start size = Ok ms -> m ∈ ms -> Inv s ->
      exists s', store_process m s = (None, s') /\ Inv s';
    gs_prime : forall n s, Inv s -> exists s', store_prime n s = (Ok tt, s') /\ Inv s';
    gs_refresh : forall n s, Inv s -> Inv (store_refresh n s)
  }.

Section termination.
Context {S : Type} `{HS : MomentumStore S} `{HL : !MomentumStoreLaws S}.
Variables (feed : Feed) (top : Z).
Variable Inv : S -> Prop.
Hypothesis steady : steady_feed feed top.
Hypothesis good : good_store feed top Inv.

Lemma retried_first {A} label (call : SyncSt S -> result A) st a :
  call st = Ok a -> retried feed label call st = (Ok a, step st).
Proof.
  intros Hc. unfold retried, withRetry, withRetryConfig.
  change (Z.to_nat (attempts defaultRetry) - 1)%nat with 5%nat. cbn [retry_loop].
  change (ctx_err (retry_ctx feed st) 1) with (fd_canceled feed (sy_n st + 2 * 1)).
  rewrite (sf_canceled _ _ steady), Hc. done.
Qed.

Lemma process_list_steady n start size ms0 ms st :
  1 <= start <= top -> fd_momentums feed n start size = Ok ms0 -> ms ⊆ ms0 ->
  Inv (sy_store st) ->
  exists st', process_list feed ms st = (Ok tt, st') /\ Inv (sy_store st').
Proof.
  intros Hst Hms. revert st. induction ms as [|m ms IH]; intros st Hsub HI; simpl; [by eauto|].
  rewrite (sf_canceled _ _ steady).
  destruct (gs_process _ _ _ good _ _ _ _ m (sy_store st) Hst Hms ltac:(set_solver) HI)
    as (s' & -> & HI').
  apply (IH (record_progress feed (with_store s' st))); [set_solver|exact HI'].
Qed.

(** An iteration ends at the frontier, or advances. *)
Lemma sync_step_steady st :
  Inv (sy_store st) ->
  exists res st', sync_step feed st = (res, st') /\ Inv (sy_store st')
    /\ (top <= store_latest (sy_store st) /\ res = Some (Ok tt)
        \/ res = None /\ store_latest (sy_store st) < top
           /\ store_latest (sy_store st) < store_latest (sy_store st')).
Proof.
  intros HI. pose proof (gs_ok _ _ _ good _ HI) as Hok.
  unfold sync_step. rewrite (sf_canceled _ _ steady).
  assert (Hl : get_latest feed (step st) = Ok (store_latest (sy_store st)))
    by (unfold get_latest; by rewrite (sf_latest _ _ steady)).
  rewrite (retried_first _ _ _ _ Hl).
  rewrite (retried_first _ _ _ top) by apply (sf_frontier _ _ steady).
  destruct (store_latest_ok _ Hok) as [Hb _].
  destruct (Z.leb_spec top (store_latest (sy_store st))) as [Hle|Hgt].
  { do 2 eexists. split; [done|]. split; [exact HI|]. by left. }
  rewrite start_height by lia.
  set (st2 := step (step (step st))).
  destruct (sf_page _ _ steady (sy_n st2) (store_latest (sy_store st) + 1) batchSize)
    as (m & ms & Hp & Hc); [lia|done|].
  rewrite (retried_first _ (fun st0 : SyncSt S =>
             fd_momentums feed (sy_n st0) (store_latest (sy_store st) + 1) batchSize)
             st2 (m :: ms) Hp).
  assert (Hstart : 1 <= store_latest (sy_store st) + 1 <= top) by lia.
  destruct (process_list_steady (sy_n st2) (store_latest (sy_store st) + 1) batchSize
              (m :: ms) (m :: ms) (step st2) Hstart Hp ltac:(done) HI)
    as (st4 & E4 & HI4). rewrite E4.
  destruct (process_list_advances feed (m :: ms) (step st2) _ _ Hok Hc E4) as [Ha Hlen].
  specialize (Hlen eq_refl). change (sy_store (step st2)) with (sy_store st) in *.
  do 2 eexists. split; [done|].
  destruct (_ =? 0); simpl.
  - split; [by apply (gs_refresh _ _ _ good)|]. right. split; [done|]. split; [lia|].
    destruct (store_refresh_ok (sy_n st4) (sy_store st4) (adv_ok _ _ Ha)) as (_ & Hr & _).
    rewrite Hr. simpl in Hlen. lia.
  - split; [exact HI4|]. right. split; [done|]. simpl in Hlen. lia.
Qed.

Lemma catch_up_steady fuel st :
  contiguous_feed feed -> Inv (sy_store st) ->
  (Z.to_nat (top - store_latest (sy_store st)) < fuel)%nat ->
  exists st', catch_up feed fuel st = (Some (Ok tt), st')
    /\ top <= store_latest (sy_store st').
Proof.
  intros Hfeed. revert st. induction fuel as [|fuel IH]; intros st HI Hf; [lia|]. simpl.
  pose proof (gs_ok _ _ _ good _ HI) as Hok.
  destruct (sync_step_steady st HI) as (res & st1 & E & HI1 & Hcase). rewrite E.
  destruct (sync_step_advances feed _ _ _ Hfeed Hok E) as [Ha _].
  destruct Hcase as [[Hle ->]|(-> & Htop & Hlt)].
  - exists st1. split; [done|]. pose proof (adv_latest _ _ Ha). lia.
  - apply IH; [exact HI1|lia].
Qed.

Lemma prime_steady st :
  Inv (sy_store st) ->
  exists st', prime feed st = (Ok tt, st') /\ Inv (sy_store st')
    /\ store_latest (sy_store st') = store_latest (sy_store st).
Proof.
  intros HI. unfold prime, withRetry, withRetryConfig.
  change (Z.to_nat (attempts defaultRetry) - 1)%nat with 5%nat. cbn [retry_loop].
  change (ctx_err (retry_ctx feed st) 1) with (fd_canceled feed (sy_n st + 2 * 1)).
  rewrite (sf_canceled _ _ steady).
  destruct (gs_prime _ _ _ good (sy_n st) (sy_store st) HI) as (s' & Hp & HI').
  destruct (store_prime_ok (sy_n st) (sy_store st) (gs_ok _ _ _ good _ HI)) as (_ & H2 & _).
  rewrite Hp in H2 |- *. eexists. split; [done|]. by split.
Qed.
End termination.

(** C3. Catch-up terminates: against a steady node whose frontier is [top], and from a store
    on which the node's momentums are processed and refreshes succeed, [top] minus the
    latest height plus one iterations are enough for [sync] to answer success, with the
    latest height at [top] or above. *)
Theorem sync_terminates {S} `{HS : MomentumStore S} `{HL : !MomentumStoreLaws S}
    feed top (Inv : S -> Prop) fuel st :
  steady_feed feed top -> contiguous_feed feed -> good_store feed top Inv ->
  Inv (sy_store st) ->
  (Z.to_nat (top - store_latest (sy_store st)) < fuel)%nat ->
  exists st', sync feed fuel st = (Some (Ok tt), st') /\ top <= store_latest (sy_store st').
Proof.
  intros Hsteady Hfeed Hgood HI Hfuel. unfold sync.
  destruct (prime_steady feed top Inv Hsteady Hgood st HI) as (st1 & -> & HI1 & Hl).
  apply (catch_up_steady feed top Inv Hsteady Hgood); [exact Hfeed|exact HI1|by rewrite Hl].
Qed.

(** Tables with no pillars: the producer of a toy momentum is unknown. *)
Definition no_pillars (s : IndexerSt) : Prop :=
  heights_ok (db_momentums (ix_db s)) /\ db_pillars (ix_db s) = ∅
  /\ db_pillar_updates (ix_db s) = [].

Lemma toy_process h s :
  1 <= h <= 3 -> no_pillars s ->
  exists s', process (toy_world (fun _ => no_faults)) (toy_momentum h []) s = (None, s')
    /\ no_pillars s'.
Proof.
  intros Hh (Hok & Hp & Hu).
  assert (Hx : out_err (processMomentum (env_of (toy_world (fun _ => no_faults)) s
                                          (toy_momentum h [])) (toy_momentum h [])) = None
    /\ out_db (processMomentum (env_of (toy_world (fun _ => no_faults)) s
                                 (toy_momentum h [])) (toy_momentum h []))
       = (ix_db s) <| db_momentums :=
           insert_nothing h (mkMomentum h ("m" +:+ format_int h) (1000 + 10 * h) 0 "z1producer"
                               "" "") (db_momentums (ix_db s)) |>).
  { set (env := env_of _ s _).
    assert (Hinfo : getPillarInfoForProducer env "z1producer" h = ("", "")).
    { unfold getPillarInfoForProducer, query, env, env_of.
      cbn [env_pool pl_query_err pl_db toy_world wd_query_err]. by rewrite Hp, Hu. }
    assert (Hb : momentum_batch env (toy_momentum h []) = Ok
      ([SMomentumInsert (mkMomentum h ("m" +:+ format_int h) (1000 + 10 * h) 0 "z1producer" "" "");
        SNotify "momentum_new" (momentum_payload (mkMomentum h ("m" +:+ format_int h)
          (1000 + 10 * h) 0 "z1producer" "" ""))], [])).
    { unfold momentum_batch, momentum_row. cbn [cm_Content toy_momentum map mbind].
      unfold toy_momentum. cbn [cm_Producer cm_Height]. rewrite Hinfo.
      assert (h = 1 \/ h = 2 \/ h = 3) as [->|[->| ->]] by lia; reflexivity. }
    unfold processMomentum. rewrite Hb.
    assert (h = 1 \/ h = 2 \/ h = 3) as [->|[->| ->]] by lia; split; reflexivity. }
  destruct Hx as [He Hdb]. unfold process. rewrite He. eexists. split; [done|].
  unfold no_pillars. simpl. rewrite Hdb. split_and!; [|exact Hp|exact Hu].
  intros k [->|Hk]%insert_nothing_is_Some; [unfold max_int64; lia|by apply Hok].
Qed.

Lemma toy_feed_steady top : steady_feed (toy_feed top) top.
Proof.
  split; try reflexivity. intros n start size Hst Hsize. simpl.
  assert (Hne : exists m ms, toy_page top start size = m :: ms).
  { unfold toy_page. rewrite seqZ_cons by lia. simpl. eauto. }
  destruct Hne as (m & ms & E). exists m, ms. rewrite E. split; [done|].
  apply (toy_feed_contiguous top 0%nat start size). simpl. by rewrite E.
Qed.

Lemma toy_good :
  @good_store IndexerSt (indexer_store (toy_world (fun _ => no_faults))) (toy_feed 3) 3 no_pillars.
Proof.
  split.
  - by intros s [Hok _].
  - intros n start size ms m s Hst [= <-] Hm HI.
    apply list_elem_of_fmap in Hm as (h & -> & Hh). apply elem_of_seqZ in Hh.
    apply toy_process; [lia|exact HI].
  - intros n s (H1 & H2 & H3). eexists. split; [reflexivity|]. by split_and!.
  - intros n s (H1 & H2 & H3). by split_and!.
Qed.

Lemma sync_terminates_witness :
  exists st', toy_sync (toy_world (fun _ => no_faults)) 3 4 toy_start = (Some (Ok tt), st')
    /\ 3 <= MomentumRepository.GetLatestHeight (db_momentums (ix_db (sy_store st'))).
Proof.
  apply (sync_terminates (HS := indexer_store (toy_world (fun _ => no_faults)))
           (HL := indexer_store_laws (toy_world (fun _ => no_faults)))
           (toy_feed 3) 3 no_pillars 4 toy_start).
  - apply toy_feed_steady.
  - apply toy_feed_contiguous.
  - apply toy_good.
  - split; [exact empty_heights_ok|]. split; reflexivity.
  - vm_compute. lia.
Defined.
