(* ===== verification/BackfillTheorems.v ===== *)
(** The backfill: which heights it finds, what it repairs, and what it loses by running
    before the pillar cache is primed. *)

From S2P Require Import Prelude.
From S2P Require Import Models.
From S2P Require Import Chain.
From S2P Require Import RepoLedger.
From S2P Require Import RepoContracts.
From S2P Require Import Database.
From S2P Require Import ExecFacts.
From S2P Require Import Decoder.
From S2P Require Import Embedded.
From S2P Require Import Processor.
From S2P Require Import ProcessorShape.
From S2P Require Import LedgerFacts.
From S2P Require Import LedgerProps.
From S2P Require Import DelegationTheorems.
From S2P Require Import CachedData.
From S2P Require Import Retry.
From S2P Require Import Sync.
From S2P Require Import Indexer.
From S2P Require Import SyncTheorems.
From S2P Require Import Samples.
#[local] Open Scope string_scope.
#[local] Open Scope Z_scope.

Lemma missing_heights_spec db h :
  h ∈ missing_heights db <->
  db_momentums db !! h = None
  /\ exists top, MomentumRepository.max_height (db_momentums db) = Some top /\ 1 <= h <= top.
Proof.
  unfold missing_heights. destruct (MomentumRepository.max_height _) as [top|].
  - rewrite elem_of_filter_list, elem_of_seqZ. split.
    + intros [Hr Hn]. split; [by destruct (db_momentums db !! h)|]. exists top. split; [done|lia].
    + intros [Hn (t & [= <-] & Hr)]. split; [lia|]. by rewrite Hn.
  - split; [by intros ?%not_elem_of_nil|]. by intros [_ (t & ? & _)].
Qed.

Lemma incomplete_heights_spec db h :
  (forall k mo, db_momentums db !! k = Some mo -> mom_Height mo = k) ->
  h ∈ incomplete_heights db <->
  exists mo, db_momentums db !! h = Some mo /\ 0 < mom_TxCount mo
             /\ blocks_at h db < mom_TxCount mo.
Proof.
  intros Hkey. unfold incomplete_heights, incomplete. rewrite list_elem_of_fmap. split.
  - intros (mo & -> & [Hin Hc]%elem_of_filter_list).
    apply list_elem_of_fmap in Hin as ([k mo'] & -> & Hk%elem_of_map_to_list). simpl in *.
    apply andb_prop in Hc as [H1%Z.ltb_lt H2%Z.ltb_lt].
    exists mo'. by rewrite (Hkey _ _ Hk) in *.
  - intros (mo & Hmo & H1 & H2). exists mo. rewrite (Hkey _ _ Hmo). split; [done|].
    apply elem_of_filter_list. split.
    + apply list_elem_of_fmap. exists (h, mo). split; [done|]. by apply elem_of_map_to_list.
    + rewrite (Hkey _ _ Hmo). apply andb_true_intro. split; by apply Z.ltb_lt.
Qed.

Lemma backfill_elem db h :
  h ∈ backfill_heights db <-> h ∈ missing_heights db \/ h ∈ incomplete_heights db.
Proof.
  unfold backfill_heights. by rewrite merge_sort_Permutation, elem_of_remove_dups, elem_of_app.
Qed.

(** The backfill query finds exactly the heights to repair, each once and in ascending
    order: the heights from 1 to the latest that have no momentum, and the stored momentums
    that report transactions but have fewer stored account blocks than they report. *)
Theorem backfill_heights_exact db :
  (forall k mo, db_momentums db !! k = Some mo -> mom_Height mo = k) ->
  StronglySorted Z.le (backfill_heights db) /\ NoDup (backfill_heights db)
  /\ forall h, h ∈ backfill_heights db <->
       (db_momentums db !! h = None
        /\ exists top, MomentumRepository.max_height (db_momentums db) = Some top /\ 1 <= h <= top)
       \/ exists mo, db_momentums db !! h = Some mo /\ 0 < mom_TxCount mo
                     /\ blocks_at h db < mom_TxCount mo.
Proof.
  intros Hkey. unfold backfill_heights.
  pose proof (merge_sort_Permutation Z.le
    (remove_dups (missing_heights db ++ incomplete_heights db)%list)) as Hp.
  split_and!.
  - apply (StronglySorted_merge_sort Z.le).
  - rewrite Hp. apply NoDup_remove_dups.
  - intros h. fold (backfill_heights db).
    by rewrite backfill_elem, missing_heights_spec, incomplete_heights_spec.
Qed.

(** Heights 1 and 3 are stored, 3 with a transaction whose block is missing. *)
Definition gappy_db : Db :=
  empty_db <| db_momentums :=
    <[1 := mkMomentum 1 "m1" 0 0 "p" "" ""]> (<[3 := mkMomentum 3 "m3" 0 1 "p" "" ""]> ∅) |>.

Lemma gappy_keys k mo : db_momentums gappy_db !! k = Some mo -> mom_Height mo = k.
Proof.
  change (db_momentums gappy_db) with
    (<[1 := mkMomentum 1 "m1" 0 0 "p" "" ""]> (<[3 := mkMomentum 3 "m3" 0 1 "p" "" ""]>
       (∅ : gmap Z Momentum))).
  rewrite lookup_insert_Some. intros [[<- <-]|[_ H]]; [done|].
  rewrite lookup_insert_Some in H. destruct H as [[<- <-]|[_ H]]; [done|].
  by rewrite lookup_empty in H.
Qed.

Lemma backfill_heights_exact_witness :
  backfill_heights gappy_db = [2; 3] /\ NoDup (backfill_heights gappy_db).
Proof.
  split; [vm_compute; reflexivity|].
  exact (proj1 (proj2 (backfill_heights_exact gappy_db gappy_keys))).
Defined.

(** ** Repair *)

#[local] Arguments process : simpl never.

Definition has_momentum_at (h : Z) (s : IndexerSt) : Prop :=
  is_Some (db_momentums (ix_db s) !! h).

Lemma process_keeps_momentum wd m s h :
  has_momentum_at h s -> has_momentum_at h (process wd m s).2.
Proof.
  intros [r Hr]. exists r. unfold process. simpl.
  apply (processMomentum_keeps (has_momentum h r)); [|exact Hr].
  intros x db db' Hh Hs. by eapply has_momentum_kept.
Qed.

Lemma direct_keeps_momentum fault m db h :
  is_Some (db_momentums db !! h) ->
  is_Some (db_momentums (backfillMomentumDirect fault m db) !! h).
Proof.
  intros Hh. unfold backfillMomentumDirect. destruct fault; [done|].
  destruct (on_table _ _ _) as [db'|] eqn:E; [|done].
  apply on_table_Ok in E as (t & Ht & ->). apply bind_Ok in Ht as (_ & _ & [= <-]).
  simpl. apply insert_nothing_is_Some. by right.
Qed.

Lemma direct_stores m db :
  in_int64 (cm_Height m) = true -> in_int32 (Z.of_nat (length (cm_Content m))) = true ->
  is_Some (db_momentums (backfillMomentumDirect None m db) !! cm_Height m).
Proof.
  intros H1 H2. unfold backfillMomentumDirect, on_table, MomentumRepository.Insert, check_range.
  cbn [direct_row mom_Height mom_TxCount]. rewrite H1, H2. simpl.
  apply insert_nothing_is_Some. by left.
Qed.

Lemma backfill_loop_keeps wd fetch direct canceled hs s h :
  has_momentum_at h s -> has_momentum_at h (backfill_loop wd fetch direct canceled hs s).2.
Proof.
  revert s. induction hs as [|x hs IH]; intros s Hh; cbn [backfill_loop]; [done|].
  destruct (canceled x); [done|]. destruct (fetch x) as [[|m ms]|e]; [by apply IH| |by apply IH].
  pose proof (process_keeps_momentum wd m s h Hh) as Hp.
  destruct (process wd m s) as [[e|] s']; simpl in Hp; apply IH; [|exact Hp].
  by apply direct_keeps_momentum.
Qed.

Lemma backfill_loop_stores wd fetch direct canceled hs s h m ms :
  (forall x, canceled x = false) -> h ∈ hs ->
  fetch h = Ok (m :: ms) -> cm_Height m = h -> in_int64 h = true ->
  in_int32 (Z.of_nat (length (cm_Content m))) = true -> direct h = None ->
  let '(res, s') := backfill_loop wd fetch direct canceled hs s in
  res = Ok tt /\ has_momentum_at h s'.
Proof.
  intros Hc Hin Hf Hm Hr Hlen Hd. revert s. induction hs as [|x hs IH]; intros s;
    [by apply not_elem_of_nil in Hin|]. cbn [backfill_loop]. rewrite Hc.
  assert (Hres : forall l st, (backfill_loop wd fetch direct canceled l st).1 = Ok tt).
  { clear -Hc. induction l as [|y l IHl]; intros st; cbn [backfill_loop]; [done|]. rewrite Hc.
    destruct (fetch y) as [[|m' ms']|e]; [apply IHl| |apply IHl].
    destruct (process wd m' st) as [[e|] st']; apply IHl. }
  apply elem_of_cons in Hin as [<-|Hin].
  - rewrite Hf. destruct (process wd m s) as [r s1] eqn:Ep.
    assert (Hs : has_momentum_at h
      (match r with
       | Some _ => s1 <| ix_db := backfillMomentumDirect (direct h) m (ix_db s1) |>
       | None => s1
       end)).
    { destruct r as [e|].
      - unfold has_momentum_at. simpl. rewrite Hd. subst h. by apply direct_stores.
      - unfold process in Ep. injection Ep as Ep <-. unfold has_momentum_at. simpl.
        rewrite <- Hm. by apply (proj1 (momentum_stored _ _ Ep)). }
    destruct r as [e|];
      (match goal with |- context [backfill_loop _ _ _ _ _ ?st] =>
         pose proof (backfill_loop_keeps wd fetch direct canceled hs st h Hs) as Hk;
         pose proof (Hres hs st) as Hr1 end;
       destruct (backfill_loop _ _ _ _ _ _) as [res s']; done).
  - destruct (fetch x) as [[|m' ms']|e]; [by apply IH| |by apply IH].
    destruct (process wd m' s) as [[e|] s']; by apply IH.
Qed.

(** C40. A backfill leaves no gaps: if the node answers every missing height and the direct
    insert works, then whether or not the momentums can be processed in full, the backfill
    succeeds and every height from 1 to the latest one has a row afterwards. *)
Theorem backfill_fills_gaps wd fetch direct canceled s :
  heights_ok (db_momentums (ix_db s)) ->
  (forall x, canceled x = false) ->
  (forall h, h ∈ missing_heights (ix_db s) ->
     direct h = None /\ exists m ms, fetch h = Ok (m :: ms) /\ cm_Height m = h
       /\ in_int32 (Z.of_nat (length (cm_Content m))) = true) ->
  let s' := (Backfill wd fetch direct canceled None s).2 in
  forall h, 1 <= h <= MomentumRepository.GetLatestHeight (db_momentums (ix_db s)) ->
    is_Some (db_momentums (ix_db s') !! h).
Proof.
  intros Hok Hc Hf. cbv zeta. intros h Hh. simpl.
  destruct (db_momentums (ix_db s) !! h) as [r|] eqn:E.
  - apply backfill_loop_keeps. by eexists.
  - pose proof (max_height_spec (db_momentums (ix_db s))) as Hmax.
    unfold MomentumRepository.GetLatestHeight in Hh.
    destruct (MomentumRepository.max_height (db_momentums (ix_db s))) as [top|] eqn:Et; [|lia].
    destruct Hmax as [Htop _]. specialize (Hok _ Htop). unfold max_int64 in Hok.
    assert (Hu : uint64 top = top) by (apply Z.mod_small; lia). rewrite Hu in Hh.
    assert (Hmiss : h ∈ missing_heights (ix_db s)) by (apply missing_heights_spec; eauto).
    destruct (Hf h Hmiss) as (Hd & m & ms & Hfe & Hm & Hlen).
    assert (Hin : h ∈ backfill_heights (ix_db s)).
    { apply backfill_elem. by left. }
    pose proof (backfill_loop_stores wd fetch direct canceled _ s h m ms Hc Hin Hfe Hm
      ltac:(apply in_int64_spec; unfold min_int64, max_int64; lia) Hlen Hd) as Hs.
    destruct (backfill_loop _ _ _ _ _ _) as [res s']. by destruct Hs.
Qed.

Definition chain_fetch (h : Z) : result (list ChainMomentum) := Ok [toy_momentum h []].

(** Every commit fails, so only the direct insert stores the missing momentum. *)
Definition no_commits : ChainMomentum -> PoolFaults :=
  fun _ => mkPoolFaults None (fun _ => None) None (Some (EMsg "read only")).

Lemma backfill_fills_gaps_witness :
  let s := mkIndexerSt gappy_db [] ∅ in
  let s' := (Backfill (toy_world no_commits) chain_fetch (fun _ => None) (fun _ => false) None s).2
  in
  missing_heights gappy_db = [2]
  /\ forall h, 1 <= h <= MomentumRepository.GetLatestHeight (db_momentums gappy_db) ->
       is_Some (db_momentums (ix_db s') !! h).
Proof.
  split; [vm_compute; reflexivity|].
  apply (backfill_fills_gaps (toy_world no_commits) chain_fetch (fun _ => None) (fun _ => false)
           (mkIndexerSt gappy_db [] ∅)).
  - intros h Hh%elem_of_dom.
    assert (E : dom (db_momentums (ix_db (mkIndexerSt gappy_db [] ∅))) = {[1; 3]})
      by (vm_compute; reflexivity).
    rewrite E in Hh. unfold max_int64. set_unfold. lia.
  - done.
  - intros h _. split; [done|]. exists (toy_momentum h []), []. done.
Defined.

(** ** The pillar cache *)

Lemma delegations_shape_stmt n s db db' :
  is_open_stmt s = false -> length (db_delegations db) = n -> exec_row s db = Ok db' ->
  length (db_delegations db') = n.
Proof.
  intros Hs Hn H. pose proof (exec_delegations _ _ _ H) as He.
  destruct s; try discriminate Hs; cbv iota in He; try (by rewrite He).
  injection He as <-. by rewrite length_map.
Qed.

(** An indexer whose pillar cache is empty, as it is during a backfill on startup
    because the cache is first filled by [sync], drops every delegation: no momentum it
    processes, whatever Delegate calls it contains, adds a row to the delegations. *)
Theorem empty_pillar_cache_drops_delegations wd s m :
  ix_pillarNameToOwner s = ∅ ->
  length (db_delegations (ix_db (process wd m s).2)) = length (db_delegations (ix_db s)).
Proof.
  intros He. unfold process. simpl. set (n := length (db_delegations (ix_db s))).
  apply (momentum_preserves (fun db => length (db_delegations db) = n)); [| |done].
  - intros x db db' Hx. apply delegations_shape_stmt. by destruct x.
  - intros c _. apply (preserves_kind _ (fun x => negb (is_open_stmt x))).
    + intros x db db' Hx%negb_true_iff. by apply delegations_shape_stmt.
    + apply embedded_no_open. intros d. unfold known_delegate, getPillarOwnerAddress, env_of. simpl.
      by rewrite He, andb_false_r.
Qed.

Lemma empty_pillar_cache_drops_delegations_witness :
  let wd := mkWorld toy_sdk (toy_ledger [delegate_block]) (fun _ => None) (fun _ => no_faults)
              false (fun _ => empty_cache) (fun _ _ _ => None) (fun _ => 0) 2 in
  let m := toy_momentum 5 [delegate_block] in
  length (db_delegations (ix_db (process wd m (mkIndexerSt empty_db []
            (<["pillar-one" := "z1owner"]> ∅))).2)) = 1%nat
  /\ length (db_delegations (ix_db (process wd m (mkIndexerSt empty_db [] ∅)).2)) = 0%nat.
Proof.
  split; [vm_compute; reflexivity|].
  exact (empty_pillar_cache_drops_delegations
    (mkWorld toy_sdk (toy_ledger [delegate_block]) (fun _ => None) (fun _ => no_faults)
              false (fun _ => empty_cache) (fun _ _ _ => None) (fun _ => 0) 2)
    (mkIndexerSt empty_db [] ∅) (toy_momentum 5 [delegate_block]) eq_refl).
Defined.
