(* ===== verification/Queries.v ===== *)
(** What the read side of the repositories shares: a pool whose statements see the
    committed tables of their moment and may fail, queries that run several statements, the
    order PostgreSQL returns rows in, and internal/repository/list.go.

    A [SELECT] visits the rows of a table in some order of the database's choosing
    ([Scan]), keeps those its condition admits, sorts them by its [ORDER BY] terms and cuts
    a page out of the result; rows equal under the terms stay in an order that only the scan
    decides. A theorem about a query holds for every scan unless it says otherwise. *)

From S2P Require Import Prelude.
From S2P Require Import Models.
From S2P Require Import Database.
#[local] Open Scope string_scope.
#[local] Open Scope Z_scope.

(** ** Statements and queries *)

(** The order in which a statement visits rows: some permutation of them. *)
Record Scan : Type := mkScan {
  scan_rows : forall {A : Type}, list A -> list A;
  scan_perm : forall {A : Type} (l : list A), scan_rows l ≡ₚ l
}.

Definition scan_id : Scan := mkScan (fun _ l => l) (fun _ l => reflexivity l).

Definition scan_rev : Scan := mkScan (fun _ l => rev l) (fun _ l => symmetry (Permutation_rev l)).

(** What one statement sees: the committed tables, its scan order, the collation its string
    comparisons use, and the planner's row estimate of account_blocks
    ([pg_class.reltuples]). *)
Record View : Type := mkView {
  vw_db : Db;
  vw_scan : Scan;
  vw_collate : string -> string -> bool;
  vw_reltuples : Z
}.

(** A pool: the view of its [n]-th statement, and the failure of the connection or of the
    request's context there, if any. Statements of one request are separate transactions,
    so the tables may change between them. *)
Record Conn : Type := mkConn {
  cn_view : nat -> View;
  cn_fault : nat -> option error
}.

Definition steady (v : View) : Conn := mkConn (fun _ => v) (fun _ => None).

(** A query: it starts with the pool's [n]-th statement and answers a result and the number
    of the statement after its last. *)
Definition Q (A : Type) : Type := Conn -> nat -> result A * nat.

#[global] Instance Q_ret : MRet Q := fun A a _ n => (Ok a, n).
#[global] Instance Q_bind : MBind Q := fun A B k m c n =>
  match m c n with
  | (Ok a, n') => k a c n'
  | (Err e, n') => (Err e, n')
  end.

Definition fail {A} (e : error) : Q A := fun _ n => (Err e, n).

(** One statement. *)
Definition statement {A} (f : View -> result A) : Q A := fun c n =>
  (match cn_fault c n with Some e => Err e | None => f (cn_view c n) end, S n).

(** The caller of a query that looks at its error. *)
Definition attempt {A B} (m : Q A) (ok : A -> Q B) (err : error -> Q B) : Q B := fun c n =>
  match m c n with
  | (Ok a, n') => ok a c n'
  | (Err e, n') => err e c n'
  end.

(** [fmt.Errorf(ctx + ": %w", err)] around a query's error. *)
Definition wrapped {A} (ctx : string) (m : Q A) : Q A :=
  attempt m mret (fun e => fail (EWrap ctx e)).

(** ** SELECT *)

(** The rows of a keyed table, in scan order. *)
Definition rows_of {K V} `{Countable K} (v : View) (t : gmap K V) : list V :=
  scan_rows (vw_scan v) (map_to_list t).*2.

(** [ORDER BY]: [le] compares two rows by the terms. *)
Definition sorts_before {V} (le : V -> V -> bool) (a b : V) : Prop := le a b = true.

#[global] Instance sorts_before_dec {V} (le : V -> V -> bool) : RelDecision (sorts_before le) :=
  fun a b => bool_eq_dec _ _.

Definition order_by {V} (le : V -> V -> bool) (l : list V) : list V :=
  merge_sort (sorts_before le) l.

(** [ORDER BY key ASC], [DESC], and a tie broken by further terms. *)
Definition asc {V} (key : V -> Z) (a b : V) : bool := key a <=? key b.
Definition desc {V} (key : V -> Z) (a b : V) : bool := key b <=? key a.
Definition then_by {V} (le le' : V -> V -> bool) (a b : V) : bool :=
  le a b && (negb (le b a) || le' a b).

(** [QueryRow(...).Scan(...)] of a query by primary key. *)
Definition lookup_row {K V} `{Countable K} (k : K) (t : gmap K V) : result V :=
  match t !! k with Some r => Ok r | None => Err ENoRows end.

(** ** internal/repository/list.go *)

Record ListOpts : Type := mkListOpts {
  Limit : Z;
  Offset : Z;
  Sort : string
}.

(** Whether [orderClause] answers ["ASC"]; every other sort is ["DESC"]. *)
Definition orderClause (sort : string) : bool := String.eqb sort "asc".

Definition ordered {V} (sort : string) (key : V -> Z) : V -> V -> bool :=
  if orderClause sort then asc key else desc key.

(** [LIMIT l OFFSET o]: PostgreSQL rejects a negative one of either. *)
Definition limit_offset {V} (limit offset : Z) (l : list V) : result (list V) :=
  if limit <? 0 then Err (EMsg "LIMIT must not be negative")
  else if offset <? 0 then Err (EMsg "OFFSET must not be negative")
  else Ok (firstn (Z.to_nat limit) (skipn (Z.to_nat offset) l)).

(** The page statement of a List method: sorted rows cut to the page. *)
Definition select_page {V} (le : V -> V -> bool) (opts : ListOpts) (rows : list V)
  : result (list V) :=
  limit_offset (Limit opts) (Offset opts) (order_by le rows).

Definition count {V} (l : list V) : Z := Z.of_nat (length l).

(** [fallbackCount]: a [SELECT COUNT] over the same condition. *)
Definition fallbackCount {V} (rows : View -> list V) : Q Z :=
  statement (fun v => Ok (count (rows v))).

(** The List methods that count with [COUNT] [OVER ()]: the total is scanned from the rows
    of the page, so an empty page leaves it 0, and one past the first page asks again. *)
Definition list_windowed {V} (rows : View -> list V) (le : View -> V -> V -> bool)
    (opts : ListOpts) : Q (list V * Z) :=
  page ← statement (fun v =>
           out ← select_page (le v) opts (rows v);
           Ok (out, match out with [] => 0 | _ => count (rows v) end));
  let '(out, total) := page in
  match out with
  | [] => if 0 <? Offset opts then total' ← fallbackCount rows; mret (out, total')
          else mret (out, total)
  | _ => mret (out, total)
  end.

(** [if arg == "" { return ..., errors.New(msg) }] *)
Definition required {A} (arg msg : string) (m : Q A) : Q A :=
  if str_empty arg then fail (EMsg msg) else m.
