(* ===== verification/ListQueries.v ===== *)
(** The read methods of internal/repository that the API calls, one Module per repository
    as in RepoLedger.v and its siblings, which hold the methods that write. A method that
    issues one statement is one [statement]; the [GetBy...] methods repeat the lookups of
    the write side as statements of a pool. Serial id columns are not tracked by the
    tables: a vote's is the one it was built with, a cumulative reward's is 0. *)

From S2P Require Import Prelude.
From S2P Require Import Models.
From S2P Require Import RepoLedger.
From S2P Require Import RepoContracts.
From S2P Require Import RepoBridge.
From S2P Require Import Database.
From S2P Require Import Queries.
#[local] Open Scope string_scope.
#[local] Open Scope Z_scope.

(** ** momentum.go *)

Module MomentumQueries.
(** The height is Go's [uint64]: one above BIGINT's range cannot be sent as a parameter. *)
Definition GetByHeight (height : Z) : Q Momentum :=
  statement (fun v => _ ← check_range (in_int64 height);
                      lookup_row height (db_momentums (vw_db v))).

Definition GetLatest : Q Momentum :=
  statement (fun v => match order_by (desc mom_Height) (rows_of v (db_momentums (vw_db v))) with
                      | [] => Err ENoRows
                      | m :: _ => Ok m
                      end).

(** [SELECT MAX(height)], NULL read as 0. *)
Definition max_height_total : Q Z :=
  statement (fun v =>
    Ok match MomentumRepository.max_height (db_momentums (vw_db v)) with
       | Some h => h
       | None => 0
       end).

Definition List (opts : ListOpts) : Q (list Momentum * Z) :=
  out ← statement (fun v => select_page (ordered (Sort opts) mom_Height) opts
                              (rows_of v (db_momentums (vw_db v))));
  total ← max_height_total;
  mret (out, total).

Definition by_producer (producer : string) (v : View) : list Momentum :=
  List.filter (fun m => String.eqb (mom_Producer m) producer)
    (rows_of v (db_momentums (vw_db v))).

Definition ListByProducer (producer : string) (opts : ListOpts) : Q (list Momentum * Z) :=
  required producer "producer is required"
    (list_windowed (by_producer producer) (fun _ => ordered (Sort opts) mom_Height) opts).

Definition in_heights (from to : Z) (m : Momentum) : bool :=
  (from <=? mom_Height m) && (mom_Height m <=? to).

(** [limit] at or below 0 is no cap. *)
Definition ListByHeightRange (from to limit : Z) : Q (list Momentum) :=
  if to <? from then mret []
  else statement (fun v =>
    _ ← check_range (in_int64 from && in_int64 to);
    let all := order_by (asc mom_Height)
                 (List.filter (in_heights from to) (rows_of v (db_momentums (vw_db v)))) in
    Ok (if 0 <? limit then firstn (Z.to_nat limit) all else all)).
End MomentumQueries.

(** ** account.go *)

Module AccountQueries.
Definition GetByAddress (address : string) : Q Account :=
  statement (fun v => lookup_row address (db_accounts (vw_db v))).
End AccountQueries.

(** ** account_block.go *)

Module AccountBlockQueries.
Definition GetByHash (hash : string) : Q AccountBlock :=
  statement (fun v => lookup_row hash (db_account_blocks (vw_db v))).

(** The total is the planner's estimate, [GREATEST(reltuples, 0)]. *)
Definition List (opts : ListOpts) : Q (list AccountBlock * Z) :=
  out ← statement (fun v => select_page (ordered (Sort opts) ab_MomentumHeight) opts
                              (rows_of v (db_account_blocks (vw_db v))));
  total ← statement (fun v => Ok (Z.max (vw_reltuples v) 0));
  mret (out, total).

Definition touching (address : string) (v : View) : list AccountBlock :=
  List.filter (AccountBlockRepository.touches address)
    (rows_of v (db_account_blocks (vw_db v))).

(** The total is the account's cached counter, 0 where no account row exists. *)
Definition ListByAddress (address : string) (opts : ListOpts) : Q (list AccountBlock * Z) :=
  required address "address is required"
    (out ← statement (fun v => select_page (ordered (Sort opts) ab_MomentumHeight) opts
                                 (touching address v));
     attempt (statement (fun v => acc_TxCount <$> lookup_row address (db_accounts (vw_db v))))
       (fun total => mret (out, total))
       (fun e => if is_no_rows e then mret (out, 0) else fail e)).

Definition in_momentums (from to : Z) (addressFilter : string) (b : AccountBlock) : bool :=
  (from <=? ab_MomentumHeight b) && (ab_MomentumHeight b <=? to)
  && (str_empty addressFilter || AccountBlockRepository.touches addressFilter b).

(** [ORDER BY momentum_height ASC, hash ASC]. *)
Definition by_height_hash (v : View) : AccountBlock -> AccountBlock -> bool :=
  then_by (asc ab_MomentumHeight) (fun a b => vw_collate v (ab_Hash a) (ab_Hash b)).

Definition ListByMomentumHeightRange (from to : Z) (addressFilter : string) (limit : Z)
  : Q (list AccountBlock) :=
  if to <? from then mret []
  else statement (fun v =>
    let all := order_by (by_height_hash v)
                 (List.filter (in_momentums from to addressFilter)
                    (rows_of v (db_account_blocks (vw_db v)))) in
    Ok (if 0 <? limit then firstn (Z.to_nat limit) all else all)).
End AccountBlockQueries.

(** ** balance.go *)

Module BalanceQueries.
Definition ListByAddress (address : string) : Q (list Balance) :=
  required address "address is required"
    (statement (fun v =>
       Ok (order_by (desc bal_Balance)
             (List.filter (fun b => String.eqb (bal_Address b) address)
                (rows_of v (db_balances (vw_db v))))))).

Definition holders (tokenStandard : string) (v : View) : list Balance :=
  List.filter (fun b => String.eqb (bal_TokenStandard b) tokenStandard && (0 <? bal_Balance b))
    (rows_of v (db_balances (vw_db v))).

Definition ListByToken (tokenStandard : string) (opts : ListOpts) : Q (list Balance * Z) :=
  required tokenStandard "token_standard is required"
    (list_windowed (holders tokenStandard) (fun _ => desc bal_Balance) opts).
End BalanceQueries.

(** ** token.go *)

Module TokenQueries.
Definition GetByStandard (tokenStandard : string) : Q Token :=
  required tokenStandard "token_standard is required"
    (statement (fun v => lookup_row tokenStandard (db_tokens (vw_db v)))).

(** [ORDER BY holder_count DESC, token_standard ASC]. *)
Definition by_holders (v : View) : Token -> Token -> bool :=
  then_by (desc tok_HolderCount)
    (fun a b => vw_collate v (tok_TokenStandard a) (tok_TokenStandard b)).

Definition List (opts : ListOpts) : Q (list Token * Z) :=
  list_windowed (fun v => rows_of v (db_tokens (vw_db v))) by_holders opts.
End TokenQueries.

(** ** pillar.go *)

Module PillarQueries.
Definition GetByName (name : string) : Q Pillar :=
  statement (fun v =>
    query_row (List.filter (fun p => String.eqb (pil_Name p) name)
                 (rows_of v (db_pillars (vw_db v))))).

Definition listed (includeRevoked : bool) (v : View) : list Pillar :=
  List.filter (fun p => includeRevoked || negb (pil_IsRevoked p))
    (rows_of v (db_pillars (vw_db v))).

Definition List (includeRevoked : bool) (opts : ListOpts) : Q (list Pillar * Z) :=
  list_windowed (listed includeRevoked) (fun _ => asc pil_Rank) opts.

Record PillarDelegator : Type := mkPillarDelegator {
  pd_Address : string;
  pd_DelegationStartTimestamp : Z
}.

Definition delegators (pillarOwner : string) (v : View) : list PillarDelegator :=
  map (fun a => mkPillarDelegator (acc_Address a) (acc_DelegationStartTimestamp a))
    (List.filter (fun a => String.eqb (acc_Delegate a) pillarOwner)
       (rows_of v (db_accounts (vw_db v)))).

Definition ListDelegators (pillarOwner : string) (opts : ListOpts)
  : Q (list PillarDelegator * Z) :=
  required pillarOwner "pillar owner is required"
    (list_windowed (delegators pillarOwner) (fun _ => asc pd_DelegationStartTimestamp) opts).
End PillarQueries.

(** ** sentinel.go *)

Module SentinelQueries.
Definition listed (activeOnly : bool) (v : View) : list Sentinel :=
  List.filter (fun s => negb activeOnly || sen_Active s) (rows_of v (db_sentinels (vw_db v))).

Definition List (activeOnly : bool) (opts : ListOpts) : Q (list Sentinel * Z) :=
  list_windowed (listed activeOnly) (fun _ => desc sen_RegistrationTimestamp) opts.

Definition GetByOwner (owner : string) : Q Sentinel :=
  statement (fun v => lookup_row owner (db_sentinels (vw_db v))).
End SentinelQueries.

(** ** stake.go *)

Module StakeQueries.
Definition listed (activeOnly : bool) (v : View) : list Stake :=
  List.filter (fun s => negb activeOnly || stk_IsActive s) (rows_of v (db_stakes (vw_db v))).

Definition List (activeOnly : bool) (opts : ListOpts) : Q (list Stake * Z) :=
  list_windowed (listed activeOnly) (fun _ => desc stk_StartTimestamp) opts.

Definition owned (address : string) (activeOnly : bool) (v : View) : list Stake :=
  List.filter (fun s => String.eqb (stk_Address s) address
                        && (negb activeOnly || stk_IsActive s))
    (rows_of v (db_stakes (vw_db v))).

Definition ListByAddress (address : string) (activeOnly : bool) (opts : ListOpts)
  : Q (list Stake * Z) :=
  required address "address is required"
    (list_windowed (owned address activeOnly) (fun _ => desc stk_StartTimestamp) opts).

Definition GetByID (id : string) : Q Stake :=
  statement (fun v => lookup_row id (db_stakes (vw_db v))).
End StakeQueries.

(** ** fusion.go *)

Module FusionQueries.
Definition listed (activeOnly : bool) (v : View) : list Fusion :=
  List.filter (fun f => negb activeOnly || fus_IsActive f) (rows_of v (db_fusions (vw_db v))).

Definition List (activeOnly : bool) (opts : ListOpts) : Q (list Fusion * Z) :=
  list_windowed (listed activeOnly) (fun _ => desc fus_MomentumHeight) opts.

(** The address is the funder or the beneficiary. *)
Definition owned (address : string) (activeOnly : bool) (v : View) : list Fusion :=
  List.filter (fun f => (String.eqb (fus_Address f) address
                         || String.eqb (fus_Beneficiary f) address)
                        && (negb activeOnly || fus_IsActive f))
    (rows_of v (db_fusions (vw_db v))).

Definition ListByAddress (address : string) (activeOnly : bool) (opts : ListOpts)
  : Q (list Fusion * Z) :=
  required address "address is required"
    (list_windowed (owned address activeOnly) (fun _ => desc fus_MomentumHeight) opts).

Definition GetByID (id : string) : Q Fusion :=
  statement (fun v => lookup_row id (db_fusions (vw_db v))).
End FusionQueries.

(** ** reward.go *)

Module RewardQueries.
(** [models.RewardType(rt)] of a stored code. *)
Definition RewardType_of_int (code : Z) : RewardType :=
  match code with
  | 1 => RewardTypeStake
  | 2 => RewardTypeDelegation
  | 3 => RewardTypeLiquidity
  | 4 => RewardTypeSentinel
  | 5 => RewardTypePillar
  | _ => RewardTypeUnknown
  end.

(** A row of cumulative_rewards: its key and its amount. *)
Definition cumulative_row (kv : RewardRepository.key * Z) : CumulativeReward :=
  let '((address, code, tokenStandard), amount) := kv in
  mkCumulativeReward 0 address (RewardType_of_int code) amount tokenStandard.

(** [ORDER BY reward_type ASC, token_standard ASC]. *)
Definition by_type_token (v : View) : CumulativeReward -> CumulativeReward -> bool :=
  then_by (asc (fun r => RewardType_int (cr_RewardType r)))
    (fun a b => vw_collate v (cr_TokenStandard a) (cr_TokenStandard b)).

Definition CumulativeByAddress (address : string) : Q (list CumulativeReward) :=
  required address "address is required"
    (statement (fun v =>
       Ok (order_by (by_type_token v)
             (List.filter (fun r => String.eqb (cr_Address r) address)
                (map cumulative_row
                   (scan_rows (vw_scan v)
                      (map_to_list (db_cumulative_rewards (vw_db v))))))))).

Definition received (address : string) (v : View) : list RewardTransaction :=
  List.filter (fun r => String.eqb (rt_Address r) address)
    (rows_of v (db_reward_transactions (vw_db v))).

Definition HistoryByAddress (address : string) (opts : ListOpts)
  : Q (list RewardTransaction * Z) :=
  required address "address is required"
    (list_windowed (received address) (fun _ => desc rt_MomentumHeight) opts).

Definition GetByAddress (address : string) : Q (list RewardTransaction) :=
  statement (fun v => Ok (order_by (desc rt_MomentumHeight) (received address v))).
End RewardQueries.

(** ** project.go and project_phase.go *)

Module ProjectQueries.
Definition GetByID (id : string) : Q Project :=
  required id "id is required"
    (statement (fun v => lookup_row id (db_projects (vw_db v)))).

Definition List (opts : ListOpts) : Q (list Project * Z) :=
  list_windowed (fun v => rows_of v (db_projects (vw_db v)))
    (fun _ => desc prj_CreationTimestamp) opts.

Definition GetAll : Q (list Project) :=
  statement (fun v => Ok (rows_of v (db_projects (vw_db v)))).
End ProjectQueries.

Module ProjectPhaseQueries.
Definition of_project (projectID : string) (v : View) : list ProjectPhase :=
  order_by (asc ph_CreationTimestamp)
    (List.filter (fun p => String.eqb (ph_ProjectID p) projectID)
       (rows_of v (db_project_phases (vw_db v)))).

Definition ListByProject (projectID : string) : Q (list ProjectPhase) :=
  required projectID "project_id is required"
    (statement (fun v => Ok (of_project projectID v))).
End ProjectPhaseQueries.

(** ** bridge.go and bridge_config.go *)

Module BridgeQueries.
Definition ListWraps (opts : ListOpts) : Q (list WrapTokenRequest * Z) :=
  list_windowed (fun v => rows_of v (db_wraps (vw_db v)))
    (fun _ => desc wrap_CreationMomentumHeight) opts.

Definition wraps_to (address : string) (v : View) : list WrapTokenRequest :=
  List.filter (fun w => String.eqb (wrap_ToAddress w) address)
    (rows_of v (db_wraps (vw_db v))).

Definition ListWrapsByAddress (address : string) (opts : ListOpts)
  : Q (list WrapTokenRequest * Z) :=
  required address "address is required"
    (list_windowed (wraps_to address) (fun _ => desc wrap_CreationMomentumHeight) opts).

Definition ListUnwraps (opts : ListOpts) : Q (list UnwrapTokenRequest * Z) :=
  list_windowed (fun v => rows_of v (db_unwraps (vw_db v)))
    (fun _ => desc unw_RegistrationMomentumHeight) opts.

Definition unwraps_to (address : string) (v : View) : list UnwrapTokenRequest :=
  List.filter (fun u => String.eqb (unw_ToAddress u) address)
    (rows_of v (db_unwraps (vw_db v))).

Definition ListUnwrapsByAddress (address : string) (opts : ListOpts)
  : Q (list UnwrapTokenRequest * Z) :=
  required address "address is required"
    (list_windowed (unwraps_to address) (fun _ => desc unw_RegistrationMomentumHeight) opts).
End BridgeQueries.

Module BridgeConfigQueries.
Definition ListTimeChallenges : Q (list BridgeTimeChallenge) :=
  statement (fun v => Ok (order_by (asc tc_EndHeight) (rows_of v (db_time_challenges (vw_db v))))).
End BridgeConfigQueries.

(** ** htlc.go and swap.go *)

Module HtlcQueries.
Definition GetByID (id : string) : Q Htlc :=
  statement (fun v => lookup_row id (db_htlcs (vw_db v))).

Definition List (opts : ListOpts) : Q (list Htlc * Z) :=
  list_windowed (fun v => rows_of v (db_htlcs (vw_db v)))
    (fun _ => desc htlc_CreationMomentumHeight) opts.
End HtlcQueries.

Module SwapQueries.
Definition ListRetrievals (opts : ListOpts) : Q (list SwapRetrieval * Z) :=
  list_windowed (fun v => rows_of v (db_swap_retrievals (vw_db v)))
    (fun _ => desc sr_MomentumHeight) opts.
End SwapQueries.

(** ** sync_status.go *)

Module SyncStatusQueries.
Definition Get : Q SyncStatus :=
  wrapped "SyncStatusRepository.Get"
    (statement (fun v => match db_sync_status (vw_db v) with
                         | Some s => Ok s
                         | None => Err ENoRows
                         end)).
End SyncStatusQueries.
