(* ===== verification/VoteQueries.v ===== *)
(** The read methods of internal/repository/vote.go: the votes of a project, the report of a
    project's proposals over the active pillars, and one pillar's voting record. The joins
    are written out per vote row: a lateral subquery is a lookup in the rows it ranges over,
    and [COALESCE] takes the first that is not NULL. *)

From S2P Require Import Prelude.
From S2P Require Import Models.
From S2P Require Import RepoContracts.
From S2P Require Import Database.
From S2P Require Import Queries.
From S2P Require Import ListQueries.
#[local] Open Scope string_scope.
#[local] Open Scope Z_scope.

Module VoteReads.

Definition of_project (projectID : string) (v : View) : list Vote :=
  List.filter (fun x => String.eqb (vote_ProjectID x) projectID)
    (rows_of v (db_votes (vw_db v))).

Definition ListByProject (projectID : string) (opts : ListOpts) : Q (list Vote * Z) :=
  required projectID "project_id is required"
    (list_windowed (of_project projectID) (fun _ => desc vote_MomentumHeight) opts).

(** ** The voting report *)

Record ProposalTallyRow : Type := mkProposalTallyRow {
  pt_VotingID : string;
  pt_ByPillar : gmap string Z;
  pt_NoVotePillars : list string
}.

Record PhaseTallyRow : Type := mkPhaseTallyRow {
  pht_PhaseID : string;
  pht_PhaseName : string;
  pht_Tally : ProposalTallyRow
}.

Record ProjectVotingReportRow : Type := mkProjectVotingReportRow {
  vr_ProjectID : string;
  vr_ProjectName : string;
  vr_ActivePillarCount : Z;
  vr_Project : ProposalTallyRow;
  vr_Phases : list PhaseTallyRow
}.

Record phaseMeta : Type := mkphaseMeta {
  pm_id : string;
  pm_votingID : string;
  pm_name : string
}.

Definition loadProjectIdentity (projectID : string) : Q (string * string) :=
  statement (fun v => p ← lookup_row projectID (db_projects (vw_db v));
                      Ok (prj_Name p, prj_VotingID p)).

Definition loadPhaseMetas (projectID : string) : Q (list phaseMeta) :=
  statement (fun v =>
    Ok (map (fun p => mkphaseMeta (ph_ID p) (ph_VotingID p) (ph_Name p))
          (ProjectPhaseQueries.of_project projectID v))).

Definition active_pillars (v : View) : list Pillar :=
  List.filter (fun p => negb (pil_IsRevoked p)) (rows_of v (db_pillars (vw_db v))).

(** [ORDER BY name]. *)
Definition loadActivePillarNames : Q (list string) :=
  statement (fun v => Ok (order_by (vw_collate v) (map pil_Name (active_pillars v)))).

(** [pillars.owner_address = owner AND is_revoked = false], by primary key. *)
Definition active_owner (v : View) (owner : string) : option Pillar :=
  match db_pillars (vw_db v) !! owner with
  | Some p => if pil_IsRevoked p then None else Some p
  | None => None
  end.

(** The lateral subquery on pillar_updates: the owner in the row of the greatest id for the
    producer address at or below the height. *)
Definition hist_owner (v : View) (producer : string) (height : Z) : option string :=
  pu_OwnerAddress <$>
    head (List.filter (fun u => String.eqb (pu_ProducerAddress u) producer
                                && (pu_MomentumHeight u <=? height))
            (rev (db_pillar_updates (vw_db v)))).

(** The lateral subquery on pillars: the best-ranked active one with the producer address. *)
Definition current_producer (v : View) (producer : string) : option Pillar :=
  head (order_by (asc pil_Rank)
          (List.filter (fun p => String.eqb (pil_ProducerAddress p) producer)
             (active_pillars v))).

(** [COALESCE(owner_p.name, hist_p.name, current_producer_p.name)] of a vote's row. *)
Definition pillar_name_of (v : View) (x : Vote) : option string :=
  match active_owner v (vote_VoterAddress x) with
  | Some p => Some (pil_Name p)
  | None =>
      match hist_owner v (vote_VoterAddress x) (vote_MomentumHeight x) with
      | Some owner => pil_Name <$> active_owner v owner
      | None => pil_Name <$> current_producer v (vote_VoterAddress x)
      end
  end.

(** The result rows: (voting id, pillar name, vote). *)
Definition named_votes (votingIDs : list string) (v : View) : list (string * string * Z) :=
  omap (fun x => name ← pillar_name_of v x; Some (vote_VotingID x, name, vote_Vote x))
    (List.filter (fun x => existsb (String.eqb (vote_VotingID x)) votingIDs)
       (rows_of v (db_votes (vw_db v)))).

(** [out[votingID][name] = vote] for each row in turn, from an empty map per voting id. *)
Definition collect_vote (out : gmap string (gmap string Z)) (row : string * string * Z)
  : gmap string (gmap string Z) :=
  let '(vid, name, vote) := row in
  <[vid := <[name := vote]> (default ∅ (out !! vid))]> out.

Definition loadVotesByVotingID (votingIDs : list string) : Q (gmap string (gmap string Z)) :=
  statement (fun v =>
    Ok (fold_left collect_vote (named_votes votingIDs v)
          (fold_left (fun out vid => <[vid := ∅]> out) votingIDs ∅))).

(** [SetNoVote]: the active pillars without an entry in [ByPillar], in order. *)
Definition SetNoVote (activePillars : list string) (t : ProposalTallyRow) : ProposalTallyRow :=
  mkProposalTallyRow (pt_VotingID t) (pt_ByPillar t)
    (pt_NoVotePillars t
     ++ List.filter (fun name => match pt_ByPillar t !! name with
                                 | Some _ => false
                                 | None => true
                                 end) activePillars)%list.

Definition tally (votes : gmap string (gmap string Z)) (pillarNames : list string)
    (votingID : string) : ProposalTallyRow :=
  SetNoVote pillarNames (mkProposalTallyRow votingID (default ∅ (votes !! votingID)) []).

Definition ProjectVotingReport (projectID : string) : Q ProjectVotingReportRow :=
  required projectID "project_id is required"
    (ident ← loadProjectIdentity projectID;
     let '(projectName, projectVotingID) := ident in
     phases ← loadPhaseMetas projectID;
     pillarNames ← loadActivePillarNames;
     votes ← loadVotesByVotingID (projectVotingID :: map pm_votingID phases);
     mret (mkProjectVotingReportRow projectID projectName (count pillarNames)
             (tally votes pillarNames projectVotingID)
             (map (fun p => mkPhaseTallyRow (pm_id p) (pm_name p)
                              (tally votes pillarNames (pm_votingID p))) phases))).

(** ** One pillar's record *)

Record PillarVoteRow : Type := mkPillarVoteRow {
  pv_VotingID : string;
  pv_Vote : Z;
  pv_MomentumHeight : Z;
  pv_MomentumTimestamp : Z;
  pv_ProjectID : string;
  pv_PhaseID : string;
  pv_ProjectName : string;
  pv_PhaseName : string
}.

Record PillarVotingHistoryRow : Type := mkPillarVotingHistoryRow {
  ph_PillarName : string;
  ph_PillarOwner : string;
  ph_Votes : list PillarVoteRow
}.

(** [WHERE] of the joined query: cast from the owner address; or from a producer address
    that was the owner's pillar at the time; or from the current producer address with no
    record of the time. *)
Definition cast_by (v : View) (owner currentProducer : string) (x : Vote) : bool :=
  let hist := hist_owner v (vote_VoterAddress x) (vote_MomentumHeight x) in
  String.eqb (vote_VoterAddress x) owner
  || bool_decide (hist = Some owner)
  || (String.eqb (vote_VoterAddress x) currentProducer && bool_decide (hist = None)).

(** The two [LEFT JOIN]s, by primary key, with [COALESCE(name, '')]. *)
Definition vote_entry (v : View) (x : Vote) : PillarVoteRow :=
  mkPillarVoteRow (vote_VotingID x) (vote_Vote x) (vote_MomentumHeight x)
    (vote_MomentumTimestamp x) (vote_ProjectID x) (vote_PhaseID x)
    (default "" (prj_Name <$> db_projects (vw_db v) !! vote_ProjectID x))
    (default "" (ph_Name <$> db_project_phases (vw_db v) !! vote_PhaseID x)).

Definition PillarVotingHistory (pillarName : string) : Q PillarVotingHistoryRow :=
  required pillarName "pillar name is required"
    (pillar ← statement (fun v =>
       query_row (List.filter (fun p => String.eqb (pil_Name p) pillarName)
                    (rows_of v (db_pillars (vw_db v)))));
     votes ← statement (fun v =>
       Ok (map (vote_entry v)
             (order_by (desc vote_MomentumTimestamp)
                (List.filter (cast_by v (pil_OwnerAddress pillar) (pil_ProducerAddress pillar))
                   (rows_of v (db_votes (vw_db v)))))));
     mret (mkPillarVotingHistoryRow pillarName (pil_OwnerAddress pillar) votes)).
End VoteReads.
