(* ===== verification/Text.v ===== *)
(** The parts of Go's [strings] and [strconv] the API and the configuration use, on byte
    strings: unsigned and boolean parsing, trimming, splitting and joining, case folding.
    Signed parsing and decimal printing are in Prelude.v. *)

From S2P Require Import Prelude.
From S2P Require Import Json.
#[local] Open Scope string_scope.
#[local] Open Scope Z_scope.

(** ** strconv *)

(** [strconv.ParseUint(s, 10, 64)]: digits only, no sign. *)
Definition parse_uint64 (s : string) : option Z :=
  match parse_nonempty s with
  | Some z => if z <=? max_uint64 then Some z else None
  | None => None
  end.

(** [strconv.ParseBool]. *)
Definition parse_bool (s : string) : option bool :=
  if existsb (String.eqb s) ["1"; "t"; "T"; "true"; "TRUE"; "True"] then Some true
  else if existsb (String.eqb s) ["0"; "f"; "F"; "false"; "FALSE"; "False"] then Some false
  else None.

(** ** White space *)

Definition bytes_of (codes : list nat) : string :=
  fold_right (fun n s => String (ascii_of_nat n) s) "" codes.

(** [unicode.IsSpace], as the UTF-8 encodings it holds of: six ASCII characters, U+0085,
    U+00A0, U+1680, U+2000 to U+200A, U+2028, U+2029, U+202F, U+205F and U+3000. *)
Definition space_seqs : list string :=
  (map (fun n => bytes_of [n]) [9; 10; 11; 12; 13; 32]
   ++ [bytes_of [194; 133]; bytes_of [194; 160]; bytes_of [225; 154; 128]]
   ++ map (fun n => bytes_of [226; 128; n]) (seq 128 11 ++ [168; 169; 175])
   ++ [bytes_of [226; 129; 159]; bytes_of [227; 128; 128]])%nat%list.

(** The rest of a string after the first of [seqs] it starts with. *)
Fixpoint strip_any (seqs : list string) (s : string) : option string :=
  match seqs with
  | [] => None
  | p :: seqs' => match strip_prefix p s with
                  | Some rest => Some rest
                  | None => strip_any seqs' s
                  end
  end.

Fixpoint trim_left_fuel (fuel : nat) (seqs : list string) (s : string) : string :=
  match fuel with
  | O => s
  | S fuel' => match strip_any seqs s with
               | Some rest => trim_left_fuel fuel' seqs rest
               | None => s
               end
  end.

Definition trim_left (seqs : list string) (s : string) : string :=
  trim_left_fuel (String.length s) seqs s.

(** [strings.TrimSpace]. An encoding ends a string exactly when its reverse starts the
    reversed string. *)
Definition trim_space (s : string) : string :=
  String.rev (trim_left (map String.rev space_seqs)
                (String.rev (trim_left space_seqs s))).

(** [strings.Fields]: the maximal runs without white space. No byte inside an encoding
    starts another, so the scan may go byte by byte. *)
Fixpoint fields_fuel (fuel : nat) (word s : string) : list string :=
  let flush := if str_empty word then [] else [word] in
  match fuel, s with
  | O, _ | _, EmptyString => flush
  | S fuel', String c s' =>
      match strip_any space_seqs s with
      | Some rest => (flush ++ fields_fuel fuel' "" rest)%list
      | None => fields_fuel fuel' (word +:+ String c "") s'
      end
  end.

Definition fields (s : string) : list string := fields_fuel (String.length s) "" s.

(** ** Splitting and joining *)

(** [strings.Join]. *)
Definition join (sep : string) (l : list string) : string := String.concat sep l.

(** [strings.Split(s, sep)] for a one-byte separator. *)
Fixpoint split_char (sep : ascii) (s : string) : list string :=
  match s with
  | EmptyString => [""]
  | String c s' =>
      if Ascii.eqb c sep then "" :: split_char sep s'
      else match split_char sep s' with
           | w :: ws => String c w :: ws
           | [] => [String c ""]
           end
  end.

(** ** Case *)

(** [strings.ToLower] of an ASCII byte. *)
Definition lower (c : ascii) : ascii :=
  let n := nat_of_ascii c in
  if Nat.leb 65 n && Nat.leb n 90 then ascii_of_nat (n + 32) else c.

Fixpoint to_lower (s : string) : string :=
  match s with EmptyString => "" | String c s' => String (lower c) (to_lower s') end.

(** [strings.EqualFold] where one side is ASCII without [k] and [s], the two letters that
    also fold to a character outside ASCII. *)
Definition equal_fold (a b : string) : bool := String.eqb (to_lower a) (to_lower b).

(** ** Concatenation *)

Lemma string_app_cons c (a b : string) : String c a +:+ b = String c (a +:+ b).
Proof. done. Qed.

Lemma string_nil_app (a : string) : "" +:+ a = a.
Proof. done. Qed.

Lemma string_app_assoc (a b c : string) : (a +:+ b) +:+ c = a +:+ (b +:+ c).
Proof. induction a as [|x a IH]; [done|]. by rewrite !string_app_cons, IH. Qed.

Lemma string_app_nil (a : string) : a +:+ "" = a.
Proof. induction a as [|x a IH]; [done|]. by rewrite string_app_cons, IH. Qed.

Lemma length_string_app (a b : string) :
  String.length (a +:+ b) = (String.length a + String.length b)%nat.
Proof. induction a as [|x a IH]; [done|]. rewrite string_app_cons. cbn. by rewrite IH. Qed.

Lemma length_string_cons c (s : string) : String.length (String c s) = S (String.length s).
Proof. done. Qed.

(** Bounds on lengths of concatenations. *)
Ltac string_length :=
  rewrite ?length_string_app, ?length_string_cons, ?length_string_app, ?length_string_cons,
    ?length_string_app, ?length_string_cons in *; cbn [String.length] in *; lia.

Lemma strip_prefix_app p s : strip_prefix p (p +:+ s) = Some s.
Proof.
  induction p as [|c p IH]; [done|]. rewrite string_app_cons. cbn [strip_prefix].
  by rewrite Ascii.eqb_refl.
Qed.

Example trim_space_ex :
  trim_space (bytes_of [32; 194; 160; 97; 32; 98; 226; 128; 168; 10]%nat) = "a b".
Proof. vm_compute. reflexivity. Qed.

Example fields_ex : fields "  read   write " = ["read"; "write"].
Proof. vm_compute. reflexivity. Qed.

Example split_char_ex : split_char "," "a,,b" = ["a"; ""; "b"].
Proof. vm_compute. reflexivity. Qed.

(** ** Printing and parsing integers *)

Lemma digit_value_char n : (n < 10)%N -> digit_value (pretty_N_char n) = Some (Z.of_N n).
Proof.
  intros H. destruct n as [|p]; [reflexivity|].
  do 4 (try destruct p as [p|p|]); first [reflexivity|lia].
Qed.

Lemma parse_digits_pretty x s :
  parse_digits 0 (pretty_N_go x s) = parse_digits (Z.of_N x) s.
Proof.
  revert s. induction (N.lt_wf_0 x) as [x _ IH]. intros s.
  destruct (decide (x = 0)%N) as [->|Hx]; [by rewrite pretty_N_go_0|].
  rewrite pretty_N_go_step by lia.
  rewrite IH by (apply N.div_lt; lia). cbn [parse_digits].
  rewrite digit_value_char by (apply N.mod_lt; lia). f_equal.
  rewrite (N.div_mod x 10) at 3 by lia. lia.
Qed.

Lemma parse_nonempty_pretty p : parse_nonempty (pretty (N.pos p)) = Some (Zpos p).
Proof.
  unfold pretty, pretty_N. rewrite decide_False by done.
  pose proof (parse_digits_pretty (N.pos p) "") as H. cbn [parse_digits Z.of_N] in H.
  unfold parse_nonempty. destruct (pretty_N_go (N.pos p) "") eqn:E; [|done].
  cbn in H. congruence.
Qed.

Lemma parse_big_format z : parse_big (format_int z) = Some z.
Proof.
  unfold format_int. destruct z as [|p|p]; [done| |].
  - change (parse_big (pretty (N.pos p)) = Some (Z.pos p)).
    pose proof (parse_nonempty_pretty p) as H.
    destruct (pretty (N.pos p)) as [|c s]; [done|].
    assert (c <> "-"%char /\ c <> "+"%char) as [H1 H2].
    { cbn in H. destruct (digit_value c) eqn:D; [|done]. split; intros ->; done. }
    unfold parse_big. destruct c as [[] [] [] [] [] [] [] []];
      first [exact H | destruct (H1 eq_refl) | destruct (H2 eq_refl)].
  - change (Z.opp <$> parse_nonempty (pretty (N.pos p)) = Some (Z.neg p)).
    by rewrite parse_nonempty_pretty.
Qed.

Lemma parse_int64_format z : in_int64 z = true -> parse_int64 (format_int z) = Some z.
Proof. intros H. unfold parse_int64. by rewrite parse_big_format, H. Qed.

Lemma parse_uint64_format z :
  0 <= z <= max_uint64 -> parse_uint64 (format_int z) = Some z.
Proof.
  intros H. unfold parse_uint64, format_int. destruct z as [|p|p]; [done| |lia].
  change (pretty (Z.pos p)) with (pretty (N.pos p)).
  rewrite parse_nonempty_pretty. by rewrite (proj2 (Z.leb_le _ _)) by lia.
Qed.

Lemma format_int_nonempty z : str_empty (format_int z) = false.
Proof.
  destruct (format_int z) eqn:E; [|done].
  pose proof (parse_big_format z) as H. by rewrite E in H.
Qed.
