(* ===== verification/Dto.v ===== *)
(** The wire types of internal/api/dto and their constructors from the rows. A JSON field
    that holds an amount is a decimal string ([Amount]); the names and the [omitempty] marks
    of the fields belong to the encoding, which Marshal.v has, and a nil slice and an empty
    one are both the empty list here. *)

From Stdlib Require Import Floats.SpecFloat.
From S2P Require Import Prelude.
From S2P Require Import Models.
From S2P Require Import ListQueries.
#[local] Open Scope string_scope.
#[local] Open Scope Z_scope.

Module dto.

(** ** amount.go *)

Definition Amount : Type := string.

Definition AmountFromInt64 (v : Z) : Amount := format_int v.

(** ** account.go *)

Record Account : Type := mkAccount {
  acc_Address : string;
  acc_BlockCount : Z;
  acc_PublicKey : string;
  acc_Delegate : string;
  acc_DelegationStartTimestamp : Z;
  acc_GenesisZnnBalance : Amount;
  acc_GenesisQsrBalance : Amount;
  acc_ZnnSent : Amount;
  acc_ZnnReceived : Amount;
  acc_QsrSent : Amount;
  acc_QsrReceived : Amount;
  acc_FirstActiveAt : option Z;
  acc_LastActiveAt : option Z;
  acc_FirstSeen : option Z;
  acc_LastSeen : option Z;
  acc_TxCount : Z
}.

Definition FromAccount (x : Models.Account) : Account :=
  mkAccount (Models.acc_Address x) (Models.acc_BlockCount x) (Models.acc_PublicKey x)
    (Models.acc_Delegate x) (Models.acc_DelegationStartTimestamp x)
    (AmountFromInt64 (Models.acc_GenesisZnnBalance x))
    (AmountFromInt64 (Models.acc_GenesisQsrBalance x))
    (AmountFromInt64 (Models.acc_ZnnSent x)) (AmountFromInt64 (Models.acc_ZnnReceived x))
    (AmountFromInt64 (Models.acc_QsrSent x)) (AmountFromInt64 (Models.acc_QsrReceived x))
    (Models.acc_FirstActiveAt x) (Models.acc_LastActiveAt x) (Models.acc_FirstSeen x)
    (Models.acc_LastSeen x) (Models.acc_TxCount x).

(** ** account_block.go *)

Record AccountBlock : Type := mkAccountBlock {
  ab_Hash : string;
  ab_MomentumHash : string;
  ab_MomentumTimestamp : Z;
  ab_MomentumHeight : Z;
  ab_BlockType : Z;
  ab_Height : Z;
  ab_Address : string;
  ab_ToAddress : string;
  ab_Amount : Amount;
  ab_TokenStandard : string;
  ab_Data : string;
  ab_Method : string;
  ab_Input : string;
  ab_PairedAccountBlock : string;
  ab_DescendantOf : string
}.

Definition FromAccountBlock (x : Models.AccountBlock) : AccountBlock :=
  mkAccountBlock (Models.ab_Hash x) (Models.ab_MomentumHash x)
    (Models.ab_MomentumTimestamp x) (Models.ab_MomentumHeight x) (Models.ab_BlockType x)
    (Models.ab_Height x) (Models.ab_Address x) (Models.ab_ToAddress x)
    (AmountFromInt64 (Models.ab_Amount x)) (Models.ab_TokenStandard x) (Models.ab_Data x)
    (Models.ab_Method x) (Models.ab_Input x) (Models.ab_PairedAccountBlock x)
    (Models.ab_DescendantOf x).

Definition FromAccountBlocks (l : list Models.AccountBlock) : list AccountBlock :=
  map FromAccountBlock l.

(** ** balance.go *)

Record Balance : Type := mkBalance {
  bal_Address : string;
  bal_TokenStandard : string;
  bal_Balance : Amount;
  bal_LastUpdatedTimestamp : Z
}.

Definition FromBalance (x : Models.Balance) : Balance :=
  mkBalance (Models.bal_Address x) (Models.bal_TokenStandard x)
    (AmountFromInt64 (Models.bal_Balance x)) (Models.bal_LastUpdatedTimestamp x).

Definition FromBalances (l : list Models.Balance) : list Balance := map FromBalance l.

(** ** bridge.go *)

Record WrapTokenRequest : Type := mkWrapTokenRequest {
  wrap_ID : string;
  wrap_NetworkClass : Z;
  wrap_ChainID : Z;
  wrap_ToAddress : string;
  wrap_TokenStandard : string;
  wrap_TokenAddress : string;
  wrap_Amount : Amount;
  wrap_Fee : Amount;
  wrap_Signature : string;
  wrap_CreationMomentumHeight : Z;
  wrap_ConfirmationsToFinality : Z
}.

Definition FromWrapTokenRequest (x : Models.WrapTokenRequest) : WrapTokenRequest :=
  mkWrapTokenRequest (Models.wrap_ID x) (Models.wrap_NetworkClass x) (Models.wrap_ChainID x)
    (Models.wrap_ToAddress x) (Models.wrap_TokenStandard x) (Models.wrap_TokenAddress x)
    (AmountFromInt64 (Models.wrap_Amount x)) (AmountFromInt64 (Models.wrap_Fee x))
    (Models.wrap_Signature x) (Models.wrap_CreationMomentumHeight x)
    (Models.wrap_ConfirmationsToFinality x).

Definition FromWrapTokenRequests (l : list Models.WrapTokenRequest) : list WrapTokenRequest :=
  map FromWrapTokenRequest l.

Record UnwrapTokenRequest : Type := mkUnwrapTokenRequest {
  unw_TransactionHash : string;
  unw_LogIndex : Z;
  unw_NetworkClass : Z;
  unw_ChainID : Z;
  unw_ToAddress : string;
  unw_TokenStandard : string;
  unw_TokenAddress : string;
  unw_Amount : Amount;
  unw_Signature : string;
  unw_RegistrationMomentumHeight : Z;
  unw_Redeemed : bool;
  unw_Revoked : bool;
  unw_RedeemableIn : Z
}.

Definition FromUnwrapTokenRequest (x : Models.UnwrapTokenRequest) : UnwrapTokenRequest :=
  mkUnwrapTokenRequest (Models.unw_TransactionHash x) (Models.unw_LogIndex x)
    (Models.unw_NetworkClass x) (Models.unw_ChainID x) (Models.unw_ToAddress x)
    (Models.unw_TokenStandard x) (Models.unw_TokenAddress x)
    (AmountFromInt64 (Models.unw_Amount x)) (Models.unw_Signature x)
    (Models.unw_RegistrationMomentumHeight x) (Models.unw_Redeemed x) (Models.unw_Revoked x)
    (Models.unw_RedeemableIn x).

Definition FromUnwrapTokenRequests (l : list Models.UnwrapTokenRequest) : list UnwrapTokenRequest :=
  map FromUnwrapTokenRequest l.

(** ** fusion.go *)

Record Fusion : Type := mkFusion {
  fus_ID : string;
  fus_Address : string;
  fus_Beneficiary : string;
  fus_MomentumHash : string;
  fus_MomentumTimestamp : Z;
  fus_MomentumHeight : Z;
  fus_QsrAmount : Amount;
  fus_ExpirationHeight : Z;
  fus_IsActive : bool;
  fus_CancelID : string
}.

Definition FromFusion (x : Models.Fusion) : Fusion :=
  mkFusion (Models.fus_ID x) (Models.fus_Address x) (Models.fus_Beneficiary x)
    (Models.fus_MomentumHash x) (Models.fus_MomentumTimestamp x)
    (Models.fus_MomentumHeight x) (AmountFromInt64 (Models.fus_QsrAmount x))
    (Models.fus_ExpirationHeight x) (Models.fus_IsActive x) (Models.fus_CancelID x).

Definition FromFusions (l : list Models.Fusion) : list Fusion := map FromFusion l.

(** ** momentum.go *)

Record Momentum : Type := mkMomentum {
  mom_Height : Z;
  mom_Hash : string;
  mom_Timestamp : Z;
  mom_TxCount : Z;
  mom_Producer : string;
  mom_ProducerOwner : string;
  mom_ProducerName : string
}.

Definition FromMomentum (x : Models.Momentum) : Momentum :=
  mkMomentum (Models.mom_Height x) (Models.mom_Hash x) (Models.mom_Timestamp x)
    (Models.mom_TxCount x) (Models.mom_Producer x) (Models.mom_ProducerOwner x)
    (Models.mom_ProducerName x).

Definition FromMomentums (l : list Models.Momentum) : list Momentum := map FromMomentum l.

(** ** pagination.go *)

Record Pagination : Type := mkPagination {
  pag_Page : Z;
  pag_PageSize : Z;
  pag_Total : Z
}.

(** The envelope of every collection endpoint. *)
Record Page (A : Type) : Type := mkPage {
  page_Data : list A;
  page_Pagination : Pagination
}.
Arguments mkPage {A}.
Arguments page_Data {A}.
Arguments page_Pagination {A}.

Definition NewPage {A} (data : list A) (page pageSize total : Z) : Page A :=
  mkPage data (mkPagination page pageSize total).

(** ** pillar.go *)

Record Pillar : Type := mkPillar {
  pil_OwnerAddress : string;
  pil_ProducerAddress : string;
  pil_WithdrawAddress : string;
  pil_Name : string;
  pil_Rank : Z;
  pil_GiveMomentumRewardPercentage : Z;
  pil_GiveDelegateRewardPercentage : Z;
  pil_IsRevocable : bool;
  pil_RevokeCooldown : Z;
  pil_RevokeTimestamp : Z;
  pil_Weight : Amount;
  pil_EpochProducedMomentums : Z;
  pil_EpochExpectedMomentums : Z;
  pil_SlotCostQsr : Amount;
  pil_SpawnTimestamp : Z;
  pil_VotingActivity : spec_float;
  pil_ProducedMomentumCount : Z;
  pil_IsRevoked : bool
}.

Definition FromPillar (x : Models.Pillar) : Pillar :=
  mkPillar (Models.pil_OwnerAddress x) (Models.pil_ProducerAddress x)
    (Models.pil_WithdrawAddress x) (Models.pil_Name x) (Models.pil_Rank x)
    (Models.pil_GiveMomentumRewardPercentage x) (Models.pil_GiveDelegateRewardPercentage x)
    (Models.pil_IsRevocable x) (Models.pil_RevokeCooldown x) (Models.pil_RevokeTimestamp x)
    (AmountFromInt64 (Models.pil_Weight x)) (Models.pil_EpochProducedMomentums x)
    (Models.pil_EpochExpectedMomentums x) (AmountFromInt64 (Models.pil_SlotCostQsr x))
    (Models.pil_SpawnTimestamp x) (Models.pil_VotingActivity x)
    (Models.pil_ProducedMomentumCount x) (Models.pil_IsRevoked x).

Definition FromPillars (l : list Models.Pillar) : list Pillar := map FromPillar l.

Record PillarDelegator : Type := mkPillarDelegator {
  pd_Address : string;
  pd_DelegationStartTimestamp : Z
}.

Definition FromPillarDelegators (l : list PillarQueries.PillarDelegator)
  : list PillarDelegator :=
  map (fun d => mkPillarDelegator (PillarQueries.pd_Address d)
                  (PillarQueries.pd_DelegationStartTimestamp d)) l.

(** ** project.go *)

Record Project : Type := mkProject {
  prj_ID : string;
  prj_VotingID : string;
  prj_Owner : string;
  prj_Name : string;
  prj_Description : string;
  prj_URL : string;
  prj_ZnnFundsNeeded : Amount;
  prj_QsrFundsNeeded : Amount;
  prj_CreationTimestamp : Z;
  prj_LastUpdateTimestamp : Z;
  prj_Status : Z;
  prj_YesVotes : Z;
  prj_NoVotes : Z;
  prj_TotalVotes : Z
}.

Definition FromProject (x : Models.Project) : Project :=
  mkProject (Models.prj_ID x) (Models.prj_VotingID x) (Models.prj_Owner x)
    (Models.prj_Name x) (Models.prj_Description x) (Models.prj_URL x)
    (AmountFromInt64 (Models.prj_ZnnFundsNeeded x))
    (AmountFromInt64 (Models.prj_QsrFundsNeeded x)) (Models.prj_CreationTimestamp x)
    (Models.prj_LastUpdateTimestamp x) (Models.prj_Status x) (Models.prj_YesVotes x)
    (Models.prj_NoVotes x) (Models.prj_TotalVotes x).

Definition FromProjects (l : list Models.Project) : list Project := map FromProject l.

Record ProjectPhase : Type := mkProjectPhase {
  ph_ID : string;
  ph_ProjectID : string;
  ph_VotingID : string;
  ph_Name : string;
  ph_Description : string;
  ph_URL : string;
  ph_ZnnFundsNeeded : Amount;
  ph_QsrFundsNeeded : Amount;
  ph_CreationTimestamp : Z;
  ph_AcceptedTimestamp : Z;
  ph_Status : Z;
  ph_YesVotes : Z;
  ph_NoVotes : Z;
  ph_TotalVotes : Z
}.

Definition FromProjectPhase (x : Models.ProjectPhase) : ProjectPhase :=
  mkProjectPhase (Models.ph_ID x) (Models.ph_ProjectID x) (Models.ph_VotingID x)
    (Models.ph_Name x) (Models.ph_Description x) (Models.ph_URL x)
    (AmountFromInt64 (Models.ph_ZnnFundsNeeded x))
    (AmountFromInt64 (Models.ph_QsrFundsNeeded x)) (Models.ph_CreationTimestamp x)
    (Models.ph_AcceptedTimestamp x) (Models.ph_Status x) (Models.ph_YesVotes x)
    (Models.ph_NoVotes x) (Models.ph_TotalVotes x).

Definition FromProjectPhases (l : list Models.ProjectPhase) : list ProjectPhase :=
  map FromProjectPhase l.

(** ** reward.go *)

Record CumulativeReward : Type := mkCumulativeReward {
  cr_Address : string;
  cr_RewardType : string;
  cr_Amount : Amount;
  cr_TokenStandard : string
}.

Definition FromCumulativeReward (x : Models.CumulativeReward) : CumulativeReward :=
  mkCumulativeReward (Models.cr_Address x) (RewardType_String (Models.cr_RewardType x))
    (AmountFromInt64 (Models.cr_Amount x)) (Models.cr_TokenStandard x).

Definition FromCumulativeRewards (l : list Models.CumulativeReward) : list CumulativeReward :=
  map FromCumulativeReward l.

Record RewardTransaction : Type := mkRewardTransaction {
  rt_Hash : string;
  rt_Address : string;
  rt_RewardType : string;
  rt_MomentumTimestamp : Z;
  rt_MomentumHeight : Z;
  rt_AccountHeight : Z;
  rt_Amount : Amount;
  rt_TokenStandard : string;
  rt_SourceAddress : string
}.

Definition FromRewardTransaction (x : Models.RewardTransaction) : RewardTransaction :=
  mkRewardTransaction (Models.rt_Hash x) (Models.rt_Address x)
    (RewardType_String (Models.rt_RewardType x)) (Models.rt_MomentumTimestamp x)
    (Models.rt_MomentumHeight x) (Models.rt_AccountHeight x)
    (AmountFromInt64 (Models.rt_Amount x)) (Models.rt_TokenStandard x)
    (Models.rt_SourceAddress x).

Definition FromRewardTransactions (l : list Models.RewardTransaction) : list RewardTransaction :=
  map FromRewardTransaction l.

(** ** sentinel.go *)

Record Sentinel : Type := mkSentinel {
  sen_Owner : string;
  sen_RegistrationTimestamp : Z;
  sen_IsRevocable : bool;
  sen_RevokeCooldown : string;
  sen_Active : bool
}.

Definition FromSentinel (x : Models.Sentinel) : Sentinel :=
  mkSentinel (Models.sen_Owner x) (Models.sen_RegistrationTimestamp x)
    (Models.sen_IsRevocable x) (Models.sen_RevokeCooldown x) (Models.sen_Active x).

Definition FromSentinels (l : list Models.Sentinel) : list Sentinel := map FromSentinel l.

(** ** stake.go *)

Record Stake : Type := mkStake {
  stk_ID : string;
  stk_Address : string;
  stk_StartTimestamp : Z;
  stk_ExpirationTimestamp : Z;
  stk_ZnnAmount : Amount;
  stk_DurationInSec : Z;
  stk_IsActive : bool;
  stk_CancelID : string
}.

Definition FromStake (x : Models.Stake) : Stake :=
  mkStake (Models.stk_ID x) (Models.stk_Address x) (Models.stk_StartTimestamp x)
    (Models.stk_ExpirationTimestamp x) (AmountFromInt64 (Models.stk_ZnnAmount x))
    (Models.stk_DurationInSec x) (Models.stk_IsActive x) (Models.stk_CancelID x).

Definition FromStakes (l : list Models.Stake) : list Stake := map FromStake l.

(** ** status.go *)

Record Status : Type := mkStatus {
  st_LatestHeight : Z;
  st_LatestTimestamp : Z;
  st_IndexerLagSeconds : Z;
  st_Version : string
}.

(** ** token.go *)

Record Token : Type := mkToken {
  tok_TokenStandard : string;
  tok_Name : string;
  tok_Symbol : string;
  tok_Domain : string;
  tok_Decimals : Z;
  tok_Owner : string;
  tok_TotalSupply : Amount;
  tok_MaxSupply : Amount;
  tok_IsBurnable : bool;
  tok_IsMintable : bool;
  tok_IsUtility : bool;
  tok_TotalBurned : Amount;
  tok_LastUpdateTimestamp : Z;
  tok_HolderCount : Z;
  tok_TransactionCount : Z
}.

Definition FromToken (x : Models.Token) : Token :=
  mkToken (Models.tok_TokenStandard x) (Models.tok_Name x) (Models.tok_Symbol x)
    (Models.tok_Domain x) (Models.tok_Decimals x) (Models.tok_Owner x)
    (AmountFromInt64 (Models.tok_TotalSupply x)) (AmountFromInt64 (Models.tok_MaxSupply x))
    (Models.tok_IsBurnable x) (Models.tok_IsMintable x) (Models.tok_IsUtility x)
    (AmountFromInt64 (Models.tok_TotalBurned x)) (Models.tok_LastUpdateTimestamp x)
    (Models.tok_HolderCount x) (Models.tok_TransactionCount x).

Definition FromTokens (l : list Models.Token) : list Token := map FromToken l.

(** ** vote.go *)

Record Vote : Type := mkVote {
  vote_ID : Z;
  vote_MomentumHash : string;
  vote_MomentumTimestamp : Z;
  vote_MomentumHeight : Z;
  vote_VoterAddress : string;
  vote_ProjectID : string;
  vote_PhaseID : string;
  vote_VotingID : string;
  vote_Vote : Z
}.

Definition FromVote (x : Models.Vote) : Vote :=
  mkVote (Models.vote_ID x) (Models.vote_MomentumHash x) (Models.vote_MomentumTimestamp x)
    (Models.vote_MomentumHeight x) (Models.vote_VoterAddress x) (Models.vote_ProjectID x)
    (Models.vote_PhaseID x) (Models.vote_VotingID x) (Models.vote_Vote x).

Definition FromVotes (l : list Models.Vote) : list Vote := map FromVote l.

(** ** voting_report.go *)

Record ProposalVoteTally : Type := mkProposalVoteTally {
  tally_VotingID : string;
  tally_YesCount : Z;
  tally_NoCount : Z;
  tally_AbstainCount : Z;
  tally_NoVoteCount : Z;
  tally_YesPillars : list string;
  tally_NoPillars : list string;
  tally_AbstainPillars : list string;
  tally_NoVotePillars : list string
}.

Record RawProposalTally : Type := mkRawProposalTally {
  raw_VotingID : string;
  raw_ByPillar : gmap string Z;
  raw_NoVotePillars : list string
}.

Record RawPillarVote : Type := mkRawPillarVote {
  rpv_VotingID : string;
  rpv_Vote : Z;
  rpv_MomentumHeight : Z;
  rpv_MomentumTimestamp : Z;
  rpv_ProjectID : string;
  rpv_PhaseID : string;
  rpv_ProjectName : string;
  rpv_PhaseName : string
}.

Record PhaseVoteTally : Type := mkPhaseVoteTally {
  pht_PhaseID : string;
  pht_PhaseName : string;
  pht_Vote : ProposalVoteTally
}.

Record PillarVoteEntry : Type := mkPillarVoteEntry {
  pve_ProjectID : string;
  pve_ProjectName : string;
  pve_PhaseID : string;
  pve_PhaseName : string;
  pve_VotingID : string;
  pve_Vote : string;
  pve_MomentumHeight : Z;
  pve_MomentumTimestamp : Z
}.

Record PillarVotingHistory : Type := mkPillarVotingHistory {
  pvh_PillarName : string;
  pvh_PillarOwner : string;
  pvh_TotalVotes : Z;
  pvh_YesCount : Z;
  pvh_NoCount : Z;
  pvh_AbstainCount : Z;
  pvh_Votes : list PillarVoteEntry
}.

Record ProjectVotingReport : Type := mkProjectVotingReport {
  pvr_ProjectID : string;
  pvr_ProjectName : string;
  pvr_ActivePillarCount : Z;
  pvr_Project : ProposalVoteTally;
  pvr_Phases : list PhaseVoteTally
}.

Definition VoteCodeToString (code : Z) : string :=
  match code with
  | 0 => "yes"
  | 1 => "no"
  | 2 => "abstain"
  | _ => "unknown"
  end.

(** [sort.Strings]: byte order. *)
Definition string_le (a b : string) : Prop := String.leb a b = true.

#[export] Instance string_le_dec : RelDecision string_le := fun a b => bool_eq_dec _ _.

Definition sort_strings (l : list string) : list string := merge_sort string_le l.

(** The names whose code is [code], in the order of the range over the map. *)
Definition names_with (code : Z) (votes : list (string * Z)) : list string :=
  omap (fun nv => if Z.eqb (snd nv) code then Some (fst nv) else None) votes.

Definition FromProposalTally (r : RawProposalTally) : ProposalVoteTally :=
  let votes := map_to_list (raw_ByPillar r) in
  let yes := sort_strings (names_with 0 votes) in
  let no := sort_strings (names_with 1 votes) in
  let abstain := sort_strings (names_with 2 votes) in
  let len (l : list string) := Z.of_nat (length l) in
  mkProposalVoteTally (raw_VotingID r) (len yes) (len no) (len abstain)
    (len (raw_NoVotePillars r)) yes no abstain (sort_strings (raw_NoVotePillars r)).

Definition FromPhaseTally (phaseID phaseName : string) (r : RawProposalTally)
  : PhaseVoteTally :=
  mkPhaseVoteTally phaseID phaseName (FromProposalTally r).

(** The loop of [FromPillarVotingHistory]: the counters and the entries so far. *)
Definition add_vote (acc : Z * Z * Z * list PillarVoteEntry) (r : RawPillarVote)
  : Z * Z * Z * list PillarVoteEntry :=
  let '(yes, no, abstain, votes) := acc in
  let '(yes, no, abstain) :=
    match rpv_Vote r with
    | 0 => (yes + 1, no, abstain)
    | 1 => (yes, no + 1, abstain)
    | 2 => (yes, no, abstain + 1)
    | _ => (yes, no, abstain)
    end in
  (yes, no, abstain,
   votes ++ [mkPillarVoteEntry (rpv_ProjectID r) (rpv_ProjectName r) (rpv_PhaseID r)
               (rpv_PhaseName r) (rpv_VotingID r) (VoteCodeToString (rpv_Vote r))
               (rpv_MomentumHeight r) (rpv_MomentumTimestamp r)])%list.

Definition FromPillarVotingHistory (pillarName pillarOwner : string)
    (raws : list RawPillarVote) : PillarVotingHistory :=
  let '(yes, no, abstain, votes) := fold_left add_vote raws (0, 0, 0, []) in
  mkPillarVotingHistory pillarName pillarOwner (Z.of_nat (length raws)) yes no abstain votes.
End dto.
