(* ===== verification/Httpx.v ===== *)
(** internal/api/httpx: what a handler reads of a request, the query parameters every
    collection shares, and the two ways of answering, a JSON value or a problem.

    A response's body is the Go value that is marshalled, one [Payload] constructor per type
    the handlers answer with; its text is in Marshal.v. *)

From Stdlib Require Import Floats.SpecFloat.
From S2P Require Import Prelude.
From S2P Require Import Models.
From S2P Require Import Queries.
From S2P Require Import Dto.
From S2P Require Import Text.
#[local] Open Scope string_scope.
#[local] Open Scope Z_scope.

(** ** Requests *)

(** The method and path, the decoded query pairs in their order, the headers and the path
    parameters the router extracted. *)
Record Request : Type := mkRequest {
  rq_Method : string;
  rq_Path : string;
  rq_Query : list (string * string);
  rq_Header : gmap string string;
  rq_Params : gmap string string
}.

(** [r.URL.Query().Get(name)]: the first value, or the empty string. *)
Definition query_get (r : Request) (name : string) : string :=
  match List.filter (fun kv => String.eqb (fst kv) name) (rq_Query r) with
  | [] => ""
  | kv :: _ => snd kv
  end.

Definition URLParam (r : Request) (name : string) : string := get_str (rq_Params r) name.

Definition header_get (r : Request) (name : string) : string := get_str (rq_Header r) name.

(** ** query.go *)

Definition DefaultPageSize : Z := 50.
Definition MaxPageSize : Z := 200.

Record Pagination : Type := mkPagination {
  Page : Z;
  PageSize : Z
}.

(** Go's [int] is 64 bits: the product wraps. *)
Definition Pagination_Offset (p : Pagination) : Z := int64 (int64 (Page p - 1) * PageSize p).

(** [if v != "" { if n, err := strconv.Atoi(v); err == nil && n > 0 { ... } }] *)
Definition positive_param (v : string) : option Z :=
  if str_empty v then None
  else match parse_int64 v with
       | Some n => if 0 <? n then Some n else None
       | None => None
       end.

Definition ParsePagination (r : Request) : Pagination :=
  mkPagination
    (match positive_param (query_get r "page") with Some n => n | None => 1 end)
    (match positive_param (query_get r "page_size") with
     | Some n => if MaxPageSize <? n then MaxPageSize else n
     | None => DefaultPageSize
     end).

Definition ParseSort (r : Request) (def : string) : string :=
  let v := query_get r "sort" in
  if String.eqb v "asc" then "asc" else if String.eqb v "desc" then "desc" else def.

(** ** respond.go *)

Record Problem : Type := mkProblem {
  pb_Type : string;
  pb_Title : string;
  pb_Status : Z;
  pb_Detail : string;
  pb_Instance : string;
  pb_Code : string
}.

(** The values of a [map[string]any] the router's own endpoints answer. *)
Inductive Member : Type :=
| MStr (s : string)
| MInt (z : Z).

Inductive Payload : Type :=
| PObject (fields : list (string * Member))
| PStatus (s : dto.Status)
| PMomentum (m : dto.Momentum)
| PMomentums (p : dto.Page dto.Momentum)
| PAccount (a : dto.Account)
| PAccountBlock (b : dto.AccountBlock)
| PAccountBlocks (p : dto.Page dto.AccountBlock)
| PBalances (data : list dto.Balance)
| PHolders (p : dto.Page dto.Balance)
| PToken (t : dto.Token)
| PTokens (p : dto.Page dto.Token)
| PPillar (p : dto.Pillar)
| PPillars (p : dto.Page dto.Pillar)
| PDelegators (p : dto.Page dto.PillarDelegator)
| PPillarVotes (h : dto.PillarVotingHistory)
| PSentinels (p : dto.Page dto.Sentinel)
| PStakes (p : dto.Page dto.Stake)
| PFusions (p : dto.Page dto.Fusion)
| PCumulative (data : list dto.CumulativeReward)
| PRewards (p : dto.Page dto.RewardTransaction)
| PProject (p : dto.Project)
| PProjects (p : dto.Page dto.Project)
| PPhases (data : list dto.ProjectPhase)
| PVotes (p : dto.Page dto.Vote)
| PReport (r : dto.ProjectVotingReport)
| PWraps (p : dto.Page dto.WrapTokenRequest)
| PUnwraps (p : dto.Page dto.UnwrapTokenRequest).

Inductive Body : Type :=
| BJson (p : Payload)
| BProblem (p : Problem).

Record Response : Type := mkResponse {
  rs_Status : Z;
  rs_ContentType : string;
  rs_Body : Body
}.

(** [json.Marshal] refuses a float that is not finite; nothing else a payload holds can
    fail (a block's input is the text of a JSONB column). *)
Definition finite (f : spec_float) : bool :=
  match f with S754_zero _ | S754_finite _ _ _ => true | S754_infinity _ | S754_nan => false end.

Definition marshals (p : Payload) : bool :=
  match p with
  | PPillar x => finite (dto.pil_VotingActivity x)
  | PPillars pg => forallb (fun x => finite (dto.pil_VotingActivity x)) (dto.page_Data pg)
  | _ => true
  end.

(** [http.StatusText], for the statuses the API answers. *)
Definition StatusText (status : Z) : string :=
  match status with
  | 200 => "OK"
  | 400 => "Bad Request"
  | 401 => "Unauthorized"
  | 404 => "Not Found"
  | 405 => "Method Not Allowed"
  | 429 => "Too Many Requests"
  | 500 => "Internal Server Error"
  | 503 => "Service Unavailable"
  | _ => ""
  end.

Definition WriteProblem (status : Z) (code detail : string) : Response :=
  mkResponse status "application/problem+json"
    (BProblem (mkProblem "about:blank" (StatusText status) status detail "" code)).

Definition WriteJSON (status : Z) (v : Payload) : Response :=
  if marshals v then mkResponse status "application/json" (BJson v)
  else WriteProblem 500 "internal_error" "failed to encode response".
