(* ===== verification/Auth.v ===== *)
(** internal/auth/jwt.go: the API's tokens. Encoding, signing, parsing and validating a
    token is the JWT library's ([JwtLib]); what the source decides is the claims it issues,
    the key and the algorithms it lets the library use, and which failures it reports. *)

From S2P Require Import Prelude.
From S2P Require Import Text.
#[local] Open Scope string_scope.
#[local] Open Scope Z_scope.

(** The registered claims the API uses, times in seconds, and the scope. *)
Record Claims : Type := mkClaims {
  cl_Subject : string;
  cl_IssuedAt : Z;
  cl_ExpiresAt : Z;
  cl_Scope : string
}.

Definition Scopes (c : Claims) : list string :=
  if str_empty (cl_Scope c) then [] else fields (cl_Scope c).

(** A parsed token: the algorithm of its header, its claims, and [Valid]. *)
Record ParsedToken : Type := mkParsedToken {
  pt_Alg : string;
  pt_Claims : Claims;
  pt_Valid : bool
}.

(** The functions of github.com/golang-jwt/jwt/v5 that jwt.go calls, the clock as an
    argument. [ParseWithClaims] is given the token, the key function (from the token's
    algorithm), the accepted algorithms and the time. *)
Class JwtLib : Type := {
  NewNumericDate : Z -> Z;
  SignedString : string -> Claims -> string -> result string;
  ParseWithClaims : string -> (string -> result string) -> list string -> Z -> result ParsedToken
}.

(** The library's sentinel for a token past its expiry, found through wrappings. *)
Definition ErrTokenExpired : error := EMsg "token is expired".

Fixpoint is_token_expired (e : error) : bool :=
  match e with
  | EWrap _ e' => is_token_expired e'
  | _ => bool_decide (e = ErrTokenExpired)
  end.

Record Signer : Type := mkSigner { secret : string }.

Definition ErrEmptySecret : error := EMsg "auth: jwt secret must not be empty".

Definition NewSigner (s : string) : result Signer :=
  if str_empty s then Err ErrEmptySecret else Ok (mkSigner s).

Definition SigningMethodHS256 : string := "HS256".

Section jwt.
Context {JL : JwtLib}.

(** [ttl] and the clock [now] are nanoseconds. *)
Definition Issue (s : Signer) (now : Z) (sub : string) (ttl : Z) (scopes : list string)
  : result string :=
  if str_empty sub then Err (EMsg "auth: sub must not be empty")
  else if ttl <=? 0 then Err (EMsg "auth: ttl must be positive")
  else
    let claims := mkClaims sub (NewNumericDate now) (NewNumericDate (now + ttl))
                    (join " " scopes) in
    wrap_err "auth: sign token" (SignedString SigningMethodHS256 claims (secret s)).

(** The key function: any algorithm but HS256 gets no key. *)
Definition key_for (s : Signer) (alg : string) : result string :=
  if String.eqb alg SigningMethodHS256 then Ok (secret s)
  else Err (EMsg ("auth: unexpected signing method: " +:+ alg)).

Definition Verify (s : Signer) (now : Z) (tokenString : string) : result Claims :=
  if str_empty tokenString then Err (EMsg "auth: empty token")
  else
    parsed ← wrap_err "auth" (ParseWithClaims tokenString (key_for s) [SigningMethodHS256] now);
    if pt_Valid parsed then Ok (pt_Claims parsed) else Err (EMsg "auth: invalid token").
End jwt.

(** ** The laws of the library *)

(** [signed tok alg claims key]: the token carries the claims under a signature the
    algorithm accepts for the key. What the JWT library documents: a token it signs is such a
    token; it parses such a token back where the algorithm is accepted, the key function
    gives that key and the token has not expired; and it parses nothing else. *)
Class JwtLaws {JL : JwtLib} (signed : string -> string -> Claims -> string -> Prop) : Prop := {
  signed_string : forall alg c key tok,
    SignedString alg c key = Ok tok -> signed tok alg c key /\ tok <> "";
  parse_complete : forall tok alg c key kf methods now,
    signed tok alg c key -> alg ∈ methods -> kf alg = Ok key ->
    NewNumericDate now < cl_ExpiresAt c ->
    ParseWithClaims tok kf methods now = Ok (mkParsedToken alg c true);
  parse_sound : forall tok kf methods now p,
    ParseWithClaims tok kf methods now = Ok p ->
    pt_Alg p ∈ methods
    /\ exists key, kf (pt_Alg p) = Ok key /\ signed tok (pt_Alg p) (pt_Claims p) key
}.

(** A token a signer issued: its signature, and that the signer accepts it with its claims
    until it expires. *)
Lemma Issue_signed {JL : JwtLib} {signed} {JW : JwtLaws signed} s now sub ttl scopes tok :
  Issue s now sub ttl scopes = Ok tok ->
  tok <> ""
  /\ signed tok SigningMethodHS256
       (mkClaims sub (NewNumericDate now) (NewNumericDate (now + ttl)) (join " " scopes)) (secret s).
Proof.
  unfold Issue. destruct (str_empty sub); [done|]. destruct (ttl <=? 0); [done|].
  intros Hi%wrap_err_Ok. by destruct (signed_string _ _ _ _ Hi).
Qed.

Lemma Issue_verifies {JL : JwtLib} {signed} {JW : JwtLaws signed} s now sub ttl scopes tok now' :
  Issue s now sub ttl scopes = Ok tok -> NewNumericDate now' < NewNumericDate (now + ttl) ->
  Verify s now' tok
  = Ok (mkClaims sub (NewNumericDate now) (NewNumericDate (now + ttl)) (join " " scopes)).
Proof.
  intros [Hne Hs]%Issue_signed Hn. unfold Verify. destruct tok; [done|]. cbn [str_empty].
  by rewrite (parse_complete _ _ _ _ (key_for s) [SigningMethodHS256] now' Hs)
    by (done || apply list_elem_of_here).
Qed.

(** What a signer accepts is signed with its secret under HS256. *)
Lemma Verify_signed {JL : JwtLib} {signed} {JW : JwtLaws signed} s now tok c :
  Verify s now tok = Ok c -> signed tok SigningMethodHS256 c (secret s).
Proof.
  unfold Verify. destruct (str_empty tok); [done|]. intros (p & Hp%wrap_err_Ok & Hv)%bind_Ok.
  destruct (pt_Valid p); [|done]. injection Hv as <-.
  destruct (parse_sound _ _ _ _ _ Hp) as (Hm & key & Hk & Hsg).
  apply list_elem_of_singleton in Hm. unfold key_for in Hk. rewrite Hm in Hk, Hsg.
  cbn in Hk. by injection Hk as <-.
Qed.
