(* ===== verification/Middleware.v ===== *)
(** internal/api/middleware: the handlers that wrap every route. A handler answers the
    response it wrote or, as an [Err], a panic that unwinds to the next [Recover]; the
    subject is what it left in the logger's per-request holder, and the calls on the metrics'
    collectors are what the middleware of internal/api/metrics made on the way. *)

From S2P Require Import Prelude.
From S2P Require Import Queries.
From S2P Require Import Text.
From S2P Require Import Httpx.
From S2P Require Import Auth.
#[local] Open Scope string_scope.
#[local] Open Scope Z_scope.

(** The values middleware attaches to the request's context. *)
Record Ctx : Type := mkCtx {
  cx_RequestID : string;
  cx_Claims : option Claims
}.

Definition background : Ctx := mkCtx "" None.

(** The collectors of internal/api/metrics: an observation's labels, and the calls made on the
    counter and on the histogram, with the time elapsed in nanoseconds. *)
Module collectors.

Record Labels : Type := mkLabels {
  lb_method : string;
  lb_route : string;
  lb_status : string
}.

Record Metrics : Type := mkMetrics {
  requestsTotal : list Labels;
  requestDur : list (Labels * Z)
}.

Definition New : Metrics := mkMetrics [] [].

Definition observe (l : Labels) (elapsed : Z) (m : Metrics) : Metrics :=
  mkMetrics (requestsTotal m ++ [l])%list (requestDur m ++ [(l, elapsed)])%list.
End collectors.

Record Served : Type := mkServed {
  sv_Result : result Response;
  sv_Subject : string;
  sv_Next : nat;
  sv_Metrics : collectors.Metrics
}.

Definition Handler : Type := Ctx -> Request -> Conn -> nat -> Served.

(** A handler that only runs queries. *)
Definition handler (h : Request -> Q Response) : Handler := fun _ r c n =>
  let '(res, n') := h r c n in mkServed res "" n' collectors.New.

(** One that answers without a query. *)
Definition answer (rs : Response) : Handler := fun _ _ _ n => mkServed (Ok rs) "" n collectors.New.

(** ** auth.go *)

(** [bearerToken]: the token and the flags [found] and [ok]. The prefix has seven bytes. *)
Definition bearerToken (r : Request) : string * bool * bool :=
  let h := header_get r "Authorization" in
  if str_empty h then ("", false, false)
  else if Nat.leb (String.length h) 7 || negb (equal_fold (String.substring 0 7 h) "Bearer ")
  then ("", true, false)
  else (trim_space (String.substring 7 (String.length h) h), true, true).

Definition ClaimsFromContext (cx : Ctx) : option Claims := cx_Claims cx.

Section auth.
Context {JL : JwtLib} (now : Z).

(** [now] is the clock when the token is verified. *)
Definition AuthMiddleware (signer : Signer) (next : Handler) : Handler := fun cx r c n =>
  let '(tok, found, ok) := bearerToken r in
  if negb found then
    answer (WriteProblem 401 "missing_token"
              "missing Authorization header (want: Bearer <token>)") cx r c n
  else if negb ok then
    answer (WriteProblem 401 "invalid_token"
              "malformed Authorization header (want: Bearer <token>)") cx r c n
  else match Verify signer now tok with
       | Err e =>
           if is_token_expired e then
             answer (WriteProblem 401 "expired_token" "token expired") cx r c n
           else answer (WriteProblem 401 "invalid_token" "invalid token") cx r c n
       | Ok claims =>
           let sv := next (mkCtx (cx_RequestID cx) (Some claims)) r c n in
           mkServed (sv_Result sv)
             (if str_empty (sv_Subject sv) then cl_Subject claims else sv_Subject sv)
             (sv_Next sv) (sv_Metrics sv)
       end.
End auth.

(** ** requestid.go *)

Definition HeaderRequestID : string := "X-Request-Id".

(** The id a request is given; [fresh] is the generated UUID. *)
Definition request_id (fresh : string) (r : Request) : string :=
  let id := header_get r HeaderRequestID in
  if str_empty id then fresh else id.

Definition RequestID {A} (fresh : string) (next : Ctx -> Request -> Conn -> nat -> A)
  : Ctx -> Request -> Conn -> nat -> A := fun cx r c n =>
  next (mkCtx (request_id fresh r) (cx_Claims cx)) r c n.

Definition RequestIDFromContext (cx : Ctx) : string := cx_RequestID cx.

(** ** recover.go *)

Definition Recover (next : Handler) : Handler := fun cx r c n =>
  let sv := next cx r c n in
  match sv_Result sv with
  | Ok _ => sv
  | Err _ => mkServed (Ok (WriteProblem 500 "internal_error"
                             "the server encountered an unexpected condition"))
               (sv_Subject sv) (sv_Next sv) (sv_Metrics sv)
  end.

(** ** ratelimit.go *)

Definition rateLimited : Handler :=
  answer (WriteProblem 429 "rate_limited" "too many requests; slow down").

(** github.com/go-chi/httprate: the limiter a request meets, given the budget, the window in
    nanoseconds, the key function and the handler of a refused request; and its key by
    address. *)
Class HttpRate : Type := {
  httprate_Limit : Z -> Z -> (Ctx -> Request -> result string) -> Handler -> Handler -> Handler;
  KeyByIP : Request -> result string
}.

Section ratelimit.
Context {HR : HttpRate}.

Definition keyBySubjectThenIP (cx : Ctx) (r : Request) : result string :=
  match ClaimsFromContext cx with
  | Some claims => if str_empty (cl_Subject claims) then KeyByIP r
                   else Ok ("sub:" +:+ cl_Subject claims)
  | None => KeyByIP r
  end.

Definition RateLimit (perMinute : Z) (next : Handler) : Handler :=
  if perMinute <=? 0 then next
  else httprate_Limit perMinute 60000000000 keyBySubjectThenIP rateLimited next.
End ratelimit.

(** ** logger.go *)

(** The fields of the line logged for a request; the sizes and times are left out. *)
Record LogLine : Type := mkLogLine {
  lg_Method : string;
  lg_Path : string;
  lg_Status : Z;
  lg_RequestID : string;
  lg_Subject : option string
}.

(** [Logger] runs its handler and logs one line when it returns; a panic that reaches it
    unwinds through it without a line. *)
Definition Logger (next : Handler) (cx : Ctx) (r : Request) (c : Conn) (n : nat)
  : Served * option LogLine :=
  let sv := next cx r c n in
  (sv, match sv_Result sv with
       | Ok rs => Some (mkLogLine (rq_Method r) (rq_Path r) (rs_Status rs)
                          (RequestIDFromContext cx)
                          (if str_empty (sv_Subject sv) then None else Some (sv_Subject sv)))
       | Err _ => None
       end).

(** ** cors.go *)

(** github.com/go-chi/cors, given the allowed origins. *)
Class Cors : Type := { cors_handler : list string -> Handler -> Handler }.

Definition CORS {CO : Cors} (allowedOrigins : list string) (next : Handler) : Handler :=
  match allowedOrigins with
  | [] => next
  | _ => cors_handler allowedOrigins next
  end.
