(* ===== verification/Handlers.v ===== *)
(** internal/api/handlers without the two streams: one definition per HTTP handler, a query
    over the repositories' read methods that always answers a response. *)

From S2P Require Import Prelude.
From S2P Require Import Models.
From S2P Require Import Queries.
From S2P Require Import ListQueries.
From S2P Require Import VoteQueries.
From S2P Require Import Dto.
From S2P Require Import Text.
From S2P Require Import Httpx.
#[local] Open Scope string_scope.
#[local] Open Scope Z_scope.

(** ** handlers.go *)

Definition writeRepoError (e : error) : Response :=
  if is_no_rows e then WriteProblem 404 "not_found" "resource not found"
  else WriteProblem 500 "internal_error" "database error".

(** [rows, err := q; if err != nil { writeRepoError(w, err); return }] *)
Definition or_repo_error {A} (q : Q A) (ok : A -> Q Response) : Q Response :=
  attempt q ok (fun e => mret (writeRepoError e)).

Definition ok_json (p : Payload) : Q Response := mret (WriteJSON 200 p).

(** The request's page as the repositories take it; [sort] is empty where the handler does
    not honour the parameter. *)
Definition opts_of (p : Pagination) (sort : string) : ListOpts :=
  mkListOpts (PageSize p) (Pagination_Offset p) sort.

(** A collection handler: the rows and the total, shaped and put in an envelope. *)
Definition respond_page {A B} (p : Pagination) (q : Q (list A * Z)) (from : list A -> list B)
    (wrap : dto.Page B -> Payload) : Q Response :=
  or_repo_error q (fun out =>
    let '(rows, total) := out in
    ok_json (wrap (dto.NewPage (from rows) (Page p) (PageSize p) total))).

(** [v := chi.URLParam(r, name); if v == "" { WriteProblem(400, code, detail); return }] *)
Definition require_param (r : Request) (name code detail : string) (k : string -> Q Response)
  : Q Response :=
  let v := URLParam r name in
  if str_empty v then mret (WriteProblem 400 code detail) else k v.

Definition require_address (r : Request) (k : string -> Q Response) : Q Response :=
  require_param r "address" "invalid_address" "address is required" k.

(** ** momentums.go *)

Definition MomentumsList (r : Request) : Q Response :=
  let p := ParsePagination r in
  respond_page p (MomentumQueries.List (opts_of p (ParseSort r "desc")))
    dto.FromMomentums PMomentums.

Definition MomentumsLatest (r : Request) : Q Response :=
  or_repo_error MomentumQueries.GetLatest (fun m => ok_json (PMomentum (dto.FromMomentum m))).

Definition MomentumsGetByHeight (r : Request) : Q Response :=
  match parse_uint64 (URLParam r "height") with
  | None => mret (WriteProblem 400 "invalid_height" "height must be a non-negative integer")
  | Some height =>
      or_repo_error (MomentumQueries.GetByHeight height)
        (fun m => ok_json (PMomentum (dto.FromMomentum m)))
  end.

(** ** account_blocks.go *)

Definition AccountBlocksList (r : Request) : Q Response :=
  let p := ParsePagination r in
  respond_page p (AccountBlockQueries.List (opts_of p (ParseSort r "desc")))
    dto.FromAccountBlocks PAccountBlocks.

Definition AccountBlocksGet (r : Request) : Q Response :=
  require_param r "hash" "invalid_hash" "hash is required" (fun hash =>
    or_repo_error (AccountBlockQueries.GetByHash hash)
      (fun b => ok_json (PAccountBlock (dto.FromAccountBlock b)))).

Definition AccountBlocksByAddress (r : Request) : Q Response :=
  require_address r (fun addr =>
    let p := ParsePagination r in
    respond_page p (AccountBlockQueries.ListByAddress addr (opts_of p (ParseSort r "desc")))
      dto.FromAccountBlocks PAccountBlocks).

(** ** accounts.go *)

Definition AccountsGet (r : Request) : Q Response :=
  require_address r (fun addr =>
    or_repo_error (AccountQueries.GetByAddress addr)
      (fun a => ok_json (PAccount (dto.FromAccount a)))).

Definition AccountsBalances (r : Request) : Q Response :=
  require_address r (fun addr =>
    or_repo_error (BalanceQueries.ListByAddress addr)
      (fun rows => ok_json (PBalances (dto.FromBalances rows)))).

(** ** tokens.go *)

Definition TokensList (r : Request) : Q Response :=
  let p := ParsePagination r in
  respond_page p (TokenQueries.List (opts_of p "")) dto.FromTokens PTokens.

Definition require_token (r : Request) (k : string -> Q Response) : Q Response :=
  require_param r "token_standard" "invalid_token_standard" "token_standard is required" k.

Definition TokensGet (r : Request) : Q Response :=
  require_token r (fun std =>
    or_repo_error (TokenQueries.GetByStandard std)
      (fun t => ok_json (PToken (dto.FromToken t)))).

Definition TokensHolders (r : Request) : Q Response :=
  require_token r (fun std =>
    let p := ParsePagination r in
    respond_page p (BalanceQueries.ListByToken std (opts_of p "")) dto.FromBalances PHolders).

(** ** pillars_sentinels.go *)

Definition boolQuery (r : Request) (name : string) (def : bool) : bool :=
  let v := query_get r name in
  if str_empty v then def else match parse_bool v with Some b => b | None => def end.

Definition PillarsList (r : Request) : Q Response :=
  let p := ParsePagination r in
  let includeRevoked := boolQuery r "include_revoked" false in
  respond_page p (PillarQueries.List includeRevoked (opts_of p "")) dto.FromPillars PPillars.

Definition require_name (r : Request) (k : string -> Q Response) : Q Response :=
  require_param r "name" "invalid_name" "name is required" k.

Definition PillarsGetByName (r : Request) : Q Response :=
  require_name r (fun name =>
    or_repo_error (PillarQueries.GetByName name)
      (fun p => ok_json (PPillar (dto.FromPillar p)))).

Definition PillarsDelegators (r : Request) : Q Response :=
  require_name r (fun name =>
    or_repo_error (PillarQueries.GetByName name) (fun pillar =>
      let p := ParsePagination r in
      respond_page p (PillarQueries.ListDelegators (pil_OwnerAddress pillar) (opts_of p ""))
        dto.FromPillarDelegators PDelegators)).

Definition raw_vote (v : VoteReads.PillarVoteRow) : dto.RawPillarVote :=
  dto.mkRawPillarVote (VoteReads.pv_VotingID v) (VoteReads.pv_Vote v)
    (VoteReads.pv_MomentumHeight v) (VoteReads.pv_MomentumTimestamp v)
    (VoteReads.pv_ProjectID v) (VoteReads.pv_PhaseID v)
    (VoteReads.pv_ProjectName v) (VoteReads.pv_PhaseName v).

Definition PillarsVotingHistory (r : Request) : Q Response :=
  require_name r (fun name =>
    or_repo_error (VoteReads.PillarVotingHistory name) (fun row =>
      ok_json (PPillarVotes
        (dto.FromPillarVotingHistory (VoteReads.ph_PillarName row)
           (VoteReads.ph_PillarOwner row) (map raw_vote (VoteReads.ph_Votes row)))))).

Definition SentinelsList (r : Request) : Q Response :=
  let p := ParsePagination r in
  let activeOnly := negb (boolQuery r "include_inactive" false) in
  respond_page p (SentinelQueries.List activeOnly (opts_of p "")) dto.FromSentinels PSentinels.

(** ** stakes_fusions_rewards.go *)

Definition StakesList (r : Request) : Q Response :=
  let p := ParsePagination r in
  let activeOnly := negb (boolQuery r "include_inactive" false) in
  respond_page p (StakeQueries.List activeOnly (opts_of p "")) dto.FromStakes PStakes.

Definition StakesByAddress (r : Request) : Q Response :=
  require_address r (fun addr =>
    let p := ParsePagination r in
    let activeOnly := negb (boolQuery r "include_inactive" false) in
    respond_page p (StakeQueries.ListByAddress addr activeOnly (opts_of p ""))
      dto.FromStakes PStakes).

Definition FusionsList (r : Request) : Q Response :=
  let p := ParsePagination r in
  let activeOnly := negb (boolQuery r "include_inactive" false) in
  respond_page p (FusionQueries.List activeOnly (opts_of p "")) dto.FromFusions PFusions.

Definition FusionsByAddress (r : Request) : Q Response :=
  require_address r (fun addr =>
    let p := ParsePagination r in
    let activeOnly := negb (boolQuery r "include_inactive" false) in
    respond_page p (FusionQueries.ListByAddress addr activeOnly (opts_of p ""))
      dto.FromFusions PFusions).

Definition RewardsCumulative (r : Request) : Q Response :=
  require_address r (fun addr =>
    or_repo_error (RewardQueries.CumulativeByAddress addr)
      (fun rows => ok_json (PCumulative (dto.FromCumulativeRewards rows)))).

Definition RewardsHistory (r : Request) : Q Response :=
  require_address r (fun addr =>
    let p := ParsePagination r in
    respond_page p (RewardQueries.HistoryByAddress addr (opts_of p ""))
      dto.FromRewardTransactions PRewards).

(** ** projects_votes.go *)

Definition require_id (r : Request) (k : string -> Q Response) : Q Response :=
  require_param r "id" "invalid_id" "id is required" k.

Definition ProjectsList (r : Request) : Q Response :=
  let p := ParsePagination r in
  respond_page p (ProjectQueries.List (opts_of p "")) dto.FromProjects PProjects.

Definition ProjectsGet (r : Request) : Q Response :=
  require_id r (fun id =>
    or_repo_error (ProjectQueries.GetByID id)
      (fun p => ok_json (PProject (dto.FromProject p)))).

Definition ProjectsPhases (r : Request) : Q Response :=
  require_id r (fun id =>
    or_repo_error (ProjectPhaseQueries.ListByProject id)
      (fun rows => ok_json (PPhases (dto.FromProjectPhases rows)))).

Definition ProjectsVotes (r : Request) : Q Response :=
  require_id r (fun id =>
    let p := ParsePagination r in
    respond_page p (VoteReads.ListByProject id (opts_of p "")) dto.FromVotes PVotes).

Definition raw_tally (t : VoteReads.ProposalTallyRow) : dto.RawProposalTally :=
  dto.mkRawProposalTally (VoteReads.pt_VotingID t) (VoteReads.pt_ByPillar t)
    (VoteReads.pt_NoVotePillars t).

Definition projectVotingReportToDTO (row : VoteReads.ProjectVotingReportRow)
  : dto.ProjectVotingReport :=
  dto.mkProjectVotingReport (VoteReads.vr_ProjectID row) (VoteReads.vr_ProjectName row)
    (VoteReads.vr_ActivePillarCount row)
    (dto.FromProposalTally (raw_tally (VoteReads.vr_Project row)))
    (map (fun ph => dto.FromPhaseTally (VoteReads.pht_PhaseID ph)
                      (VoteReads.pht_PhaseName ph) (raw_tally (VoteReads.pht_Tally ph)))
       (VoteReads.vr_Phases row)).

Definition ProjectsVotingReport (r : Request) : Q Response :=
  require_id r (fun id =>
    or_repo_error (VoteReads.ProjectVotingReport id)
      (fun row => ok_json (PReport (projectVotingReportToDTO row)))).

(** ** bridge.go *)

Definition BridgeWraps (r : Request) : Q Response :=
  let p := ParsePagination r in
  respond_page p (BridgeQueries.ListWraps (opts_of p "")) dto.FromWrapTokenRequests PWraps.

Definition BridgeUnwraps (r : Request) : Q Response :=
  let p := ParsePagination r in
  respond_page p (BridgeQueries.ListUnwraps (opts_of p "")) dto.FromUnwrapTokenRequests
    PUnwraps.

Definition BridgeWrapsByAddress (r : Request) : Q Response :=
  require_address r (fun addr =>
    let p := ParsePagination r in
    respond_page p (BridgeQueries.ListWrapsByAddress addr (opts_of p ""))
      dto.FromWrapTokenRequests PWraps).

Definition BridgeUnwrapsByAddress (r : Request) : Q Response :=
  require_address r (fun addr =>
    let p := ParsePagination r in
    respond_page p (BridgeQueries.ListUnwrapsByAddress addr (opts_of p ""))
      dto.FromUnwrapTokenRequests PUnwraps).

(** ** status.go *)

(** [now] is the clock in seconds; the subtraction is Go's [int64]. *)
Definition Status (version : string) (now : Z) (r : Request) : Q Response :=
  attempt MomentumQueries.GetLatest
    (fun m =>
       let lag := int64 (now - mom_Timestamp m) in
       let lag := if lag <? 0 then 0 else lag in
       ok_json (PStatus (dto.mkStatus (mom_Height m) (mom_Timestamp m) lag version)))
    (fun e => if is_no_rows e then ok_json (PStatus (dto.mkStatus 0 0 0 version))
              else mret (writeRepoError e)).
