(* ===== verification/Streams.v ===== *)
(** internal/api/handlers/momentums_stream.go and transactions_stream.go: the two WebSocket
    streams. A handler authenticates, subscribes to its hub, upgrades the connection,
    replays committed rows from [from_height] and then forwards what its subscriber
    receives, suppressing what it already sent.

    The WebSocket library is the environment: whether the upgrade succeeds, which frame
    writes fail, and what each turn of the live loop's [select] takes ([LiveEvent]). *)

From S2P Require Import Prelude.
From S2P Require Import Models.
From S2P Require Import Queries.
From S2P Require Import ListQueries.
From S2P Require Import Dto.
From S2P Require Import Text.
From S2P Require Import Httpx.
From S2P Require Import Auth.
From S2P Require Import Middleware.
From S2P Require Import StreamHub.
#[local] Open Scope string_scope.
#[local] Open Scope Z_scope.

Definition streamReplayMaxRows : Z := 10000.

(** ** Authentication *)

(** [streamToken]: the token and, where there is none, the problem's code. *)
Definition streamToken (r : Request) : string * string :=
  let h := header_get r "Authorization" in
  if negb (str_empty h) then
    if Nat.leb (String.length h) 7 || negb (equal_fold (String.substring 0 7 h) "Bearer ")
    then ("", "invalid_token")
    else (trim_space (String.substring 7 (String.length h) h), "")
  else
    let t := query_get r "token" in
    if str_empty t then ("", "missing_token") else (t, "").

(** ** The connection *)

(** One turn of the [select]: the connection's context is done, the subscriber's channel
    gives a value (with [Lagged()] read right after) or is closed, or the ping timer fires
    and the ping fails or not. *)
Inductive LiveEvent (T : Type) : Type :=
| LDone
| LRecv (x : T) (lagged : Z)
| LClosed
| LPing (failed : bool).
Arguments LDone {T}.
Arguments LRecv {T}.
Arguments LClosed {T}.
Arguments LPing {T}.

(** How a stream stands: closed with a code and a reason, dropped on a failed write or ping,
    ended by a panic, or still at the [select]. *)
Inductive StreamEnd : Type :=
| SClosed (code : Z) (reason : string)
| SDropped
| SPanicked
| SOpen.

Inductive StreamResult (T : Type) : Type :=
| Refused (rs : Response)
| NotUpgraded
| Streamed (frames : list T) (e : StreamEnd).
Arguments Refused {T}.
Arguments NotUpgraded {T}.
Arguments Streamed {T}.

(** The WebSocket side of one connection: whether [Accept] fails, and whether the write of
    the [n]-th frame does. *)
Record Socket (T : Type) : Type := mkSocket {
  ws_accept_fails : bool;
  ws_write_fails : nat -> bool;
  ws_events : list (LiveEvent T)
}.
Arguments mkSocket {T}.
Arguments ws_accept_fails {T}.
Arguments ws_write_fails {T}.
Arguments ws_events {T}.

(** The problem a refused subscription answers. *)
Definition subscribe_problem (stream : string) (res : SubscribeResult) : option Response :=
  match res with
  | Subscribed _ => None
  | ErrHubNotRunning =>
      Some (WriteProblem 503 "stream_unavailable" (stream +:+ " stream is temporarily unavailable"))
  | ErrTooManyForSubject =>
      Some (WriteProblem 429 "stream_subject_limit"
              "too many concurrent streams for this token's subject")
  end.

(** The part the handlers share: token, query parameters, subscription, upgrade. [connected]
    is the rest of the handler. *)
Definition open_stream {JL : JwtLib} {T} (signer : Signer) (now : Z) (stream : string)
    (parse_from : string -> option Z) (subscribe : string -> SubscribeResult)
    (accept_fails : bool) (connected : Z -> Q (list T * StreamEnd)) (r : Request)
  : Q (StreamResult T) :=
  let '(tok, code) := streamToken r in
  if str_empty tok then
    mret (Refused (WriteProblem 401 code "missing JWT (Authorization header or ?token= query)"))
  else match Verify signer now tok with
  | Err _ => mret (Refused (WriteProblem 401 "invalid_token" "invalid token"))
  | Ok claims =>
      let v := query_get r "from_height" in
      match (if str_empty v then Some 0 else parse_from v) with
      | None => mret (Refused (WriteProblem 400 "invalid_from_height"
                                 "from_height must be a non-negative integer"))
      | Some from =>
          match subscribe_problem stream (subscribe (cl_Subject claims)) with
          | Some rs => mret (Refused rs)
          | None =>
              if accept_fails then mret NotUpgraded
              else out ← connected from; mret (Streamed out.1 out.2)
          end
      end
  end.

(** ** Momentums *)

Section momentums.
Variable write_fails : nat -> bool.

(** The frame loop of [replay]: the frames written and, unless a write failed, the last
    height. *)
Fixpoint replay_rows (n : nat) (rows : list Momentum) (lastSent : Z)
  : list dto.Momentum * option Z :=
  match rows with
  | [] => ([], Some lastSent)
  | m :: rows' =>
      if write_fails n then ([], None)
      else let '(frames, last) := replay_rows (S n) rows' (mom_Height m) in
           (dto.FromMomentum m :: frames, last)
  end.

(** The rows a replay sends and the height it starts from; heights are Go's [uint64]. *)
Definition replay_scan (fromHeight : Z) : Q (Z * list Momentum) :=
  attempt MomentumQueries.GetLatest
    (fun latest =>
       let last := mom_Height latest in
       if last <? fromHeight then mret (uint64 (fromHeight - 1), [])
       else
         let last := if streamReplayMaxRows <? uint64 (uint64 (last - fromHeight) + 1)
                     then uint64 (uint64 (fromHeight + streamReplayMaxRows) - 1) else last in
         rows ← MomentumQueries.ListByHeightRange fromHeight last streamReplayMaxRows;
         mret (0, rows))
    (fun e => if is_no_rows e then mret (0, []) else fail e).

(** [replay]: the frames, and the watermark unless the query or a write failed. *)
Definition replay (fromHeight : Z) : Q (list dto.Momentum * option Z) :=
  attempt (replay_scan fromHeight)
    (fun '(start, rows) => mret (replay_rows 0 rows start))
    (fun _ => mret ([], None)).

(** [runLive]; [n] counts the frames written before. *)
Fixpoint runLive (n : nat) (evs : list (LiveEvent dto.Momentum)) (lastSent : Z)
  : list dto.Momentum * StreamEnd :=
  match evs with
  | [] => ([], SOpen)
  | LDone :: _ => ([], SClosed 1000 "server shutdown")
  | LClosed :: _ => ([], SClosed 1011 "hub closed")
  | LPing failed :: evs' => if failed then ([], SDropped) else runLive n evs' lastSent
  | LRecv m lagged :: evs' =>
      if 0 <? lagged then ([], SClosed 4000 "slow_consumer: reconnect with from_height")
      else if dto.mom_Height m <=? lastSent then runLive n evs' lastSent
      else if write_fails n then ([], SDropped)
      else let '(frames, e) := runLive (S n) evs' (dto.mom_Height m) in (m :: frames, e)
  end.

(** The handler after the upgrade. *)
Definition serve_momentums (evs : list (LiveEvent dto.Momentum)) (from : Z)
  : Q (list dto.Momentum * StreamEnd) :=
  if 0 <? from then
    out ← replay from;
    let '(frames, last) := out in
    match last with
    | None => mret (frames, SClosed 1011 "replay failed")
    | Some lastSent =>
        let '(live, e) := runLive (length frames) evs lastSent in
        mret ((frames ++ live)%list, e)
    end
  else mret (runLive 0 evs 0).
End momentums.

Definition MomentumsStream {JL : JwtLib} (signer : Signer) (now : Z)
    (subscribe : string -> SubscribeResult) (ws : Socket dto.Momentum) (r : Request)
  : Q (StreamResult dto.Momentum) :=
  open_stream signer now "momentum" parse_uint64 subscribe (ws_accept_fails ws)
    (serve_momentums (ws_write_fails ws) (ws_events ws)) r.

(** ** Transactions *)

(** [txStreamCursor]; the set is [None] while the Go map is nil. *)
Record txStreamCursor : Type := mkCursor {
  cur_height : Z;
  cur_hashes : option (gset string)
}.

Definition seen (c : txStreamCursor) (ab : dto.AccountBlock) : bool :=
  if (0 <? cur_height c) && (dto.ab_MomentumHeight ab <? cur_height c) then true
  else if dto.ab_MomentumHeight ab =? cur_height c
  then bool_decide (dto.ab_Hash ab ∈ default ∅ (cur_hashes c))
  else false.

(** [mark]: an assignment into a nil map is a panic. *)
Definition mark (c : txStreamCursor) (ab : dto.AccountBlock) : option txStreamCursor :=
  if dto.ab_MomentumHeight ab =? cur_height c then
    match cur_hashes c with
    | None => None
    | Some hs => Some (mkCursor (cur_height c) (Some ({[dto.ab_Hash ab]} ∪ hs)))
    end
  else Some (mkCursor (dto.ab_MomentumHeight ab) (Some {[dto.ab_Hash ab]})).

Section transactions.
Variable write_fails : nat -> bool.

(** How [replayTransactions] ends: with a cursor, with an error, or in a panic. *)
Inductive ReplayEnd : Type :=
| ReplayDone (c : txStreamCursor)
| ReplayFailed
| ReplayPanicked.

Fixpoint replay_blocks (n : nat) (rows : list AccountBlock) (c : txStreamCursor)
  : list dto.AccountBlock * ReplayEnd :=
  match rows with
  | [] => ([], ReplayDone c)
  | ab :: rows' =>
      let frame := dto.FromAccountBlock ab in
      if write_fails n then ([], ReplayFailed)
      else match mark c frame with
           | None => ([frame], ReplayPanicked)
           | Some c' => let '(frames, e) := replay_blocks (S n) rows' c' in
                        (frame :: frames, e)
           end
  end.

(** The cursor a replay starts with and its rows; heights are Go's [int64]. *)
Definition replay_tx_scan (from : Z) (addressFilter : string)
  : Q (txStreamCursor * list AccountBlock) :=
  attempt MomentumQueries.GetLatest
    (fun latest =>
       let last := int64 (mom_Height latest) in
       if last <? from then mret (mkCursor (int64 (from - 1)) None, [])
       else
         let last := if streamReplayMaxRows <? int64 (int64 (last - from) + 1)
                     then int64 (int64 (from + streamReplayMaxRows) - 1) else last in
         rows ← AccountBlockQueries.ListByMomentumHeightRange from last addressFilter
                  streamReplayMaxRows;
         mret (mkCursor 0 None, rows))
    (fun e => if is_no_rows e then mret (mkCursor (int64 (from - 1)) None, []) else fail e).

Definition replayTransactions (from : Z) (addressFilter : string)
  : Q (list dto.AccountBlock * ReplayEnd) :=
  attempt (replay_tx_scan from addressFilter)
    (fun '(c, rows) => mret (replay_blocks 0 rows c))
    (fun _ => mret ([], ReplayFailed)).

(** The filter of the live loop. *)
Definition passes (addressFilter : string) (ab : dto.AccountBlock) : bool :=
  str_empty addressFilter || String.eqb (dto.ab_Address ab) addressFilter
  || String.eqb (dto.ab_ToAddress ab) addressFilter.

Fixpoint runTxLive (n : nat) (evs : list (LiveEvent dto.AccountBlock)) (addressFilter : string)
    (c : txStreamCursor) : list dto.AccountBlock * StreamEnd :=
  match evs with
  | [] => ([], SOpen)
  | LDone :: _ => ([], SClosed 1000 "server shutdown")
  | LClosed :: _ => ([], SClosed 1011 "hub closed")
  | LPing failed :: evs' => if failed then ([], SDropped) else runTxLive n evs' addressFilter c
  | LRecv ab lagged :: evs' =>
      if 0 <? lagged then ([], SClosed 4000 "slow_consumer: reconnect with from_height")
      else if negb (passes addressFilter ab) then runTxLive n evs' addressFilter c
      else if seen c ab then runTxLive n evs' addressFilter c
      else if write_fails n then ([], SDropped)
      else match mark c ab with
           | None => ([ab], SPanicked)
           | Some c' => let '(frames, e) := runTxLive (S n) evs' addressFilter c' in
                        (ab :: frames, e)
           end
  end.

Definition serve_transactions (evs : list (LiveEvent dto.AccountBlock)) (addressFilter : string)
    (from : Z) : Q (list dto.AccountBlock * StreamEnd) :=
  if 0 <? from then
    out ← replayTransactions from addressFilter;
    let '(frames, e) := out in
    match e with
    | ReplayFailed => mret (frames, SClosed 1011 "replay failed")
    | ReplayPanicked => mret (frames, SPanicked)
    | ReplayDone c =>
        let '(live, e) := runTxLive (length frames) evs addressFilter c in
        mret ((frames ++ live)%list, e)
    end
  else mret (runTxLive 0 evs addressFilter (mkCursor 0 None)).
End transactions.

(** [strconv.ParseInt] and the test for a negative height. *)
Definition parse_from_height (v : string) : option Z :=
  match parse_int64 v with
  | Some n => if n <? 0 then None else Some n
  | None => None
  end.

Definition TransactionsStream {JL : JwtLib} (signer : Signer) (now : Z)
    (subscribe : string -> SubscribeResult) (ws : Socket dto.AccountBlock) (r : Request)
  : Q (StreamResult dto.AccountBlock) :=
  open_stream signer now "transactions" parse_from_height subscribe (ws_accept_fails ws)
    (serve_transactions (ws_write_fails ws) (ws_events ws) (query_get r "address")) r.
