(* ===== verification/Router.v ===== *)
(** internal/api/router: the route table, the middleware around it and the two probes.

    Matching a path against patterns is chi's ([Chi]); the table, what stands in front of
    which routes and what each route runs are the source's. A stream's outcome after the
    upgrade is not a response, so the stream routes are handlers of their own kind, given to
    [New] as arguments (Streams.v has them). *)

From S2P Require Import Prelude.
From S2P Require Import Models.
From S2P Require Import Database.
From S2P Require Import Queries.
From S2P Require Import ListQueries.
From S2P Require Import Httpx.
From S2P Require Import Auth.
From S2P Require Import Middleware.
From S2P Require Import Handlers.
#[local] Open Scope string_scope.
#[local] Open Scope Z_scope.

(** ** Probes *)

Definition healthz : Handler := answer (WriteJSON 200 (PObject [("status", MStr "ok")])).

Definition minSchemaVersion : Z := 13.
Definition unhealthyStreakForReady : Z := 2.
(** Five minutes, in seconds. *)
Definition syncStatusStaleAfter : Z := 300.

Definition syncStatusAge (ss : SyncStatus) (now : Z) : Z * bool :=
  let age := int64 (now - ss_CheckedAt ss) in
  (age, syncStatusStaleAfter <? age).

Definition ready : Response := WriteJSON 200 (PObject [("status", MStr "ready")]).

(** What the watchdog's last row says; [now] in seconds. *)
Definition drift_response (ss : SyncStatus) (now : Z) : Response :=
  let '(age, stale) := syncStatusAge ss now in
  if stale then
    WriteJSON 200 (PObject [("status", MStr "ready"); ("watchdog", MStr "inactive");
                            ("watchdog_stale_seconds", MInt age)])
  else if negb (String.eqb (ss_State ss) "synced")
          && (unhealthyStreakForReady <=? ss_ConsecutiveBadChecks ss)
  then WriteProblem 503 "indexer_drift"
         ("state=" +:+ ss_State ss +:+ " drift=" +:+ format_int (ss_DriftMomentums ss)
          +:+ " node=" +:+ ss_ActiveNodeLabel ss)
  else
    WriteJSON 200 (PObject [("status", MStr "ready"); ("node", MStr (ss_ActiveNodeLabel ss));
                            ("drift", MInt (ss_DriftMomentums ss));
                            ("state", MStr (ss_State ss))]).

(** [err.Error()]: the text of an error. *)
Fixpoint Error_text (e : error) : string :=
  match e with
  | EMsg m => m
  | EWrap ctx e' => ctx +:+ ": " +:+ Error_text e'
  | ENoRows => "no rows in result set"
  | ECanceled => "context canceled"
  end.

(** [readyz]: [ping] is the pool's answer, [schema] the row of golang-migrate's
    schema_migrations (its version and dirty mark) that a statement reads. The [sync] getter
    may be absent. *)
Definition readyz (has_pool has_sync : bool) (ping : option error)
    (schema : View -> result (Z * bool)) (now : Z) : Q Response :=
  if negb has_pool then mret ready
  else match ping with
  | Some e => mret (WriteProblem 503 "db_unavailable" (Error_text e))
  | None =>
      attempt (statement schema)
        (fun '(version, dirty) =>
           if (dirty : bool) then
             mret (WriteProblem 503 "schema_dirty"
                     ("schema_migrations marks version " +:+ format_int version
                      +:+ " dirty — manual repair needed"))
           else if version <? minSchemaVersion then
             mret (WriteProblem 503 "schema_not_migrated"
                     ("schema_migrations.version = " +:+ format_int version
                      +:+ ", API requires >= " +:+ format_int minSchemaVersion))
           else if (has_sync : bool) then
             attempt SyncStatusQueries.Get
               (fun ss => mret (drift_response ss now))
               (fun e => if is_no_rows e then mret ready
                         else mret (WriteProblem 503 "sync_status_unreadable" (Error_text e)))
           else mret ready)
        (fun e =>
           if contains "schema_migrations" (Error_text e) then
             mret (WriteProblem 503 "schema_not_migrated"
                     "schema_migrations table missing — start the indexer container so migrations run")
           else mret (WriteProblem 503 "db_unavailable" (Error_text e)))
  end.

(** ** Routes *)

(** chi's routing of a request over a table of patterns: the pattern it selects with the
    path parameters, and its own answer where none matches. *)
Class Chi : Type := {
  find_route : list string -> Request -> option (string * gmap string string);
  no_route : Request -> Response
}.

(** The authenticated subtree, its patterns relative to [/api/v1]. *)
Definition api_routes (version : string) (now : Z) : list (string * (Request -> Q Response)) :=
  [("/status", Status version now);
   ("/momentums", MomentumsList);
   ("/momentums/latest", MomentumsLatest);
   ("/momentums/{height}", MomentumsGetByHeight);
   ("/accounts/{address}", AccountsGet);
   ("/accounts/{address}/balances", AccountsBalances);
   ("/accounts/{address}/transactions", AccountBlocksByAddress);
   ("/account_blocks", AccountBlocksList);
   ("/account_blocks/{hash}", AccountBlocksGet);
   ("/tokens", TokensList);
   ("/tokens/{token_standard}", TokensGet);
   ("/tokens/{token_standard}/holders", TokensHolders);
   ("/pillars", PillarsList);
   ("/pillars/{name}", PillarsGetByName);
   ("/pillars/{name}/delegators", PillarsDelegators);
   ("/pillars/{name}/voting-report", PillarsVotingHistory);
   ("/sentinels", SentinelsList);
   ("/stakes", StakesList);
   ("/accounts/{address}/stakes", StakesByAddress);
   ("/fusions", FusionsList);
   ("/accounts/{address}/fusions", FusionsByAddress);
   ("/accounts/{address}/rewards", RewardsHistory);
   ("/accounts/{address}/rewards/cumulative", RewardsCumulative);
   ("/projects", ProjectsList);
   ("/projects/{id}", ProjectsGet);
   ("/projects/{id}/phases", ProjectsPhases);
   ("/projects/{id}/votes", ProjectsVotes);
   ("/projects/{id}/voting-report", ProjectsVotingReport);
   ("/bridge/wraps", BridgeWraps);
   ("/bridge/unwraps", BridgeUnwraps);
   ("/accounts/{address}/bridge/wraps", BridgeWrapsByAddress);
   ("/accounts/{address}/bridge/unwraps", BridgeUnwrapsByAddress)].

(** The route of a table the pattern names. *)
Fixpoint assoc {A} (pattern : string) (table : list (string * A)) : option A :=
  match table with
  | [] => None
  | (p, route) :: rest => if String.eqb p pattern then Some route else assoc pattern rest
  end.

Definition with_params (params : gmap string string) (r : Request) : Request :=
  mkRequest (rq_Method r) (rq_Path r) (rq_Query r) (rq_Header r) params.

(** [time.Time.Unix] of a clock in nanoseconds. *)
Definition Unix (t : Z) : Z := t / 1000000000.

Section router.
Context {JL : JwtLib} {HR : HttpRate} {CO : Cors} {CH : Chi}.

(** A table of routes as a handler. *)
Definition routes (table : list (string * Handler)) : Handler := fun cx r c n =>
  match find_route (map fst table) r with
  | Some (pattern, params) =>
      match assoc pattern table with
      | Some h => h cx (with_params params r) c n
      | None => answer (no_route r) cx r c n
      end
  | None => answer (no_route r) cx r c n
  end.

(** [Deps], as far as the routes need it: the version, the signer, the limits, the optional
    metrics middleware, and the stream routes. *)
Record Deps : Type := mkDeps {
  dp_Signer : Signer;
  dp_Version : string;
  dp_CORSAllowedOrigins : list string;
  dp_RateLimitPerMinute : Z;
  dp_Metrics : option (Handler -> Handler);
  dp_Readyz : Request -> Q Response;
  dp_MomentumsStream : Handler;
  dp_TransactionsStream : Handler
}.

(** The [/api/v1] subtree; [now] is the clock in nanoseconds. *)
Definition api_v1 (d : Deps) (now : Z) : Handler :=
  AuthMiddleware now (dp_Signer d)
    (RateLimit (dp_RateLimitPerMinute d)
       (routes (map (fun kv => (fst kv, handler (snd kv)))
                  (api_routes (if str_empty (dp_Version d) then "dev" else dp_Version d)
                     (Unix now))))).

Definition top_routes (d : Deps) (now : Z) : list (string * Handler) :=
  [("/healthz", healthz);
   ("/readyz", handler (dp_Readyz d));
   ("/api/v1/momentums/stream", dp_MomentumsStream d);
   ("/api/v1/transactions/stream", dp_TransactionsStream d);
   ("/api/v1/*", api_v1 d now)].

(** The middleware of [r.Use], outermost first: RequestID, Logger, Recover, CORS, metrics. *)
Definition New (d : Deps) (now : Z) (fresh : string) (r : Request) (c : Conn) (n : nat)
  : Served * option LogLine :=
  let inner := match dp_Metrics d with
               | Some metrics => metrics (routes (top_routes d now))
               | None => routes (top_routes d now)
               end in
  RequestID fresh (Logger (Recover (CORS (dp_CORSAllowedOrigins d) inner))) background r c n.

(** A stream route of the table: refused where no hub is configured. *)
Definition stream_route (hub_configured : bool) (disabled : string) (h : Handler) : Handler :=
  if hub_configured then h else answer (WriteProblem 503 "stream_disabled" disabled).
End router.
