(* ===== verification/Mcp.v ===== *)
(** internal/mcp: the tools an MCP client calls, the same read methods and wire types as the
    HTTP API behind another transport, and what stands in front of them. A tool that answers
    a Go error is an [Err]; the SDK turns it into a tool error. *)

From S2P Require Import Prelude.
From S2P Require Import Models.
From S2P Require Import Queries.
From S2P Require Import ListQueries.
From S2P Require Import VoteQueries.
From S2P Require Import Dto.
From S2P Require Import Text.
From S2P Require Import Httpx.
From S2P Require Import Auth.
From S2P Require Import Middleware.
From S2P Require Import Handlers.
#[local] Open Scope string_scope.
#[local] Open Scope Z_scope.

Module mcp.

(** ** result.go *)

(** A successful tool call: the value, as text and as structured content, or the marshalling
    error as the tool's result. *)
Inductive ToolResult (V : Type) : Type :=
| TValue (v : V)
| TMarshalFailed.
Arguments TValue {V}.
Arguments TMarshalFailed {V}.

Definition jsonResult (v : Payload) : Q (ToolResult Payload) :=
  mret (if marshals v then TValue v else TMarshalFailed).

(** ** pagination.go *)

Record pageParams : Type := mkpageParams {
  pp_Page : Z;
  pp_PageSize : Z
}.

Definition pagination (p : pageParams) : Pagination :=
  mkPagination
    (if pp_Page p <? 1 then 1 else pp_Page p)
    (let size := if pp_PageSize p <? 1 then DefaultPageSize else pp_PageSize p in
     if MaxPageSize <? size then MaxPageSize else size).

Definition sortDirection (sort def : string) : string :=
  if String.eqb sort "asc" || String.eqb sort "desc" then sort else def.

(** [rows, total, err := q; if err != nil { return nil, nil, err }; return
    jsonResult(dto.NewPage(...))] *)
Definition page_result {A B} (page : Pagination) (q : Q (list A * Z)) (from : list A -> list B)
    (wrap : dto.Page B -> Payload) : Q (ToolResult Payload) :=
  out ← q;
  let '(rows, total) := out in
  jsonResult (wrap (dto.NewPage (from rows) (Page page) (PageSize page) total)).

Definition item_result {A} (q : Q A) (from : A -> Payload) : Q (ToolResult Payload) :=
  x ← q; jsonResult (from x).

(** ** momentums.go, account_blocks.go, accounts.go *)

Definition getMomentumByHeight (height : Z) : Q (ToolResult Payload) :=
  item_result (MomentumQueries.GetByHeight height) (fun m => PMomentum (dto.FromMomentum m)).

Definition getLatestMomentum : Q (ToolResult Payload) :=
  item_result MomentumQueries.GetLatest (fun m => PMomentum (dto.FromMomentum m)).

Definition listMomentums (p : pageParams) (sort : string) : Q (ToolResult Payload) :=
  let page := pagination p in
  page_result page (MomentumQueries.List (opts_of page (sortDirection sort "desc")))
    dto.FromMomentums PMomentums.

Definition listAccountBlocks (p : pageParams) (sort : string) : Q (ToolResult Payload) :=
  let page := pagination p in
  page_result page (AccountBlockQueries.List (opts_of page (sortDirection sort "desc")))
    dto.FromAccountBlocks PAccountBlocks.

Definition getAccountBlock (hash : string) : Q (ToolResult Payload) :=
  item_result (AccountBlockQueries.GetByHash hash)
    (fun b => PAccountBlock (dto.FromAccountBlock b)).

Definition listAccountTransactions (address : string) (p : pageParams) (sort : string)
  : Q (ToolResult Payload) :=
  let page := pagination p in
  page_result page
    (AccountBlockQueries.ListByAddress address (opts_of page (sortDirection sort "desc")))
    dto.FromAccountBlocks PAccountBlocks.

Definition getAccount (address : string) : Q (ToolResult Payload) :=
  item_result (AccountQueries.GetByAddress address) (fun a => PAccount (dto.FromAccount a)).

Definition listAccountBalances (address : string) : Q (ToolResult Payload) :=
  item_result (BalanceQueries.ListByAddress address)
    (fun rows => PBalances (dto.FromBalances rows)).

(** ** tokens.go *)

Definition listTokens (p : pageParams) : Q (ToolResult Payload) :=
  let page := pagination p in
  page_result page (TokenQueries.List (opts_of page "")) dto.FromTokens PTokens.

Definition getToken (tokenStandard : string) : Q (ToolResult Payload) :=
  item_result (TokenQueries.GetByStandard tokenStandard) (fun t => PToken (dto.FromToken t)).

Definition listTokenHolders (tokenStandard : string) (p : pageParams)
  : Q (ToolResult Payload) :=
  let page := pagination p in
  page_result page (BalanceQueries.ListByToken tokenStandard (opts_of page ""))
    dto.FromBalances PHolders.

(** ** pillars.go and sentinels.go *)

Definition listPillars (p : pageParams) (includeRevoked : bool) : Q (ToolResult Payload) :=
  let page := pagination p in
  page_result page (PillarQueries.List includeRevoked (opts_of page ""))
    dto.FromPillars PPillars.

Definition getPillarByName (name : string) : Q (ToolResult Payload) :=
  item_result (PillarQueries.GetByName name) (fun p => PPillar (dto.FromPillar p)).

Definition listPillarDelegators (name : string) (p : pageParams) : Q (ToolResult Payload) :=
  pillar ← PillarQueries.GetByName name;
  let page := pagination p in
  page_result page (PillarQueries.ListDelegators (pil_OwnerAddress pillar) (opts_of page ""))
    dto.FromPillarDelegators PDelegators.

Definition getPillarVotingHistory (name : string) : Q (ToolResult Payload) :=
  item_result (VoteReads.PillarVotingHistory name) (fun row =>
    PPillarVotes (dto.FromPillarVotingHistory (VoteReads.ph_PillarName row)
                    (VoteReads.ph_PillarOwner row)
                    (map raw_vote (VoteReads.ph_Votes row)))).

Definition listSentinels (p : pageParams) (includeInactive : bool) : Q (ToolResult Payload) :=
  let page := pagination p in
  page_result page (SentinelQueries.List (negb includeInactive) (opts_of page ""))
    dto.FromSentinels PSentinels.

(** ** stakes_fusions.go and rewards.go *)

Definition listStakes (p : pageParams) (includeInactive : bool) : Q (ToolResult Payload) :=
  let page := pagination p in
  page_result page (StakeQueries.List (negb includeInactive) (opts_of page ""))
    dto.FromStakes PStakes.

Definition listAccountStakes (address : string) (p : pageParams) (includeInactive : bool)
  : Q (ToolResult Payload) :=
  let page := pagination p in
  page_result page
    (StakeQueries.ListByAddress address (negb includeInactive) (opts_of page ""))
    dto.FromStakes PStakes.

Definition listFusions (p : pageParams) (includeInactive : bool) : Q (ToolResult Payload) :=
  let page := pagination p in
  page_result page (FusionQueries.List (negb includeInactive) (opts_of page ""))
    dto.FromFusions PFusions.

Definition listAccountFusions (address : string) (p : pageParams) (includeInactive : bool)
  : Q (ToolResult Payload) :=
  let page := pagination p in
  page_result page
    (FusionQueries.ListByAddress address (negb includeInactive) (opts_of page ""))
    dto.FromFusions PFusions.

Definition listAccountRewards (address : string) (p : pageParams) : Q (ToolResult Payload) :=
  let page := pagination p in
  page_result page (RewardQueries.HistoryByAddress address (opts_of page ""))
    dto.FromRewardTransactions PRewards.

Definition getAccountCumulativeRewards (address : string) : Q (ToolResult Payload) :=
  item_result (RewardQueries.CumulativeByAddress address)
    (fun rows => PCumulative (dto.FromCumulativeRewards rows)).

(** ** projects.go *)

Definition listProjects (p : pageParams) : Q (ToolResult Payload) :=
  let page := pagination p in
  page_result page (ProjectQueries.List (opts_of page "")) dto.FromProjects PProjects.

Definition getProject (id : string) : Q (ToolResult Payload) :=
  item_result (ProjectQueries.GetByID id) (fun p => PProject (dto.FromProject p)).

Definition listProjectPhases (id : string) : Q (ToolResult Payload) :=
  item_result (ProjectPhaseQueries.ListByProject id)
    (fun rows => PPhases (dto.FromProjectPhases rows)).

Definition listProjectVotes (id : string) (p : pageParams) : Q (ToolResult Payload) :=
  let page := pagination p in
  page_result page (VoteReads.ListByProject id (opts_of page "")) dto.FromVotes PVotes.

(** projects.go's copy of the translator of the HTTP handlers. *)
Definition projectVotingReportToDTO (row : VoteReads.ProjectVotingReportRow)
  : dto.ProjectVotingReport :=
  dto.mkProjectVotingReport (VoteReads.vr_ProjectID row) (VoteReads.vr_ProjectName row)
    (VoteReads.vr_ActivePillarCount row)
    (dto.FromProposalTally (raw_tally (VoteReads.vr_Project row)))
    (map (fun ph => dto.FromPhaseTally (VoteReads.pht_PhaseID ph)
                      (VoteReads.pht_PhaseName ph) (raw_tally (VoteReads.pht_Tally ph)))
       (VoteReads.vr_Phases row)).

Definition getProjectVotingReport (id : string) : Q (ToolResult Payload) :=
  item_result (VoteReads.ProjectVotingReport id)
    (fun row => PReport (projectVotingReportToDTO row)).

(** ** bridge.go *)

Definition listBridgeWraps (p : pageParams) : Q (ToolResult Payload) :=
  let page := pagination p in
  page_result page (BridgeQueries.ListWraps (opts_of page "")) dto.FromWrapTokenRequests
    PWraps.

Definition listBridgeUnwraps (p : pageParams) : Q (ToolResult Payload) :=
  let page := pagination p in
  page_result page (BridgeQueries.ListUnwraps (opts_of page "")) dto.FromUnwrapTokenRequests
    PUnwraps.

Definition listAccountBridgeWraps (address : string) (p : pageParams)
  : Q (ToolResult Payload) :=
  let page := pagination p in
  page_result page (BridgeQueries.ListWrapsByAddress address (opts_of page ""))
    dto.FromWrapTokenRequests PWraps.

Definition listAccountBridgeUnwraps (address : string) (p : pageParams)
  : Q (ToolResult Payload) :=
  let page := pagination p in
  page_result page (BridgeQueries.ListUnwrapsByAddress address (opts_of page ""))
    dto.FromUnwrapTokenRequests PUnwraps.

(** ** status.go *)

(** [now] is the clock in seconds. *)
Definition getStatus (version : string) (now : Z) : Q (ToolResult Payload) :=
  attempt MomentumQueries.GetLatest
    (fun m =>
       let lag := int64 (now - mom_Timestamp m) in
       let lag := if lag <? 0 then 0 else lag in
       jsonResult (PStatus (dto.mkStatus (mom_Height m) (mom_Timestamp m) lag version)))
    (fun e => if is_no_rows e then jsonResult (PStatus (dto.mkStatus 0 0 0 version))
              else fail e).

(** ** schema_overview.go *)

Record schemaTable : Type := mkschemaTable {
  st_Name : string;
  st_Domain : string;
  st_Purpose : string;
  st_Tools : list string
}.

Record schemaOverview : Type := mkschemaOverview {
  so_Version : Z;
  so_Tables : list schemaTable;
  so_Notes : list string
}.

Definition catalog : schemaOverview := mkschemaOverview 1
  [mkschemaTable "momentums" "core_ledger" "Block headers indexed by height."
     ["get_momentum_by_height"; "get_latest_momentum"; "list_momentums"; "get_status"];
   mkschemaTable "account_blocks" "core_ledger" "Every transaction with decoded ABI inputs."
     ["list_account_blocks"; "get_account_block"; "list_account_transactions"];
   mkschemaTable "accounts" "core_ledger" "One row per address; flow metrics, delegation, genesis seed."
     ["get_account"];
   mkschemaTable "balances" "core_ledger" "Current balance per (address, token)."
     ["list_account_balances"; "list_token_holders"];
   mkschemaTable "tokens" "core_ledger" "ZTS token registry with current supply + holder/tx counts."
     ["list_tokens"; "get_token"];
   mkschemaTable "token_mints" "core_ledger" "Every mint event as its own row."
     [];
   mkschemaTable "token_burns" "core_ledger" "Every burn event as its own row."
     [];
   mkschemaTable "pillars" "pillars" "Current pillar registry."
     ["list_pillars"; "get_pillar_by_name"; "list_pillar_delegators";
      "get_pillar_voting_history"];
   mkschemaTable "pillar_updates" "pillars" "Append-only history of pillar config changes."
     [];
   mkschemaTable "delegations" "pillars" "Time-bucketed delegator → pillar intervals."
     [];
   mkschemaTable "sentinels" "sentinels_stakes_plasma" "Sentinel node registrations."
     ["list_sentinels"];
   mkschemaTable "stakes" "sentinels_stakes_plasma" "Staking entries (with ABI-derived cancel_id)."
     ["list_stakes"; "list_account_stakes"];
   mkschemaTable "fusions" "sentinels_stakes_plasma" "Plasma fusion entries (with ABI-derived cancel_id)."
     ["list_fusions"; "list_account_fusions"];
   mkschemaTable "projects" "accelerator_z" "Accelerator-Z funding projects."
     ["list_projects"; "get_project"; "get_project_voting_report"];
   mkschemaTable "project_phases" "accelerator_z" "Project phases (sub-grants)."
     ["list_project_phases"];
   mkschemaTable "votes" "accelerator_z" "Pillar votes on projects/phases."
     ["list_project_votes"; "get_project_voting_report"; "get_pillar_voting_history"];
   mkschemaTable "reward_transactions" "rewards" "Per-event reward receipts."
     ["list_account_rewards"];
   mkschemaTable "cumulative_rewards" "rewards" "Running total per (address, type, token)."
     ["get_account_cumulative_rewards"];
   mkschemaTable "wrap_token_requests" "bridge" "ZTS → external-chain wrap intents."
     ["list_bridge_wraps"; "list_account_bridge_wraps"];
   mkschemaTable "unwrap_token_requests" "bridge" "External-chain → ZTS unwrap intents."
     ["list_bridge_unwraps"; "list_account_bridge_unwraps"];
   mkschemaTable "bridge_networks" "bridge" "Configured destination networks (paginated from BridgeApi)."
     [];
   mkschemaTable "bridge_network_tokens" "bridge" "Per-network token pair configuration (fees, min, redeem delay)."
     [];
   mkschemaTable "bridge_admin" "bridge" "Singleton with current administrator + halt state."
     [];
   mkschemaTable "bridge_guardians" "bridge" "Active guardian set."
     [];
   mkschemaTable "bridge_orchestrator_info" "bridge" "Singleton with orchestrator parameters."
     [];
   mkschemaTable "bridge_security_info" "bridge" "Singleton with security delay parameters."
     [];
   mkschemaTable "network_stat_histories" "daily_snapshots" "Daily network-wide totals + activity."
     [];
   mkschemaTable "token_stat_histories" "daily_snapshots" "Daily per-token mints/burns + carried state."
     [];
   mkschemaTable "pillar_stat_histories" "daily_snapshots" "Daily per-pillar weight + delegator count."
     [];
   mkschemaTable "bridge_stat_histories" "daily_snapshots" "Daily per-(network, chain, token) wrap/unwrap volume."
     []]
  ["All amounts/balances/supplies are int64 (BIGINT) — JSON-encoded as strings to dodge JavaScript Number precision loss.";
   "All timestamps are Unix seconds (BIGINT).";
   "All hashes and addresses are lowercase hex/zenon strings.";
   "No foreign keys: joins are by hash/address/standard. The indexer writes per momentum in a transaction."].

Definition getSchemaOverview : Q (ToolResult schemaOverview) := mret (TValue catalog).

(** ** register.go *)

(** A call of a registered tool that answers a payload, with its arguments. *)
Inductive ToolCall : Type :=
| TGetStatus
| TGetMomentumByHeight (height : Z)
| TGetLatestMomentum
| TListMomentums (p : pageParams) (sort : string)
| TGetAccount (address : string)
| TListAccountBalances (address : string)
| TListTokens (p : pageParams)
| TGetToken (tokenStandard : string)
| TListTokenHolders (tokenStandard : string) (p : pageParams)
| TListAccountBlocks (p : pageParams) (sort : string)
| TGetAccountBlock (hash : string)
| TListAccountTransactions (address : string) (p : pageParams) (sort : string)
| TListPillars (p : pageParams) (includeRevoked : bool)
| TGetPillarByName (name : string)
| TListPillarDelegators (name : string) (p : pageParams)
| TGetPillarVotingHistory (name : string)
| TListSentinels (p : pageParams) (includeInactive : bool)
| TListStakes (p : pageParams) (includeInactive : bool)
| TListAccountStakes (address : string) (p : pageParams) (includeInactive : bool)
| TListFusions (p : pageParams) (includeInactive : bool)
| TListAccountFusions (address : string) (p : pageParams) (includeInactive : bool)
| TListAccountRewards (address : string) (p : pageParams)
| TGetAccountCumulativeRewards (address : string)
| TListProjects (p : pageParams)
| TGetProject (id : string)
| TListProjectPhases (id : string)
| TListProjectVotes (id : string) (p : pageParams)
| TGetProjectVotingReport (id : string)
| TListBridgeWraps (p : pageParams)
| TListBridgeUnwraps (p : pageParams)
| TListAccountBridgeWraps (address : string) (p : pageParams)
| TListAccountBridgeUnwraps (address : string) (p : pageParams).

Definition tool_name (t : ToolCall) : string :=
  match t with
  | TGetStatus => "get_status"
  | TGetMomentumByHeight _ => "get_momentum_by_height"
  | TGetLatestMomentum => "get_latest_momentum"
  | TListMomentums _ _ => "list_momentums"
  | TGetAccount _ => "get_account"
  | TListAccountBalances _ => "list_account_balances"
  | TListTokens _ => "list_tokens"
  | TGetToken _ => "get_token"
  | TListTokenHolders _ _ => "list_token_holders"
  | TListAccountBlocks _ _ => "list_account_blocks"
  | TGetAccountBlock _ => "get_account_block"
  | TListAccountTransactions _ _ _ => "list_account_transactions"
  | TListPillars _ _ => "list_pillars"
  | TGetPillarByName _ => "get_pillar_by_name"
  | TListPillarDelegators _ _ => "list_pillar_delegators"
  | TGetPillarVotingHistory _ => "get_pillar_voting_history"
  | TListSentinels _ _ => "list_sentinels"
  | TListStakes _ _ => "list_stakes"
  | TListAccountStakes _ _ _ => "list_account_stakes"
  | TListFusions _ _ => "list_fusions"
  | TListAccountFusions _ _ _ => "list_account_fusions"
  | TListAccountRewards _ _ => "list_account_rewards"
  | TGetAccountCumulativeRewards _ => "get_account_cumulative_rewards"
  | TListProjects _ => "list_projects"
  | TGetProject _ => "get_project"
  | TListProjectPhases _ => "list_project_phases"
  | TListProjectVotes _ _ => "list_project_votes"
  | TGetProjectVotingReport _ => "get_project_voting_report"
  | TListBridgeWraps _ => "list_bridge_wraps"
  | TListBridgeUnwraps _ => "list_bridge_unwraps"
  | TListAccountBridgeWraps _ _ => "list_account_bridge_wraps"
  | TListAccountBridgeUnwraps _ _ => "list_account_bridge_unwraps"
  end.

(** The handler each tool is registered with. *)
Definition call_tool (version : string) (now : Z) (t : ToolCall) : Q (ToolResult Payload) :=
  match t with
  | TGetStatus => getStatus version now
  | TGetMomentumByHeight h => getMomentumByHeight h
  | TGetLatestMomentum => getLatestMomentum
  | TListMomentums p s => listMomentums p s
  | TGetAccount a => getAccount a
  | TListAccountBalances a => listAccountBalances a
  | TListTokens p => listTokens p
  | TGetToken t => getToken t
  | TListTokenHolders t p => listTokenHolders t p
  | TListAccountBlocks p s => listAccountBlocks p s
  | TGetAccountBlock h => getAccountBlock h
  | TListAccountTransactions a p s => listAccountTransactions a p s
  | TListPillars p b => listPillars p b
  | TGetPillarByName n => getPillarByName n
  | TListPillarDelegators n p => listPillarDelegators n p
  | TGetPillarVotingHistory n => getPillarVotingHistory n
  | TListSentinels p b => listSentinels p b
  | TListStakes p b => listStakes p b
  | TListAccountStakes a p b => listAccountStakes a p b
  | TListFusions p b => listFusions p b
  | TListAccountFusions a p b => listAccountFusions a p b
  | TListAccountRewards a p => listAccountRewards a p
  | TGetAccountCumulativeRewards a => getAccountCumulativeRewards a
  | TListProjects p => listProjects p
  | TGetProject i => getProject i
  | TListProjectPhases i => listProjectPhases i
  | TListProjectVotes i p => listProjectVotes i p
  | TGetProjectVotingReport i => getProjectVotingReport i
  | TListBridgeWraps p => listBridgeWraps p
  | TListBridgeUnwraps p => listBridgeUnwraps p
  | TListAccountBridgeWraps a p => listAccountBridgeWraps a p
  | TListAccountBridgeUnwraps a p => listAccountBridgeUnwraps a p
  end.

(** The names [Register] adds, in its order. *)
Definition registered_tools : list string :=
  ["get_status"; "get_schema_overview";
   "get_momentum_by_height"; "get_latest_momentum"; "list_momentums";
   "get_account"; "list_account_balances";
   "list_tokens"; "get_token"; "list_token_holders";
   "list_account_blocks"; "get_account_block"; "list_account_transactions";
   "list_pillars"; "get_pillar_by_name"; "list_pillar_delegators";
   "get_pillar_voting_history";
   "list_sentinels";
   "list_stakes"; "list_account_stakes"; "list_fusions"; "list_account_fusions";
   "list_account_rewards"; "get_account_cumulative_rewards";
   "list_projects"; "get_project"; "list_project_phases"; "list_project_votes";
   "get_project_voting_report";
   "list_bridge_wraps"; "list_bridge_unwraps"; "list_account_bridge_wraps";
   "list_account_bridge_unwraps"].

(** ** server/health.go *)

Definition minSchemaVersion : Z := 12.

(** ** server/auth.go *)

(** The header is preferred, the [token] query parameter is the fallback. *)
Definition bearerToken (r : Request) : string * bool * bool :=
  let h := header_get r "Authorization" in
  if negb (str_empty h) then
    if Nat.leb (String.length h) 7 || negb (equal_fold (String.substring 0 7 h) "Bearer ")
    then ("", true, false)
    else (trim_space (String.substring 7 (String.length h) h), true, true)
  else
    let t := query_get r "token" in
    if negb (str_empty t) then (t, true, true) else ("", false, false).

(** What [Auth] lets through: the claims, or the code and the message of the JSON-RPC error
    answered with status 401. *)
Definition authenticate {JL : JwtLib} (signer : Signer) (now : Z) (r : Request)
  : Claims + (string * string) :=
  let '(tok, found, ok) := bearerToken r in
  if negb found then inr ("missing_token", "missing JWT (Authorization header or ?token= query)")
  else if negb ok then
    inr ("invalid_token", "malformed Authorization header (want: Bearer <token>)")
  else match Verify signer now tok with
       | Ok claims => inl claims
       | Err e => inr (if is_token_expired e then "expired_token" else "invalid_token",
                       "invalid or expired token")
       end.
End mcp.
