(* ===== verification/Config.v ===== *)
(** internal/config: the configuration's shape, its defaults and environment variables, the
    node list built from the legacy variables, validation, and the values derived from it.

    Reading the file, merging the sources and decoding into the structure are viper's
    ([Viper]); net/url's parse of a node URL is an argument of [deriveProbeURL].

    Theorems: what a configuration that loads satisfies, and the nodes the
    legacy variables stand for. *)

From S2P Require Import Prelude.
From S2P Require Import Text.
#[local] Open Scope string_scope.
#[local] Open Scope Z_scope.

Module config.

(** ** The structure *)

Record WebhookEndpoint : Type := mkWebhookEndpoint {
  we_URL : string;
  we_Secret : string;
  we_Events : list string
}.

Record WebhooksConfig : Type := mkWebhooksConfig {
  wh_Enabled : bool;
  wh_Endpoints : list WebhookEndpoint;
  wh_TimeoutSeconds : Z;
  wh_MaxRetries : Z
}.

Record NodeEntry : Type := mkNodeEntry {
  ne_URL : string;
  ne_Label : string;
  ne_ProbeURL : string
}.

(** Durations are nanoseconds. *)
Record WatchdogConfig : Type := mkWatchdogConfig {
  wd_Enabled : bool;
  wd_Interval : Z;
  wd_StallThreshold : Z;
  wd_IndexerDriftThreshold : Z;
  wd_NodeDriftThreshold : Z;
  wd_UnhealthyStreak : Z;
  wd_FailbackStreak : Z
}.

Record HealthConfig : Type := mkHealthConfig {
  hc_Enabled : bool;
  hc_Port : Z
}.

Record IndexerConfig : Type := mkIndexerConfig {
  ic_Nodes : list NodeEntry;
  ic_Watchdog : WatchdogConfig;
  ic_Health : HealthConfig
}.

Record NodeConfig : Type := mkNodeConfig { nc_WebSocketURL : string }.

Record DatabaseConfig : Type := mkDatabaseConfig {
  dc_Host : string;
  dc_Port : Z;
  dc_Name : string;
  dc_User : string;
  dc_Password : string;
  dc_PoolSize : Z
}.

Record LoggingConfig : Type := mkLoggingConfig {
  lc_Level : string;
  lc_Format : string
}.

Record CronConfig : Type := mkCronConfig {
  cc_VotingActivityInterval : string;
  cc_TokenHoldersInterval : string
}.

Record APIConfig : Type := mkAPIConfig {
  ac_Port : Z;
  ac_MetricsPort : Z;
  ac_JWTSecret : string;
  ac_CORSAllowedOrigins : string;
  ac_RateLimitPerMinute : Z
}.

Record MCPConfig : Type := mkMCPConfig {
  mc_Port : Z;
  mc_MetricsPort : Z;
  mc_JWTSecret : string;
  mc_CORSAllowedOrigins : string;
  mc_RateLimitPerMinute : Z
}.

Record Config : Type := mkConfig {
  cf_Node : NodeConfig;
  cf_Database : DatabaseConfig;
  cf_Logging : LoggingConfig;
  cf_Cron : CronConfig;
  cf_API : APIConfig;
  cf_MCP : MCPConfig;
  cf_Indexer : IndexerConfig;
  cf_Webhooks : WebhooksConfig;
  cf_BackfillOnStartup : bool
}.

#[export] Instance IndexerConfig_eta : Eta IndexerConfig := fun r =>
  mkIndexerConfig (ic_Nodes r) (ic_Watchdog r) (ic_Health r).

#[export] Instance Config_eta : Eta Config := fun r =>
  mkConfig (cf_Node r) (cf_Database r) (cf_Logging r) (cf_Cron r) (cf_API r) (cf_MCP r)
    (cf_Indexer r) (cf_Webhooks r) (cf_BackfillOnStartup r).

(** ** Derived values *)

(** [CORSAllowedOriginsList] of the API's and of the MCP server's configuration: the same
    code over the same field. *)
Definition origins_list (origins : string) : list string :=
  if str_empty origins then []
  else List.filter (fun t => negb (str_empty t)) (map trim_space (split_char "," origins)).

Definition APIConfig_CORSAllowedOriginsList (a : APIConfig) : list string :=
  origins_list (ac_CORSAllowedOrigins a).

Definition MCPConfig_CORSAllowedOriginsList (m : MCPConfig) : list string :=
  origins_list (mc_CORSAllowedOrigins m).

Definition EffectiveJWTSecret (m : MCPConfig) (apiSecret : string) : string :=
  if negb (str_empty (mc_JWTSecret m)) then mc_JWTSecret m else apiSecret.

Definition ConnectionString (d : DatabaseConfig) : string :=
  "postgres://" +:+ dc_User d +:+ ":" +:+ dc_Password d +:+ "@" +:+ dc_Host d +:+ ":"
  +:+ format_int (dc_Port d) +:+ "/" +:+ dc_Name d +:+ "?sslmode=disable".

(** ** Validation *)

Definition Validate (c : Config) : result unit :=
  let d := cf_Database c in
  if str_empty (nc_WebSocketURL (cf_Node c)) then Err (EMsg "node.ws_url is required")
  else if str_empty (dc_Host d) then Err (EMsg "database.host is required")
  else if (dc_Port d <=? 0) || (65535 <? dc_Port d)
  then Err (EMsg "database.port must be between 1 and 65535")
  else if str_empty (dc_Name d) then Err (EMsg "database.name is required")
  else if str_empty (dc_User d) then Err (EMsg "database.user is required")
  else if str_empty (dc_Password d)
  then Err (EMsg "database.password is required (set in config.yaml or DATABASE_PASSWORD env var)")
  else Ok tt.

(** ** Logging *)

(** [BuildLogger] up to zap's [Build]: the level and the encoding. [parse_level] is
    zapcore's [UnmarshalText]. *)
Definition BuildLogger (parse_level : string -> option string) (l : LoggingConfig)
  : result (string * string) :=
  level ← (if str_empty (lc_Level l) then Ok "info"
           else match parse_level (to_lower (lc_Level l)) with
                | Some level => Ok level
                | None => Err (EMsg ("invalid logging.level " +:+ lc_Level l))
                end);
  let format := to_lower (lc_Format l) in
  if String.eqb format "json" then Ok (level, "json")
  else if str_empty format || String.eqb format "console" then Ok (level, "console")
  else Err (EMsg ("invalid logging.format " +:+ lc_Format l +:+ " (want json or console)")).

(** ** Probe URLs *)

(** What [url.Parse] answers of a URL: the scheme, [Hostname()], [Port()] and the path. *)
Record Url : Type := mkUrl {
  u_Scheme : string;
  u_Hostname : string;
  u_Port : string;
  u_Path : string
}.

Definition deriveProbeURL (parse : string -> option Url) (wsURL : string) : string :=
  match parse wsURL with
  | None => ""
  | Some u =>
      if negb (String.eqb (u_Scheme u) "ws") && negb (String.eqb (u_Scheme u) "wss") then ""
      else if str_empty (u_Port u) then ""
      else match parse_int64 (u_Port u) with
           | Some 35998 =>
               (if String.eqb (u_Scheme u) "wss" then "https" else "http")
               +:+ "://" +:+ u_Hostname u +:+ ":" +:+ format_int (35998 - 1) +:+ u_Path u
           | _ => ""
           end
  end.

(** ** Loading *)

(** [v.SetDefault], in order. *)
Inductive Setting : Type :=
| VStr (s : string)
| VInt (z : Z)
| VBool (b : bool).

Definition defaults : list (string * Setting) :=
  [("node.ws_url", VStr "wss://test.hc1node.com");
   ("database.host", VStr "localhost");
   ("database.port", VInt 5432);
   ("database.name", VStr "nom_indexer");
   ("database.user", VStr "postgres");
   ("database.pool_size", VInt 10);
   ("logging.level", VStr "info");
   ("logging.format", VStr "console");
   ("cron.voting_activity_interval", VStr "10m");
   ("cron.token_holders_interval", VStr "10m");
   ("api.port", VInt 8080);
   ("api.metrics_port", VInt 9090);
   ("api.cors_allowed_origins", VStr "");
   ("api.rate_limit_per_minute", VInt 60);
   ("mcp.port", VInt 8081);
   ("mcp.metrics_port", VInt 9091);
   ("mcp.cors_allowed_origins", VStr "");
   ("mcp.rate_limit_per_minute", VInt 60);
   ("backfill_on_startup", VBool false);
   ("indexer.watchdog.enabled", VBool false);
   ("indexer.watchdog.interval", VStr "30s");
   ("indexer.watchdog.stall_threshold", VStr "60s");
   ("indexer.watchdog.indexer_drift_threshold", VInt 3);
   ("indexer.watchdog.node_drift_threshold", VInt 3);
   ("indexer.watchdog.unhealthy_streak", VInt 2);
   ("indexer.watchdog.failback_streak", VInt 5);
   ("indexer.health.enabled", VBool true);
   ("indexer.health.port", VInt 9092);
   ("webhooks.enabled", VBool false);
   ("webhooks.timeout_seconds", VInt 5);
   ("webhooks.max_retries", VInt 3)].

(** [v.BindEnv], in order. *)
Definition env_bindings : list (string * string) :=
  [("node.ws_url", "NODE_URL_WS");
   ("database.host", "DATABASE_ADDRESS");
   ("database.port", "DATABASE_PORT");
   ("database.name", "DATABASE_NAME");
   ("database.user", "DATABASE_USERNAME");
   ("database.password", "DATABASE_PASSWORD");
   ("logging.level", "LOG_LEVEL");
   ("logging.format", "LOG_FORMAT");
   ("backfill_on_startup", "BACKFILL_ON_STARTUP");
   ("api.port", "API_PORT");
   ("api.metrics_port", "API_METRICS_PORT");
   ("api.jwt_secret", "API_JWT_SECRET");
   ("api.cors_allowed_origins", "API_CORS_ALLOWED_ORIGINS");
   ("api.rate_limit_per_minute", "API_RATE_LIMIT_PER_MINUTE");
   ("mcp.port", "MCP_PORT");
   ("mcp.metrics_port", "MCP_METRICS_PORT");
   ("mcp.jwt_secret", "MCP_JWT_SECRET");
   ("mcp.cors_allowed_origins", "MCP_CORS_ALLOWED_ORIGINS");
   ("mcp.rate_limit_per_minute", "MCP_RATE_LIMIT_PER_MINUTE");
   ("indexer.watchdog.enabled", "INDEXER_WATCHDOG_ENABLED");
   ("indexer.watchdog.interval", "INDEXER_WATCHDOG_INTERVAL");
   ("indexer.watchdog.stall_threshold", "INDEXER_WATCHDOG_STALL_THRESHOLD");
   ("indexer.watchdog.indexer_drift_threshold", "INDEXER_WATCHDOG_INDEXER_DRIFT_THRESHOLD");
   ("indexer.watchdog.node_drift_threshold", "INDEXER_WATCHDOG_NODE_DRIFT_THRESHOLD");
   ("indexer.watchdog.unhealthy_streak", "INDEXER_WATCHDOG_UNHEALTHY_STREAK");
   ("indexer.watchdog.failback_streak", "INDEXER_WATCHDOG_FAILBACK_STREAK");
   ("indexer.health.enabled", "INDEXER_HEALTH_ENABLED");
   ("indexer.health.port", "INDEXER_HEALTH_PORT");
   ("webhooks.enabled", "WEBHOOKS_ENABLED")].

(** github.com/spf13/viper with its sources: reading the file of the search paths ([None] is
    a file that is not found), and decoding the merged settings. *)
Class Viper : Type := {
  ReadInConfig : list string -> option (result unit);
  Unmarshal : list (string * Setting) -> list (string * string) -> list string -> result Config
}.

(** A node entry of the legacy variables, with its probe URL when one can be derived. *)
Definition legacy_entry (parse : string -> option Url) (label url : string) : NodeEntry :=
  mkNodeEntry url label (deriveProbeURL parse url).

(** The loop over [NODE_URL_FALLBACKS]; [seq] numbers the entries. *)
Fixpoint fallback_entries (parse : string -> option Url) (seq : Z) (parts : list string)
  : list NodeEntry :=
  match parts with
  | [] => []
  | u :: parts' =>
      let u := trim_space u in
      if str_empty u then fallback_entries parse seq parts'
      else legacy_entry parse ("fallback-" +:+ format_int seq) u
           :: fallback_entries parse (seq + 1) parts'
  end.

Definition with_legacy_nodes (parse : string -> option Url) (fallbacks : string) (cfg : Config)
  : Config :=
  let url := nc_WebSocketURL (cf_Node cfg) in
  match ic_Nodes (cf_Indexer cfg) with
  | _ :: _ => cfg
  | [] =>
      if str_empty url then cfg
      else
        let nodes := legacy_entry parse "primary" url
                     :: (if str_empty fallbacks then []
                         else fallback_entries parse 1 (split_char "," fallbacks)) in
        cfg <| cf_Indexer := (cf_Indexer cfg) <| ic_Nodes := nodes |> |>
  end.

(** [load]; [fallbacks] is the environment's [NODE_URL_FALLBACKS]. *)
Definition load {VP : Viper} (parse : string -> option Url) (fallbacks : string)
    (configPaths : list string) : result Config :=
  _ ← match ReadInConfig configPaths with
      | Some m => wrap_err "error reading config file" m
      | None => Ok tt
      end;
  cfg ← wrap_err "error unmarshaling config" (Unmarshal defaults env_bindings configPaths);
  let cfg := with_legacy_nodes parse fallbacks cfg in
  _ ← wrap_err "config validation failed" (Validate cfg);
  Ok cfg.

Definition Load {VP : Viper} (parse : string -> option Url) (fallbacks : string)
  : result Config :=
  load parse fallbacks ["."; "/app"].
End config.

Import config.

(** What [Validate] promises. *)
Record valid (c : Config) : Prop := mk_valid {
  valid_ws_url : nc_WebSocketURL (cf_Node c) <> "";
  valid_host : dc_Host (cf_Database c) <> "";
  valid_port : 1 <= dc_Port (cf_Database c) <= 65535;
  valid_name : dc_Name (cf_Database c) <> "";
  valid_user : dc_User (cf_Database c) <> "";
  valid_password : dc_Password (cf_Database c) <> ""
}.

Lemma str_empty_spec s : str_empty s = true <-> s = "".
Proof. by destruct s. Qed.

Lemma Validate_valid c : Validate c = Ok tt <-> valid c.
Proof.
  unfold Validate. split.
  - intros H.
    repeat (match type of H with (if ?b then _ else _) = _ => destruct b eqn:? end; [done|]).
    rewrite <- not_true_iff_false, str_empty_spec in *. split; try done.
    match goal with Hp : _ || _ <> true |- _ =>
      apply not_true_iff_false, orb_false_iff in Hp as [H1 H2] end. lia.
  - intros [H1 H2 H3 H4 H5 H6].
    repeat match goal with Hs : _ <> "" |- _ =>
      rewrite <- str_empty_spec, not_true_iff_false in Hs; rewrite Hs; clear Hs end.
    rewrite (proj2 (Z.leb_gt _ _)), (proj2 (Z.ltb_ge _ _)) by lia. done.
Qed.

(** The URLs of [NODE_URL_FALLBACKS]: its parts, trimmed, without the blank ones. *)
Definition fallback_urls (fallbacks : string) : list string :=
  if str_empty fallbacks then []
  else List.filter (fun u => negb (str_empty u)) (map trim_space (split_char "," fallbacks)).

Lemma fallback_entries_spec parse n parts :
  fallback_entries parse n parts
  = imap (fun i u => legacy_entry parse ("fallback-" +:+ format_int (n + Z.of_nat i)) u)
      (List.filter (fun u => negb (str_empty u)) (map trim_space parts)).
Proof.
  revert n. induction parts as [|u parts IH]; intros n; [done|].
  cbn [fallback_entries map List.filter].
  destruct (str_empty (trim_space u)) eqn:E; cbn [negb]; [apply IH|].
  rewrite imap_cons. rewrite Z.add_0_r. f_equal. rewrite IH. apply imap_ext.
  intros i x _. cbn. do 3 f_equal. lia.
Qed.

(** A configuration loads only when it is valid, and then has a node to connect to. Where the
    file lists no nodes they are the legacy ones: the primary, at [node.ws_url], and one per
    URL of [NODE_URL_FALLBACKS], labelled in order from [fallback-1]. *)
Theorem load_spec {VP : Viper} parse fallbacks paths cfg :
  load parse fallbacks paths = Ok cfg ->
  valid cfg /\ ic_Nodes (cf_Indexer cfg) <> []
  /\ forall raw, Unmarshal defaults env_bindings paths = Ok raw ->
       cf_Node cfg = cf_Node raw /\ cf_Database cfg = cf_Database raw
       /\ ic_Nodes (cf_Indexer cfg)
          = match ic_Nodes (cf_Indexer raw) with
            | [] => legacy_entry parse "primary" (nc_WebSocketURL (cf_Node raw))
                    :: imap (fun i u => legacy_entry parse
                               ("fallback-" +:+ format_int (1 + Z.of_nat i)) u)
                         (fallback_urls fallbacks)
            | nodes => nodes
            end.
Proof.
  unfold load. intros (u & _ & (raw & Hraw%wrap_err_Ok & (t & Hv%wrap_err_Ok & [= <-])%bind_Ok)%bind_Ok)%bind_Ok.
  destruct t. apply Validate_valid in Hv. split; [done|].
  assert (str_empty (nc_WebSocketURL (cf_Node raw)) = false) as Hurl.
  { destruct Hv as [Hv _ _ _ _ _]. apply not_true_iff_false. intros E%str_empty_spec. apply Hv.
    unfold with_legacy_nodes. destruct (ic_Nodes _); [|done].
    destruct (str_empty _); done. }
  clear Hv. unfold with_legacy_nodes. rewrite Hurl, Hraw.
  destruct (ic_Nodes (cf_Indexer raw)) as [|node nodes] eqn:En.
  - split; [done|]. intros raw' [= <-]. rewrite En. do 2 (split; [done|]). cbn.
    unfold fallback_urls. destruct (str_empty fallbacks); [done|].
    by rewrite fallback_entries_spec.
  - split; [by rewrite En|]. intros raw' [= <-]. by rewrite En.
Qed.
