(* ===== verification/QueryFacts.v ===== *)
(** Lemmas on queries: what [ORDER BY] fixes and what the scan decides, how pages of one
    result fit together, and what a query answers on a pool whose tables do not change. *)

From S2P Require Import Prelude.
From S2P Require Import Models.
From S2P Require Import RepoLedger.
From S2P Require Import Database.
From S2P Require Import Queries.
#[local] Open Scope string_scope.
#[local] Open Scope Z_scope.

(** ** Orders *)

(** [ORDER BY] terms compare any two rows, transitively. *)
Class TotalPre {V} (le : V -> V -> bool) : Prop := {
  tp_total : forall a b, le a b = true \/ le b a = true;
  tp_trans : forall a b c, le a b = true -> le b c = true -> le a c = true
}.

#[global] Instance asc_total {V} (key : V -> Z) : TotalPre (asc key).
Proof. split; unfold asc; intros *; rewrite !Z.leb_le; lia. Qed.

#[global] Instance desc_total {V} (key : V -> Z) : TotalPre (desc key).
Proof. split; unfold desc; intros *; rewrite !Z.leb_le; lia. Qed.

#[global] Instance ordered_total {V} sort (key : V -> Z) : TotalPre (ordered sort key).
Proof. unfold ordered. destruct (orderClause sort); apply _. Qed.

#[global] Instance then_by_total {V} (le le' : V -> V -> bool) :
  TotalPre le -> TotalPre le' -> TotalPre (then_by le le').
Proof.
  intros [T1 R1] [T2 R2]. split; unfold then_by.
  - intros a b. destruct (T1 a b) as [E|E]; destruct (T2 a b) as [E'|E'];
      destruct (le a b) eqn:Eab; destruct (le b a) eqn:Eba; simpl; try congruence; auto.
  - intros a b c [Hab Ha]%andb_true_iff [Hbc Hb]%andb_true_iff.
    apply andb_true_iff. split; [eauto|].
    apply orb_true_iff in Ha, Hb. apply orb_true_iff.
    destruct (le c a) eqn:Eca; [right|by left].
    assert (le b a = true) by eauto. assert (le c b = true) by eauto.
    destruct Ha as [Ha|Ha]; [rewrite negb_true_iff in Ha; congruence|].
    destruct Hb as [Hb|Hb]; [rewrite negb_true_iff in Hb; congruence|]. eauto.
Qed.

#[global] Instance comap_total {V K} (le : K -> K -> bool) (f : V -> K) :
  TotalPre le -> TotalPre (fun a b => le (f a) (f b)).
Proof. intros [T R]. split; eauto. Qed.

Section order.
Context {V : Type} (le : V -> V -> bool).

Lemma order_by_perm l : order_by le l ≡ₚ l.
Proof. apply merge_sort_Permutation. Qed.

Lemma order_by_length l : length (order_by le l) = length l.
Proof. by rewrite order_by_perm. Qed.

Context `{!TotalPre le}.

#[local] Instance sorts_before_trans : Transitive (sorts_before le).
Proof. intros a b c. apply tp_trans. Qed.

#[local] Instance sorts_before_total : Total (sorts_before le).
Proof. intros a b. apply tp_total. Qed.

Lemma order_by_sorted l : StronglySorted (sorts_before le) (order_by le l).
Proof. apply StronglySorted_merge_sort; apply _. Qed.

(** Where the terms tell any two rows apart, the scan does not matter. *)
Lemma order_by_unique l l' :
  l ≡ₚ l' ->
  (forall a b, a ∈ l -> b ∈ l -> le a b = true -> le b a = true -> a = b) ->
  order_by le l = order_by le l'.
Proof.
  intros HP Ha. apply (StronglySorted_unique_strong (sorts_before le)).
  - intros a b Hin1 Hin2 H1 H2. rewrite order_by_perm in Hin1.
    rewrite order_by_perm, <- HP in Hin2. by apply Ha.
  - apply order_by_sorted.
  - apply order_by_sorted.
  - by rewrite !order_by_perm.
Qed.
End order.

(** ** Rows *)

Section rows.
Context {K : Type} `{Countable K} {V : Type}.

Lemma rows_of_perm v (t : gmap K V) : rows_of v t ≡ₚ (map_to_list t).*2.
Proof. apply scan_perm. Qed.

Lemma elem_of_rows_of v (t : gmap K V) x : x ∈ rows_of v t <-> exists k, t !! k = Some x.
Proof.
  rewrite rows_of_perm, list_elem_of_fmap. split.
  - intros ([k y] & -> & Hk%elem_of_map_to_list). by exists k.
  - intros (k & Hk). exists (k, x). by rewrite elem_of_map_to_list.
Qed.

Lemma rows_of_length v (t : gmap K V) : length (rows_of v t) = size t.
Proof. by rewrite rows_of_perm, length_fmap, length_map_to_list. Qed.
End rows.

Lemma filter_perm {A} (f : A -> bool) (l l' : list A) :
  l ≡ₚ l' -> List.filter f l ≡ₚ List.filter f l'.
Proof.
  induction 1; cbn [List.filter].
  - done.
  - destruct (f x); [by constructor|done].
  - destruct (f x), (f y); try done. by apply perm_swap.
  - by etrans.
Qed.

(** Scans differ only in the order of what they return. *)
Lemma rows_of_scan {K V} `{Countable K} v w (t : gmap K V) : rows_of v t ≡ₚ rows_of w t.
Proof. by rewrite !rows_of_perm. Qed.

(** ** Pages *)

Section pages.
Context {V : Type}.
Implicit Types l : list V.

(** The [i]-th page of [s] rows, from 0. *)
Definition page_slice (s i : nat) l : list V := firstn s (skipn (i * s) l).

Lemma pages_concat s n l :
  concat (map (fun i => page_slice s i l) (seq 0 n)) = firstn (n * s) l.
Proof.
  induction n as [|n IH]; [by destruct l|].
  rewrite seq_S, map_app, concat_app, IH. cbn [map concat]. rewrite app_nil_r.
  unfold page_slice. rewrite Nat.add_0_l.
  replace (S n * s)%nat with (n * s + s)%nat by lia.
  clear IH. generalize (n * s)%nat as k. intros k.
  rewrite <- (firstn_skipn k l) at 3. rewrite firstn_app, firstn_firstn.
  destruct (decide (k <= length l)%nat).
  - rewrite length_firstn. replace (k + s - k `min` length l)%nat with s by lia.
    by replace ((k + s) `min` k)%nat with k by lia.
  - rewrite skipn_all2 by lia. rewrite !firstn_nil.
    by replace ((k + s) `min` k)%nat with k by lia.
Qed.

(** Enough pages make up the whole list. *)
Lemma pages_all s n l :
  (length l <= n * s)%nat -> concat (map (fun i => page_slice s i l) (seq 0 n)) = l.
Proof. intros H. rewrite pages_concat. by apply firstn_all2. Qed.

Lemma limit_offset_page s i l :
  limit_offset (Z.of_nat s) (Z.of_nat (i * s)) l = Ok (page_slice s i l).
Proof.
  unfold limit_offset. rewrite (proj2 (Z.ltb_ge _ _)) by lia.
  rewrite (proj2 (Z.ltb_ge _ _)) by lia. by rewrite !Nat2Z.id.
Qed.

Lemma page_slice_nil s i l : (0 < s)%nat -> page_slice s i l = [] -> (length l <= i * s)%nat.
Proof.
  intros Hs E. apply (f_equal length) in E. unfold page_slice in E.
  rewrite length_firstn, length_skipn in E. cbn in E. lia.
Qed.
End pages.

(** ** Queries *)

Lemma statement_steady {A} (f : View -> result A) v n : statement f (steady v) n = (f v, S n).
Proof. done. Qed.

(** A page of a windowed list, on tables that do not change: the slice of the sorted rows
    and the exact number of rows, whether the window or the fallback counted them. *)
Lemma list_windowed_page {V} (rows : View -> list V) le v n s i sort :
  (0 < s)%nat ->
  exists n', list_windowed rows le (mkListOpts (Z.of_nat s) (Z.of_nat (i * s)) sort) (steady v) n
             = (Ok (page_slice s i (order_by (le v) (rows v)), count (rows v)), n').
Proof.
  intros Hs. unfold list_windowed, select_page. cbn [Limit Offset]. unfold mbind, Q_bind.
  rewrite statement_steady, limit_offset_page. cbn [mbind result_bind].
  destruct (page_slice s i _) as [|r page] eqn:E; [|by eexists].
  destruct (0 <? Z.of_nat (i * s)) eqn:Ei; [by eexists|].
  apply page_slice_nil in E; [|done]. rewrite order_by_length in E.
  apply Z.ltb_ge in Ei. exists (S n). unfold mret, Q_ret, count.
  replace (length (rows v)) with 0%nat by lia. done.
Qed.

(** A negative offset is an error of the statement. *)
Lemma list_windowed_negative {V} (rows : View -> list V) le v n opts :
  0 <= Limit opts -> Offset opts < 0 ->
  list_windowed rows le opts (steady v) n = (Err (EMsg "OFFSET must not be negative"), S n).
Proof.
  intros Hl Ho. unfold list_windowed, select_page, limit_offset. unfold mbind, Q_bind.
  rewrite statement_steady. rewrite (proj2 (Z.ltb_ge _ _)) by lia.
  by rewrite (proj2 (Z.ltb_lt _ _)) by lia.
Qed.

(** ** Momentums *)

(** Rows stored under their own height, from 1. *)
Definition own_heights (t : MomentumRepository.table) : Prop :=
  forall k m, t !! k = Some m -> mom_Height m = k /\ 1 <= k.

(** Account blocks stored under their own hash, in momentums from 1. *)
Definition own_hashes (t : AccountBlockRepository.table) : Prop :=
  forall k b, t !! k = Some b -> ab_Hash b = k /\ 1 <= ab_MomentumHeight b.

(** Rows under their own heights have distinct heights. *)
Lemma rows_heights_nodup v :
  own_heights (db_momentums (vw_db v)) ->
  NoDup (map mom_Height (rows_of v (db_momentums (vw_db v)))).
Proof.
  intros Ht. change (NoDup (mom_Height <$> rows_of v (db_momentums (vw_db v)))).
  rewrite rows_of_perm, <- list_fmap_compose.
  replace (mom_Height ∘ snd <$> map_to_list (db_momentums (vw_db v)))
    with ((map_to_list (db_momentums (vw_db v))).*1); [apply NoDup_fst_map_to_list|].
  apply list_fmap_ext. intros _ [k m] Hk%list_elem_of_lookup_2%elem_of_map_to_list.
  symmetry. by apply (Ht k m).
Qed.
