(* ===== verification/ApiSamples.v ===== *)
(** A small concrete API for the witnesses: a JWT library that knows one token, middleware
    that passes every request on, a router that matches whole paths, and a few rows. *)

From S2P Require Import Prelude.
From S2P Require Import Models.
From S2P Require Import Database.
From S2P Require Import Queries.
From S2P Require Import QueryFacts.
From S2P Require Import Dto.
From S2P Require Import Text.
From S2P Require Import Httpx.
From S2P Require Import Auth.
From S2P Require Import Middleware.
From S2P Require Import Router.
From S2P Require Import StreamHub.
From S2P Require Import Streams.
#[local] Open Scope string_scope.
#[local] Open Scope Z_scope.

(** ** Tokens *)

Definition toy_claims : Claims := mkClaims "alice" 1000 4600 "read stream".
Definition toy_token : string := "toy.token".
Definition toy_secret : string := "secret".

Definition toy_signed (tok alg : string) (c : Claims) (key : string) : Prop :=
  tok = toy_token /\ alg = SigningMethodHS256 /\ c = toy_claims /\ key = toy_secret.

#[export] Instance Claims_eq_dec : EqDecision Claims.
Proof. solve_decision. Defined.

Definition seconds (t : Z) : Z := t / 1000000000.

Definition toy_sign (alg : string) (c : Claims) (key : string) : result string :=
  if String.eqb alg SigningMethodHS256 && bool_decide (c = toy_claims) && String.eqb key toy_secret
  then Ok toy_token else Err (EMsg "cannot sign").

Definition toy_parse (tok : string) (kf : string -> result string) (methods : list string)
    (now : Z) : result ParsedToken :=
  if String.eqb tok toy_token && existsb (String.eqb SigningMethodHS256) methods then
    match kf SigningMethodHS256 with
    | Ok key =>
        if negb (String.eqb key toy_secret) then Err (EMsg "signature is invalid")
        else if seconds now <? 4600 then Ok (mkParsedToken SigningMethodHS256 toy_claims true)
        else Err ErrTokenExpired
    | Err e => Err e
    end
  else Err (EMsg "token is malformed").

#[export] Instance toy_jwt : JwtLib := Build_JwtLib seconds toy_sign toy_parse.

#[export] Instance toy_jwt_laws : JwtLaws toy_signed.
Proof.
  split; unfold toy_signed.
  - intros alg c key tok H. cbn in H. unfold toy_sign in H.
    destruct (String.eqb_spec alg SigningMethodHS256); [|done].
    destruct (bool_decide_reflect (c = toy_claims)); [|done].
    destruct (String.eqb_spec key toy_secret); [|done]. cbn in H. by injection H as <-.
  - intros tok alg c key kf methods now (-> & -> & -> & ->) Hm Hk Hn. cbn in *.
    unfold toy_parse. rewrite String.eqb_refl. rewrite (proj2 (existsb_exists _ _)).
    + cbn [andb]. rewrite Hk, String.eqb_refl. cbn [negb]. by rewrite (proj2 (Z.ltb_lt _ _)).
    + exists SigningMethodHS256. split; [by apply list_elem_of_In|apply String.eqb_refl].
  - intros tok kf methods now p H. cbn in H. unfold toy_parse in H.
    destruct (String.eqb_spec tok toy_token) as [->|]; [|done].
    destruct (existsb _ _) eqn:Em; [|done]. cbn [andb] in H.
    apply existsb_exists in Em as (m & Hm & <-%String.eqb_eq).
    destruct (kf SigningMethodHS256) as [key|] eqn:Ek; [|done].
    destruct (String.eqb_spec key toy_secret) as [->|]; [|done]. cbn [negb] in H.
    destruct (_ <? _); [|done]. injection H as <-. cbn. split; [by apply list_elem_of_In|].
    by exists toy_secret.
Qed.

(** ** Middleware and routing *)

#[export] Instance toy_rate : HttpRate :=
  Build_HttpRate (fun _ _ _ _ next => next) (fun r => Ok (rq_Path r)).

(** A preflight is answered, any other request passed on. *)
#[export] Instance toy_cors : Cors := Build_Cors (fun _ next cx r c n =>
  if String.eqb (rq_Method r) "OPTIONS" then answer (WriteJSON 200 (PObject [])) cx r c n
  else next cx r c n).

Definition toy_matches (path pattern : string) : bool :=
  String.eqb pattern path || String.eqb ("/api/v1" +:+ pattern) path
  || String.eqb pattern "/api/v1/*" && String.eqb (String.substring 0 8 path) "/api/v1/".

#[export] Instance toy_chi : Chi := Build_Chi
  (fun table r => match List.find (toy_matches (rq_Path r)) table with
                  | Some p => Some (p, ∅)
                  | None => None
                  end)
  (fun _ => WriteProblem 404 "not_found" "no such route").

Definition toy_deps : Deps :=
  mkDeps (mkSigner toy_secret) "" [] 60 None (fun _ => mret ready)
    (answer ready) (answer ready).

Definition get_with (path token : string) : Request :=
  mkRequest "GET" path [] (<["Authorization" := "Bearer " +:+ token]> ∅) ∅.

(** ** Rows *)

Definition shorter (a b : string) : bool := Nat.leb (String.length a) (String.length b).

#[export] Instance shorter_total : TotalPre shorter.
Proof. split; unfold shorter; intros *; rewrite !Nat.leb_le; lia. Qed.

Definition a_momentum (h : Z) : Momentum :=
  mkMomentum h ("m" +:+ format_int h) (1000 + 10 * h) 0 "z1producer" "z1owner" "pillar".

Definition a_block (hash : string) (h : Z) (from to : string) : AccountBlock :=
  mkAccountBlock hash ("m" +:+ format_int h) (1000 + 10 * h) h 2 1 from to 10 "zts1znn" "" "" ""
    "" "".

Definition a_token (zts : string) (holders : Z) : Token :=
  mkToken zts "name" "SYM" "example.org" 8 "z1owner" 100 1000 true true false 0 5 holders 0.

Definition api_db : Db :=
  empty_db
    <| db_momentums := list_to_map (map (fun h => (h, a_momentum h)) [1; 2; 3; 4]) |>
    <| db_account_blocks := list_to_map (map (fun b => (ab_Hash b, b))
         [a_block "b1" 3 "z1alice" "z1bob"; a_block "b2" 4 "z1bob" "z1carol";
          a_block "b3" 4 "z1carol" "z1bob"; a_block "b4" 2 "z1dave" "z1dave"]) |>
    <| db_tokens := list_to_map (map (fun t => (tok_TokenStandard t, t))
         [a_token "zts1a" 3; a_token "zts1b" 7; a_token "zts1c" 5]) |>.

Definition api_view : View := mkView api_db scan_rev shorter 4.

Definition api_conn : Conn := steady api_view.

Lemma api_own_heights : own_heights (db_momentums (vw_db api_view)).
Proof.
  intros k m Hk. apply elem_of_list_to_map_2 in Hk.
  repeat (apply elem_of_cons in Hk as [[= -> ->]|Hk]; [by split|]). by apply elem_of_nil in Hk.
Qed.

(** The request of a stream from a height, its token in the query. *)
Definition stream_request (from : string) : Request :=
  mkRequest "GET" "/api/v1/momentums/stream" [("token", toy_token); ("from_height", from)] ∅ ∅.

(** Turns that receive values without lag. *)
Definition live {T} (l : list T) : list (LiveEvent T) := map (fun x => LRecv x 0) l.

Definition live_momentums (l : list Z) : list (LiveEvent dto.Momentum) :=
  live (map (fun h => dto.FromMomentum (a_momentum h)) l).
