(* ===== verification/KeyTheorems.v ===== *)
(** The tables' keys and references: each row is stored under the key its own columns make up,
    the typing of the tables that lookups by key rely on, and every statement of a momentum
    keeps it; and blocks name stored momentums, rewards stored blocks. *)

From S2P Require Import Prelude.
From S2P Require Import Models.
From S2P Require Import Chain.
From S2P Require Import RepoLedger.
From S2P Require Import RepoContracts.
From S2P Require Import RepoBridge.
From S2P Require Import Database.
From S2P Require Import Decoder.
From S2P Require Import Embedded.
From S2P Require Import ExecFacts.
From S2P Require Import Processor.
From S2P Require Import ProcessorShape.
From S2P Require Import LedgerFacts.
From S2P Require Import LedgerProps.
From S2P Require Import Samples.
From S2P Require Import Queries.
From S2P Require Import QueryFacts.
#[local] Open Scope string_scope.
#[local] Open Scope Z_scope.

(** ** Keys *)

(** The primary key of a row, from its columns. *)
Class RowKey (K V : Type) : Type := row_key : V -> K.

#[export] Instance momentum_key : RowKey Z Momentum := mom_Height.
#[export] Instance account_key : RowKey string Account := acc_Address.
#[export] Instance block_key : RowKey string AccountBlock := ab_Hash.
#[export] Instance balance_key : RowKey (string * string) Balance :=
  fun b => (bal_Address b, bal_TokenStandard b).
#[export] Instance token_key : RowKey string Token := tok_TokenStandard.
#[export] Instance mint_key : RowKey string TokenMint := mint_AccountBlockHash.
#[export] Instance burn_key : RowKey string TokenBurn := burn_AccountBlockHash.
#[export] Instance pillar_key : RowKey string Pillar := pil_OwnerAddress.
#[export] Instance sentinel_key : RowKey string Sentinel := sen_Owner.
#[export] Instance stake_key : RowKey string Stake := stk_ID.
#[export] Instance fusion_key : RowKey string Fusion := fus_ID.
#[export] Instance htlc_key : RowKey string Htlc := htlc_ID.
#[export] Instance retrieval_key : RowKey string SwapRetrieval := sr_ID.
#[export] Instance vote_key : RowKey (string * string) Vote :=
  fun v => (vote_VoterAddress v, vote_VotingID v).
#[export] Instance reward_tx_key : RowKey string RewardTransaction := rt_Hash.

Section keyed.
Context {K : Type} `{Countable K} {V : Type} `{RowKey K V}.
Implicit Types t : gmap K V.

Definition keyed t : Prop := forall k r, t !! k = Some r -> row_key r = k.

Lemma keyed_empty : keyed ∅.
Proof. intros k r. by rewrite lookup_empty. Qed.

Lemma keyed_insert k r t : keyed t -> row_key r = k -> keyed (<[k := r]> t).
Proof.
  intros Ht Hr j v. destruct (decide (k = j)) as [->|Hne].
  - rewrite lookup_insert_eq. by intros [= <-].
  - rewrite lookup_insert_ne by done. apply Ht.
Qed.

Lemma keyed_insert_nothing k r t : keyed t -> row_key r = k -> keyed (insert_nothing k r t).
Proof. intros Ht Hr. unfold insert_nothing. destruct (t !! k); [done|by apply keyed_insert]. Qed.

Lemma keyed_insert_update k ins upd t t' :
  insert_update k ins upd t = Ok t' -> keyed t -> row_key ins = k ->
  (forall r r', upd r = Ok r' -> row_key r' = row_key r) -> keyed t'.
Proof.
  intros [[E ->]|(r & r' & E & Hu & ->)]%insert_update_Ok Ht Hi Hupd; apply keyed_insert; auto.
  rewrite (Hupd _ _ Hu). by apply Ht.
Qed.

Lemma keyed_update_row k upd t t' :
  update_row k upd t = Ok t' -> keyed t ->
  (forall r r', upd r = Ok r' -> row_key r' = row_key r) -> keyed t'.
Proof.
  intros [[E ->]|(r & r' & E & Hu & ->)]%update_row_Ok Ht Hupd; [done|].
  apply keyed_insert; [done|]. rewrite (Hupd _ _ Hu). by apply Ht.
Qed.

Lemma keyed_update_where cond upd t :
  keyed t -> (forall r, row_key (upd r) = row_key r) -> keyed (update_where cond upd t).
Proof.
  intros Ht Hupd k r. rewrite update_where_lookup. intros (r0 & Hr & ->)%fmap_Some.
  destruct (cond r0); [rewrite Hupd|]; by apply Ht.
Qed.
End keyed.

(** Every table a momentum writes holds its rows under their keys. *)
Record well_keyed (db : Db) : Prop := mk_well_keyed {
  wk_momentums : keyed (db_momentums db);
  wk_accounts : keyed (db_accounts db);
  wk_blocks : keyed (db_account_blocks db);
  wk_balances : keyed (db_balances db);
  wk_tokens : keyed (db_tokens db);
  wk_mints : keyed (db_token_mints db);
  wk_burns : keyed (db_token_burns db);
  wk_pillars : keyed (db_pillars db);
  wk_sentinels : keyed (db_sentinels db);
  wk_stakes : keyed (db_stakes db);
  wk_fusions : keyed (db_fusions db);
  wk_htlcs : keyed (db_htlcs db);
  wk_retrievals : keyed (db_swap_retrievals db);
  wk_votes : keyed (db_votes db);
  wk_rewards : keyed (db_reward_transactions db)
}.

Lemma empty_well_keyed : well_keyed empty_db.
Proof. constructor; try apply keyed_empty. Qed.

(** ** Statements *)

Create HintDb keyed.
#[export] Hint Resolve keyed_insert_nothing : keyed.

(** An updated row keeps its key columns: the record updates leave them alone. *)
Ltac same_key :=
  intros ? ? Hu; cbv beta in Hu;
  repeat lazymatch type of Hu with
         | mbind _ _ = Ok _ => apply bind_Ok in Hu as (? & _ & Hu)
         end;
  injection Hu as <-; reflexivity.

#[export] Hint Unfold MomentumRepository.Insert AccountRepository.Upsert
  AccountRepository.BumpTxCount AccountRepository.UpdateDelegate AccountBlockRepository.Insert
  AccountBlockRepository.UpdatePairedBlock AccountBlockRepository.UpdateDescendantOf
  BalanceRepository.Upsert TokenRepository.Upsert TokenRepository.IncrementTransactionCount
  TokenRepository.UpdateBurnAmount TokenRepository.UpdateLastUpdateTimestamp
  TokenEventRepository.InsertMint TokenEventRepository.InsertBurn
  PillarRepository.IncrementMomentumCount PillarRepository.UpdateSpawnInfo
  PillarRepository.SetAsRevoked DelegationRepository.CloseActive DelegationRepository.Open
  SentinelRepository.SetInactive StakeRepository.Insert StakeRepository.SetInactive
  FusionRepository.Insert FusionRepository.SetInactive VoteRepository.Insert
  HtlcRepository.Insert HtlcRepository.Settle SwapRepository.InsertRetrieval
  RewardRepository.InsertRewardTransaction : keyed.

(** A table operation keeps its table keyed. *)
Ltac keep_keys Ht :=
  autounfold with keyed in Ht;
  repeat lazymatch type of Ht with
         | mbind _ _ = Ok _ => apply bind_Ok in Ht as (? & _ & Ht)
         end;
  first
    [ injection Ht as <-; first [by eauto with keyed | by apply keyed_update_where]
    | refine (keyed_insert_update _ _ _ _ _ Ht _ _ _); [done|reflexivity|same_key]
    | refine (keyed_update_row _ _ _ _ Ht _ _); [done|same_key] ].

Lemma add_flow_keyed dir a zts v ts t t' :
  AccountRepository.add_flow dir a zts v ts t = Ok t' -> keyed t -> keyed t'.
Proof.
  intros H Ht. unfold AccountRepository.add_flow in H.
  destruct (AccountRepository.flowColumn zts dir) as [c|]; [|refine (keyed_insert_update _ _ _ _ _ H Ht _ _); [reflexivity|same_key]].
  refine (keyed_insert_update _ _ _ _ _ H Ht _ _); [by destruct c|].
  intros r r' (v' & _ & [= <-])%bind_Ok. by destruct c.
Qed.

Lemma genesis_keyed a zts v t t' :
  AccountRepository.SetGenesisBalance a zts v t = Ok t' -> keyed t -> keyed t'.
Proof.
  intros H Ht. unfold AccountRepository.SetGenesisBalance in H.
  destruct (String.eqb _ _); [keep_keys H|].
  destruct (String.eqb _ _); [keep_keys H|]. by injection H as <-.
Qed.

(** Each statement keeps the tables keyed. *)
Lemma exec_well_keyed s db db' : well_keyed db -> exec_row s db = Ok db' -> well_keyed db'.
Proof.
  intros [] H. exec_cases s H; constructor; simpl; try assumption;
    try (by eapply add_flow_keyed); try (by eapply genesis_keyed); try keep_keys Ht.
Qed.

(** ** Momentums *)

(** Momentums are numbered from 1, and so are the momentums of the stored blocks. *)
Definition numbered (db : Db) : Prop :=
  (forall k r, db_momentums db !! k = Some r -> 1 <= mom_Height r)
  /\ (forall k b, db_account_blocks db !! k = Some b -> 1 <= ab_MomentumHeight b).

Definition numbers (s : stmt) : Prop :=
  match s with
  | SMomentumInsert r => 1 <= mom_Height r
  | SBlockInsert b _ => 1 <= ab_MomentumHeight b
  | _ => True
  end.

Lemma columns_height (r r' : AccountBlock) :
  chain_columns r' = chain_columns r -> ab_MomentumHeight r' = ab_MomentumHeight r.
Proof. intros E. exact (f_equal ab_MomentumHeight E). Qed.

Lemma exec_numbered s db db' : numbers s -> numbered db -> exec_row s db = Ok db' -> numbered db'.
Proof.
  intros Hs [Hm Hb] H. pose proof (exec_momentums s db db' H) as Em.
  pose proof (exec_blocks s db db' H) as Eb. split.
  - intros k r. rewrite Em. destruct s; try apply Hm. rewrite insert_nothing_lookup.
    case_decide as Hd; [subst k|exact (Hm k r)].
    destruct (db_momentums db !! mom_Height m) eqn:E; cbn; intros [= <-];
      [exact (Hm _ _ E)|exact Hs].
  - intros k row Hk. destruct s;
      try (destruct Eb as [_ Eb]; destruct (Eb k row Hk) as (old & Hold & Ec%columns_height);
           rewrite Ec; exact (Hb k _ Hold)).
    destruct Eb as (r' & Eb & Ec). rewrite Eb in Hk.
    destruct (decide (ab_Hash ab = k)) as [Ek|Hne].
    + rewrite Ek, lookup_insert_eq in Hk. rewrite Ek in Ec. injection Hk as ->.
      destruct (db_account_blocks db !! k) as [old|] eqn:Eo; apply columns_height in Ec;
        rewrite Ec; [exact (Hb k _ Eo)|exact Hs].
    + rewrite lookup_insert_ne in Hk by done. exact (Hb k _ Hk).
Qed.

(** Every statement of a momentum's batch is numbered when the momentum is. *)
Lemma momentum_numbers env m ps :
  in_int64 (cm_Height m) = true -> 1 <= cm_Height m ->
  Forall2 (block_payload env m) (fetched env m) ps ->
  Forall numbers (blocks_stmts env m (fetched env m) ps ++ balances_part env m
                  ++ tail_part env m)%list.
Proof.
  intros Hr Hm Hps. apply Forall_app. split; [|apply Forall_app; split].
  - apply blocks_stmts_forall; [done|]. intros c p _. apply block_stmts_forall; try done;
      [|apply reward_stmts_forall; intros s Hs; by destruct s|].
    + intros s Hs. by destruct s.
    + cbn. unfold m_height. by rewrite int64_id.
  - eapply Forall_impl; [apply (balances_part_kind env m)|]. intros s Hs. by destruct s.
  - unfold tail_part. apply Forall_app. split; [case_match; by repeat constructor|].
    repeat constructor. cbn. by rewrite momentum_row_height.
Qed.

(** A momentum keeps the tables keyed and numbered. *)
Lemma momentum_well_keyed env m :
  well_keyed (pl_db (env_pool env)) -> well_keyed (out_db (processMomentum env m)).
Proof. apply (processMomentum_keeps well_keyed). intros s db db'. apply exec_well_keyed. Qed.

Lemma momentum_numbered env m :
  numbered (pl_db (env_pool env)) -> 1 <= cm_Height m ->
  numbered (out_db (processMomentum env m)).
Proof.
  intros Hn Hm. destruct (out_err (processMomentum env m)) as [e|] eqn:Ee;
    [by rewrite (processMomentum_Err _ _ _ Ee)|].
  pose proof (momentum_height_in_range _ _ Ee) as Hr.
  destruct (processMomentum_parts _ _ Ee) as (ps & st & Hps & Hx & -> & _).
  eapply (exec_from_invariant _ numbered numbers); [|by apply (momentum_numbers env m ps)|
    |exact Hx]; [|exact Hn].
  intros s db db'. apply exec_numbered.
Qed.

(** What the read side asks of the tables. *)
Lemma well_keyed_heights db : well_keyed db -> numbered db -> own_heights (db_momentums db).
Proof.
  intros [Hk] [Hn _] k m Hm. pose proof (Hk k m Hm) as E. split; [exact E|].
  rewrite <- E. exact (Hn k m Hm).
Qed.

Lemma well_keyed_hashes db : well_keyed db -> numbered db -> own_hashes (db_account_blocks db).
Proof.
  intros [_ _ Hk] [_ Hn] k b Hb. split; [exact (Hk k b Hb)|exact (Hn k b Hb)].
Qed.

(** ** References

    The schema has no foreign keys: a block names its momentum, and a reward its block, by
    the columns they share. *)

(** The momentum row a block's columns name. *)
Definition momentum_of (b : AccountBlock) (r : Momentum) : Prop :=
  mom_Height r = ab_MomentumHeight b /\ mom_Hash r = ab_MomentumHash b
  /\ mom_Timestamp r = ab_MomentumTimestamp b.

(** The block row a reward's columns name. *)
Definition block_of (rt : RewardTransaction) (b : AccountBlock) : Prop :=
  ab_Hash b = rt_Hash rt /\ ab_Address b = rt_Address rt /\ ab_Height b = rt_AccountHeight rt
  /\ ab_MomentumHeight b = rt_MomentumHeight rt
  /\ ab_MomentumTimestamp b = rt_MomentumTimestamp rt.

Definition refers (db : Db) : Prop :=
  (forall h b, db_account_blocks db !! h = Some b ->
     exists r, db_momentums db !! ab_MomentumHeight b = Some r /\ momentum_of b r)
  /\ (forall h rt, db_reward_transactions db !! h = Some rt ->
        exists b, db_account_blocks db !! h = Some b /\ block_of rt b).

(** What is stored of the momentum and its blocks already is what it brings: the node serves
    one chain. *)
Record same_chain (env : Env) (m : ChainMomentum) : Prop := mk_same_chain {
  sc_momentum : forall r, db_momentums (pl_db (env_pool env)) !! cm_Height m = Some r ->
    mom_Height r = cm_Height m /\ mom_Hash r = cm_Hash m /\ mom_Timestamp r = m_ts m;
  sc_stored : forall c, c ∈ fetched env m ->
    forall b, db_account_blocks (pl_db (env_pool env)) !! nb_Hash (cb_Block c) = Some b ->
    stored_as m c b;
  sc_fetched : forall c c', c ∈ fetched env m -> c' ∈ fetched env m ->
    nb_Hash (cb_Block c) = nb_Hash (cb_Block c') ->
    chain_columns (block_row m c) = chain_columns (block_row m c')
}.

Lemma momentum_of_columns b b' r :
  chain_columns b = chain_columns b' -> momentum_of b r -> momentum_of b' r.
Proof. unfold momentum_of. intros [= _ <- <- <-]. done. Qed.

Lemma block_of_columns rt b b' :
  chain_columns b = chain_columns b' -> block_of rt b -> block_of rt b'.
Proof. unfold block_of. intros [= <- _ <- <- _ <- <-]. done. Qed.

Lemma stored_reward m c row paired rtype :
  stored_as m c row -> block_of (reward_row (cb_Block c) paired rtype m) row.
Proof. intros H. by apply (block_of_columns _ (block_row m c)). Qed.

(** The row of a fetched block after a success, whichever block of its hash inserted it. *)
Lemma fetched_stored_as env m c row :
  same_chain env m -> out_err (processMomentum env m) = None -> c ∈ fetched env m ->
  db_account_blocks (out_db (processMomentum env m)) !! nb_Hash (cb_Block c) = Some row ->
  stored_as m c row.
Proof.
  intros Hs Ee Hc Hrow. unfold stored_as.
  destruct (momentum_blocks_from env m Ee _ _ Hrow) as [(r & Hr & <-)|(_ & c' & Hc' & Eh & ->)].
  - by apply (sc_stored env m Hs).
  - by apply (sc_fetched env m Hs).
Qed.

(** The momentum's row after a success, new or stored before, is that of its blocks. *)
Lemma momentum_row_stored env m :
  same_chain env m -> out_err (processMomentum env m) = None ->
  exists r, db_momentums (out_db (processMomentum env m)) !! m_height m = Some r
    /\ forall c, momentum_of (block_row m c) r.
Proof.
  intros Hs Ee. pose proof (momentum_height_in_range _ _ Ee) as Hr.
  assert (m_height m = cm_Height m) as Eh by (by apply int64_id).
  rewrite (momentum_momentums _ _ Ee), Eh, insert_nothing_lookup, decide_True by done.
  eexists. split; [reflexivity|]. intros c. unfold momentum_of.
  change (ab_MomentumHeight (block_row m c)) with (m_height m). rewrite Eh.
  destruct (db_momentums (pl_db (env_pool env)) !! cm_Height m) as [r|] eqn:E; cbn [default from_option].
  - exact (sc_momentum env m Hs r E).
  - unfold momentum_row. by destruct (getPillarInfoForProducer _ _ _).
Qed.

(** C16. The tables refer to each other: whatever [processMomentum] answers, every stored
    account block names, by height, hash and timestamp, a stored momentum, and every stored
    reward, by hash, address, height and momentum, a stored account block, if that was so
    before and what is already stored of the momentum and of its blocks is what the node
    serves of them now. No foreign key of the schema says so. *)
Theorem references_kept env m :
  same_chain env m -> refers (pl_db (env_pool env)) -> refers (out_db (processMomentum env m)).
Proof.
  intros Hs [Hb Hr]. destruct (out_err (processMomentum env m)) as [e|] eqn:Ee;
    [by rewrite (processMomentum_Err _ _ _ Ee)|].
  destruct (momentum_row_stored env m Hs Ee) as (rm & Hrm & Hof). split.
  - intros h b Hrow.
    destruct (momentum_blocks_from env m Ee h b Hrow) as [(b0 & Hb0 & Ec)|(_ & c & _ & _ & Ec)].
    + destruct (Hb h b0 Hb0) as (r & Hm & Hr0). exists r. split.
      * rewrite <- (f_equal ab_MomentumHeight Ec : ab_MomentumHeight b0 = ab_MomentumHeight b).
        apply (processMomentum_keeps (has_momentum (ab_MomentumHeight b0) r)); [|exact Hm].
        intros s db db' Hh Hx. by eapply has_momentum_kept.
      * by apply (momentum_of_columns b0).
    + exists rm. rewrite (f_equal ab_MomentumHeight Ec : ab_MomentumHeight b = m_height m).
      split; [exact Hrm|]. by apply (momentum_of_columns (block_row m c)).
  - intros h rt Hrt.
    destruct (momentum_rewards_from env m Ee h rt Hrt) as [Hold|(c & paired & rtype & Hc & <- & ->)].
    + destruct (Hr h rt Hold) as (b & Hb0 & Hof').
      destruct (processMomentum_keeps (has_columns h (chain_columns b)) env m) as (b' & Hb' & Ec).
      * intros s db db' Hh Hx. by eapply has_columns_kept.
      * by exists b.
      * exists b'. split; [exact Hb'|]. by apply (block_of_columns rt b).
    + destruct (proj2 (momentum_stored _ _ Ee) c Hc) as [row Hrow]. exists row.
      split; [exact Hrow|]. apply stored_reward. by eapply fetched_stored_as.
Qed.

(** A reward processed into empty tables. *)
Lemma references_kept_witness :
  let c := reward_receive "rw1" "z1alice" StakeAddress 7 in
  let db := out_db (processMomentum (toy_env empty_db [c]) (toy_momentum 5 [c])) in
  refers db /\ is_Some (db_reward_transactions db !! "rw1").
Proof.
  intros c db. split; [|by eexists].
  refine (references_kept (toy_env empty_db [c]) (toy_momentum 5 [c]) _ _).
  - split.
    + intros r. cbn. by rewrite lookup_empty.
    + intros c' _ b. cbn. by rewrite lookup_empty.
    + intros c1 c2 H1 H2 _. by apply list_elem_of_singleton in H1 as ->; apply list_elem_of_singleton in H2 as ->.
  - split; intros h r; cbn; by rewrite lookup_empty.
Defined.
