(* ===== verification/ApiTheorems.v ===== *)
(** What the HTTP API and the MCP server promise: both transports answer the same for every
    operation, collections page through the rows that match in their order, and nothing under
    [/api/v1] runs without a verified token. *)

From S2P Require Import Prelude.
From S2P Require Import Models.
From S2P Require Import RepoLedger.
From S2P Require Import RepoContracts.
From S2P Require Import Database.
From S2P Require Import Queries.
From S2P Require Import ListQueries.
From S2P Require Import VoteQueries.
From S2P Require Import QueryFacts.
From S2P Require Import Dto.
From S2P Require Import Text.
From S2P Require Import Httpx.
From S2P Require Import Auth.
From S2P Require Import Middleware.
From S2P Require Import Handlers.
From S2P Require Import Router.
From S2P Require Import Mcp.
From S2P Require Import LedgerFacts.
From S2P Require Import ApiSamples.
#[local] Open Scope string_scope.
#[local] Open Scope Z_scope.

(** ** The two transports *)

(** What the HTTP API answers where a tool answers [res]. *)
Definition http_answer (res : result (mcp.ToolResult Payload)) : Response :=
  match res with
  | Ok (mcp.TValue v) => WriteJSON 200 v
  | Ok mcp.TMarshalFailed => WriteProblem 500 "internal_error" "failed to encode response"
  | Err e => writeRepoError e
  end.

(** The handler and the tool run the same statements and answer the same. *)
Definition agree (rest : Q Response) (tool : Q (mcp.ToolResult Payload)) : Prop :=
  forall c n, rest c n = (Ok (http_answer (tool c n).1), (tool c n).2).

Lemma agree_json v : agree (ok_json v) (mcp.jsonResult v).
Proof.
  intros c n. unfold ok_json, mcp.jsonResult, mret, Q_ret. cbn.
  destruct (marshals v) eqn:E; cbn; unfold WriteJSON; by rewrite E.
Qed.

Lemma agree_bind {A} (q : Q A) k k' :
  (forall x, agree (k x) (k' x)) -> agree (or_repo_error q k) (q ≫= k').
Proof.
  intros Hk c n. unfold or_repo_error, attempt, mbind, Q_bind.
  destruct (q c n) as [[a|e] n']; [apply Hk|done].
Qed.

Lemma agree_item {A} (q : Q A) (from : A -> Payload) :
  agree (or_repo_error q (fun x => ok_json (from x))) (mcp.item_result q from).
Proof. apply agree_bind. intros x. apply agree_json. Qed.

Lemma agree_page {A B} p (q : Q (list A * Z)) (from : list A -> list B) wrap :
  agree (respond_page p q from wrap) (mcp.page_result p q from wrap).
Proof. apply agree_bind. intros [rows total]. apply agree_json. Qed.

Lemma agree_require r name code detail k tool :
  str_empty (URLParam r name) = false -> agree (k (URLParam r name)) tool ->
  agree (require_param r name code detail k) tool.
Proof. intros E H. unfold require_param. by rewrite E. Qed.

(** ** The request of a call *)

Definition page_query (p : mcp.pageParams) : list (string * string) :=
  [("page", format_int (mcp.pp_Page p)); ("page_size", format_int (mcp.pp_PageSize p))].

Definition flag_query (name : string) (b : bool) : list (string * string) :=
  [(name, if b then "true" else "false")].

(** The path parameter and the query that ask for what a call asks. *)
Definition call_params (t : mcp.ToolCall) : list (string * string) :=
  match t with
  | mcp.TGetMomentumByHeight h => [("height", format_int h)]
  | mcp.TGetAccount a | mcp.TListAccountBalances a | mcp.TListAccountTransactions a _ _
  | mcp.TListAccountStakes a _ _ | mcp.TListAccountFusions a _ _
  | mcp.TListAccountRewards a _ | mcp.TGetAccountCumulativeRewards a
  | mcp.TListAccountBridgeWraps a _ | mcp.TListAccountBridgeUnwraps a _ => [("address", a)]
  | mcp.TGetToken s | mcp.TListTokenHolders s _ => [("token_standard", s)]
  | mcp.TGetAccountBlock h => [("hash", h)]
  | mcp.TGetPillarByName s | mcp.TListPillarDelegators s _
  | mcp.TGetPillarVotingHistory s => [("name", s)]
  | mcp.TGetProject i | mcp.TListProjectPhases i | mcp.TListProjectVotes i _
  | mcp.TGetProjectVotingReport i => [("id", i)]
  | _ => []
  end.

Definition call_query (t : mcp.ToolCall) : list (string * string) :=
  match t with
  | mcp.TListMomentums p s | mcp.TListAccountBlocks p s
  | mcp.TListAccountTransactions _ p s => (page_query p ++ [("sort", s)])%list
  | mcp.TListPillars p b => (page_query p ++ flag_query "include_revoked" b)%list
  | mcp.TListSentinels p b | mcp.TListStakes p b | mcp.TListAccountStakes _ p b
  | mcp.TListFusions p b | mcp.TListAccountFusions _ p b =>
      (page_query p ++ flag_query "include_inactive" b)%list
  | mcp.TListTokens p | mcp.TListTokenHolders _ p | mcp.TListPillarDelegators _ p
  | mcp.TListAccountRewards _ p | mcp.TListProjects p | mcp.TListProjectVotes _ p
  | mcp.TListBridgeWraps p | mcp.TListBridgeUnwraps p | mcp.TListAccountBridgeWraps _ p
  | mcp.TListAccountBridgeUnwraps _ p => page_query p
  | _ => []
  end.

Definition call_request (t : mcp.ToolCall) : Request :=
  mkRequest "GET" "" (call_query t) ∅ (list_to_map (call_params t)).

(** The route that serves what the tool serves. *)
Definition call_route (t : mcp.ToolCall) : string :=
  match t with
  | mcp.TGetStatus => "/status"
  | mcp.TGetMomentumByHeight _ => "/momentums/{height}"
  | mcp.TGetLatestMomentum => "/momentums/latest"
  | mcp.TListMomentums _ _ => "/momentums"
  | mcp.TGetAccount _ => "/accounts/{address}"
  | mcp.TListAccountBalances _ => "/accounts/{address}/balances"
  | mcp.TListTokens _ => "/tokens"
  | mcp.TGetToken _ => "/tokens/{token_standard}"
  | mcp.TListTokenHolders _ _ => "/tokens/{token_standard}/holders"
  | mcp.TListAccountBlocks _ _ => "/account_blocks"
  | mcp.TGetAccountBlock _ => "/account_blocks/{hash}"
  | mcp.TListAccountTransactions _ _ _ => "/accounts/{address}/transactions"
  | mcp.TListPillars _ _ => "/pillars"
  | mcp.TGetPillarByName _ => "/pillars/{name}"
  | mcp.TListPillarDelegators _ _ => "/pillars/{name}/delegators"
  | mcp.TGetPillarVotingHistory _ => "/pillars/{name}/voting-report"
  | mcp.TListSentinels _ _ => "/sentinels"
  | mcp.TListStakes _ _ => "/stakes"
  | mcp.TListAccountStakes _ _ _ => "/accounts/{address}/stakes"
  | mcp.TListFusions _ _ => "/fusions"
  | mcp.TListAccountFusions _ _ _ => "/accounts/{address}/fusions"
  | mcp.TListAccountRewards _ _ => "/accounts/{address}/rewards"
  | mcp.TGetAccountCumulativeRewards _ => "/accounts/{address}/rewards/cumulative"
  | mcp.TListProjects _ => "/projects"
  | mcp.TGetProject _ => "/projects/{id}"
  | mcp.TListProjectPhases _ => "/projects/{id}/phases"
  | mcp.TListProjectVotes _ _ => "/projects/{id}/votes"
  | mcp.TGetProjectVotingReport _ => "/projects/{id}/voting-report"
  | mcp.TListBridgeWraps _ => "/bridge/wraps"
  | mcp.TListBridgeUnwraps _ => "/bridge/unwraps"
  | mcp.TListAccountBridgeWraps _ _ => "/accounts/{address}/bridge/wraps"
  | mcp.TListAccountBridgeUnwraps _ _ => "/accounts/{address}/bridge/unwraps"
  end.

(** Page numbers and sizes are Go integers, a height is unsigned, and a path parameter is
    not empty. *)
Definition page_ok (p : mcp.pageParams) : bool :=
  in_int64 (mcp.pp_Page p) && in_int64 (mcp.pp_PageSize p).

Definition call_page (t : mcp.ToolCall) : option mcp.pageParams :=
  match t with
  | mcp.TListMomentums p _ | mcp.TListTokens p | mcp.TListTokenHolders _ p
  | mcp.TListAccountBlocks p _ | mcp.TListAccountTransactions _ p _ | mcp.TListPillars p _
  | mcp.TListPillarDelegators _ p | mcp.TListSentinels p _ | mcp.TListStakes p _
  | mcp.TListAccountStakes _ p _ | mcp.TListFusions p _ | mcp.TListAccountFusions _ p _
  | mcp.TListAccountRewards _ p | mcp.TListProjects p | mcp.TListProjectVotes _ p
  | mcp.TListBridgeWraps p | mcp.TListBridgeUnwraps p | mcp.TListAccountBridgeWraps _ p
  | mcp.TListAccountBridgeUnwraps _ p => Some p
  | _ => None
  end.

Definition call_ok (t : mcp.ToolCall) : bool :=
  match call_page t with Some p => page_ok p | None => true end
  && forallb (fun kv => negb (str_empty (snd kv))) (call_params t)
  && match t with
     | mcp.TGetMomentumByHeight h => (0 <=? h) && (h <=? max_uint64)
     | _ => true
     end.

Lemma positive_param_format z :
  in_int64 z = true -> positive_param (format_int z) = if 0 <? z then Some z else None.
Proof.
  intros H. unfold positive_param. by rewrite format_int_nonempty, parse_int64_format.
Qed.

Lemma parse_pagination t p :
  call_page t = Some p -> page_ok p = true ->
  ParsePagination (call_request t) = mcp.pagination p.
Proof.
  intros Ht [H1 H2]%andb_true_iff.
  assert (query_get (call_request t) "page" = format_int (mcp.pp_Page p)
          /\ query_get (call_request t) "page_size" = format_int (mcp.pp_PageSize p)) as [E1 E2]
    by (destruct t; inversion Ht; subst; split; reflexivity).
  unfold ParsePagination, mcp.pagination. rewrite E1, E2, !positive_param_format by done.
  f_equal.
  - destruct (Z.ltb_spec 0 (mcp.pp_Page p)), (Z.ltb_spec (mcp.pp_Page p) 1); lia || done.
  - destruct (Z.ltb_spec 0 (mcp.pp_PageSize p)), (Z.ltb_spec (mcp.pp_PageSize p) 1); lia || done.
Qed.

Lemma parse_sort r s : query_get r "sort" = s -> ParseSort r "desc" = mcp.sortDirection s "desc".
Proof.
  intros <-. unfold ParseSort, mcp.sortDirection.
  destruct (String.eqb_spec (query_get r "sort") "asc") as [->|]; [done|].
  by destruct (String.eqb_spec (query_get r "sort") "desc") as [->|].
Qed.

Lemma bool_query r name (b : bool) :
  query_get r name = (if b then "true" else "false") -> boolQuery r name false = b.
Proof. intros E. unfold boolQuery. rewrite E. by destruct b. Qed.

Lemma url_param t name v :
  call_params t = [(name, v)] -> URLParam (call_request t) name = v.
Proof.
  intros E. unfold URLParam, get_str, call_request. cbn [rq_Params]. rewrite E.
  cbn [list_to_map foldr uncurry]. by rewrite lookup_insert_eq.
Qed.

Definition call_sort (t : mcp.ToolCall) : string :=
  match t with
  | mcp.TListMomentums _ s | mcp.TListAccountBlocks _ s
  | mcp.TListAccountTransactions _ _ s => s
  | _ => ""
  end.

(** Each handler opened up to the shared shapes. *)
Create HintDb handlers.

#[local] Hint Unfold MomentumsList MomentumsLatest MomentumsGetByHeight AccountBlocksList
  AccountBlocksGet AccountBlocksByAddress AccountsGet AccountsBalances TokensList TokensGet
  TokensHolders PillarsList PillarsGetByName PillarsDelegators PillarsVotingHistory
  SentinelsList StakesList StakesByAddress FusionsList FusionsByAddress RewardsCumulative
  RewardsHistory ProjectsList ProjectsGet ProjectsPhases ProjectsVotes ProjectsVotingReport
  BridgeWraps BridgeUnwraps BridgeWrapsByAddress BridgeUnwrapsByAddress
  require_address require_token require_name require_id : handlers.

#[local] Hint Unfold mcp.getMomentumByHeight mcp.getLatestMomentum mcp.listMomentums
  mcp.listAccountBlocks mcp.getAccountBlock mcp.listAccountTransactions mcp.getAccount
  mcp.listAccountBalances mcp.listTokens mcp.getToken mcp.listTokenHolders mcp.listPillars
  mcp.getPillarByName mcp.listPillarDelegators mcp.getPillarVotingHistory mcp.listSentinels
  mcp.listStakes mcp.listAccountStakes mcp.listFusions mcp.listAccountFusions
  mcp.listAccountRewards mcp.getAccountCumulativeRewards mcp.listProjects mcp.getProject
  mcp.listProjectPhases mcp.listProjectVotes mcp.getProjectVotingReport mcp.listBridgeWraps
  mcp.listBridgeUnwraps mcp.listAccountBridgeWraps mcp.listAccountBridgeUnwraps : handlers.

(** A call's parameters as the handler reads them. *)
Ltac read_params :=
  repeat match goal with
  | H : page_ok _ = true |- context [ParsePagination (call_request ?t)] =>
      rewrite (parse_pagination t _ eq_refl H)
  | |- context [ParseSort (call_request ?t) "desc"] =>
      rewrite (parse_sort (call_request t) (query_get (call_request t) "sort") eq_refl);
      change (query_get (call_request t) "sort") with (call_sort t)
  | |- context [boolQuery (call_request ?t) ?name false] =>
      rewrite (bool_query (call_request t) name _ eq_refl)
  | |- agree (require_param (call_request ?t) ?name _ _ _) _ =>
      apply agree_require; rewrite (url_param t name _ eq_refl)
  end.

Lemma agree_status version now : agree (Status version now (call_request mcp.TGetStatus))
  (mcp.getStatus version now).
Proof.
  intros c n. unfold Status, mcp.getStatus, attempt.
  destruct (MomentumQueries.GetLatest c n) as [[m|e] n']; [apply agree_json|].
  destruct (is_no_rows e); [apply agree_json|done].
Qed.

Lemma agree_by_height h :
  0 <= h <= max_uint64 ->
  agree (MomentumsGetByHeight (call_request (mcp.TGetMomentumByHeight h)))
    (mcp.getMomentumByHeight h).
Proof.
  intros H. unfold MomentumsGetByHeight. 
  rewrite (url_param (mcp.TGetMomentumByHeight h) "height" (format_int h) eq_refl).
  rewrite parse_uint64_format by done. apply agree_item.
Qed.

(** The route's handler agrees with the tool. *)
Lemma transports_agree_lemma version now t :
  call_ok t = true ->
  exists h, assoc (call_route t) (api_routes version now) = Some h
            /\ agree (h (call_request t)) (mcp.call_tool version now t).
Proof.
  intros H. unfold call_ok in H. apply andb_true_iff in H as [[Hp Hq]%andb_true_iff Hh].
  destruct t; (eexists; split; [reflexivity|]); cbn [mcp.call_tool];
    cbn [call_page call_params forallb snd] in Hp, Hq;
    try apply agree_status; try (apply agree_by_height; lia);
    autounfold with handlers; read_params;
    try (apply andb_true_iff in Hq as [Hq _]; by apply negb_true_iff in Hq);
    try apply agree_page; try apply agree_item.
  apply agree_bind. intros pillar. apply agree_page.
Qed.

(** C11. Every MCP tool answers what the HTTP route for the same operation answers: for
    any call with Go integers as page numbers and non-empty path arguments, on any pool, with
    the tables changing and statements failing at any point, the route's handler runs the
    same statements and answers status 200 with the tool's value, the same problem where the
    value cannot be encoded, and the repository's problem where the tool answers an error. *)
Theorem transports_agree version now t :
  call_ok t = true ->
  exists h, assoc (call_route t) (api_routes version now) = Some h
            /\ agree (h (call_request t)) (mcp.call_tool version now t).
Proof. apply transports_agree_lemma. Qed.

Lemma transports_agree_witness :
  exists h,
    assoc "/tokens/{token_standard}" (api_routes "dev" 5000) = Some h
    /\ (h (call_request (mcp.TGetToken "zts1b")) api_conn 0%nat).1
       = Ok (WriteJSON 200 (PToken (dto.FromToken (a_token "zts1b" 7)))).
Proof.
  destruct (transports_agree "dev" 5000 (mcp.TGetToken "zts1b")) as (h & Hh & Ha); [reflexivity|].
  exists h. split; [exact Hh|]. rewrite (Ha api_conn 0%nat). vm_compute. reflexivity.
Defined.

(** ** Collections *)

(** The operations whose total is counted with the page: the matching rows, their order, and
    the shape of the answer. *)
Record Collection : Type := mkCollection {
  col_Row : Type;
  col_Out : Type;
  col_rows : View -> list col_Row;
  col_le : View -> col_Row -> col_Row -> bool;
  col_from : list col_Row -> list col_Out;
  col_wrap : dto.Page col_Out -> Payload
}.

Definition collection_of (t : mcp.ToolCall) : option Collection :=
  match t with
  | mcp.TListTokens _ =>
      Some (mkCollection _ _ (fun v => rows_of v (db_tokens (vw_db v))) TokenQueries.by_holders
              dto.FromTokens PTokens)
  | mcp.TListTokenHolders s _ =>
      Some (mkCollection _ _ (BalanceQueries.holders s) (fun _ => desc bal_Balance)
              dto.FromBalances PHolders)
  | mcp.TListPillars _ b =>
      Some (mkCollection _ _ (PillarQueries.listed b) (fun _ => asc pil_Rank)
              dto.FromPillars PPillars)
  | mcp.TListSentinels _ b =>
      Some (mkCollection _ _ (SentinelQueries.listed (negb b))
              (fun _ => desc sen_RegistrationTimestamp) dto.FromSentinels PSentinels)
  | mcp.TListStakes _ b =>
      Some (mkCollection _ _ (StakeQueries.listed (negb b)) (fun _ => desc stk_StartTimestamp)
              dto.FromStakes PStakes)
  | mcp.TListAccountStakes a _ b =>
      Some (mkCollection _ _ (StakeQueries.owned a (negb b)) (fun _ => desc stk_StartTimestamp)
              dto.FromStakes PStakes)
  | mcp.TListFusions _ b =>
      Some (mkCollection _ _ (FusionQueries.listed (negb b)) (fun _ => desc fus_MomentumHeight)
              dto.FromFusions PFusions)
  | mcp.TListAccountFusions a _ b =>
      Some (mkCollection _ _ (FusionQueries.owned a (negb b)) (fun _ => desc fus_MomentumHeight)
              dto.FromFusions PFusions)
  | mcp.TListAccountRewards a _ =>
      Some (mkCollection _ _ (RewardQueries.received a) (fun _ => desc rt_MomentumHeight)
              dto.FromRewardTransactions PRewards)
  | mcp.TListProjects _ =>
      Some (mkCollection _ _ (fun v => rows_of v (db_projects (vw_db v)))
              (fun _ => desc prj_CreationTimestamp) dto.FromProjects PProjects)
  | mcp.TListProjectVotes i _ =>
      Some (mkCollection _ _ (VoteReads.of_project i) (fun _ => desc vote_MomentumHeight)
              dto.FromVotes PVotes)
  | mcp.TListBridgeWraps _ =>
      Some (mkCollection _ _ (fun v => rows_of v (db_wraps (vw_db v)))
              (fun _ => desc wrap_CreationMomentumHeight) dto.FromWrapTokenRequests PWraps)
  | mcp.TListBridgeUnwraps _ =>
      Some (mkCollection _ _ (fun v => rows_of v (db_unwraps (vw_db v)))
              (fun _ => desc unw_RegistrationMomentumHeight) dto.FromUnwrapTokenRequests
              PUnwraps)
  | mcp.TListAccountBridgeWraps a _ =>
      Some (mkCollection _ _ (BridgeQueries.wraps_to a)
              (fun _ => desc wrap_CreationMomentumHeight) dto.FromWrapTokenRequests PWraps)
  | mcp.TListAccountBridgeUnwraps a _ =>
      Some (mkCollection _ _ (BridgeQueries.unwraps_to a)
              (fun _ => desc unw_RegistrationMomentumHeight) dto.FromUnwrapTokenRequests
              PUnwraps)
  | _ => None
  end.

(** The request's page, 0-based, as parameters of a call. *)
Definition page_params (s i : nat) : mcp.pageParams :=
  mcp.mkpageParams (Z.of_nat i + 1) (Z.of_nat s).

Lemma pagination_params s i :
  (1 <= s <= 200)%nat ->
  mcp.pagination (page_params s i) = mkPagination (Z.of_nat i + 1) (Z.of_nat s).
Proof.
  intros H. unfold mcp.pagination, page_params. cbn [mcp.pp_Page mcp.pp_PageSize].
  rewrite (proj2 (Z.ltb_ge (Z.of_nat i + 1) 1)) by lia.
  rewrite (proj2 (Z.ltb_ge (Z.of_nat s) 1)) by lia.
  unfold MaxPageSize. by rewrite (proj2 (Z.ltb_ge _ _)) by lia.
Qed.

Lemma offset_params s i :
  (1 <= s <= 200)%nat -> Z.of_nat (i * s) <= max_int64 ->
  Pagination_Offset (mkPagination (Z.of_nat i + 1) (Z.of_nat s)) = Z.of_nat (i * s).
Proof.
  intros Hs Hi. unfold Pagination_Offset. cbn [Page PageSize].
  replace (Z.of_nat i + 1 - 1) with (Z.of_nat i) by lia.
  unfold max_int64 in Hi. rewrite (int64_id (Z.of_nat i)).
  - rewrite int64_id; [lia|]. apply in_int64_spec. unfold min_int64, max_int64. lia.
  - apply in_int64_spec. unfold min_int64, max_int64. nia.
Qed.

(** A page of a windowed collection, from its shared shape. *)
Lemma page_result_windowed {A B} (rows : View -> list A) le (from : list A -> list B) wrap
    v n s i sort :
  (1 <= s <= 200)%nat -> Z.of_nat (i * s) <= max_int64 ->
  exists n',
    mcp.page_result (mcp.pagination (page_params s i))
      (list_windowed rows le (opts_of (mcp.pagination (page_params s i)) sort)) from wrap
      (steady v) n
    = mcp.jsonResult (wrap (dto.NewPage (from (page_slice s i (order_by (le v) (rows v))))
                              (Z.of_nat i + 1) (Z.of_nat s) (count (rows v)))) (steady v) n'.
Proof.
  intros Hs Hi. rewrite pagination_params by done. unfold opts_of. cbn [PageSize].
  rewrite offset_params by done.
  destruct (list_windowed_page rows le v n s i sort) as (n' & E); [lia|].
  exists n'. unfold mcp.page_result, mbind, Q_bind. by rewrite E.
Qed.

(** The call for another page. *)
Definition at_page (p : mcp.pageParams) (t : mcp.ToolCall) : mcp.ToolCall :=
  match t with
  | mcp.TListTokens _ => mcp.TListTokens p
  | mcp.TListTokenHolders s _ => mcp.TListTokenHolders s p
  | mcp.TListPillars _ b => mcp.TListPillars p b
  | mcp.TListSentinels _ b => mcp.TListSentinels p b
  | mcp.TListStakes _ b => mcp.TListStakes p b
  | mcp.TListAccountStakes a _ b => mcp.TListAccountStakes a p b
  | mcp.TListFusions _ b => mcp.TListFusions p b
  | mcp.TListAccountFusions a _ b => mcp.TListAccountFusions a p b
  | mcp.TListAccountRewards a _ => mcp.TListAccountRewards a p
  | mcp.TListProjects _ => mcp.TListProjects p
  | mcp.TListProjectVotes i _ => mcp.TListProjectVotes i p
  | mcp.TListBridgeWraps _ => mcp.TListBridgeWraps p
  | mcp.TListBridgeUnwraps _ => mcp.TListBridgeUnwraps p
  | mcp.TListAccountBridgeWraps a _ => mcp.TListAccountBridgeWraps a p
  | mcp.TListAccountBridgeUnwraps a _ => mcp.TListAccountBridgeUnwraps a p
  | _ => t
  end.

Definition params_ok (t : mcp.ToolCall) : bool :=
  forallb (fun kv => negb (str_empty (snd kv))) (call_params t).

(** The tool of a collection is the windowed list of its rows. *)
Lemma collection_tool version now t col p :
  collection_of t = Some col -> params_ok t = true ->
  mcp.call_tool version now (at_page p t)
  = mcp.page_result (mcp.pagination p)
      (list_windowed (col_rows col) (col_le col) (opts_of (mcp.pagination p) ""))
      (col_from col) (col_wrap col).
Proof.
  intros Ht Hq. unfold params_ok in Hq.
  destruct t; inversion Ht; subst; cbn [at_page mcp.call_tool col_wrap col_from col_le col_rows];
    cbn [call_params forallb snd] in Hq;
    try (apply andb_true_iff in Hq as [Hq%negb_true_iff _]);
    autounfold with handlers;
    unfold TokenQueries.List, BalanceQueries.ListByToken, PillarQueries.List,
      SentinelQueries.List, StakeQueries.List, StakeQueries.ListByAddress, FusionQueries.List,
      FusionQueries.ListByAddress, RewardQueries.HistoryByAddress, ProjectQueries.List,
      VoteReads.ListByProject, BridgeQueries.ListWraps, BridgeQueries.ListUnwraps,
      BridgeQueries.ListWrapsByAddress, BridgeQueries.ListUnwrapsByAddress, required;
    by rewrite ?Hq.
Qed.

Lemma at_page_route p t col :
  collection_of t = Some col ->
  call_route (at_page p t) = call_route t /\ call_page (at_page p t) = Some p
  /\ call_params (at_page p t) = call_params t.
Proof. destruct t; intros Ht; inversion Ht; done. Qed.

Lemma at_page_ok p t col :
  collection_of t = Some col -> params_ok t = true -> page_ok p = true ->
  call_ok (at_page p t) = true.
Proof.
  intros Ht Hq Hp. destruct (at_page_route p t col Ht) as (_ & Ep & Er).
  unfold call_ok. rewrite Ep, Er. unfold params_ok in Hq. rewrite Hq, Hp.
  destruct t; inversion Ht; reflexivity.
Qed.

Lemma page_params_ok s i :
  (1 <= s <= 200)%nat -> Z.of_nat (i * s) <= max_int64 - 200 ->
  page_ok (page_params s i) = true.
Proof.
  intros Hs Hi. apply andb_true_iff. cbn [page_params mcp.pp_Page mcp.pp_PageSize].
  rewrite !in_int64_spec. unfold max_int64, min_int64 in *. nia.
Qed.

(** Terms that compare strings are total when the collation is. *)
Lemma collection_order t col v :
  collection_of t = Some col -> TotalPre (vw_collate v) -> TotalPre (col_le col v).
Proof.
  intros Ht Hc. destruct t; inversion Ht; subst; cbn [col_le]; apply _.
Qed.

(** The route of a collection agrees with its tool on every page. *)
Lemma agreeing_route version now t col :
  collection_of t = Some col -> params_ok t = true ->
  exists h, assoc (call_route t) (api_routes version now) = Some h
    /\ forall p, page_ok p = true ->
         agree (h (call_request (at_page p t))) (mcp.call_tool version now (at_page p t)).
Proof.
  intros Ht Hq.
  destruct (transports_agree_lemma version now (at_page (page_params 1 0) t)) as (h & Hh & _);
    [by apply (at_page_ok _ t col)|].
  destruct (at_page_route (page_params 1 0) t col Ht) as (Er & _). rewrite Er in Hh.
  exists h. split; [done|]. intros p Hp.
  destruct (transports_agree_lemma version now (at_page p t)) as (h' & Hh' & Ha);
    [by apply (at_page_ok _ t col)|].
  destruct (at_page_route p t col Ht) as (Er' & _). rewrite Er', Hh in Hh'.
  by inversion Hh'.
Qed.

(** C15. The collections of the API serve their rows page by page: the tokens, a token's
    holders, the pillars, sentinels, stakes and fusions, an account's stakes, fusions and
    rewards, the projects, a project's votes and the bridge requests, all or an account's
    (the momentums and an account's blocks count their totals by other statements, a pillar's
    delegators come after a lookup of the pillar). On tables that do not change and that the database scans in one order, for
    every page size the API allows and every page whose offset fits an int64, there is one arrangement of exactly the
    matching rows, sorted as the operation documents, such that page [i] (from 0) answers
    status 200 with its [i]-th slice, the page's own number and size and the exact number of
    matching rows as the total, also past the last page; and the pages up to that total put
    together are that arrangement, each row once. *)
Theorem collections_page_through version now t col v s :
  collection_of t = Some col -> params_ok t = true -> TotalPre (vw_collate v) ->
  (1 <= s <= 200)%nat ->
  exists sorted,
    sorted ≡ₚ col_rows col v /\ StronglySorted (sorts_before (col_le col v)) sorted
    /\ (forall i n, Z.of_nat (i * s) <= max_int64 - 200 ->
          exists h n',
            assoc (call_route t) (api_routes version now) = Some h
            /\ h (call_request (at_page (page_params s i) t)) (steady v) n
               = (Ok (WriteJSON 200 (col_wrap col
                    (dto.NewPage (col_from col (page_slice s i sorted))
                       (Z.of_nat i + 1) (Z.of_nat s) (count (col_rows col v))))), n'))
    /\ (forall k, (length (col_rows col v) <= k * s)%nat ->
          concat (map (fun i => page_slice s i sorted) (seq 0 k)) = sorted).
Proof.
  intros Ht Hq Hc Hs. exists (order_by (col_le col v) (col_rows col v)).
  pose proof (collection_order t col v Ht Hc).
  split; [apply order_by_perm|]. split; [by apply order_by_sorted|]. split.
  - intros i n Hi.
    destruct (agreeing_route version now t col Ht Hq) as (h & Hh & Ha).
    pose proof (Ha (page_params s i) (page_params_ok s i Hs Hi) (steady v) n) as Hr. rewrite (collection_tool version now t col) in Hr by done.
    destruct (page_result_windowed (col_rows col) (col_le col) (col_from col) (col_wrap col)
                v n s i "") as (n' & E); [done|lia|].
    rewrite E in Hr.
    exists h, n'. split; [done|]. rewrite Hr. symmetry. apply agree_json.
  - intros k Hk. apply pages_all. by rewrite order_by_length.
Qed.

Lemma collections_page_through_witness :
  exists (sorted : list Token) h n',
    sorted ≡ₚ rows_of api_view (db_tokens api_db)
    /\ assoc "/tokens" (api_routes "dev" 5000) = Some h
    /\ h (call_request (mcp.TListTokens (page_params 2 1))) api_conn 0%nat
       = (Ok (WriteJSON 200 (PTokens (dto.NewPage (dto.FromTokens (page_slice 2 1 sorted)) 2 2 3))),
          n').
Proof.
  destruct (collections_page_through "dev" 5000 (mcp.TListTokens (page_params 2 0)) _ api_view 2
              eq_refl eq_refl) as (sorted & Hp & _ & Hpages & _); [apply _|lia|].
  destruct (Hpages 1%nat 0%nat) as (h & n' & Hh & E); [vm_compute; discriminate|].
  exists sorted, h, n'. split; [exact Hp|]. split; [exact Hh|]. exact E.
Defined.

(** A page number beyond the offsets a 64-bit integer can hold is not clamped. The
    documented behaviour is that pagination never fails, but for every collection the request
    for page 184467440737095518 of 50 rows is answered with status 500 and "database error"
    (its offset wraps to a negative number, which PostgreSQL rejects), and the request for
    page 2^58 + 1 of 64 rows is answered with the rows of the first page (its offset wraps to
    0) under that page number. *)
Theorem huge_pages_misbehave version now t col v n :
  collection_of t = Some col -> params_ok t = true ->
  exists h, assoc (call_route t) (api_routes version now) = Some h
    /\ h (call_request (at_page (mcp.mkpageParams 184467440737095518 50) t)) (steady v) n
       = (Ok (WriteProblem 500 "internal_error" "database error"), S n)
    /\ exists n',
        h (call_request (at_page (mcp.mkpageParams (2 ^ 58 + 1) 64) t)) (steady v) n
        = (Ok (WriteJSON 200 (col_wrap col
             (dto.NewPage (col_from col
                (page_slice 64 0 (order_by (col_le col v) (col_rows col v))))
                (2 ^ 58 + 1) 64 (count (col_rows col v))))), n').
Proof.
  intros Ht Hq.
  destruct (agreeing_route version now t col Ht Hq) as (h & Hh & Ha).
  exists h. split; [done|].
  pose proof (Ha (mcp.mkpageParams 184467440737095518 50) eq_refl (steady v) n) as H1.
  pose proof (Ha (mcp.mkpageParams (2 ^ 58 + 1) 64) eq_refl (steady v) n) as H2.
  rewrite (collection_tool version now t col) in H1, H2 by done. split.
  - rewrite H1. unfold mcp.page_result, mbind, Q_bind.
    rewrite list_windowed_negative; [done|done|]. vm_compute. reflexivity.
  - destruct (list_windowed_page (col_rows col) (col_le col) v n 64 0 "") as (n' & E); [lia|].
    exists n'. rewrite H2. unfold mcp.page_result, mbind, Q_bind.
    change (opts_of (mcp.pagination (mcp.mkpageParams (2 ^ 58 + 1) 64)) "")
      with (mkListOpts (Z.of_nat 64) (Z.of_nat (0 * 64)) "").
    rewrite E. symmetry. apply agree_json.
Qed.

Lemma huge_pages_misbehave_witness :
  exists h,
    assoc "/tokens" (api_routes "dev" 5000) = Some h
    /\ h (call_request (mcp.TListTokens (mcp.mkpageParams 184467440737095518 50))) api_conn 0%nat
       = (Ok (WriteProblem 500 "internal_error" "database error"), 1%nat).
Proof.
  destruct (huge_pages_misbehave "dev" 5000 (mcp.TListTokens (page_params 2 0)) _ api_view 0
              eq_refl eq_refl) as (h & Hh & E & _).
  by exists h.
Defined.

(** ** Momentums *)

Definition max_total (t : MomentumRepository.table) : Z :=
  match MomentumRepository.max_height t with Some h => h | None => 0 end.

(** Distinct heights from 1 to the greatest are at most that many. *)
Lemma heights_count t : own_heights t -> Z.of_nat (size t) <= max_total t.
Proof.
  intros Ht. pose proof (max_height_spec t) as Hmax. unfold max_total.
  destruct (MomentumRepository.max_height t) as [top|] eqn:E.
  - assert (dom t ⊆ (list_to_set (seqZ 1 top) : gset Z)) as Hsub.
    { intros k Hk%elem_of_dom. destruct Hk as [m Hm].
      apply elem_of_list_to_set, elem_of_seqZ.
      destruct (Ht k m Hm) as [_ H1]. destruct Hmax as [_ Hmax].
      specialize (Hmax k (mk_is_Some _ _ Hm)). lia. }
    apply subseteq_size in Hsub. rewrite size_dom in Hsub.
    rewrite size_list_to_set in Hsub by apply NoDup_seqZ.
    rewrite length_seqZ in Hsub. 
    destruct Hmax as [[m Hm] _]. destruct (Ht top m Hm). lia.
  - rewrite Hmax. by rewrite map_size_empty.
Qed.

Lemma heights_distinct v sort (a b : Momentum) :
  own_heights (db_momentums (vw_db v)) ->
  a ∈ rows_of v (db_momentums (vw_db v)) -> b ∈ rows_of v (db_momentums (vw_db v)) ->
  ordered sort mom_Height a b = true -> ordered sort mom_Height b a = true -> a = b.
Proof.
  intros Ht (k & Ha)%elem_of_rows_of (k' & Hb)%elem_of_rows_of H1 H2.
  destruct (Ht k a Ha) as [Ea _], (Ht k' b Hb) as [Eb _].
  assert (mom_Height a = mom_Height b).
  { unfold ordered, asc, desc in H1, H2. destruct (orderClause sort); lia. }
  assert (k = k') as -> by congruence. congruence.
Qed.

Lemma momentums_sort p sort :
  query_get (call_request (mcp.TListMomentums p sort)) "sort" = sort.
Proof. reflexivity. Qed.

(** [GET /api/v1/momentums] on tables that do not change: with every row stored under its
    own height, page [i] answers the [i]-th slice of all momentums sorted by height in the
    direction asked for, the same whatever order the database scans in; the total is the
    greatest height, never below the number of rows, and equal to it when no height from 1
    is missing. *)
Theorem momentums_pages v w s i n sort :
  own_heights (db_momentums (vw_db v)) -> vw_db w = vw_db v ->
  (1 <= s <= 200)%nat -> Z.of_nat (i * s) <= max_int64 - 200 ->
  let t := db_momentums (vw_db v) in
  let sorted := order_by (ordered (mcp.sortDirection sort "desc") mom_Height) (rows_of v t) in
  MomentumsList (call_request (mcp.TListMomentums (page_params s i) sort)) (steady w) n
  = (Ok (WriteJSON 200 (PMomentums
       (dto.NewPage (dto.FromMomentums (page_slice s i sorted))
          (Z.of_nat i + 1) (Z.of_nat s) (max_total t)))), S (S n))
  /\ count (rows_of v t) <= max_total t
  /\ ((forall h, 1 <= h <= max_total t -> is_Some (t !! h)) ->
      count (rows_of v t) = max_total t).
Proof.
  intros Ht Hw Hs Hi t sorted.
  assert (count (rows_of v t) = Z.of_nat (size t)) as Ec
    by (unfold count; by rewrite rows_of_length).
  split; [|split].
  - unfold MomentumsList.
    rewrite (parse_pagination (mcp.TListMomentums (page_params s i) sort) _ eq_refl
               (page_params_ok s i Hs Hi)).
    rewrite (parse_sort _ _ (momentums_sort (page_params s i) sort)).
    rewrite pagination_params by done.
    unfold respond_page, or_repo_error, attempt, MomentumQueries.List, mbind, Q_bind.
    unfold opts_of. rewrite offset_params by lia. cbn [PageSize Page].
    rewrite statement_steady. unfold select_page. cbn [Limit Offset Sort].
    rewrite limit_offset_page. cbn [mbind]. unfold MomentumQueries.max_height_total.
    rewrite statement_steady. rewrite Hw. fold t. fold (max_total t).
    replace (order_by _ (rows_of w t)) with sorted; [done|].
    apply order_by_unique; [apply _|apply rows_of_scan|].
    intros a b. by apply heights_distinct.
  - rewrite Ec. by apply heights_count.
  - intros Hall. rewrite Ec. apply Z.le_antisymm; [by apply heights_count|].
    assert ((list_to_set (seqZ 1 (max_total t)) : gset Z) ⊆ dom t) as Hsub.
    { intros k Hk%elem_of_list_to_set%elem_of_seqZ. apply elem_of_dom, Hall. lia. }
    apply subseteq_size in Hsub. rewrite size_dom in Hsub.
    rewrite size_list_to_set in Hsub by apply NoDup_seqZ. rewrite length_seqZ in Hsub. lia.
Qed.

Lemma momentums_pages_witness :
  MomentumsList (call_request (mcp.TListMomentums (page_params 2 0) "asc")) api_conn 0%nat
  = (Ok (WriteJSON 200 (PMomentums
       (dto.NewPage (dto.FromMomentums [a_momentum 1; a_momentum 2]) 1 2 4))), 2%nat).
Proof.
  destruct (momentums_pages api_view api_view 2 0 0 "asc" api_own_heights) as (E & _);
    [done|lia|done|].
  etrans; [exact E|]. vm_compute. reflexivity.
Defined.
