(* ===== verification/RouterTheorems.v ===== *)
(** Authentication: nothing under [/api/v1] reads the database without a verified token, and
    a token that was issued is accepted, with the same subject and scopes, by the key that
    issued it, and what is accepted is signed by the key. *)

From S2P Require Import Prelude.
From S2P Require Import Json.
From S2P Require Import Models.
From S2P Require Import Queries.
From S2P Require Import Dto.
From S2P Require Import Text.
From S2P Require Import Httpx.
From S2P Require Import Auth.
From S2P Require Import Middleware.
From S2P Require Import Handlers.
From S2P Require Import Router.
From S2P Require Import StreamHub.
From S2P Require Import Streams.
From S2P Require Import ApiSamples.
#[local] Open Scope string_scope.
#[local] Open Scope Z_scope.

(** ** Without a token *)

(** A middleware that answers a request itself or passes it on as it is. *)
Definition passes_through (w : Handler -> Handler) : Prop :=
  forall h cx r c n,
    w h cx r c n = h cx r c n \/ exists rs, w h cx r c n = answer rs cx r c n.

(** A middleware that passes the request on, whatever the handler. *)
Definition lets_through (w : Handler -> Handler) (r : Request) : Prop :=
  forall h cx c n, w h cx r c n = h cx r c n.

(** One that runs its handler and leaves alone what it does to the database and an answer with
    a final status: what cmd/api's metrics are ([metrics_transparent]). *)
Definition transparent (w : Handler -> Handler) : Prop :=
  forall h cx r c n,
    sv_Next (w h cx r c n) = sv_Next (h cx r c n)
    /\ forall rs, sv_Result (h cx r c n) = Ok rs -> 200 <= rs_Status rs <= 999 ->
         sv_Result (w h cx r c n) = Ok rs.

(** No token of the request verifies. *)
Definition unauthenticated {JL : JwtLib} (signer : Signer) (now : Z) (r : Request) : Prop :=
  forall tok claims, bearerToken r = (tok, true, true) -> Verify signer now tok <> Ok claims.

Section router.
Context {JL : JwtLib} {HR : HttpRate} {CO : Cors} {CH : Chi}.

(** What [Auth] answers a request without a verified token: 401, no statement run. *)
Lemma auth_refuses signer now next cx r c n :
  unauthenticated signer now r ->
  exists code detail,
    AuthMiddleware now signer next cx r c n
    = answer (WriteProblem 401 code detail) cx r c n
    /\ code ∈ ["missing_token"; "invalid_token"; "expired_token"].
Proof.
  intros Hu. unfold AuthMiddleware, unauthenticated in *.
  destruct (bearerToken r) as [[tok found] ok].
  destruct found; cbn [negb]; [|do 2 eexists; split; [reflexivity|set_solver]].
  destruct ok; cbn [negb]; [|do 2 eexists; split; [reflexivity|set_solver]].
  destruct (Verify signer now tok) as [claims|e] eqn:E; [by destruct (Hu _ _ eq_refl E)|].
  destruct (is_token_expired e); do 2 eexists; (split; [reflexivity|set_solver]).
Qed.

Lemma top_routes_api d now cx r c n params :
  find_route (map fst (top_routes d now)) r = Some ("/api/v1/*", params) ->
  routes (top_routes d now) cx r c n = api_v1 d now cx (with_params params r) c n.
Proof. intros E. unfold routes. by rewrite E. Qed.

(** The routes behind the optional metrics. *)
Definition behind_metrics (d : Deps) (now : Z) : Handler :=
  match dp_Metrics d with
  | Some metrics => metrics (routes (top_routes d now))
  | None => routes (top_routes d now)
  end.

(** Behind transparent metrics, a request of the subtree without a token gets its 401. *)
Lemma refused_behind_metrics d now cx r c n params :
  (forall metrics, dp_Metrics d = Some metrics -> transparent metrics) ->
  find_route (map fst (top_routes d now)) r = Some ("/api/v1/*", params) ->
  unauthenticated (dp_Signer d) now r ->
  exists code detail, code ∈ ["missing_token"; "invalid_token"; "expired_token"]
    /\ sv_Result (behind_metrics d now cx r c n) = Ok (WriteProblem 401 code detail)
    /\ sv_Next (behind_metrics d now cx r c n) = n.
Proof.
  intros Hm Hr Hu.
  assert (exists code detail, routes (top_routes d now) cx r c n
            = answer (WriteProblem 401 code detail) cx r c n
            /\ code ∈ ["missing_token"; "invalid_token"; "expired_token"])
    as (code & detail & E & Hin).
  { rewrite (top_routes_api d now cx r c n params Hr).
    exact (auth_refuses _ _ _ cx (with_params params r) c n Hu). }
  exists code, detail. split; [done|]. unfold behind_metrics.
  destruct (dp_Metrics d) as [metrics|] eqn:Em; [|by rewrite E].
  destruct (Hm metrics eq_refl (routes (top_routes d now)) cx r c n) as [Hn Hok].
  rewrite Hn, (Hok (WriteProblem 401 code detail)); [by rewrite E|by rewrite E|cbn; lia].
Qed.

(** The streams refuse a token that does not verify before anything else. *)
Lemma open_stream_refuses signer now r c n {T} stream parse subscribe accept connected :
  (forall claims, Verify signer now (streamToken r).1 <> Ok claims) ->
  exists code detail,
    open_stream (T := T) signer now stream parse subscribe accept connected r c n
    = (Ok (Refused (WriteProblem 401 code detail)), n).
Proof.
  intros Hv. unfold open_stream. destruct (streamToken r) as [tok code]. cbn [fst] in Hv.
  destruct (str_empty tok); [by do 2 eexists|].
  destruct (Verify signer now tok) as [claims|e]; [by destruct (Hv claims)|]. by do 2 eexists.
Qed.

(** C12. Nothing under [/api/v1] is served without a token that verifies. For any routing and
    rate limiter, a CORS handler that answers a request itself (a preflight) or passes it on,
    and metrics that are transparent, as cmd/api's are, a request that chi routes into the
    authenticated subtree and whose [Authorization] header carries no token verified by the
    signer runs no statement against the database, whoever answers it; where CORS passes it
    on it gets status 401 with one of the three documented codes, whether or not a route of
    the subtree matches it; and the two streams, which authenticate themselves, refuse a
    request whose header or query token does not verify with status 401, before any statement
    and without upgrading the connection. *)
Theorem nothing_without_token d now fresh r c n params :
  passes_through (CORS (dp_CORSAllowedOrigins d)) ->
  (forall metrics, dp_Metrics d = Some metrics -> transparent metrics) ->
  (find_route (map fst (top_routes d now)) r = Some ("/api/v1/*", params) ->
   unauthenticated (dp_Signer d) now r ->
   let sv := (Router.New d now fresh r c n).1 in
   sv_Next sv = n /\ is_ok (sv_Result sv) = true
   /\ (lets_through (CORS (dp_CORSAllowedOrigins d)) r ->
       exists code detail,
         code ∈ ["missing_token"; "invalid_token"; "expired_token"]
         /\ sv_Result sv = Ok (WriteProblem 401 code detail)))
  /\ ((forall claims, Verify (dp_Signer d) now (streamToken r).1 <> Ok claims) ->
      forall subscribe,
      (forall ws, exists code detail,
         MomentumsStream (dp_Signer d) now subscribe ws r c n
         = (Ok (Refused (WriteProblem 401 code detail)), n))
      /\ (forall ws, exists code detail,
         TransactionsStream (dp_Signer d) now subscribe ws r c n
         = (Ok (Refused (WriteProblem 401 code detail)), n))).
Proof.
  intros Hcors Hmetrics.
  split; [|by intros Hv subscribe; split; intros ws; apply open_stream_refuses].
  intros Hr Hu sv. subst sv. unfold Router.New, RequestID, Logger. cbn [fst]. unfold Recover.
  fold (behind_metrics d now). set (cx := mkCtx _ _).
  destruct (refused_behind_metrics d now cx r c n params Hmetrics Hr Hu)
    as (code & detail & Hin & E & En).
  destruct (Hcors (behind_metrics d now) cx r c n) as [Ec|[rs Ec]]; rewrite Ec.
  - rewrite E. cbn [is_ok]. rewrite E. split; [done|]. split; [done|]. intros _. by exists code, detail.
  - cbn. do 2 (split; [done|]). intros Hl. rewrite Hl in Ec. rewrite Ec in E. cbn in E.
    injection E as ->. by exists code, detail.
Qed.
End router.

(** An API with an origin allowed and metrics that count every request. *)
Definition guarded_deps : Deps :=
  mkDeps (mkSigner toy_secret) "" ["https://explorer"] 60
    (Some (fun next cx r c n =>
       let sv := next cx r c n in
       mkServed (sv_Result sv) (sv_Subject sv) (sv_Next sv)
         (collectors.observe (collectors.mkLabels "GET" "any" "any") 1 (sv_Metrics sv))))
    (fun _ => mret ready) (answer ready) (answer ready).

Lemma guarded_cors : passes_through (CORS (dp_CORSAllowedOrigins guarded_deps)).
Proof.
  intros h cx r c n. cbn. destruct (String.eqb (rq_Method r) "OPTIONS"); [right; by eexists|by left].
Qed.

Lemma guarded_metrics metrics : dp_Metrics guarded_deps = Some metrics -> transparent metrics.
Proof. intros [= <-] h cx r c n. by split. Qed.

Lemma nothing_without_token_witness :
  (exists code detail,
     code ∈ ["missing_token"; "invalid_token"; "expired_token"]
     /\ sv_Result (Router.New guarded_deps 5000000000000 "id"
                     (get_with "/api/v1/tokens" toy_token) api_conn 0%nat).1
        = Ok (WriteProblem 401 code detail))
  /\ exists code detail,
     MomentumsStream (mkSigner toy_secret) 5000000000000 (fun _ => ErrHubNotRunning)
       (mkSocket false (fun _ => false) []) (get_with "/api/v1/momentums/stream" toy_token)
       api_conn 0%nat
     = (Ok (Refused (WriteProblem 401 code detail)), 0%nat).
Proof.
  pose proof (fun r params => nothing_without_token guarded_deps 5000000000000 "id" r api_conn
    0%nat params guarded_cors guarded_metrics) as H. split.
  - destruct (H (get_with "/api/v1/tokens" toy_token) ∅) as [H1 _].
    destruct H1 as (_ & _ & H2); [reflexivity| |by apply H2].
    intros tok claims. vm_compute. by intros [= <-].
  - destruct (H (get_with "/api/v1/momentums/stream" toy_token) ∅) as [_ H2].
    destruct (H2 ltac:(intros claims; vm_compute; done) (fun _ => ErrHubNotRunning)) as [H3 _].
    apply H3.
Defined.

(** ** Issued tokens *)

(** The characters an OAuth scope token is made of: printable ASCII without the space. *)
Definition scope_char (c : ascii) : bool :=
  let n := nat_of_ascii c in Nat.leb 33 n && Nat.leb n 126.

Fixpoint scope_word (w : string) : bool :=
  match w with EmptyString => true | String c w' => scope_char c && scope_word w' end.

Definition scope_token (w : string) : bool := negb (str_empty w) && scope_word w.

Lemma scope_char_no_space c s : scope_char c = true -> strip_any space_seqs (String c s) = None.
Proof. destruct c as [[] [] [] [] [] [] [] []]; intros H; try discriminate H; reflexivity. Qed.

Lemma str_app_assoc (a b c : string) : (a +:+ b) +:+ c = a +:+ (b +:+ c).
Proof. induction a as [|x a IH]; [done|]. exact (f_equal (String x) IH). Qed.

Lemma str_app_nil (a : string) : a +:+ "" = a.
Proof. induction a as [|x a IH]; [done|]. exact (f_equal (String x) IH). Qed.

(** A word is collected up to the space or the end after it. *)
Lemma fields_word w : forall pre rest,
  scope_word w = true ->
  fields_fuel (String.length (w +:+ rest)) pre (w +:+ rest)
  = fields_fuel (String.length rest) (pre +:+ w) rest.
Proof.
  induction w as [|c w IH]; intros pre rest H; cbn in H.
  - cbn [String.append]. by rewrite str_app_nil.
  - apply andb_true_iff in H as [Hc Hw].
    change (String c w +:+ rest) with (String c (w +:+ rest)). cbn [String.length fields_fuel].
    rewrite scope_char_no_space by done. rewrite IH by done.
    by rewrite str_app_assoc.
Qed.

Lemma fields_join l :
  forallb scope_token l = true -> fields (join " " l) = l.
Proof.
  unfold fields, join. induction l as [|w l IH]; intros H; [done|].
  cbn in H. apply andb_true_iff in H as [[Hne Hw]%andb_true_iff Hl].
  apply negb_true_iff in Hne.
  destruct l as [|w' l].
  - cbn [String.concat]. rewrite <- (str_app_nil w) at 1 2. rewrite fields_word by done.
    cbn [String.length fields_fuel]. change ("" +:+ w) with w. by rewrite Hne.
  - change (String.concat " " (w :: w' :: l))
      with (w +:+ String " " (String.concat " " (w' :: l))).
    rewrite fields_word by done. cbn [String.length fields_fuel]. change ("" +:+ w) with w.
    change (strip_any space_seqs (String " " (String.concat " " (w' :: l))))
      with (Some (String.concat " " (w' :: l))).
    rewrite Hne. cbn [app]. by rewrite IH.
Qed.

(** A token the signer issues is accepted until it expires, and only HS256 signatures of
    the signer's own secret are. Under the laws of the JWT library: whatever subject and
    lifetime it was issued for, [Verify] answers the very claims until the expiry, their
    [Scopes] are the scopes given to [Issue] in order (when these are OAuth scope tokens), and
    every token any signer's [Verify] accepts, whatever algorithm its header names, is signed
    with that signer's secret under HS256. *)
Theorem issued_tokens_verify {JL : JwtLib} {signed} {JW : JwtLaws signed} s now sub ttl scopes tok :
  Issue s now sub ttl scopes = Ok tok ->
  let claims := mkClaims sub (NewNumericDate now) (NewNumericDate (now + ttl))
                  (join " " scopes) in
  (forall now', NewNumericDate now' < NewNumericDate (now + ttl) ->
     Verify s now' tok = Ok claims)
  /\ (forallb scope_token scopes = true -> Scopes claims = scopes)
  /\ (forall s' now' tok' c, Verify s' now' tok' = Ok c -> signed tok' "HS256" c (secret s')).
Proof.
  intros Hi claims.
  repeat split.
  - intros now' Hn. by apply (Issue_verifies s now sub ttl scopes tok now').
  - intros Hsc. unfold Scopes. cbn [cl_Scope claims].
    destruct scopes as [|w l]; [done|].
    destruct (str_empty (join " " (w :: l))) eqn:E; [|by apply fields_join].
    cbn in Hsc. apply andb_true_iff in Hsc as [[Hw _]%andb_true_iff _].
    destruct w; [done|]. destruct l; done.
  - intros s' now' tok' c. apply Verify_signed.
Qed.

Lemma issued_tokens_verify_witness :
  Issue (mkSigner toy_secret) 1000000000000 "alice" 3600000000000 ["read"; "stream"] = Ok toy_token
  /\ Verify (mkSigner toy_secret) 2000000000000 toy_token = Ok toy_claims
  /\ Scopes toy_claims = ["read"; "stream"].
Proof.
  destruct (issued_tokens_verify (signed := toy_signed) (mkSigner toy_secret) 1000000000000 "alice"
              3600000000000 ["read"; "stream"] toy_token) as (Hv & Hs & _); [reflexivity|].
  split; [reflexivity|]. split; [exact (Hv 2000000000000 eq_refl)|exact (Hs eq_refl)].
Defined.
