(* ===== verification/TxStreamTheorems.v ===== *)
(** The transactions stream: its frames are in momentum order without repeats whatever
    happens, every block that passes the filter reaches a client whose connection holds, and
    the request for the next height can end the handler in a panic. *)

From S2P Require Import Prelude.
From S2P Require Import Models.
From S2P Require Import RepoLedger.
From S2P Require Import Database.
From S2P Require Import LedgerFacts.
From S2P Require Import ApiSamples.
From S2P Require Import Queries.
From S2P Require Import ListQueries.
From S2P Require Import QueryFacts.
From S2P Require Import Dto.
From S2P Require Import Text.
From S2P Require Import Httpx.
From S2P Require Import Auth.
From S2P Require Import Middleware.
From S2P Require Import StreamHub.
From S2P Require Import Streams.
From S2P Require Import StreamsTheorems.
#[local] Open Scope string_scope.
#[local] Open Scope Z_scope.

(** ** Order *)

(** [a] may come before [b]: in an earlier momentum, or in the same one with another hash. *)
Definition before (a b : dto.AccountBlock) : Prop :=
  dto.ab_MomentumHeight a < dto.ab_MomentumHeight b
  \/ dto.ab_MomentumHeight a = dto.ab_MomentumHeight b /\ dto.ab_Hash a <> dto.ab_Hash b.

(** A cursor stands for what was sent: nothing above its height, and at its height only
    hashes it holds. *)
Definition tracks (c : txStreamCursor) (sent : list dto.AccountBlock) : Prop :=
  0 <= cur_height c
  /\ forall a, a ∈ sent -> dto.ab_MomentumHeight a <= cur_height c
       /\ (dto.ab_MomentumHeight a = cur_height c -> dto.ab_Hash a ∈ default ∅ (cur_hashes c)).

Lemma tracks_mark c sent ab c' :
  tracks c sent -> cur_height c <= dto.ab_MomentumHeight ab -> mark c ab = Some c' ->
  tracks c' (sent ++ [ab]) /\ cur_height c' = dto.ab_MomentumHeight ab.
Proof.
  intros [H0 Hs] Hab. unfold mark.
  destruct (Z.eqb_spec (dto.ab_MomentumHeight ab) (cur_height c)) as [E|E].
  - destruct (cur_hashes c) as [hs|] eqn:Eh; [|done]. intros [= <-].
    split; [|done]. split; [done|].
    intros a [Ha|Ha%list_elem_of_singleton]%elem_of_app; [|subst a]; cbn.
    + destruct (Hs a Ha) as [Hl Hh]. split; [done|]. intros Ea. specialize (Hh Ea).
      cbn in Hh. set_solver.
    + split; [lia|set_solver].
  - intros [= <-]. split; [|done]. split; [cbn; lia|].
    intros a [Ha|Ha%list_elem_of_singleton]%elem_of_app; [|subst a]; cbn.
    + destruct (Hs a Ha) as [Hl _]. split; lia.
    + split; [lia|set_solver].
Qed.

(** What the cursor lets through comes after what was sent. *)
Lemma unseen_before c sent ab :
  tracks c sent -> 0 <= dto.ab_MomentumHeight ab -> seen c ab = false ->
  cur_height c <= dto.ab_MomentumHeight ab /\ Forall (fun a => before a ab) sent.
Proof.
  intros [H0 Hs] Hab. unfold seen.
  destruct (Z.ltb_spec 0 (cur_height c)), (Z.ltb_spec (dto.ab_MomentumHeight ab) (cur_height c));
    cbn [andb]; try done; try lia; intros Hn;
    (split; [lia|]); apply Forall_forall; intros a Ha;
    destruct (Hs a Ha) as [Hl Hh]; unfold before;
    (destruct (Z.eqb_spec (dto.ab_MomentumHeight ab) (cur_height c)) as [E|E]; [|left; lia]);
    apply bool_decide_eq_false in Hn;
    (destruct (Z.eq_dec (dto.ab_MomentumHeight a) (cur_height c)); [right|left; lia]);
    (split; [lia|]); intros Eh; rewrite <- Eh in Hn; auto.
Qed.

Lemma sorted_snoc {A} (R : A -> A -> Prop) l x :
  StronglySorted R l -> Forall (fun a => R a x) l -> StronglySorted R (l ++ [x]).
Proof.
  induction l as [|y l IH]; intros Hs Hf; [by repeat constructor|].
  apply StronglySorted_inv in Hs as [Hs Hy]. inversion Hf; subst. cbn [app]. constructor.
  - by apply IH.
  - apply Forall_app. split; [done|by repeat constructor].
Qed.

Lemma runTxLive_ordered wf filter n evs c sent :
  Forall (fun ab => 0 <= dto.ab_MomentumHeight ab) (received evs) ->
  tracks c sent -> StronglySorted before sent ->
  StronglySorted before (sent ++ (runTxLive wf n evs filter c).1).
Proof.
  revert n c sent. induction evs as [|e evs IH]; intros n c sent Hr Ht Hs;
    [by rewrite app_nil_r|].
  destruct e as [|ab lagged| |failed]; cbn [runTxLive]; try (by rewrite app_nil_r).
  - change (received _) with (ab :: received evs) in Hr. inversion Hr as [|? ? Hab Hr']; subst.
    destruct (0 <? lagged); [by rewrite app_nil_r|].
    destruct (passes filter ab); cbn [negb]; [|by apply IH].
    destruct (seen c ab) eqn:Ese; [by apply IH|].
    destruct (wf n); [by rewrite app_nil_r|].
    destruct (unseen_before c sent ab Ht Hab Ese) as [Hge Hb].
    destruct (mark c ab) as [c'|] eqn:Em; [|by apply sorted_snoc].
    destruct (tracks_mark c sent ab c' Ht Hge Em) as [Ht' _].
    specialize (IH (S n) c' (sent ++ [ab])%list Hr' Ht' (sorted_snoc _ _ _ Hs Hb)).
    destruct (runTxLive wf (S n) evs filter c') as [frames e']. cbn in *. by rewrite <- app_assoc in IH.
  - destruct failed; [by rewrite app_nil_r|by apply IH].
Qed.

(** A replay of rows in order sends a prefix of them and leaves a cursor that stands for it. *)
Lemma replay_blocks_tracks wf n rows c sent :
  tracks c sent -> StronglySorted before (map dto.FromAccountBlock rows) ->
  Forall (fun r => cur_height c <= ab_MomentumHeight r) rows ->
  (exists k, (replay_blocks wf n rows c).1 = firstn k (map dto.FromAccountBlock rows))
  /\ (forall c', (replay_blocks wf n rows c).2 = ReplayDone c' ->
        (replay_blocks wf n rows c).1 = map dto.FromAccountBlock rows
        /\ tracks c' (sent ++ map dto.FromAccountBlock rows)).
Proof.
  revert n c sent. induction rows as [|r rows IH]; intros n c sent Ht Hs Hc; cbn [replay_blocks].
  { split; [by exists O|]. intros c' [= <-]. by rewrite app_nil_r. }
  apply StronglySorted_inv in Hs as [Hs Hr]. apply Forall_cons in Hc as [Hc _].
  destruct (wf n); [by split; [exists O|]|].
  destruct (mark c _) as [c1|] eqn:Em; [|by split; [exists 1%nat|]].
  destruct (tracks_mark c sent (dto.FromAccountBlock r) c1 Ht Hc Em) as [Ht1 E1].
  destruct (IH (S n) c1 _ Ht1 Hs) as [[k Hk] Hall].
  { rewrite E1. apply Forall_forall. intros r' Hin. rewrite Forall_forall in Hr.
    specialize (Hr (dto.FromAccountBlock r') ltac:(by apply list_elem_of_fmap_2)).
    unfold before in Hr. cbn in *. lia. }
  destruct (replay_blocks wf (S n) rows c1) as [frames e]. cbn [fst snd] in *. split.
  - exists (S k). cbn. by rewrite Hk.
  - intros c' Hc'. destruct (Hall c' Hc') as [-> Ht']. split; [done|].
    cbn [map]. by rewrite <- app_assoc in Ht'.
Qed.

(** ** Rows *)

(** The rows of a range of momentums, without the cap. *)
Definition block_range (v : View) (from to : Z) (filter : string) : list AccountBlock :=
  order_by (AccountBlockQueries.by_height_hash v)
    (List.filter (AccountBlockQueries.in_momentums from to filter)
       (rows_of v (db_account_blocks (vw_db v)))).

Lemma rows_hashes_nodup v :
  own_hashes (db_account_blocks (vw_db v)) ->
  NoDup (map ab_Hash (rows_of v (db_account_blocks (vw_db v)))).
Proof.
  intros Ht. change (NoDup (ab_Hash <$> rows_of v (db_account_blocks (vw_db v)))).
  rewrite rows_of_perm, <- list_fmap_compose.
  replace (ab_Hash ∘ snd <$> map_to_list (db_account_blocks (vw_db v)))
    with ((map_to_list (db_account_blocks (vw_db v))).*1); [apply NoDup_fst_map_to_list|].
  apply list_fmap_ext. intros _ [k b] Hk%list_elem_of_lookup_2%elem_of_map_to_list.
  symmetry. by apply (Ht k b).
Qed.

Lemma elem_of_block_range v from to filter b :
  b ∈ block_range v from to filter
  <-> b ∈ rows_of v (db_account_blocks (vw_db v))
      /\ AccountBlockQueries.in_momentums from to filter b = true.
Proof. unfold block_range. by rewrite order_by_perm, elem_of_filter_list. Qed.

Lemma sorted_before (v : View) (l : list AccountBlock) :
  StronglySorted (sorts_before (AccountBlockQueries.by_height_hash v)) l ->
  NoDup (map ab_Hash l) -> StronglySorted before (map dto.FromAccountBlock l).
Proof.
  induction l as [|b l IH]; intros Hs Hn; [constructor|].
  apply StronglySorted_inv in Hs as [Hs Hb]. cbn [map] in *. apply NoDup_cons in Hn as [Hnin Hn].
  constructor; [by apply IH|]. apply Forall_forall.
  intros d (b' & -> & Hin)%list_elem_of_fmap. rewrite Forall_forall in Hb.
  specialize (Hb b' Hin). unfold sorts_before, AccountBlockQueries.by_height_hash, then_by, asc in Hb.
  apply andb_true_iff in Hb as [Hle _]. unfold before. cbn.
  destruct (Z.eq_dec (ab_MomentumHeight b) (ab_MomentumHeight b')); [right|left; lia].
  split; [done|]. intros E. apply Hnin. rewrite E. by apply list_elem_of_fmap_2.
Qed.

Lemma block_range_ordered v from to filter :
  own_hashes (db_account_blocks (vw_db v)) -> TotalPre (vw_collate v) ->
  StronglySorted before (map dto.FromAccountBlock (block_range v from to filter)).
Proof.
  intros Ht Hc. apply (sorted_before v).
  - apply order_by_sorted. unfold AccountBlockQueries.by_height_hash. apply _.
  - unfold block_range. change (NoDup (ab_Hash <$> order_by (AccountBlockQueries.by_height_hash v)
      (List.filter (AccountBlockQueries.in_momentums from to filter)
         (rows_of v (db_account_blocks (vw_db v)))))).
    rewrite order_by_perm. by apply filter_map_nodup, rows_hashes_nodup.
Qed.

Lemma firstn_sorted {A} (R : A -> A -> Prop) k l : StronglySorted R l -> StronglySorted R (firstn k l).
Proof.
  revert k. induction l as [|x l IH]; intros [|k] Hs; try constructor.
  - apply StronglySorted_inv in Hs as [Hs _]. by apply IH.
  - apply StronglySorted_inv in Hs as [_ Hx]. by apply Forall_take.
Qed.

Lemma api_own_hashes : own_hashes (db_account_blocks (vw_db api_view)).
Proof.
  intros k b Hk. apply elem_of_list_to_map_2 in Hk.
  repeat (apply elem_of_cons in Hk as [[= -> ->]|Hk]; [by split|]). by apply elem_of_nil in Hk.
Qed.

(** ** Any connection *)

Lemma replay_tx_scan_spec c n from filter cur rows n' :
  1 <= from <= max_int64 -> replay_tx_scan from filter c n = (Ok (cur, rows), n') ->
  0 <= cur_height cur /\ cur_hashes cur = None
  /\ (rows = [] \/ cur_height cur = 0 /\ exists to k,
        rows = firstn k (block_range (cn_view c (S n)) from to filter)).
Proof.
  intros Hf. assert (int64 (from - 1) = from - 1) as E
    by (apply int64_id, in_int64_spec; unfold min_int64; lia).
  unfold replay_tx_scan, attempt, MomentumQueries.GetLatest, statement.
  destruct (cn_fault c n) as [e|].
  { destruct (is_no_rows e); [|done]. intros [= <- <- _]. cbn. split; [lia|auto]. }
  destruct (order_by _ _) as [|m l].
  { intros [= <- <- _]. cbn. split; [lia|auto]. }
  destruct (int64 (mom_Height m) <? from).
  { intros [= <- <- _]. cbn. split; [lia|auto]. }
  set (to := if _ <? _ then _ else _).
  unfold AccountBlockQueries.ListByMomentumHeightRange, mbind, Q_bind.
  destruct (to <? from); [intros [= <- <- _]; cbn; auto with lia|].
  unfold statement. destruct (cn_fault c (S n)); [done|].
  intros [= <- <- _]. cbn. split; [lia|]. split; [done|]. right. split; [done|].
  by exists to, (Z.to_nat streamReplayMaxRows).
Qed.

Lemma serve_transactions_ordered wf evs filter from c n frames e n' :
  (forall k, own_hashes (db_account_blocks (vw_db (cn_view c k)))
             /\ TotalPre (vw_collate (cn_view c k))) ->
  Forall (fun ab => 0 <= dto.ab_MomentumHeight ab) (received evs) -> from <= max_int64 ->
  serve_transactions wf evs filter from c n = (Ok (frames, e), n') ->
  StronglySorted before frames.
Proof.
  intros Hv Hr Hf. unfold serve_transactions.
  assert (tracks (mkCursor 0 None) []) as H00 by (split; [done|]; by intros a ?%elem_of_nil).
  destruct (Z.ltb_spec 0 from) as [H0|]; cycle 1.
  { intros [= E _].
    pose proof (runTxLive_ordered wf filter 0 evs _ [] Hr H00 ltac:(constructor)) as Hl.
    by rewrite E in Hl. }
  unfold replayTransactions, attempt, mbind, Q_bind.
  destruct (replay_tx_scan from filter c n) as [[[cur rows]|err] m] eqn:Es; cycle 1.
  { intros [= <- _ _]. constructor. }
  apply replay_tx_scan_spec in Es as (Hc & _ & Hrows); [|lia]. cbn [mret Q_ret].
  assert (tracks cur []) as Ht by (split; [done|]; by intros a ?%elem_of_nil).
  assert (StronglySorted before (map dto.FromAccountBlock rows)
          /\ Forall (fun r => cur_height cur <= ab_MomentumHeight r) rows) as [Hs Hge].
  { destruct Hrows as [->|[-> (to & k & ->)]]; [by repeat constructor|].
    destruct (Hv (S n)) as [Hown Hcol]. split.
    - rewrite <- firstn_map. by apply firstn_sorted, block_range_ordered.
    - apply Forall_take, Forall_forall. intros b [Hb _]%elem_of_block_range.
      apply elem_of_rows_of in Hb as [j Hj]. destruct (Hown j b Hj). lia. }
  destruct (replay_blocks_tracks wf 0 rows cur [] Ht Hs Hge) as [[k Hk] Hall].
  destruct (replay_blocks wf 0 rows cur) as [sent [c'| |]]; cbn [fst snd app] in *; cycle 1.
  { intros [= <- _ _]. rewrite Hk. by apply firstn_sorted. }
  { intros [= <- _ _]. rewrite Hk. by apply firstn_sorted. }
  destruct (Hall c' eq_refl) as [-> Ht'].
  pose proof (runTxLive_ordered wf filter (length (map dto.FromAccountBlock rows)) evs c' _
                Hr Ht' Hs) as Hl.
  destruct (runTxLive _ _ _ _ _) as [live e']. by intros [= <- _ _].
Qed.

(** C25. Whatever happens to a transactions stream, its frames are in the order of momentums
    and no block is sent twice: for every request, address filter, subscriber, sequence of
    turns (live blocks in any order or repeated, lag, pings, closing) and every failing
    write, on a database that may change between the replay's statements and may fail, of
    any two frames the earlier is of a lower momentum, or of the same one with another
    hash. *)
Theorem transactions_stream_ordered {JL : JwtLib} signer now subscribe ws r c n frames e n' :
  (forall k, own_hashes (db_account_blocks (vw_db (cn_view c k)))
             /\ TotalPre (vw_collate (cn_view c k))) ->
  Forall (fun ab => 0 <= dto.ab_MomentumHeight ab) (received (ws_events ws)) ->
  TransactionsStream signer now subscribe ws r c n = (Ok (Streamed frames e), n') ->
  StronglySorted before frames.
Proof.
  intros Hv Hr (from & Hf & Hs)%open_stream_served.
  apply serve_transactions_ordered in Hs; [done|done|done|].
  destruct Hf as [->|Hf]; [done|]. unfold parse_from_height in Hf.
  destruct (parse_int64 _) as [h|] eqn:E; [|done]. destruct (h <? 0); [done|].
  injection Hf as <-. unfold parse_int64 in E. destruct (parse_big _) as [z|]; [|done].
  destruct (in_int64 z) eqn:Ez; [|done]. injection E as <-. apply in_int64_spec in Ez. lia.
Qed.

Definition live_blocks : list (LiveEvent dto.AccountBlock) :=
  live (map dto.FromAccountBlock
    [a_block "b3" 4 "z1carol" "z1bob"; a_block "b5" 5 "z1erin" "z1bob";
     a_block "b5" 5 "z1erin" "z1bob"; a_block "b6" 5 "z1bob" "z1erin"]).

Lemma transactions_stream_ordered_witness :
  exists frames e,
    TransactionsStream (mkSigner toy_secret) 2000000000000 (fun _ => Subscribed 0)
      (mkSocket false (fun _ => false) live_blocks) (stream_request "3") api_conn 0%nat
    = (Ok (Streamed frames e), 2%nat)
    /\ map dto.ab_Hash frames = ["b1"; "b3"; "b2"; "b5"; "b6"]
    /\ StronglySorted before frames.
Proof.
  do 2 eexists. split; [vm_compute; reflexivity|]. split; [reflexivity|].
  apply (transactions_stream_ordered (mkSigner toy_secret) 2000000000000 (fun _ => Subscribed 0)
    (mkSocket false (fun _ => false) live_blocks) (stream_request "3") api_conn 0 _ SOpen 2).
  - intros k. split; [exact api_own_hashes|exact shorter_total].
  - repeat constructor; vm_compute; discriminate.
  - vm_compute. reflexivity.
Defined.

(** ** The next height *)

(** A client of the transactions stream that is up to date ends its handler in a panic.
    It asks for the height after the tip, so the replay leaves a cursor at the tip without a
    set of hashes; if a block of the tip momentum then arrives that passes its filter (it was
    in flight when the client subscribed), the block is sent and marking it assigns into the
    nil map. The momentums stream serves the same request. *)
Theorem transactions_stream_next_height c n tip ab evs filter :
  cn_fault c n = None -> own_heights (db_momentums (vw_db (cn_view c n))) ->
  MomentumRepository.max_height (db_momentums (vw_db (cn_view c n))) = Some tip ->
  tip < max_int64 -> dto.ab_MomentumHeight ab = tip -> passes filter ab = true ->
  serve_transactions writes_work (LRecv ab 0 :: evs) filter (tip + 1) c n
  = (Ok ([ab], SPanicked), S n).
Proof.
  intros F0 Hown Hmax Htip Hab Hp.
  destruct (latest_height c n tip F0 Hown Hmax) as (m & Hm & Et & H1).
  unfold serve_transactions. rewrite (proj2 (Z.ltb_lt 0 _)) by lia.
  unfold replayTransactions, replay_tx_scan, attempt, mbind, Q_bind. rewrite Hm, Et.
  assert (forall z, 0 <= z <= max_int64 -> int64 z = z) as Hid
    by (intros z Hz; apply int64_id, in_int64_spec; unfold min_int64; lia).
  rewrite (Hid tip), (Hid (tip + 1 - 1)) by lia.
  rewrite (proj2 (Z.ltb_lt tip _)) by lia. cbn [mret Q_ret replay_blocks length].
  replace (tip + 1 - 1) with tip by lia. cbn [runTxLive]. rewrite Hp.
  unfold seen, mark. cbn [cur_height cur_hashes]. rewrite Hab, (Z.ltb_irrefl tip), Z.eqb_refl.
  by rewrite andb_false_r.
Qed.

Lemma transactions_stream_next_height_witness :
  serve_transactions writes_work live_blocks "z1bob" 5 api_conn 0%nat
  = (Ok ([dto.FromAccountBlock (a_block "b3" 4 "z1carol" "z1bob")], SPanicked), 1%nat).
Proof.
  exact (transactions_stream_next_height api_conn 0 4
    (dto.FromAccountBlock (a_block "b3" 4 "z1carol" "z1bob")) (tail live_blocks) "z1bob"
    eq_refl api_own_heights eq_refl eq_refl eq_refl eq_refl).
Defined.

(** ** Completeness *)

(** Blocks in momentum order, each hash once. *)
Definition feed (l : list dto.AccountBlock) : Prop :=
  StronglySorted (fun a b => dto.ab_MomentumHeight a <= dto.ab_MomentumHeight b
                             /\ dto.ab_Hash a <> dto.ab_Hash b) l.

(** A cursor below everything still to come. *)
Definition ahead (c : txStreamCursor) (ab : dto.AccountBlock) : Prop :=
  cur_height c <= dto.ab_MomentumHeight ab
  /\ (dto.ab_MomentumHeight ab = cur_height c ->
      exists hs, cur_hashes c = Some hs /\ dto.ab_Hash ab ∉ hs).

Lemma ahead_mark c ab :
  ahead c ab -> seen c ab = false
  /\ exists c', mark c ab = Some c' /\ cur_height c' = dto.ab_MomentumHeight ab
     /\ forall ab', ahead c ab' -> dto.ab_MomentumHeight ab <= dto.ab_MomentumHeight ab' ->
          dto.ab_Hash ab <> dto.ab_Hash ab' -> ahead c' ab'.
Proof.
  intros [Hle Heq]. unfold seen, mark, ahead.
  rewrite (proj2 (Z.ltb_ge (dto.ab_MomentumHeight ab) (cur_height c))) by done. rewrite andb_false_r.
  destruct (Z.eqb_spec (dto.ab_MomentumHeight ab) (cur_height c)) as [E|E].
  - destruct (Heq E) as (hs & -> & Hn). cbn [default]. split; [by apply bool_decide_eq_false_2|].
    eexists. split; [done|]. split; [done|]. cbn.
    intros ab' [Hle' Heq'] Hlt Hd. split; [lia|]. intros E'. destruct (Heq' E') as (? & [= <-] & ?).
    eexists. split; [done|]. set_solver.
  - split; [done|]. eexists. split; [done|]. split; [done|]. cbn.
    intros ab' _ Hlt Hd. split; [done|]. intros _. eexists. split; [done|]. set_solver.
Qed.

(** On a connection that holds, the live loop sends what passes and is ahead of it. *)
Lemma runTxLive_ahead n evs filter c :
  forallb holds evs = true -> feed (received evs) -> Forall (ahead c) (received evs) ->
  runTxLive writes_work n evs filter c = (List.filter (passes filter) (received evs), SOpen).
Proof.
  revert n c. induction evs as [|e evs IH]; intros n c He Hf Ha; [done|].
  cbn [forallb] in He. apply andb_true_iff in He as [He Hes].
  destruct e as [|ab lagged| |failed]; cbn [holds] in He; try done.
  - apply Z.eqb_eq in He as ->.
    change (received (LRecv ab 0 :: evs)) with (ab :: received evs) in *.
    apply StronglySorted_inv in Hf as [Hf Hlt]. apply Forall_cons in Ha as [Hab Ha].
    cbn [runTxLive writes_work List.filter]. change (0 <? 0) with false. cbn iota.
    destruct (passes filter ab); cbn [negb]; [|by apply IH].
    destruct (ahead_mark c ab Hab) as (-> & c' & -> & _ & Hc').
    rewrite IH; [done|done|done|].
    rewrite !Forall_forall in *. intros x Hx. destruct (Hlt x Hx). by apply Hc'; [apply Ha| |].
  - destruct failed; [done|]. by apply IH.
Qed.

(** From a cursor that has seen what passes at or below its height. *)
Lemma runTxLive_from n evs filter c :
  forallb holds evs = true -> feed (received evs) ->
  (forall ab, ab ∈ received evs -> passes filter ab = true ->
     dto.ab_MomentumHeight ab <= cur_height c -> seen c ab = true) ->
  runTxLive writes_work n evs filter c
  = (List.filter (fun ab => passes filter ab && (cur_height c <? dto.ab_MomentumHeight ab))
       (received evs), SOpen).
Proof.
  revert n. induction evs as [|e evs IH]; intros n He Hf Hseen; [done|].
  cbn [forallb] in He. apply andb_true_iff in He as [He Hes].
  destruct e as [|ab lagged| |failed]; cbn [holds] in He; try done.
  - apply Z.eqb_eq in He as ->.
    change (received (LRecv ab 0 :: evs)) with (ab :: received evs) in *.
    apply StronglySorted_inv in Hf as [Hf Hlt].
    assert (forall ab', ab' ∈ received evs -> passes filter ab' = true ->
              dto.ab_MomentumHeight ab' <= cur_height c -> seen c ab' = true) as Hseen'
      by (intros ab' Hin; apply Hseen; by right).
    cbn [runTxLive writes_work List.filter]. change (0 <? 0) with false. cbn iota.
    destruct (passes filter ab) eqn:Ep; cbn [negb andb]; [|by apply IH].
    destruct (Z.ltb_spec (cur_height c) (dto.ab_MomentumHeight ab)) as [Hh|Hh]; cycle 1.
    { rewrite (Hseen ab) by (try done; by left). by apply IH. }
    assert (ahead c ab) as Hab by (split; lia).
    destruct (ahead_mark c ab Hab) as (-> & c' & -> & _ & Hc').
    rewrite Forall_forall in Hlt. rewrite runTxLive_ahead; [|done|done|].
    + do 2 f_equal. apply filter_ext_in. intros x Hx%list_elem_of_In. destruct (Hlt x Hx).
      rewrite (proj2 (Z.ltb_lt _ _)) by lia. by rewrite andb_true_r.
    + apply Forall_forall. intros x Hx. destruct (Hlt x Hx). apply Hc'; [split; lia|done|done].
  - destruct failed; [done|]. by apply IH.
Qed.

(** A replay whose writes succeed sends its rows. *)
Lemma replay_blocks_working n rows c :
  (cur_hashes c = None -> Forall (fun r => cur_height c < ab_MomentumHeight r) rows) ->
  exists c', replay_blocks writes_work n rows c = (map dto.FromAccountBlock rows, ReplayDone c')
    /\ cur_height c' = List.last (map ab_MomentumHeight rows) (cur_height c).
Proof.
  revert n c. induction rows as [|r rows IH]; intros n c Hc; [by exists c|].
  assert (exists c1, mark c (dto.FromAccountBlock r) = Some c1
                     /\ cur_height c1 = ab_MomentumHeight r /\ cur_hashes c1 <> None)
    as (c1 & Em & Eh & En).
  { unfold mark. cbn.
    destruct (Z.eqb_spec (ab_MomentumHeight r) (cur_height c)) as [E|E];
      [|by eexists].
    destruct (cur_hashes c) as [hs|]; [by eexists|].
    specialize (Hc eq_refl). apply Forall_cons in Hc as [Hc _]. lia. }
  destruct (IH (S n) c1) as (c' & E & El); [by intros ?%En|].
  exists c'. cbn [replay_blocks writes_work]. rewrite Em, E. split; [done|].
  cbn [map]. by rewrite last_cons_default, El, Eh.
Qed.

(** The height of the last row of a range, 0 for none. *)
Definition top_of (rows : list AccountBlock) : Z := List.last (map ab_MomentumHeight rows) 0.

(** The scan of a replay whose statements succeed, within the caps. *)
Lemma replay_tx_scan_complete c n filter from tip :
  cn_fault c n = None -> cn_fault c (S n) = None ->
  own_heights (db_momentums (vw_db (cn_view c n))) ->
  MomentumRepository.max_height (db_momentums (vw_db (cn_view c n))) = Some tip ->
  1 <= from <= tip -> tip <= max_int64 -> tip - from + 1 <= streamReplayMaxRows ->
  Z.of_nat (length (block_range (cn_view c (S n)) from tip filter)) <= streamReplayMaxRows ->
  replay_tx_scan from filter c n
  = (Ok (mkCursor 0 None, block_range (cn_view c (S n)) from tip filter), S (S n)).
Proof.
  intros F0 F1 Hown Hmax Hf Htip Hcap Hlen.
  destruct (latest_height c n tip F0 Hown Hmax) as (m & Hm & Em & _).
  unfold replay_tx_scan, attempt. rewrite Hm, Em. unfold streamReplayMaxRows in *.
  assert (forall z, 0 <= z <= max_int64 -> int64 z = z) as Hid
    by (intros z Hz; apply int64_id, in_int64_spec; unfold min_int64; lia).
  rewrite (Hid tip), (Hid (tip - from)) by lia.
  rewrite (Hid (tip - from + 1)) by (unfold max_int64 in *; lia).
  rewrite (proj2 (Z.ltb_ge tip from)), (proj2 (Z.ltb_ge 10000 _)) by lia.
  unfold AccountBlockQueries.ListByMomentumHeightRange, mbind, Q_bind.
  rewrite (proj2 (Z.ltb_ge tip from)) by lia. rewrite statement_view by done.
  fold (block_range (cn_view c (S n)) from tip filter).
  rewrite firstn_all2; [done|]. clear -Hlen. lia.
Qed.

(** An event of a stored block: its hash, height and addresses are those of a row. *)
Definition event_of (t : AccountBlockRepository.table) (ab : dto.AccountBlock) : Prop :=
  exists k b, t !! k = Some b /\ ab_Hash b = dto.ab_Hash ab
    /\ ab_MomentumHeight b = dto.ab_MomentumHeight ab
    /\ ab_Address b = dto.ab_Address ab /\ ab_ToAddress b = dto.ab_ToAddress ab.

(** The range read holds the row of an event that passes the filter. *)
Lemma event_in_range v from tip filter ab :
  event_of (db_account_blocks (vw_db v)) ab -> passes filter ab = true ->
  from <= dto.ab_MomentumHeight ab <= tip ->
  exists b, b ∈ block_range v from tip filter
    /\ ab_Hash b = dto.ab_Hash ab /\ ab_MomentumHeight b = dto.ab_MomentumHeight ab.
Proof.
  intros (k & b & Hb & Eh & Em & Ea & Et) Hp Hr. exists b. split; [|done].
  apply elem_of_block_range. split; [apply elem_of_rows_of; by exists k|].
  unfold AccountBlockQueries.in_momentums. rewrite Em.
  rewrite (proj2 (Z.leb_le _ _)), (proj2 (Z.leb_le _ _)) by lia. cbn [andb].
  unfold passes in Hp. unfold AccountBlockRepository.touches. by rewrite Ea, Et, orb_assoc.
Qed.

(** The last row of a range is within it. *)
Lemma top_of_range v from tip filter :
  let rows := block_range v from tip filter in
  0 < top_of rows -> from <= top_of rows <= tip.
Proof.
  intros rows. assert (forall b, b ∈ rows -> from <= ab_MomentumHeight b <= tip) as Hin.
  { intros b [_ Hb]%elem_of_block_range. unfold AccountBlockQueries.in_momentums in Hb. lia. }
  unfold top_of. clearbody rows. induction rows as [|b l _] using rev_ind; [cbn; lia|].
  rewrite map_app. cbn [map]. rewrite List.last_last. intros _.
  apply Hin, elem_of_app. right. by left.
Qed.

(** C26. A client of the transactions stream that asks for a height up to the tip misses no
    block and receives none twice. Suppose the writes succeed and no statement fails; the
    range from [from] to the tip is within the cap of 10000, in momentums and in rows; and
    the subscription receives blocks in momentum order, each once, without lag, those at or
    below the last replayed momentum being stored when the range is read. Then after any
    number of turns the connection is open and the frames are the stored blocks of the range
    that match the filter followed by the received ones above it that pass: so every stored
    block of the range that matches, and every received block from [from] on that passes, was
    sent, the latter's frame being the stored row's where the replay had it already. *)
Theorem transactions_stream_complete c n evs filter from tip :
  cn_fault c n = None -> cn_fault c (S n) = None ->
  own_heights (db_momentums (vw_db (cn_view c n))) ->
  MomentumRepository.max_height (db_momentums (vw_db (cn_view c n))) = Some tip ->
  1 <= from <= tip -> tip <= max_int64 -> tip - from + 1 <= streamReplayMaxRows ->
  let stored := db_account_blocks (vw_db (cn_view c (S n))) in
  let rows := block_range (cn_view c (S n)) from tip filter in
  Z.of_nat (length rows) <= streamReplayMaxRows ->
  forallb holds evs = true -> feed (received evs) ->
  (forall ab, ab ∈ received evs -> passes filter ab = true ->
     1 <= dto.ab_MomentumHeight ab
     /\ (dto.ab_MomentumHeight ab <= top_of rows -> event_of stored ab)) ->
  own_hashes stored -> TotalPre (vw_collate (cn_view c (S n))) ->
  exists frames n',
    serve_transactions writes_work evs filter from c n = (Ok (frames, SOpen), n')
    /\ frames = (map dto.FromAccountBlock rows
                 ++ List.filter (fun ab => passes filter ab
                                  && (top_of rows <? dto.ab_MomentumHeight ab))
                      (received evs))%list
    /\ (forall k b, stored !! k = Some b ->
          AccountBlockQueries.in_momentums from tip filter b = true ->
          dto.FromAccountBlock b ∈ frames)
    /\ (forall ab, ab ∈ received evs -> passes filter ab = true ->
          from <= dto.ab_MomentumHeight ab ->
          exists f, f ∈ frames /\ dto.ab_Hash f = dto.ab_Hash ab
            /\ dto.ab_MomentumHeight f = dto.ab_MomentumHeight ab).
Proof.
  intros F0 F1 Hown Hmax Hf Htip Hcap stored rows Hlen Hev Hfeed Hpast Hh Hc.
  assert (Hpos : Forall (fun r => 0 < ab_MomentumHeight r) rows).
  { apply Forall_forall. intros r [Hr _]%elem_of_block_range.
    apply elem_of_rows_of in Hr as [k Hk]. destruct (Hh k r Hk). lia. }
  destruct (replay_blocks_working 0 rows (mkCursor 0 None) (fun _ => Hpos)) as (c' & Er & Et).
  change (cur_height c' = top_of rows) in Et.
  pose proof (replay_tx_scan_complete c n filter from tip F0 F1 Hown Hmax Hf Htip Hcap Hlen) as Es.
  fold rows in Es.
  pose proof (top_of_range (cn_view c (S n)) from tip filter) as Htop. cbv zeta in Htop. fold rows in Htop.
  assert (tracks c' (map dto.FromAccountBlock rows)) as [_ Htr].
  { destruct (replay_blocks_tracks writes_work 0 rows (mkCursor 0 None) []) as [_ Ht].
    - split; [done|]. by intros a ?%elem_of_nil.
    - by apply block_range_ordered.
    - eapply Forall_impl; [exact Hpos|]. cbn. intros. lia.
    - rewrite Er in Ht. by apply Ht. }
  assert (forall ab, ab ∈ received evs -> passes filter ab = true ->
            from <= dto.ab_MomentumHeight ab <= top_of rows ->
            exists b, b ∈ rows /\ ab_Hash b = dto.ab_Hash ab
              /\ ab_MomentumHeight b = dto.ab_MomentumHeight ab) as Hrow.
  { intros ab Hin Hp Hle. destruct (Hpast ab Hin Hp) as [H1 Hst].
    apply event_in_range; [apply Hst; lia|done|lia]. }
  eexists _, _. split; [|split; [reflexivity|split]].
  - unfold serve_transactions. rewrite (proj2 (Z.ltb_lt 0 from)) by lia.
    unfold replayTransactions, attempt, mbind, Q_bind. rewrite Es. cbn [mret Q_ret]. rewrite Er.
    rewrite runTxLive_from; [by rewrite Et|done|done|].
    intros ab Hin Hp Hle. rewrite Et in Hle. destruct (Hpast ab Hin Hp) as [H1 _]. unfold seen.
    rewrite Et. destruct (Z.ltb_spec (dto.ab_MomentumHeight ab) (top_of rows)).
    + rewrite (proj2 (Z.ltb_lt 0 (top_of rows))) by lia. done.
    + rewrite andb_false_r. rewrite (proj2 (Z.eqb_eq _ _)) by lia.
      destruct (Hrow ab Hin Hp) as (b & Hb & <- & Em); [lia|].
      apply bool_decide_eq_true. apply (Htr (dto.FromAccountBlock b)); [by apply list_elem_of_fmap_2|].
      change (ab_MomentumHeight b = cur_height c'). lia.
  - intros k b Hb Hin. apply elem_of_app. left. apply list_elem_of_fmap_2, elem_of_block_range.
    split; [|done]. apply elem_of_rows_of. by exists k.
  - intros ab Hin Hp Hle.
    destruct (Z.ltb_spec (top_of rows) (dto.ab_MomentumHeight ab)).
    + exists ab. split; [|done]. apply elem_of_app. right.
      apply elem_of_filter_list. rewrite Hp. split; [done|]. by apply Z.ltb_lt.
    + destruct (Hrow ab Hin Hp) as (b & Hb & Eh & Em); [lia|]. exists (dto.FromAccountBlock b).
      split; [|done]. apply elem_of_app. left. by apply list_elem_of_fmap_2.
Qed.

Lemma transactions_stream_complete_witness :
  let evs := live (map dto.FromAccountBlock
    [a_block "b3" 4 "z1carol" "z1bob"; a_block "b5" 5 "z1erin" "z1bob";
     a_block "b7" 6 "z1dave" "z1erin"; a_block "b6" 6 "z1bob" "z1erin"]) in
  exists frames n',
    serve_transactions writes_work evs "z1bob" 3 api_conn 0%nat = (Ok (frames, SOpen), n')
    /\ map dto.ab_Hash frames = ["b1"; "b3"; "b2"; "b5"; "b6"].
Proof.
  intros evs.
  destruct (transactions_stream_complete api_conn 0 evs "z1bob" 3 4 eq_refl eq_refl
              api_own_heights eq_refl) as (frames & n' & E & Hf & _);
    [lia|vm_compute; discriminate|vm_compute; discriminate|vm_compute; discriminate|reflexivity
    | | |exact api_own_hashes|exact shorter_total|].
  - repeat constructor; vm_compute; discriminate.
  - intros ab Hab Hp. vm_compute in Hab.
    repeat (apply elem_of_cons in Hab as [->|Hab];
            [split; [vm_compute; discriminate|intros Hle]|]);
      [by exists "b3", (a_block "b3" 4 "z1carol" "z1bob")| | | |by apply elem_of_nil in Hab];
      by vm_compute in Hle.
  - exists frames, n'. split; [exact E|]. rewrite Hf. vm_compute. reflexivity.
Defined.
