(* ===== verification/VoteTheorems.v ===== *)
(** The voting report of a project: for its own vote and every phase's, the four lists of the
    wire type partition the active pillars, and a pillar stands in a list because of a vote
    that is attributed to it. *)

From S2P Require Import Prelude.
From S2P Require Import Models.
From S2P Require Import RepoContracts.
From S2P Require Import Database.
From S2P Require Import Queries.
From S2P Require Import ListQueries.
From S2P Require Import VoteQueries.
From S2P Require Import QueryFacts.
From S2P Require Import Dto.
From S2P Require Import Text.
From S2P Require Import Httpx.
From S2P Require Import Handlers.
From S2P Require Import ApiSamples.
#[local] Open Scope string_scope.
#[local] Open Scope Z_scope.
Import VoteReads.

(** ** The votes by pillar *)





(** ** Buckets *)





(** ** The report *)











(** *** A report *)

Definition a_pillar (owner name : string) (revoked : bool) : Pillar :=
  (PillarRepository.revoked_row owner name 0) <| pil_IsRevoked := revoked |>
    <| pil_ProducerAddress := owner +:+ "-producer" |>.

Definition a_vote (voter votingID : string) (code : Z) : Vote :=
  mkVote 0 "m7" 1070 7 voter "p1" "" votingID code.

Definition vote_db : Db :=
  empty_db
    <| db_pillars := list_to_map (map (fun p => (pil_OwnerAddress p, p))
         [a_pillar "o1" "one" false; a_pillar "o2" "two" false; a_pillar "o3" "three" false;
          a_pillar "o4" "four" true]) |>
    <| db_projects := {["p1" := mkProject "p1" "v1" "o1" "project" "" "" 0 0 100 100 0 0 0 0]} |>
    <| db_project_phases := {["f1" := mkProjectPhase "f1" "p1" "v2" "phase" "" "" 0 0 200 0 0 0 0
                                        0]} |>
    <| db_votes := list_to_map (map (fun x => ((vote_VoterAddress x, vote_VotingID x), x))
         [a_vote "o1" "v1" 0; a_vote "o2-producer" "v1" 1; a_vote "o4" "v1" 0;
          a_vote "o3" "v2" 2]) |>.



(** *** Two votes of one pillar

    A pillar that votes once by name (its owner address) and once by producer address has two
    rows; on chain the second replaces the first, but the report's query has no order. *)

Definition revote_db : Db :=
  vote_db
    <| db_votes := list_to_map (map (fun x => ((vote_VoterAddress x, vote_VotingID x), x))
         [a_vote "o1" "v1" 0; (a_vote "o1-producer" "v1" 1) <| vote_MomentumHeight := 9 |>]) |>.

Definition report_no (s : Scan) : list string :=
  match ProjectVotingReport "p1" (steady (mkView revote_db s String.leb 0)) 0%nat with
  | (Ok r, _) => dto.tally_NoPillars (dto.pvr_Project (projectVotingReportToDTO r))
  | (Err _, _) => []
  end.

(** Which of a pillar's two votes counts is decided by the scan: in one order the later vote,
    no, is reported, in another the earlier one is. *)
Theorem two_votes_scan_order : report_no scan_id <> report_no scan_rev.
Proof. vm_compute. discriminate. Qed.
