(* ===== verification/RewardScript.v ===== *)
(** scripts/backfill-rewards/main.go: the rewards the live indexer missed, derived again from
    the stored account blocks. The script scans one query and, for each of its rows, runs an
    insert and an upsert as statements of their own; between two statements the tables may
    change by other sessions, and any of its calls may fail. *)

From S2P Require Import Prelude.
From S2P Require Import Models.
From S2P Require Import RepoContracts.
From S2P Require Import Database.
From S2P Require Import Queries.
#[local] Open Scope string_scope.
#[local] Open Scope Z_scope.

Definition blockTypeUserReceive : Z := 3.
Definition blockTypeContractSend : Z := 4.

Definition determineRewardType (sourceAddress : string) : RewardType :=
  if String.eqb sourceAddress PillarAddress then RewardTypePillar
  else if String.eqb sourceAddress SentinelAddress then RewardTypeSentinel
  else if String.eqb sourceAddress StakeAddress then RewardTypeStake
  else if String.eqb sourceAddress LiquidityTreasuryAddress
          || String.eqb sourceAddress LiquidityAddress then RewardTypeLiquidity
  else RewardTypeUnknown.

(** ** The candidate query *)

(** A row of the query, as scanned: the BIGINT amount is read as text. *)
Record Candidate : Type := mkCandidate {
  cd_receiveHash : string;
  cd_receiveAddress : string;
  cd_momentumHeight : Z;
  cd_momentumTimestamp : Z;
  cd_accountHeight : Z;
  cd_sourceAddress : string;
  cd_rewardAmountStr : string;
  cd_tokenStandard : string
}.

(** The [WHERE] clause over a receive block and the send block it is joined with. *)
Definition is_candidate (ab paired : AccountBlock) : bool :=
  (ab_BlockType ab =? blockTypeUserReceive)
  && (String.eqb (ab_Address paired) LiquidityTreasuryAddress
      || (ab_BlockType paired =? blockTypeContractSend)
         && String.eqb (ab_ToAddress ab) EmptyAddress
         && String.eqb (ab_TokenStandard ab) EmptyTokenStandard
         && existsb (String.eqb (ab_Address paired))
              [PillarAddress; SentinelAddress; StakeAddress]).

Definition candidate_of (t : gmap string AccountBlock) (ab : AccountBlock) : option Candidate :=
  paired ← t !! ab_PairedAccountBlock ab;
  if is_candidate ab paired then
    Some (mkCandidate (ab_Hash ab) (ab_Address ab) (ab_MomentumHeight ab)
            (ab_MomentumTimestamp ab) (ab_Height ab) (ab_Address paired)
            (format_int (ab_Amount paired)) (ab_TokenStandard paired))
  else None.

Definition candidates (scan : Scan) (t : gmap string AccountBlock) : list Candidate :=
  order_by (asc cd_momentumHeight) (omap (candidate_of t) (scan_rows scan (map_to_list t).*2)).

(** ** The session the script runs in *)

(** The query's scan order and failure; the failure that ends the stream of its rows, after
    some of them; what other sessions commit before the script's [n]-th [Exec]; and that
    call's failure, which leaves the tables as they were. *)
Record Session : Type := mkSession {
  ss_scan : Scan;
  ss_query : option error;
  ss_rows : option (nat * error);
  ss_between : nat -> Db -> Db;
  ss_exec : nat -> option error
}.

(** Nobody else writes, and no call fails. *)
Definition quiet (scan : Scan) : Session :=
  mkSession scan None None (fun _ db => db) (fun _ => None).

Record Progress : Type := mkProgress {
  pg_db : Db;
  pg_execs : nat;
  pg_insertedRT : Z;
  pg_addedCum : Z
}.

#[export] Instance Progress_eta : Eta Progress := fun r =>
  mkProgress (pg_db r) (pg_execs r) (pg_insertedRT r) (pg_addedCum r).

(** [RowsAffected] of the two statements: only an insert that met its hash affects none. *)
Definition RowsAffected (s : stmt) (db : Db) : Z :=
  match s with
  | SRewardTransaction rt =>
      match db_reward_transactions db !! rt_Hash rt with Some _ => 0 | None => 1 end
  | _ => 1
  end.

(** [pool.Exec]. *)
Definition Exec (ss : Session) (s : stmt) (p : Progress) : Progress * result Z :=
  let db := ss_between ss (pg_execs p) (pg_db p) in
  let p' := p <| pg_db := db |> <| pg_execs := S (pg_execs p) |> in
  match ss_exec ss (pg_execs p) with
  | Some e => (p', Err e)
  | None =>
      match exec_row s db with
      | Err e => (p', Err e)
      | Ok db' => (p' <| pg_db := db' |>, Ok (RowsAffected s db))
      end
  end.

(** ** [backfill] *)

(** The row the script inserts for a candidate, if any: a bad amount and an unknown source
    skip it. *)
Definition candidate_reward (c : Candidate) : option RewardTransaction :=
  match parse_int64 (cd_rewardAmountStr c) with
  | None => None
  | Some amount =>
      match determineRewardType (cd_sourceAddress c) with
      | RewardTypeUnknown => None
      | rewardType =>
          Some (mkRewardTransaction (cd_receiveHash c) (cd_receiveAddress c) rewardType
                  (cd_momentumTimestamp c) (cd_momentumHeight c) (cd_accountHeight c)
                  amount (cd_tokenStandard c) (cd_sourceAddress c))
      end
  end.

(** One iteration of the loop, and the error that ends it. *)
Definition backfill_row (ss : Session) (c : Candidate) (p : Progress)
  : Progress * option error :=
  match candidate_reward c with
  | None => (p, None)
  | Some rt =>
      match Exec ss (SRewardTransaction rt) p with
      | (p1, Err e) => (p1, Some (EWrap ("insert reward_transaction " +:+ rt_Hash rt) e))
      | (p1, Ok affected) =>
          if affected =? 0 then (p1, None)
          else
            let p2 := p1 <| pg_insertedRT := pg_insertedRT p1 + 1 |> in
            match Exec ss (SRewardCumulative (rt_Address rt) (rt_RewardType rt)
                             (rt_Amount rt) (rt_TokenStandard rt)) p2 with
            | (p3, Err e) => (p3, Some (EWrap ("upsert cumulative " +:+ rt_Address rt) e))
            | (p3, Ok _) => (p3 <| pg_addedCum := pg_addedCum p3 + 1 |>, None)
            end
      end
  end.

Fixpoint backfill_rows (ss : Session) (rows : list Candidate) (p : Progress)
  : Progress * option error :=
  match rows with
  | [] => (p, snd <$> ss_rows ss)
  | c :: rest =>
      match backfill_row ss c p with
      | (p', Some e) => (p', Some e)
      | (p', None) => backfill_rows ss rest p'
      end
  end.

Definition start (db : Db) : Progress := mkProgress db 0 0 0.

Definition backfill (ss : Session) (db : Db) : Progress * option error :=
  match ss_query ss with
  | Some e => (start db, Some (EWrap "scan candidate receives" e))
  | None =>
      let rows := candidates (ss_scan ss) (db_account_blocks db) in
      backfill_rows ss (match ss_rows ss with Some (n, _) => firstn n rows | None => rows end)
        (start db)
  end.
