(* ===== verification/RewardScriptTheorems.v ===== *)
(** scripts/backfill-rewards: the totals it keeps or loses, what a run leaves in the tables,
    and how its rows compare with the ones the live indexer writes for the same blocks. *)

From S2P Require Import Prelude.
From S2P Require Import Models.
From S2P Require Import Chain.
From S2P Require Import RepoContracts.
From S2P Require Import Database.
From S2P Require Import ExecFacts.
From S2P Require Import Embedded.
From S2P Require Import Processor.
From S2P Require Import ProcessorShape.
From S2P Require Import LedgerFacts.
From S2P Require Import Samples.
From S2P Require Import Queries.
From S2P Require Import QueryFacts.
From S2P Require Import Text.
From S2P Require Import KeyTheorems.
From S2P Require Import RewardScript.
#[local] Open Scope string_scope.
#[local] Open Scope Z_scope.

(** ** Totals *)

(** How far the stored running total of a key is behind the stored reward transactions. *)
Definition gap (k : string * Z * string) (db : Db) : Z := rewards_sum k db - cumulative_of k db.

Definition delta (k : string * Z * string) (rt : RewardTransaction) : Z :=
  if decide (reward_key rt = k) then rt_Amount rt else 0.

Lemma exec_insert_gap k rt db db' :
  exec_row (SRewardTransaction rt) db = Ok db' ->
  gap k db' = gap k db + RowsAffected (SRewardTransaction rt) db * delta k rt.
Proof.
  intros H. unfold gap. rewrite (exec_cumulative k _ _ _ H). cbn [cumulative_delta RowsAffected].
  destruct (db_reward_transactions db !! rt_Hash rt) as [r|] eqn:E.
  - unfold rewards_sum. rewrite (exec_reward_transactions _ _ _ H).
    unfold insert_nothing. rewrite E. lia.
  - rewrite (exec_rewards_sum k _ _ _ H); [cbn [reward_delta]; unfold delta; lia|].
    intros h [= <-] [r Hr]. congruence.
Qed.

Lemma exec_upsert_gap k rt db db' :
  exec_row (SRewardCumulative (rt_Address rt) (rt_RewardType rt) (rt_Amount rt)
              (rt_TokenStandard rt)) db = Ok db' ->
  gap k db' = gap k db - delta k rt.
Proof.
  intros H. unfold gap. rewrite (exec_cumulative k _ _ _ H).
  rewrite (exec_rewards_sum k _ _ _ H) by done.
  cbn [cumulative_delta reward_delta]. unfold delta, reward_key. lia.
Qed.

(** A finished call: the counters it leaves, and the totals. *)
Lemma Exec_spec ss s p p' r :
  Exec ss s p = (p', r) ->
  pg_insertedRT p' = pg_insertedRT p /\ pg_addedCum p' = pg_addedCum p
  /\ let db := ss_between ss (pg_execs p) (pg_db p) in
     match r with
     | Ok n => exec_row s db = Ok (pg_db p') /\ n = RowsAffected s db
     | Err _ => pg_db p' = db
     end.
Proof.
  unfold Exec. destruct (ss_exec ss (pg_execs p)); [by intros [= <- <-]|].
  destruct (exec_row s _) as [db'|e] eqn:E; by intros [= <- <-].
Qed.

Lemma RowsAffected_bit s db : RowsAffected s db = 0 \/ RowsAffected s db = 1.
Proof. destruct s; simpl; auto. case_match; auto. Qed.

(** The call that adds a reward to its running total failed. *)
Definition upsert_failed (rt : RewardTransaction) (e : option error) : Prop :=
  exists err, e = Some (EWrap ("upsert cumulative " +:+ rt_Address rt) err).

Section totals.
Context (ss : Session).

(** The other sessions keep the running totals in step with the rewards they insert. *)
Hypothesis others_keep : forall n db k, gap k (ss_between ss n db) = gap k db.

Lemma backfill_row_totals c p p' e :
  backfill_row ss c p = (p', e) ->
  (pg_insertedRT p' - pg_addedCum p' = pg_insertedRT p - pg_addedCum p
   /\ forall k, gap k (pg_db p') = gap k (pg_db p))
  \/ (exists rt, candidate_reward c = Some rt /\ upsert_failed rt e
      /\ pg_insertedRT p' - pg_addedCum p' = pg_insertedRT p - pg_addedCum p + 1
      /\ forall k, gap k (pg_db p') = gap k (pg_db p) + delta k rt).
Proof.
  unfold backfill_row. destruct (candidate_reward c) as [rt|];
    [|intros [= <- <-]; by left].
  destruct (Exec ss (SRewardTransaction rt) p) as [p1 r1] eqn:E1.
  destruct (Exec_spec _ _ _ _ _ E1) as (Hi & Ha & Hdb1). cbv zeta in Hdb1.
  destruct r1 as [n|e1].
  - destruct Hdb1 as [Hx1 ->].
    assert (Hg : forall k, gap k (pg_db p1) = gap k (pg_db p) + RowsAffected (SRewardTransaction rt)
                   (ss_between ss (pg_execs p) (pg_db p)) * delta k rt).
    { intros k. rewrite (exec_insert_gap k _ _ _ Hx1). by rewrite others_keep. }
    destruct (RowsAffected_bit (SRewardTransaction rt) (ss_between ss (pg_execs p) (pg_db p)))
      as [Hz|Hz]; rewrite Hz in Hg |- *; simpl.
    + intros [= <- <-]. left. split; [lia|]. intros k. rewrite Hg. lia.
    + destruct (Exec ss (SRewardCumulative _ _ _ _) _) as [p3 r3] eqn:E3.
      destruct (Exec_spec _ _ _ _ _ E3) as (Hi3 & Ha3 & Hdb3).
      destruct p1 as [db1 x1 i1 a1], p3 as [db3 x3 i3 a3]. cbn in *.
      destruct r3 as [n|e3]; simpl; intros [= <- <-]; cbn in Hdb3.
      * destruct Hdb3 as [Hx3 _]. left. cbn. split; [lia|]. intros k.
        rewrite (exec_upsert_gap k _ _ _ Hx3), others_keep, Hg. lia.
      * right. exists rt. split; [done|]. split; [by exists e3|]. cbn. split; [lia|]. intros k. rewrite Hdb3, others_keep, Hg. lia.
  - intros [= <- <-]. left. split; [lia|]. intros k. by rewrite Hdb1, others_keep.
Qed.

Lemma backfill_rows_totals rows p p' e :
  backfill_rows ss rows p = (p', e) ->
  (pg_insertedRT p' - pg_addedCum p' = pg_insertedRT p - pg_addedCum p
   /\ forall k, gap k (pg_db p') = gap k (pg_db p))
  \/ (exists c rt, c ∈ rows /\ candidate_reward c = Some rt /\ upsert_failed rt e
      /\ pg_insertedRT p' - pg_addedCum p' = pg_insertedRT p - pg_addedCum p + 1
      /\ forall k, gap k (pg_db p') = gap k (pg_db p) + delta k rt).
Proof.
  revert p. induction rows as [|c rest IH]; intros p; simpl; [intros [= <- <-]; by left|].
  destruct (backfill_row ss c p) as [p1 [e1|]] eqn:E1.
  - intros [= <- <-]. destruct (backfill_row_totals _ _ _ _ E1) as [?|(rt & ?)]; [by left|].
    right. exists c, rt. split; [by left|done].
  - destruct (backfill_row_totals _ _ _ _ E1) as [[Hc Hg]|(? & _ & [? ?] & _)]; [|done].
    intros [[Hc' Hg']|(c' & rt & Hin & Hrt & He & Hc' & Hg')]%IH.
    + left. split; [lia|]. intros k. by rewrite Hg', Hg.
    + right. exists c', rt. split; [by right|]. split; [done|]. split; [done|]. split; [lia|].
      intros k. by rewrite Hg', Hg.
Qed.

Lemma backfill_totals_cases db p e :
  backfill ss db = (p, e) ->
  (pg_insertedRT p = pg_addedCum p /\ forall k, gap k (pg_db p) = gap k db)
  \/ (exists c rt, c ∈ candidates (ss_scan ss) (db_account_blocks db)
      /\ candidate_reward c = Some rt /\ upsert_failed rt e
      /\ pg_insertedRT p = pg_addedCum p + 1
      /\ forall k, gap k (pg_db p) = gap k db + delta k rt).
Proof.
  unfold backfill. destruct (ss_query ss); [intros [= <- <-]; by left|].
  set (rows := match ss_rows ss with Some (n, _) => _ | None => _ end).
  intros [[Hc Hg]|(c & rt & Hin & Hrt & He & Hc & Hg)]%backfill_rows_totals; cbn in Hc, Hg.
  - left. split; [lia|done].
  - right. exists c, rt. split; [|split; [done|]; split; [done|]; split; [lia|done]].
    subst rows. destruct (ss_rows ss) as [[n e']|]; [|done].
    eapply elem_of_sublist; [exact Hin|]. apply sublist_take.
Qed.
End totals.

(** ** Rows *)

(** The reward the stored blocks give a receive hash, if any. *)
Definition rederived (t : gmap string AccountBlock) (h : string) : option RewardTransaction :=
  ab ← t !! h; c ← candidate_of t ab; candidate_reward c.

Lemma candidates_spec scan t c :
  c ∈ candidates scan t <-> exists h ab, t !! h = Some ab /\ candidate_of t ab = Some c.
Proof.
  unfold candidates. rewrite order_by_perm, list_elem_of_omap. split.
  - intros (ab & Hab & Hc). rewrite scan_perm in Hab.
    apply list_elem_of_fmap in Hab as ([h ab'] & -> & Hin%elem_of_map_to_list). eauto.
  - intros (h & ab & Hab & Hc). exists ab. split; [|done]. rewrite scan_perm.
    apply list_elem_of_fmap. exists (h, ab). by rewrite elem_of_map_to_list.
Qed.

Lemma candidate_reward_hash c rt : candidate_reward c = Some rt -> rt_Hash rt = cd_receiveHash c.
Proof. unfold candidate_reward. repeat case_match; by intros [= <-]. Qed.

Lemma candidate_of_hash t ab c : candidate_of t ab = Some c -> cd_receiveHash c = ab_Hash ab.
Proof.
  unfold candidate_of. destruct (t !! _); [|done]. cbn [mbind option_bind].
  case_match; [|done]. by intros [= <-].
Qed.

Lemma block_keyed (t : gmap string AccountBlock) h ab :
  keyed t -> t !! h = Some ab -> ab_Hash ab = h.
Proof. intros Hk H. exact (Hk _ _ H). Qed.

Lemma candidate_rederived t scan c rt :
  keyed t -> c ∈ candidates scan t -> candidate_reward c = Some rt ->
  rederived t (rt_Hash rt) = Some rt.
Proof.
  intros Hk (h & ab & Hab & Hc)%candidates_spec Hr.
  rewrite (candidate_reward_hash _ _ Hr), (candidate_of_hash _ _ _ Hc).
  unfold rederived. rewrite (block_keyed _ _ _ Hk Hab), Hab. cbn [mbind option_bind]. by rewrite Hc.
Qed.

Lemma rederived_candidate t scan h rt :
  keyed t -> rederived t h = Some rt ->
  rt_Hash rt = h /\ exists c, c ∈ candidates scan t /\ candidate_reward c = Some rt.
Proof.
  intros Hk. unfold rederived. destruct (t !! h) as [ab|] eqn:Hab; [|done].
  cbn [mbind option_bind]. destruct (candidate_of t ab) as [c|] eqn:Hc; [|done].
  cbn [mbind option_bind]. intros Hr. split.
  - by rewrite (candidate_reward_hash _ _ Hr), (candidate_of_hash _ _ _ Hc), (block_keyed _ _ _ Hk Hab).
  - exists c. split; [|done]. apply candidates_spec. eauto.
Qed.

(** What a row of the loop leaves in reward_transactions. *)
Definition add_reward (txs : gmap string RewardTransaction) (c : Candidate)
  : gmap string RewardTransaction :=
  match candidate_reward c with
  | Some rt => insert_nothing (rt_Hash rt) rt txs
  | None => txs
  end.

Lemma add_reward_lookup txs c h :
  add_reward txs c !! h
  = match txs !! h with
    | Some r => Some r
    | None => rt ← candidate_reward c; if decide (rt_Hash rt = h) then Some rt else None
    end.
Proof.
  unfold add_reward. destruct (candidate_reward c) as [rt|]; cbn [mbind option_bind].
  - rewrite insert_nothing_lookup. case_decide as E; [subst; by destruct (txs !! _)|].
    by destruct (txs !! h).
  - by destruct (txs !! h).
Qed.

(** Stored rewards stay; a new one comes from a row; every row's reward is stored. *)
Lemma add_rewards_lookup rows txs h :
  (forall r, txs !! h = Some r -> foldl add_reward txs rows !! h = Some r)
  /\ (txs !! h = None -> forall r, foldl add_reward txs rows !! h = Some r ->
        rt_Hash r = h /\ exists c, c ∈ rows /\ candidate_reward c = Some r)
  /\ (forall c r, c ∈ rows -> candidate_reward c = Some r -> rt_Hash r = h ->
        is_Some (foldl add_reward txs rows !! h)).
Proof.
  revert txs. induction rows as [|c rest IH]; intros txs; cbn [foldl].
  - split; [done|]. split; [congruence|]. by intros c r ?%not_elem_of_nil.
  - destruct (IH (add_reward txs c)) as (Hs & Hn & Hm).
    pose proof (add_reward_lookup txs c h) as Ha. split; [|split].
    + intros r Hr. apply Hs. by rewrite Ha, Hr.
    + intros Hnone r Hr. rewrite Hnone in Ha.
      destruct (add_reward txs c !! h) as [r'|] eqn:E.
      * rewrite (Hs _ eq_refl) in Hr. injection Hr as ->.
        destruct (candidate_reward c) as [rt|] eqn:Hc; [|done]. cbn in Ha.
        case_decide as Hh; [|done]. injection Ha as ->. split; [done|].
        exists c. split; [by left|done].
      * destruct (Hn eq_refl _ Hr) as (Hh & c' & Hin & Hc'). split; [done|].
        exists c'. split; [by right|done].
    + intros c' r [->|Hin]%elem_of_cons Hr Hh; [|by eapply Hm].
      destruct (txs !! h) as [r'|]; [by rewrite (Hs _ Ha); eexists|].
      rewrite Hr in Ha. cbn in Ha. rewrite decide_True in Ha by done.
      rewrite (Hs _ Ha). by eexists.
Qed.

(** ** A run nobody disturbs *)

Definition with_rewards (db : Db) (txs : gmap string RewardTransaction)
    (cum : RewardRepository.cumulative) : Db :=
  db <| db_reward_transactions := txs |> <| db_cumulative_rewards := cum |>.

Lemma with_rewards_twice db txs cum txs' cum' :
  with_rewards (with_rewards db txs cum) txs' cum' = with_rewards db txs' cum'.
Proof. reflexivity. Qed.

Lemma with_rewards_id db : with_rewards db (db_reward_transactions db) (db_cumulative_rewards db) = db.
Proof. by destruct db. Qed.

Definition overflows (e : error) : Prop := exists ctx, e = EWrap ctx (EMsg "bigint out of range").

Lemma Exec_quiet_insert scan rt p :
  Exec (quiet scan) (SRewardTransaction rt) p
  = (mkProgress (with_rewards (pg_db p)
                   (insert_nothing (rt_Hash rt) rt (db_reward_transactions (pg_db p)))
                   (db_cumulative_rewards (pg_db p)))
       (S (pg_execs p)) (pg_insertedRT p) (pg_addedCum p),
     Ok (RowsAffected (SRewardTransaction rt) (pg_db p))).
Proof. destruct p as [db x i a]. by destruct db. Qed.

Lemma Exec_quiet_upsert scan rt p p' r :
  Exec (quiet scan) (SRewardCumulative (rt_Address rt) (rt_RewardType rt) (rt_Amount rt)
                       (rt_TokenStandard rt)) p = (p', r) ->
  (exists cum, pg_db p' = with_rewards (pg_db p) (db_reward_transactions (pg_db p)) cum)
  /\ match r with Ok _ => True | Err e => e = EMsg "bigint out of range" end.
Proof.
  destruct p as [db x i a]. unfold Exec. cbn [quiet ss_exec ss_between pg_db pg_execs exec_row].
  unfold on_table, RewardRepository.UpdateCumulativeRewards, insert_update, bigint_add.
  destruct (db_cumulative_rewards db !! _) as [v|]; cbn [mbind result_bind].
  - destruct (in_int64 _); cbn [mbind result_bind]; intros [= <- <-]; (split; [|done]).
    + eexists. by destruct db.
    + exists (db_cumulative_rewards db). by rewrite with_rewards_id.
  - intros [= <- <-]. split; [|done]. eexists. by destruct db.
Qed.

(** The number of rewards stored. *)
Definition stored (db : Db) : Z := Z.of_nat (size (db_reward_transactions db)).

Lemma stored_with db txs cum : stored (with_rewards db txs cum) = Z.of_nat (size txs).
Proof. reflexivity. Qed.

Lemma size_insert_nothing {K V} `{Countable K} (k : K) (v : V) (m : gmap K V) :
  Z.of_nat (size (insert_nothing k v m))
  = Z.of_nat (size m) + match m !! k with Some _ => 0 | None => 1 end.
Proof.
  unfold insert_nothing. destruct (m !! k) eqn:E; [lia|].
  rewrite map_size_insert_None by done. lia.
Qed.

Lemma backfill_row_quiet scan c p p' e :
  backfill_row (quiet scan) c p = (p', e) ->
  (exists cum, pg_db p' = with_rewards (pg_db p)
                            (add_reward (db_reward_transactions (pg_db p)) c) cum)
  /\ pg_insertedRT p' = pg_insertedRT p + (stored (pg_db p') - stored (pg_db p))
  /\ match e with Some e => overflows e | None => True end.
Proof.
  unfold backfill_row, add_reward. destruct (candidate_reward c) as [rt|].
  - rewrite Exec_quiet_insert. cbn [RowsAffected].
    pose proof (size_insert_nothing (rt_Hash rt) rt (db_reward_transactions (pg_db p))) as Hs.
    destruct (db_reward_transactions (pg_db p) !! rt_Hash rt) as [r|] eqn:E.
    + intros [= <- <-]. split; [by eexists|]. split; [|done].
      cbn [pg_db pg_insertedRT]. rewrite stored_with. unfold stored. lia.
    + destruct (Exec _ (SRewardCumulative _ _ _ _) _) as [p3 r3] eqn:E3.
      pose proof (Exec_spec _ _ _ _ _ E3) as (Hi & _ & _).
      apply Exec_quiet_upsert in E3 as [[cum Hdb] Hr]. destruct p3 as [db3 x3 i3 a3].
      cbn -[with_rewards] in Hi, Hdb. rewrite with_rewards_twice in Hdb. subst i3 db3.
      destruct r3 as [n|e3]; simpl; intros [= <- <-];
        (split; [by eexists|]); 
        (split; [cbn -[with_rewards stored]; rewrite stored_with; unfold stored; lia|]); [done|].
      subst e3. by eexists.
  - intros [= <- <-]. split; [|split; [lia|done]].
    exists (db_cumulative_rewards (pg_db p)). by rewrite with_rewards_id.
Qed.

Lemma backfill_rows_quiet scan rows p p' e :
  backfill_rows (quiet scan) rows p = (p', e) ->
  match e with
  | Some e => overflows e
  | None =>
      (exists cum, pg_db p' = with_rewards (pg_db p)
                     (foldl add_reward (db_reward_transactions (pg_db p)) rows) cum)
      /\ pg_insertedRT p' = pg_insertedRT p + (stored (pg_db p') - stored (pg_db p))
  end.
Proof.
  revert p. induction rows as [|c rest IH]; intros p; cbn [backfill_rows foldl].
  - intros [= <- <-]. split; [|lia]. exists (db_cumulative_rewards (pg_db p)).
    by rewrite with_rewards_id.
  - destruct (backfill_row _ c p) as [p1 e1] eqn:E1.
    destruct (backfill_row_quiet _ _ _ _ _ E1) as ([cum Hdb] & Hi & He).
    destruct e1 as [e1|]; [by intros [= <- <-]|].
    intros Hrest%IH. destruct e as [e|]; [done|].
    destruct Hrest as [[cum' Hdb'] Hi']. split; [|lia].
    exists cum'. by rewrite Hdb', Hdb, with_rewards_twice.
Qed.

(** Where every candidate's reward is stored already, a run writes nothing. *)
Lemma backfill_rows_stored scan rows p :
  (forall c rt, c ∈ rows -> candidate_reward c = Some rt -> has_reward (rt_Hash rt) (pg_db p)) ->
  exists n, backfill_rows (quiet scan) rows p
            = (mkProgress (pg_db p) n (pg_insertedRT p) (pg_addedCum p), None).
Proof.
  revert p. induction rows as [|c rest IH]; intros p Hst; cbn [backfill_rows].
  - exists (pg_execs p). by destruct p.
  - unfold backfill_row. destruct (candidate_reward c) as [rt|] eqn:Hc;
      [|apply IH; intros c' rt' Hin; apply Hst; by right].
    destruct (Hst c rt) as [r Hr]; [by left|done|]. rewrite Exec_quiet_insert. cbn [RowsAffected].
    unfold insert_nothing. rewrite Hr. rewrite with_rewards_id. simpl.
    destruct (IH (mkProgress (pg_db p) (S (pg_execs p)) (pg_insertedRT p) (pg_addedCum p)))
      as [n Hn]; [|by exists n]. intros c' rt' Hin. apply Hst. by right.
Qed.

Lemma backfill_quiet_rows scan db p :
  backfill (quiet scan) db = (p, None) ->
  (exists cum, pg_db p = with_rewards db (foldl add_reward (db_reward_transactions db)
                                            (candidates scan (db_account_blocks db))) cum)
  /\ pg_insertedRT p = stored (pg_db p) - stored db.
Proof. intros H. apply (backfill_rows_quiet scan _ (start db) p None) in H as [? ?]. by split. Qed.

Lemma backfill_quiet_lookup scan db p h :
  keyed (db_account_blocks db) -> backfill (quiet scan) db = (p, None) ->
  db_reward_transactions (pg_db p) !! h
  = match db_reward_transactions db !! h with
    | Some r => Some r
    | None => rederived (db_account_blocks db) h
    end.
Proof.
  intros Hk [[cum ->] _]%backfill_quiet_rows. cbn [with_rewards]. simpl.
  destruct (add_rewards_lookup (candidates scan (db_account_blocks db))
              (db_reward_transactions db) h) as (Hs & Hn & Hm).
  destruct (db_reward_transactions db !! h) as [r|]; [by apply Hs|].
  destruct (foldl _ _ _ !! h) as [r|] eqn:E.
  - destruct (Hn eq_refl _ eq_refl) as (<- & c & Hin & Hc).
    symmetry. by eapply candidate_rederived.
  - destruct (rederived _ h) as [rt|] eqn:Er; [|done].
    destruct (rederived_candidate _ scan _ _ Hk Er) as (<- & c & Hin & Hc).
    destruct (Hm _ _ Hin Hc eq_refl) as [? ?]. done.
Qed.

(** C30. What a run of the reward backfill leaves: when nothing disturbs it, every reward
    stored before is stored unchanged, every receive the stored blocks give a reward has it,
    and no other row is added; no other table changes; each running total grows by exactly
    the rewards added to it, and both counters answered are the number of rows added. The
    only failure is a running total that would leave the column's range. *)
Theorem backfill_rewards_exact scan db p e :
  keyed (db_account_blocks db) -> backfill (quiet scan) db = (p, e) ->
  match e with
  | Some e => overflows e
  | None =>
      (forall h, db_reward_transactions (pg_db p) !! h
         = match db_reward_transactions db !! h with
           | Some r => Some r
           | None => rederived (db_account_blocks db) h
           end)
      /\ (exists cum, pg_db p = with_rewards db (db_reward_transactions (pg_db p)) cum)
      /\ (forall k, cumulative_of k (pg_db p) - cumulative_of k db
                    = rewards_sum k (pg_db p) - rewards_sum k db)
      /\ pg_insertedRT p = stored (pg_db p) - stored db /\ pg_addedCum p = pg_insertedRT p
  end.
Proof.
  intros Hk H. destruct e as [e|].
  - exact (backfill_rows_quiet scan _ (start db) p (Some e) H).
  - destruct (backfill_totals_cases (quiet scan) (fun _ _ _ => eq_refl) _ _ _ H)
      as [[Hc Hg]|(? & ? & _ & _ & [? ?] & _)]; [|done].
    destruct (backfill_quiet_rows _ _ _ H) as [[cum Hdb] Hi].
    split; [intros h; by eapply backfill_quiet_lookup|].
    split; [exists cum; by rewrite Hdb|]. split; [|done].
    intros k. specialize (Hg k). unfold gap in Hg. lia.
Qed.

(** Running the reward backfill again changes nothing: after a run that finished, a
    second run, whatever order its query returns rows in, leaves every table as it is and
    reports no insertion. *)
Theorem backfill_rewards_idempotent scan scan' db p :
  keyed (db_account_blocks db) -> backfill (quiet scan) db = (p, None) ->
  exists n, backfill (quiet scan') (pg_db p) = (mkProgress (pg_db p) n 0 0, None).
Proof.
  intros Hk H. unfold backfill at 1. cbn [quiet ss_query ss_rows ss_scan].
  apply backfill_rows_stored. cbn [start pg_db].
  assert (Hb : db_account_blocks (pg_db p) = db_account_blocks db).
  { by destruct (backfill_quiet_rows _ _ _ H) as [[cum ->] _]. }
  rewrite Hb. intros c rt Hin Hc. unfold has_reward.
  rewrite (backfill_quiet_lookup _ _ _ _ Hk H), (candidate_rederived _ _ _ _ Hk Hin Hc).
  by case_match; eexists.
Qed.

(** C31. The reward backfill and the running totals: if what the other sessions commit between
    the script's calls leaves every total as far from its rewards as it was, a run that ends
    does too, wherever a call failed, unless the failed call is the one that adds an inserted
    reward to its total; then the answer is that call's error, one insertion more is counted
    than additions, and the total of that reward's key, and no other, falls behind by its
    amount. *)
Theorem backfill_totals ss db p e :
  (forall n db' k, gap k (ss_between ss n db') = gap k db') ->
  backfill ss db = (p, e) ->
  (pg_insertedRT p = pg_addedCum p /\ forall k, gap k (pg_db p) = gap k db)
  \/ (exists c rt, c ∈ candidates (ss_scan ss) (db_account_blocks db)
      /\ candidate_reward c = Some rt /\ upsert_failed rt e
      /\ pg_insertedRT p = pg_addedCum p + 1
      /\ forall k, gap k (pg_db p) = gap k db + delta k rt).
Proof. intros Hothers H. exact (backfill_totals_cases ss Hothers db p e H). Qed.

(** ** Sample runs *)

(** A stake reward of 7 that the indexer stored as blocks only. *)
Definition script_db : Db :=
  let m := toy_momentum 5 [] in
  let receive := reward_receive "rw1" "z1alice" StakeAddress 7 in
  let paid := mkChainBlock (mkNomBlock "paid" BlockTypeContractSend 9 StakeAddress "z1alice"
                              (Some 7) ZnnTokenStandard "" "") None None [] in
  empty_db <| db_account_blocks := <["rw1" := block_row m receive]>
                                   (<["paid" := block_row m paid]> ∅) |>.

Definition script_key : string * Z * string :=
  ("z1alice", RewardType_int RewardTypeStake, ZnnTokenStandard).

Lemma script_db_keyed : keyed (db_account_blocks script_db).
Proof.
  apply keyed_insert; [|reflexivity]. apply keyed_insert; [|reflexivity]. apply keyed_empty.
Qed.

Lemma backfill_rewards_exact_witness :
  let p := (backfill (quiet scan_id) script_db).1 in
  (pg_insertedRT p = 1 /\ cumulative_of script_key (pg_db p) = 7)
  /\ (forall h, db_reward_transactions (pg_db p) !! h
        = match db_reward_transactions script_db !! h with
          | Some r => Some r
          | None => rederived (db_account_blocks script_db) h
          end).
Proof.
  split; [vm_compute; by split|].
  exact (proj1 (backfill_rewards_exact scan_id script_db _ None script_db_keyed eq_refl)).
Defined.

Lemma backfill_rewards_idempotent_witness :
  let p := (backfill (quiet scan_id) script_db).1 in
  pg_insertedRT p = 1
  /\ exists n, backfill (quiet scan_rev) (pg_db p) = (mkProgress (pg_db p) n 0 0, None).
Proof.
  split; [vm_compute; reflexivity|].
  exact (backfill_rewards_idempotent scan_id scan_rev script_db _ script_db_keyed eq_refl).
Defined.

(** The connection is lost at the second call, which adds the reward to its total. *)
Definition interrupted : Session :=
  mkSession scan_id None None (fun _ db => db)
    (fun n => if Nat.eqb n 1 then Some (EMsg "conn closed") else None).

(** The amount of an interrupted run is lost for good: the next run finds the reward stored
    and leaves its total alone. *)
Example interrupted_backfill_loses :
  let p := (backfill interrupted script_db).1 in
  let again := (backfill (quiet scan_id) (pg_db p)).1 in
  rewards_sum script_key (pg_db again) = 7 /\ cumulative_of script_key (pg_db again) = 0
  /\ pg_insertedRT again = 0.
Proof. vm_compute. by repeat split. Qed.

Lemma backfill_totals_witness :
  let p := (backfill interrupted script_db).1 in
  gap script_key (pg_db p) = 7
  /\ ((pg_insertedRT p = pg_addedCum p /\ forall k, gap k (pg_db p) = gap k script_db)
      \/ (exists c rt, c ∈ candidates scan_id (db_account_blocks script_db)
          /\ candidate_reward c = Some rt /\ upsert_failed rt (backfill interrupted script_db).2
          /\ pg_insertedRT p = pg_addedCum p + 1
          /\ forall k, gap k (pg_db p) = gap k script_db + delta k rt)).
Proof.
  split; [vm_compute; reflexivity|].
  exact (backfill_totals interrupted script_db _ _ (fun _ _ _ => eq_refl)
           (surjective_pairing _)).
Defined.

(** ** The live indexer's rewards *)

Lemma block_type_stored bt k : 0 <= bt <= max_int16 -> (int16 bt =? k) = (bt =? k).
Proof. unfold max_int16. intros H. unfold int16. rewrite wrap_signed_id by lia. done. Qed.

(** The statements the script's row for a receive stands for. *)
Definition script_stmts (t : gmap string AccountBlock) (h : string) : batch :=
  match rederived t h with Some rt => reward_stmts rt | None => [] end.

(** The two rules on a source the script's type function knows. *)
Lemma script_stmts_row m c t row prow paired m' :
  t !! nb_Hash (cb_Block c) = Some row -> stored_as m c row ->
  ab_PairedAccountBlock row = nb_Hash paired ->
  t !! nb_Hash paired = Some prow -> stored_as m' (mkChainBlock paired None None []) prow ->
  script_stmts t (nb_Hash (cb_Block c))
  = if is_candidate (block_row m c) (block_row m' (mkChainBlock paired None None [])) then
      match determineRewardType (nb_Address paired) with
      | RewardTypeUnknown => []
      | rtype => reward_stmts (reward_row (cb_Block c) paired rtype m)
      end
    else [].
Proof.
  intros Hr [= Ha1 Ha2 Ha3 Ha4 Ha5 Ha6 Ha7 Ha8 Ha9 Ha10 Ha11] Hpair Hp
    [= Hb1 Hb2 Hb3 Hb4 Hb5 Hb6 Hb7 Hb8 Hb9 Hb10 Hb11].
  unfold script_stmts, rederived. rewrite Hr. cbn [mbind option_bind].
  unfold candidate_of. rewrite Hpair, Hp. cbn [mbind option_bind].
  assert (Hc : is_candidate row prow
               = is_candidate (block_row m c) (block_row m' (mkChainBlock paired None None []))).
  { unfold is_candidate. cbn. congruence. }
  rewrite Hc. clear Hc. destruct (is_candidate (block_row m c) _); [|done].
  cbn [mbind option_bind]. unfold candidate_reward. cbn [cd_rewardAmountStr cd_sourceAddress].
  rewrite Hb9, parse_int64_format by apply safeBigIntToInt64_range. rewrite Hb7.
  cbn [cd_receiveHash cd_receiveAddress cd_momentumTimestamp cd_momentumHeight
       cd_accountHeight cd_tokenStandard].
  unfold reward_row. rewrite Ha1, Ha3, Ha4, Ha6, Ha7, Hb10. cbn. by destruct (determineRewardType _).
Qed.

(** C29. The reward backfill derives what the live indexer would have written: for a stored
    receive whose send is stored too, the row and the addition of the script are those of
    the live indexer's reward branch, provided the source is not the liquidity contract (the
    script's query leaves it out) and, for the pillar contract, the receiver is classed as
    the pillar's own (the script has no delegation rewards). *)
Theorem backfill_matches_live env m c t row prow paired m' :
  cb_PairedAccountBlock c = Some paired ->
  t !! nb_Hash (cb_Block c) = Some row -> stored_as m c row ->
  ab_PairedAccountBlock row = nb_Hash paired ->
  t !! nb_Hash paired = Some prow -> stored_as m' (mkChainBlock paired None None []) prow ->
  0 <= nb_BlockType (cb_Block c) <= max_int16 -> 0 <= nb_BlockType paired <= max_int16 ->
  nb_Address paired <> LiquidityAddress ->
  (nb_Address paired = PillarAddress ->
   classifyReward env PillarAddress (nb_Address (cb_Block c)) = RewardTypePillar) ->
  script_stmts t (nb_Hash (cb_Block c)) = reward_block_stmts env c m.
Proof.
  intros Hcp Hr Hrow Hpair Hp Hprow Hbt Hpbt Hliq Hpil.
  rewrite (script_stmts_row _ _ _ _ _ _ _ Hr Hrow Hpair Hp Hprow).
  unfold is_candidate, reward_block_stmts, indexLiquidityReward, indexReceivedReward.
  rewrite Hcp. cbn [ab_BlockType ab_Address ab_ToAddress ab_TokenStandard block_row cb_Block].
  unfold blockTypeUserReceive, blockTypeContractSend.
  rewrite !block_type_stored by done. unfold BlockTypeUserReceive, BlockTypeContractSend.
  destruct (nb_BlockType (cb_Block c) =? 3); [|done]. cbn [andb].
  destruct (String.eqb (nb_Address paired) LiquidityTreasuryAddress) eqn:Et.
  - apply String.eqb_eq in Et as ->. reflexivity.
  - cbn [orb]. destruct (nb_BlockType paired =? 4); [|done]. cbn [andb].
    destruct (String.eqb (nb_ToAddress (cb_Block c)) EmptyAddress); [|done]. cbn [andb].
    destruct (String.eqb (nb_TokenStandard (cb_Block c)) EmptyTokenStandard); [|done].
    cbn [andb existsb orb].
    destruct (String.eqb (nb_Address paired) PillarAddress) eqn:E1.
    + apply String.eqb_eq in E1. rewrite E1, (Hpil E1). reflexivity.
    + destruct (String.eqb (nb_Address paired) SentinelAddress) eqn:E2.
      * apply String.eqb_eq in E2. rewrite E2. reflexivity.
      * destruct (String.eqb (nb_Address paired) StakeAddress) eqn:E3.
        -- apply String.eqb_eq in E3. rewrite E3. reflexivity.
        -- cbn [orb]. unfold classifyReward. rewrite E1, E2, E3.
           by rewrite (proj2 (String.eqb_neq _ _) Hliq).
Qed.

Lemma backfill_matches_live_witness :
  let c := reward_receive "rw1" "z1alice" StakeAddress 7 in
  length (script_stmts (db_account_blocks script_db) "rw1") = 2%nat
  /\ script_stmts (db_account_blocks script_db) "rw1"
     = reward_block_stmts (toy_env empty_db [c]) c (toy_momentum 5 []).
Proof.
  split; [vm_compute; reflexivity|].
  refine (backfill_matches_live (toy_env empty_db [])
            (toy_momentum 5 []) (reward_receive "rw1" "z1alice" StakeAddress 7)
            (db_account_blocks script_db) _ _ _ (toy_momentum 5 [])
            eq_refl eq_refl _ eq_refl eq_refl _ _ _ _ _);
    try reflexivity; try (split; vm_compute; discriminate); vm_compute; discriminate.
Defined.

(** A reward the pillar contract pays a delegator: the live indexer stores a delegation
    reward, the script a pillar reward. *)
Definition delegator_db : Db :=
  let m := toy_momentum 5 [] in
  let paid := mkChainBlock (mkNomBlock "paid" BlockTypeContractSend 9 PillarAddress "z1alice"
                              (Some 7) ZnnTokenStandard "" "") None None [] in
  empty_db <| db_account_blocks :=
    <["rw1" := block_row m (reward_receive "rw1" "z1alice" PillarAddress 7)]>
    (<["paid" := block_row m paid]> ∅) |>.

Definition reward_type_of (b : batch) : option RewardType :=
  match b with SRewardTransaction rt :: _ => Some (rt_RewardType rt) | _ => None end.

Example backfill_mislabels_delegation :
  let c := reward_receive "rw1" "z1alice" PillarAddress 7 in
  reward_type_of (script_stmts (db_account_blocks delegator_db) "rw1") = Some RewardTypePillar
  /\ reward_type_of (reward_block_stmts (toy_env delegator_db []) c (toy_momentum 5 []))
     = Some RewardTypeDelegation.
Proof. vm_compute. by split. Qed.
