(* ===== verification/RepairVotes.v ===== *)
(** scripts/repair-votes/main.go: the votes decoded again from the stored calls of the
    accelerator contract, replacing the table in one transaction. The dump that
    precedes it, with the processes and files it takes, and [main] are at the end. The log is
    not modelled. *)

From S2P Require Import Prelude.
From S2P Require Import Models.
From S2P Require Import Chain.
From S2P Require Import RepoContracts.
From S2P Require Import Database.
From S2P Require Import Decoder.
From S2P Require Import Embedded.
From S2P Require Import Queries.
#[local] Open Scope string_scope.
#[local] Open Scope Z_scope.

Definition acceleratorAddress : string := "z1qxemdeddedxaccelerat0rxxxxxxxxxxp4tk22".

(** ** Decoding *)

Definition hex_value (c : ascii) : option nat :=
  let n := nat_of_ascii c in
  (if (48 <=? n) && (n <=? 57) then Some (n - 48)
   else if (97 <=? n) && (n <=? 102) then Some (n - 87)
   else if (65 <=? n) && (n <=? 70) then Some (n - 55)
   else None)%nat.

(** [hex.DecodeString], [None] for an error. *)
Fixpoint hex_decode (s : string) : option string :=
  match s with
  | EmptyString => Some EmptyString
  | String hi (String lo rest) =>
      h ← hex_value hi; l ← hex_value lo; tail ← hex_decode rest;
      Some (String (ascii_of_nat (16 * h + l)) tail)
  | String _ EmptyString => None
  end.

(** [decodeFromAbi]: the inputs by name, with the method under ["_method"]; unlike the
    indexer's decoder, arguments that do not decode make the whole call undecoded. *)
Definition decodeFromAbi (data : string) (contractAbi : Abi) : option (gmap string string) :=
  methodSig ← take_bytes 4 data;
  entry ← find_entry methodSig (abi_Entries contractAbi);
  let result := <["_method" := ae_Name entry]> ∅ in
  if negb (bool_decide (ae_Inputs entry = [])) && Nat.ltb 4 (String.length data) then
    match abi_DecodeFunction contractAbi data with
    | Err _ => None
    | Ok args =>
        Some (fold_left (fun m '(p, a) => <[p := formatArg a]> m) (zip (ae_Inputs entry) args)
                result)
    end
  else Some result.

(** The accelerator's ABI first, then the common one. *)
Definition decode_call (sdk : Sdk) (data : string) : option (gmap string string) :=
  match decodeFromAbi data (sdk_Accelerator sdk) with
  | Some d => Some d
  | None => decodeFromAbi data (sdk_Common sdk)
  end.

(** ** Queries *)

Definition is_vote_call (b : AccountBlock) : bool :=
  String.eqb (ab_ToAddress b) acceleratorAddress
  && (String.eqb (ab_Method b) "VoteByName" || String.eqb (ab_Method b) "VoteByProdAddress")
  && negb (str_empty (ab_PairedAccountBlock b)).

Definition load_vote_blocks : Q (list AccountBlock) :=
  statement (fun v => Ok (order_by (asc ab_MomentumHeight)
                            (List.filter is_vote_call (rows_of v (db_account_blocks (vw_db v)))))).

(** The last row of a name wins. *)
Definition loadPillarOwners : Q (gmap string string) :=
  statement (fun v => Ok (fold_left (fun m p => <[pil_Name p := pil_OwnerAddress p]> m)
                            (rows_of v (db_pillars (vw_db v))) ∅)).

Definition resolveVoterAddress (b : AccountBlock) (decoded : gmap string string)
    (pillarOwners : gmap string string) : string :=
  if String.eqb (ab_Method b) "VoteByName" then
    let pillarName := get_str decoded "name" in
    if str_empty pillarName then ab_Address b
    else match pillarOwners !! pillarName with Some owner => owner | None => ab_Address b end
  else ab_Address b.

Definition project_by_voting_id (votingID : string) : Q string :=
  statement (fun v =>
    p ← query_row (List.filter (fun p => String.eqb (prj_VotingID p) votingID)
                     (rows_of v (db_projects (vw_db v))));
    Ok (prj_ID p)).

Definition phase_by_voting_id (votingID : string) : Q (string * string) :=
  statement (fun v =>
    p ← query_row (List.filter (fun p => String.eqb (ph_VotingID p) votingID)
                     (rows_of v (db_project_phases (vw_db v))));
    Ok (ph_ProjectID p, ph_ID p)).

(** An error of either statement counts as no row. *)
Definition resolveProjectPhase (votingID : string) : Q (string * string) :=
  let try_phase := attempt (phase_by_voting_id votingID) mret (fun _ => mret ("", "")) in
  attempt (project_by_voting_id votingID)
    (fun projectID => if str_empty projectID then try_phase else mret (projectID, ""))
    (fun _ => try_phase).

(** ** The vote of a block *)

(** What the loop takes from a block before it asks for the project: the voter, the voting
    id and the vote; nothing for a call it cannot decode. *)
Definition decode_block (sdk : Sdk) (pillarOwners : gmap string string) (b : AccountBlock)
  : option (string * string * Z) :=
  data ← hex_decode (ab_Data b);
  decoded ← decode_call sdk data;
  let votingID := get_str decoded "id" in
  let voteValue := atoi_or_zero (get_str decoded "vote") in
  if str_empty votingID then None
  else Some (resolveVoterAddress b decoded pillarOwners, votingID, int16 voteValue).

Fixpoint decode_blocks (sdk : Sdk) (pillarOwners : gmap string string)
    (blocks : list AccountBlock) : Q (list Vote) :=
  match blocks with
  | [] => mret []
  | b :: rest =>
      match decode_block sdk pillarOwners b with
      | None => decode_blocks sdk pillarOwners rest
      | Some (voter, votingID, vote) =>
          ids ← resolveProjectPhase votingID;
          votes ← decode_blocks sdk pillarOwners rest;
          mret (mkVote 0 (ab_MomentumHash b) (ab_MomentumTimestamp b) (ab_MomentumHeight b)
                  voter (fst ids) (snd ids) votingID vote :: votes)
      end
  end.

(** ** The transaction *)

(** What the transaction meets: the failures of its calls other than the statements' own, and
    the rows other sessions have put into the table by its [n]-th insert, or by the commit,
    which comes after the inserts. *)
Record TxFaults : Type := mkTxFaults {
  tf_begin : option error;
  tf_delete : option error;
  tf_insert : nat -> option error;
  tf_commit : option error;
  tf_others : nat -> gmap (string * string) Vote
}.

Definition no_tx_faults : TxFaults := mkTxFaults None None (fun _ => None) None (fun _ => ∅).

(** A transaction, under READ COMMITTED: the rows it inserted, those other sessions have
    committed since the DELETE, whether PostgreSQL has aborted it (every statement after a
    failed one fails), and the loop's counters. *)
Record RepairTx : Type := mkRepairTx {
  rx_votes : gmap (string * string) Vote;
  rx_others : gmap (string * string) Vote;
  rx_aborted : bool;
  rx_statement : nat;
  rx_inserted : Z
}.

Definition vote_key_of (v : Vote) : string * string := (vote_VoterAddress v, vote_VotingID v).

(** The rows other sessions can have committed: one whose key is that of a row the
    transaction [deleted] or inserted waits, on the unique index, for its end. *)
Definition committed (faults : TxFaults) (deleted : VoteRepository.table) (tx : RepairTx)
  : gmap (string * string) Vote :=
  filter (fun kv => deleted !! fst kv = None /\ rx_votes tx !! fst kv = None)
    (tf_others faults (rx_statement tx)).

(** The plain [INSERT]: the unique key on (voter_address, voting_id) of migrations/006
    refuses a second row, inserted before or committed by another session; the loop logs the
    failure and goes on. *)
Definition insert_vote (faults : TxFaults) (deleted : VoteRepository.table) (v : Vote)
    (tx : RepairTx) : RepairTx :=
  let others := committed faults deleted tx in
  let failed := mkRepairTx (rx_votes tx) others true (S (rx_statement tx)) (rx_inserted tx) in
  if rx_aborted tx then failed
  else match tf_insert faults (rx_statement tx), (rx_votes tx ∪ others) !! vote_key_of v with
       | None, None => mkRepairTx (<[vote_key_of v := v]> (rx_votes tx)) others false
                         (S (rx_statement tx)) (rx_inserted tx + 1)
       | _, _ => failed
       end.

Definition insert_votes (faults : TxFaults) (deleted : VoteRepository.table) (votes : list Vote)
    (tx : RepairTx) : RepairTx :=
  fold_left (fun tx v => insert_vote faults deleted v tx) votes tx.

(** [tx.Commit]: committing an aborted transaction rolls it back and is an error. The tables
    after it, and its error. *)
Definition commit (faults : TxFaults) (tx : RepairTx) (db : Db) : Db * option error :=
  let others := committed faults (db_votes db) tx in
  let rolled_back := db <| db_votes := db_votes db ∪ others |> in
  match tf_commit faults with
  | Some e => (rolled_back, Some e)
  | None =>
      if rx_aborted tx
      then (rolled_back, Some (EMsg "commit unexpectedly resulted in rollback"))
      else (db <| db_votes := rx_votes tx ∪ others |>, None)
  end.

(** From [Begin] on; [db] is what the DELETE meets. *)
Definition replace_votes (faults : TxFaults) (votes : list Vote) (db : Db) : Db * result Z :=
  match tf_begin faults with
  | Some e => (db, Err (EWrap "failed to begin transaction" e))
  | None =>
      match tf_delete faults with
      | Some e => (db, Err (EWrap "failed to delete existing votes" e))
      | None =>
          let tx := insert_votes faults (db_votes db) votes (mkRepairTx ∅ ∅ false 0 0) in
          match commit faults tx db with
          | (db', Some e) => (db', Err (EWrap "failed to commit transaction" e))
          | (db', None) => (db', Ok (rx_inserted tx))
          end
      end
  end.

(** ** The program *)

(** How the script ends: [log.Fatalf], no vote block at all, or the rows inserted. *)
Inductive RepairEnd : Type :=
| Fatal (e : error)
| NothingToDo
| Done (inserted : Z).

(** Everything the run meets: the SDK, the ping and the dump, the pool's statements, and the
    transaction's failures. *)
Record RepairRun : Type := mkRepairRun {
  rr_sdk : Sdk;
  rr_ping : option error;
  rr_backup : option error;
  rr_conn : Conn;
  rr_faults : TxFaults
}.

Definition read_votes (run : RepairRun) : Q (option (list Vote)) :=
  pillarOwners ← wrapped "failed to load pillar owners" loadPillarOwners;
  blocks ← wrapped "failed to query vote blocks" load_vote_blocks;
  match blocks with
  | [] => mret None
  | _ => votes ← decode_blocks (rr_sdk run) pillarOwners blocks; mret (Some votes)
  end.

(** [main]: the tables after it, given the tables its transaction meets. *)
Definition repair (run : RepairRun) (db : Db) : Db * RepairEnd :=
  match rr_ping run with
  | Some e => (db, Fatal (EWrap "failed to ping database" e))
  | None =>
      match rr_backup run with
      | Some e => (db, Fatal (EWrap "failed to backup votes table" e))
      | None =>
          match fst (read_votes run (rr_conn run) O) with
          | Err e => (db, Fatal e)
          | Ok None => (db, NothingToDo)
          | Ok (Some votes) =>
              match replace_votes (rr_faults run) votes db with
              | (db', Err e) => (db', Fatal e)
              | (db', Ok inserted) => (db', Done inserted)
              end
          end
      end
  end.

(** ** The environment *)

(** [os.Getenv] answers the empty string for a variable that is not set. *)
Definition envOrDefault (getenv : string -> string) (key defaultVal : string) : string :=
  let v := getenv key in if str_empty v then defaultVal else v.

(** [buildConnString]; the error is the [log.Fatal] of a missing password. *)
Definition buildConnString (getenv : string -> string) : result string :=
  let host := envOrDefault getenv "DATABASE_ADDRESS" "localhost" in
  let port := envOrDefault getenv "DATABASE_PORT" "5432" in
  let name := envOrDefault getenv "DATABASE_NAME" "nom_indexer" in
  let user := envOrDefault getenv "DATABASE_USERNAME" "postgres" in
  let password := getenv "DATABASE_PASSWORD" in
  if str_empty password then Err (EMsg "DATABASE_PASSWORD environment variable is required")
  else Ok ("postgres://" +:+ user +:+ ":" +:+ password +:+ "@" +:+ host +:+ ":" +:+ port
           +:+ "/" +:+ name +:+ "?sslmode=disable").

(** ** The processes and the files *)

(** What the run meets outside: the output of a command run to its end; of one that is
    piped, whether the pipe can be made, whether it starts, everything it writes and how it
    ends; and the failures of the file calls, with what a file holds when writing to it
    failed. *)
Record BackupRun : Type := mkBackupRun {
  bk_output : list string -> result string;
  bk_pipe : option error;
  bk_start : list string -> option error;
  bk_stdout : list string -> string;
  bk_wait : list string -> option error;
  bk_timestamp : string;
  bk_mkdir : option error;
  bk_create : option error;
  bk_copy : option (error * string);
  bk_close : option (error * string);
  bk_file_close : option error;
  bk_stat : result Z
}.

(** The files by path. *)
Abbreviation Files := (gmap string string) (only parsing).

Inductive BackupEnd : Type :=
| BackedUp (backupFile : string) (size : Z)
| BackupFailed (e : error)
| BackupPanicked.

Definition docker_ps : list string := ["docker"; "ps"; "--format"; "{{.Names}}"].

Definition dump_command (containerName dbUser dbName : string) : list string :=
  ["docker"; "exec"; containerName; "pg_dump"; "-U"; dbUser; "-d"; dbName; "-t"; "votes"].

Definition container_name (getenv : string -> string) : string :=
  envOrDefault getenv "POSTGRES_CONTAINER" "nom-indexer-postgres".

(** [%q], for a name with nothing to escape. *)
Definition quoted (s : string) : string :=
  let q := String (ascii_of_nat 34) "" in q +:+ s +:+ q.

(** The command of this environment's dump. *)
Definition dump_args (getenv : string -> string) : list string :=
  dump_command (container_name getenv) (envOrDefault getenv "DATABASE_USERNAME" "postgres")
    (envOrDefault getenv "DATABASE_NAME" "nom_indexer").

Definition backup_file (bk : BackupRun) : string :=
  "scripts/backups/votes_backup_" +:+ bk_timestamp bk +:+ ".sql.gz".

(** [defer f.Close()]: its error is dropped. What was written stays in the model's file; what
    a file system loses of a write it accepted is outside it. *)
Definition deferred_close (closed : option error) (r : Files * BackupEnd) : Files * BackupEnd :=
  match closed with Some _ => r | None => r end.

Section backup.
(** compress/gzip: the bytes of a stream that was written and closed. *)
Variable gzip : string -> string.

(** [backupVotesTable]. Where a file write fails the file stays as it is then; the size is
    read from a [FileInfo] that is nil when [os.Stat] fails. *)
Definition backupVotesTable (getenv : string -> string) (bk : BackupRun) (fs : Files)
  : Files * BackupEnd :=
  let containerName := container_name getenv in
  match bk_output bk docker_ps with
  | Err e => (fs, BackupFailed (EWrap "docker not available or not running" e))
  | Ok out =>
      if negb (contains containerName out) then
        (fs, BackupFailed (EMsg ("container " +:+ quoted containerName +:+ " is not running — start it with: docker compose up -d postgres")))
      else match bk_mkdir bk with
      | Some e => (fs, BackupFailed (EWrap "failed to create backup dir" e))
      | None =>
          let backupFile := backup_file bk in
          let dumpCmd := dump_args getenv in
          match bk_pipe bk with
          | Some e => (fs, BackupFailed (EWrap "failed to create stdout pipe" e))
          | None =>
          match bk_start bk dumpCmd with
          | Some e => (fs, BackupFailed (EWrap "failed to start pg_dump" e))
          | None =>
          match bk_create bk with
          | Some e => (fs, BackupFailed (EWrap "failed to create backup file" e))
          | None => deferred_close (bk_file_close bk)
          match bk_copy bk with
          | Some (e, partial) =>
              (<[backupFile := partial]> fs, BackupFailed (EWrap "failed to write backup" e))
          | None =>
          match bk_close bk with
          | Some (e, partial) =>
              (<[backupFile := partial]> fs,
               BackupFailed (EWrap "failed to close gzip writer" e))
          | None =>
              let fs' := <[backupFile := gzip (bk_stdout bk dumpCmd)]> fs in
              match bk_wait bk dumpCmd with
              | Some e => (fs', BackupFailed (EWrap "pg_dump failed" e))
              | None => match bk_stat bk with
                        | Ok size => (fs', BackedUp backupFile size)
                        | Err _ => (fs', BackupPanicked)
                        end
              end
          end end end end end
      end
  end.

(** How [main] ends: in a panic, or as the repair does. *)
Inductive MainEnd : Type :=
| MainPanicked
| MainEnded (e : RepairEnd).

(** [main]: the files and the tables after it. [newPool] is pgxpool's parsing of the
    connection string. *)
Definition repair_main (getenv : string -> string) (newPool : string -> option error)
    (bk : BackupRun) (run : RepairRun) (fs : Files) (db : Db) : Files * Db * MainEnd :=
  match buildConnString getenv with
  | Err e => (fs, db, MainEnded (Fatal e))
  | Ok connStr =>
      match newPool connStr with
      | Some e => (fs, db, MainEnded (Fatal (EWrap "failed to connect to database" e)))
      | None =>
          let with_backup b :=
            mkRepairRun (rr_sdk run) (rr_ping run) b (rr_conn run) (rr_faults run) in
          let repaired fs' r := (fs', fst r, MainEnded (snd r)) in
          match rr_ping run with
          | Some _ => repaired fs (repair run db)
          | None =>
              match backupVotesTable getenv bk fs with
              | (fs', BackupPanicked) => (fs', db, MainPanicked)
              | (fs', BackupFailed e) => repaired fs' (repair (with_backup (Some e)) db)
              | (fs', BackedUp _ _) => repaired fs' (repair (with_backup None) db)
              end
          end
      end
  end.
End backup.
