(* ===== verification/RepairVotesTheorems.v ===== *)
(** scripts/repair-votes: what its transaction leaves, when it refuses, and how its votes
    compare with the ones the live indexer writes for the same calls; and that no vote is
    touched before its backup is complete. *)

From S2P Require Import Prelude.
From S2P Require Import Models.
From S2P Require Import Chain.
From S2P Require Import RepoLedger.
From S2P Require Import RepoContracts.
From S2P Require Import Database.
From S2P Require Import Decoder.
From S2P Require Import Embedded.
From S2P Require Import Processor.
From S2P Require Import LedgerFacts.
From S2P Require Import Samples.
From S2P Require Import Queries.
From S2P Require Import RepairVotes.
#[local] Open Scope string_scope.
#[local] Open Scope Z_scope.

(** ** The transaction *)

Lemma insert_votes_aborted faults old votes tx :
  rx_aborted tx = true -> rx_aborted (insert_votes faults old votes tx) = true.
Proof.
  revert tx. induction votes as [|v votes IH]; intros tx H; [done|].
  cbn [insert_votes fold_left]. apply IH. unfold insert_vote. by rewrite H.
Qed.

(** An insert that goes through met no row of its key. *)
Lemma insert_vote_live faults old v tx :
  rx_aborted (insert_vote faults old v tx) = false ->
  rx_aborted tx = false /\ rx_votes tx !! vote_key_of v = None
  /\ rx_votes (insert_vote faults old v tx) = <[vote_key_of v := v]> (rx_votes tx)
  /\ rx_inserted (insert_vote faults old v tx) = rx_inserted tx + 1.
Proof.
  unfold insert_vote. destruct (rx_aborted tx); [done|]. destruct (tf_insert _ _); [done|].
  destruct (_ !! _) eqn:E; [done|]. by apply lookup_union_None in E as [? _].
Qed.

(** A loop that leaves the transaction alive has inserted every vote, each under a key of
    its own. *)
Lemma insert_votes_live faults old votes tx :
  rx_aborted (insert_votes faults old votes tx) = false ->
  NoDup (map vote_key_of votes)
  /\ (forall v, v ∈ votes -> rx_votes tx !! vote_key_of v = None)
  /\ (forall k v, rx_votes (insert_votes faults old votes tx) !! k = Some v
        <-> rx_votes tx !! k = Some v \/ (v ∈ votes /\ vote_key_of v = k))
  /\ rx_inserted (insert_votes faults old votes tx) = rx_inserted tx + Z.of_nat (length votes).
Proof.
  revert tx. induction votes as [|v votes IH]; intros tx Ha; cbn [insert_votes fold_left map] in *.
  - split; [by constructor|]. split; [by intros v ?%not_elem_of_nil|]. split; [|simpl; lia].
    intros k v. split; [by left|]. by intros [?|[?%not_elem_of_nil _]].
  - fold (insert_votes faults old votes (insert_vote faults old v tx)) in *.
    destruct (rx_aborted (insert_vote faults old v tx)) eqn:E1.
    { by rewrite (insert_votes_aborted faults old votes _ E1) in Ha. }
    destruct (insert_vote_live _ _ _ _ E1) as (_ & Hfresh & Hv & Hi).
    destruct (IH _ Ha) as (Hnd & Hk & Hl & Hn). rewrite Hv in Hk, Hl. rewrite Hi in Hn.
    assert (Hnew : vote_key_of v ∉ map vote_key_of votes).
    { intros (v' & E & Hin)%list_elem_of_fmap. specialize (Hk _ Hin). rewrite <- E in Hk.
      by rewrite lookup_insert_eq in Hk. }
    split; [by constructor|]. split; [|split].
    + intros v' [->|Hin]%elem_of_cons; [done|]. specialize (Hk _ Hin).
      by apply lookup_insert_None in Hk as [? _].
    + intros k v'. rewrite Hl, lookup_insert_Some, elem_of_cons. split.
      * intros [[[<- <-]|[_ ?]]|[? ?]]; auto.
      * intros [Hk'|[[->|Hin] <-]]; [|by left; left|by right].
        left. right. split; [|done]. intros <-. congruence.
    + rewrite Hn. cbn [length]. lia.
Qed.

(** Undisturbed, votes under keys of their own all go in. *)
Lemma committed_none old tx : committed no_tx_faults old tx = ∅.
Proof. apply map_filter_empty. Qed.

Lemma insert_votes_distinct old votes tx :
  rx_aborted tx = false -> NoDup (map vote_key_of votes) ->
  (forall v, v ∈ votes -> rx_votes tx !! vote_key_of v = None) ->
  rx_aborted (insert_votes no_tx_faults old votes tx) = false.
Proof.
  revert tx. induction votes as [|v votes IH]; intros tx Ha Hnd Hf; [done|].
  cbn [insert_votes fold_left map] in *. apply NoDup_cons in Hnd as [Hnew Hnd].
  assert (E : insert_vote no_tx_faults old v tx
              = mkRepairTx (<[vote_key_of v := v]> (rx_votes tx)) ∅ false (S (rx_statement tx))
                  (rx_inserted tx + 1)).
  { unfold insert_vote. rewrite Ha, committed_none, (right_id_L ∅ (∪)). cbn [no_tx_faults tf_insert].
    by rewrite (Hf v) by (by left). }
  rewrite E. apply IH; [done|done|]. intros v' Hin. cbn [rx_votes].
  rewrite lookup_insert_ne; [by apply Hf; right|].
  intros Ek. apply Hnew. rewrite Ek. by apply list_elem_of_fmap_2.
Qed.

Lemma insert_votes_iff old votes :
  rx_aborted (insert_votes no_tx_faults old votes (mkRepairTx ∅ ∅ false 0 0)) = false
  <-> NoDup (map vote_key_of votes).
Proof.
  split; [by intros [? _]%insert_votes_live|].
  intros Hnd. apply insert_votes_distinct; [done|done|]. intros v _. apply lookup_empty.
Qed.

(** ** The program *)

(** Rows other sessions had in the table at one point of the transaction, under keys that had
    no row when it began. *)
Definition meanwhile (faults : TxFaults) (old others : VoteRepository.table) : Prop :=
  (exists i, others ⊆ tf_others faults i) /\ forall k, is_Some (others !! k) -> old !! k = None.

Lemma committed_meanwhile faults old tx : meanwhile faults old (committed faults old tx).
Proof.
  split; [exists (rx_statement tx); apply map_filter_subseteq|].
  intros k [v Hv]. by apply map_lookup_filter_Some in Hv as [_ [? _]].
Qed.

Lemma committed_free faults old tx k v :
  rx_votes tx !! k = Some v -> committed faults old tx !! k = None.
Proof.
  intros Hv. apply map_lookup_filter_None. right. intros v' _ [_ E]. cbn in E. congruence.
Qed.

Lemma none_meanwhile faults old : meanwhile faults old ∅.
Proof. split; [exists O; apply map_empty_subseteq|]. intros k [v Hv]. by rewrite lookup_empty in Hv. Qed.

Lemma with_votes db : db = db <| db_votes := db_votes db ∪ ∅ |>.
Proof. rewrite (right_id_L ∅ (∪)). by destruct db. Qed.

(** What an ended transaction leaves. *)
Lemma replace_votes_Ok faults votes db db' n :
  replace_votes faults votes db = (db', Ok n) ->
  exists others, NoDup (map vote_key_of votes) /\ n = Z.of_nat (length votes)
  /\ meanwhile faults (db_votes db) others
  /\ (forall v, v ∈ votes -> others !! vote_key_of v = None)
  /\ (forall k v, db_votes db' !! k = Some v
        <-> (v ∈ votes /\ vote_key_of v = k) \/ others !! k = Some v)
  /\ db' = db <| db_votes := db_votes db' |>.
Proof.
  unfold replace_votes, commit. destruct (tf_begin faults), (tf_delete faults), (tf_commit faults); try done.
  set (tx := insert_votes _ _ _ _). destruct (rx_aborted tx) eqn:Ea; [done|]. intros [= <- <-].
  destruct (insert_votes_live _ _ _ _ Ea) as (Hnd & _ & Hl & Hn). fold tx in Hl, Hn.
  assert (forall k v, rx_votes tx !! k = Some v <-> v ∈ votes /\ vote_key_of v = k) as Hrows.
  { intros k v. rewrite Hl. cbn [rx_votes]. rewrite lookup_empty. naive_solver. }
  exists (committed faults (db_votes db) tx). split; [done|]. split; [done|].
  split; [apply committed_meanwhile|]. split; [|split; [|done]].
  - intros v Hv. apply (committed_free _ _ _ _ v). by apply Hrows.
  - intros k v. change (db_votes (db <| db_votes := ?t |>)) with t. cbn.
    rewrite lookup_union_Some, Hrows; [done|]. apply map_disjoint_spec. intros k' v1 v2 H1 H2.
    by rewrite (committed_free _ _ _ _ _ H1) in H2.
Qed.

Lemma replace_votes_Err faults votes db db' e :
  replace_votes faults votes db = (db', Err e) ->
  exists others, meanwhile faults (db_votes db) others
    /\ db' = db <| db_votes := db_votes db ∪ others |>.
Proof.
  unfold replace_votes, commit.
  assert (exists others, meanwhile faults (db_votes db) others
            /\ db = db <| db_votes := db_votes db ∪ others |>) as Hnone
    by (exists ∅; split; [apply none_meanwhile|apply with_votes]).
  destruct (tf_begin faults); [by intros [= <- _]|]. destruct (tf_delete faults); [by intros [= <- _]|].
  destruct (tf_commit faults); [|destruct (rx_aborted _); [|done]]; intros [= <- _];
    eexists; (split; [apply committed_meanwhile|reflexivity]).
Qed.

(** C33. The vote repair replaces the table or leaves the database alone: whatever fails, and
    whatever other sessions commit while its transaction runs, a run that does not end in a
    success leaves every row as it was; one that does has put exactly the decoded votes in
    the place of those it met, one row for each, and touched no other table. Beside them are
    only rows other sessions committed during the transaction, under keys that neither an old
    row nor a decoded vote has; a run that is not disturbed has none. *)
Theorem repair_all_or_nothing run db :
  match repair run db with
  | (db', Done n) =>
      exists votes others, fst (read_votes run (rr_conn run) O) = Ok (Some votes)
      /\ NoDup (map vote_key_of votes) /\ n = Z.of_nat (length votes)
      /\ meanwhile (rr_faults run) (db_votes db) others
      /\ (forall v, v ∈ votes -> others !! vote_key_of v = None)
      /\ (forall k v, db_votes db' !! k = Some v
            <-> (v ∈ votes /\ vote_key_of v = k) \/ others !! k = Some v)
      /\ db' = db <| db_votes := db_votes db' |>
  | (db', _) =>
      exists others, meanwhile (rr_faults run) (db_votes db) others
      /\ db' = db <| db_votes := db_votes db ∪ others |>
  end.
Proof.
  assert (exists others, meanwhile (rr_faults run) (db_votes db) others
            /\ db = db <| db_votes := db_votes db ∪ others |>) as Hnone
    by (exists ∅; split; [apply none_meanwhile|apply with_votes]).
  unfold repair. destruct (rr_ping run); [done|]. destruct (rr_backup run); [done|].
  destruct (fst (read_votes run (rr_conn run) O)) as [[votes|]|e] eqn:Er; try done.
  destruct (replace_votes _ _ _) as [db' [n|e]] eqn:Ev.
  - destruct (replace_votes_Ok _ _ _ _ _ Ev) as [others H]. by exists votes, others.
  - by apply replace_votes_Err in Ev.
Qed.

(** C34. The vote repair cannot repair a database with a changed vote: where no call fails and
    no other session writes, the run succeeds exactly when no two decoded votes share voter
    and voting id; a voter who voted twice on a proposal aborts the transaction, the run ends
    in an error at the commit and the table stays as it was. *)
Theorem repair_refuses_revotes run db votes :
  rr_ping run = None -> rr_backup run = None -> rr_faults run = no_tx_faults ->
  fst (read_votes run (rr_conn run) O) = Ok (Some votes) ->
  ((exists n, (repair run db).2 = Done n) <-> NoDup (map vote_key_of votes))
  /\ (~ NoDup (map vote_key_of votes) ->
      repair run db
      = (db, Fatal (EWrap "failed to commit transaction"
                      (EMsg "commit unexpectedly resulted in rollback")))).
Proof.
  intros Hp Hb Hf Hr. unfold repair. rewrite Hp, Hb, Hr, Hf. unfold replace_votes, commit.
  cbn [no_tx_faults tf_begin tf_delete tf_commit].
  pose proof (insert_votes_iff (db_votes db) votes) as Hiff.
  destruct (rx_aborted (insert_votes _ _ votes _)) eqn:Ea; cbn.
  - split; [|intros _; f_equal; rewrite committed_none; symmetry; apply with_votes].
    split; [by intros [n ?]|]. intros H%Hiff. done.
  - split; [split; [tauto|by eexists]|]. intros H. destruct H. by apply Hiff.
Qed.

(** ** Decoding *)

Lemma hex_value_digit n : (n < 16)%nat -> hex_value (hex_digit n) = Some n.
Proof. intros H. do 16 (destruct n as [|n]; [reflexivity|]). lia. Qed.

(** The hex text of the data column decodes to the bytes it was made from. *)
Lemma hex_decode_encode s : hex_decode (hex_encode s) = Some s.
Proof.
  induction s as [|c s IH]; [done|]. cbn [hex_encode hex_decode].
  pose proof (nat_ascii_bounded c) as Hb.
  rewrite !hex_value_digit by (apply Nat.mod_upper_bound || apply Nat.Div0.div_lt_upper_bound; lia).
  cbn [mbind option_bind]. rewrite IH. cbn [mbind option_bind].
  rewrite <- (Nat.div_mod_eq (nat_of_ascii c) 16). by rewrite ascii_nat_embedding.
Qed.

(** The later inputs of a call overwrite the map they are added to. *)
Lemma collect_from_lookup (l : list (string * AbiArg)) (m : gmap string string) k :
  fold_left (fun m '(p, a) => <[p := formatArg a]> m) l m !! k
  = match fold_left (fun m '(p, a) => <[p := formatArg a]> m) l (∅ : gmap string string) !! k with
    | Some x => Some x
    | None => m !! k
    end.
Proof.
  revert m. induction l as [|[p a] l IH]; intros m; cbn [fold_left].
  - by rewrite lookup_empty.
  - rewrite (IH (<[p := _]> m)), (IH (<[p := _]> ∅)). case_match; [done|].
    destruct (decide (p = k)) as [->|Hne]; [by rewrite !lookup_insert_eq|].
    by rewrite !lookup_insert_ne, lookup_empty.
Qed.

(** Both decoders read the same inputs out of a call whose arguments decode. *)
Lemma decodeFromAbi_inputs abi data t :
  tryDecodeFromAbi data (Some abi) = Some t -> is_ok (abi_DecodeFunction abi data) = true ->
  exists d, decodeFromAbi data abi = Some d
    /\ forall k, k <> "_method" -> get_str d k = get_str (tx_Inputs t) k.
Proof.
  unfold tryDecodeFromAbi, decodeFromAbi. destruct (take_bytes 4 data) as [sig|]; [|done].
  cbn [mbind option_bind]. destruct (find_entry sig _) as [e|]; [|done].
  cbn [mbind option_bind]. destruct (_ && _).
  - destruct (abi_DecodeFunction abi data) as [args|]; [|done]. intros [= <-] _.
    eexists. split; [done|]. intros k Hk. unfold get_str, collect_inputs. simpl.
    rewrite collect_from_lookup. case_match; [done|].
    by rewrite lookup_insert_ne, lookup_empty.
  - intros [= <-] _. eexists. split; [done|]. intros k Hk. unfold get_str. simpl.
    by rewrite lookup_insert_ne, !lookup_empty.
Qed.

(** ** The live indexer's votes *)

(** The script's owners are the names the indexer's pillar cache knows. *)
Definition owners_agree (env : Env) (pillarOwners : gmap string string) : Prop :=
  forall name, match pillarOwners !! name with
               | Some owner => owner <> "" /\ getPillarOwnerAddress env name = owner
               | None => getPillarOwnerAddress env name = ""
               end.

Lemma resolve_voter_matches env owners b d decoded paired :
  owners_agree env owners -> ab_Method b = tx_Method d -> ab_Address b = nb_Address paired ->
  get_str decoded "name" = get_str (tx_Inputs d) "name" ->
  resolveVoterAddress b decoded owners = voter_address env (tx_Method d) d paired.
Proof.
  intros Ho Hm Ha Hn. unfold resolveVoterAddress, voter_address. rewrite Hm, Ha, Hn.
  destruct (String.eqb _ _); [|done]. destruct (str_empty _); [done|].
  specialize (Ho (get_str (tx_Inputs d) "name")).
  destruct (owners !! _) as [owner|]; [|by rewrite Ho].
  destruct Ho as [Hne ->]. by destruct owner.
Qed.

(** A vote call the indexer decodes with the accelerator's ABI. *)
Definition vote_call (sdk : Sdk) (paired : NomBlock) (d : TxData) : Prop :=
  nb_ToAddress paired = AcceleratorAddress
  /\ tryDecodeTxData sdk paired = Some d
  /\ tryDecodeFromAbi (nb_Data paired) (Some (sdk_Common sdk)) = None
  /\ is_ok (abi_DecodeFunction (sdk_Accelerator sdk) (nb_Data paired)) = true
  /\ (tx_Method d = "VoteByName" \/ tx_Method d = "VoteByProdAddress").

Lemma vote_call_decodes sdk paired d :
  vote_call sdk paired d ->
  nb_Data paired <> "" /\ exists decoded, decode_call sdk (nb_Data paired) = Some decoded
    /\ forall k, k <> "_method" -> get_str decoded k = get_str (tx_Inputs d) k.
Proof.
  intros (Hto & Hd & Hcommon & Hok & _). unfold tryDecodeTxData in Hd.
  destruct (nb_Data paired) as [|a data] eqn:Ed; [done|]. cbn [str_empty] in Hd.
  rewrite Hto, Hcommon in Hd. cbn [named] in Hd. simpl in Hd.
  split; [done|]. apply named_Some in Hd as [Hd _].
  destruct (decodeFromAbi_inputs _ _ _ Hd Hok) as (decoded & Hdec & Hin).
  exists decoded. split; [|done]. unfold decode_call. by rewrite Hdec.
Qed.

(** C35. The vote repair reads the votes the live indexer wrote: for a stored vote call the
    indexer decodes with the accelerator's ABI, the script takes the voter, the voting id
    and the vote of the row the live handler inserts, or nothing where the handler inserts
    nothing, provided the pillars table the script reads and the indexer's cache give every
    name the same owner. For a vote by name that agreement is what the voter rests on: a
    pillar renamed or taken over since the vote resolves to its owner of the table now. *)
Theorem repair_matches_live env block paired d m m0 row owners :
  cb_PairedAccountBlock block = Some paired -> vote_call (env_sdk env) paired d ->
  stored_as m0 (mkChainBlock paired None None []) row -> ab_Method row = tx_Method d ->
  owners_agree env owners ->
  indexAcceleratorContract env block d m
  = match decode_block (env_sdk env) owners row with
    | Some (voter, votingID, vote) =>
        let ids := resolve_voting_id env votingID in
        [SVoteInsert (mkVote 0 (cm_Hash m) (m_ts m) (m_height m) voter (fst ids) (snd ids)
                        votingID vote)]
    | None => []
    end.
Proof.
  intros Hcp Hcall [= _ _ _ _ _ _ Haddr _ _ _ Hdata] Hmeth Hown.
  pose proof (vote_call_decodes _ _ _ Hcall) as (Hne & decoded & Hdec & Hin).
  destruct Hcall as (_ & _ & _ & _ & Hv).
  unfold decode_block. rewrite Hdata. destruct (str_empty (nb_Data paired)) eqn:Ee;
    [by destruct (nb_Data paired)|].
  rewrite hex_decode_encode. cbn [mbind option_bind]. rewrite Hdec. cbn [mbind option_bind].
  rewrite !(Hin "id"), !(Hin "vote") by done.
  rewrite (resolve_voter_matches env owners row d decoded paired Hown Hmeth Haddr)
    by (by apply Hin).
  unfold indexAcceleratorContract. rewrite Hcp.
  assert (Hm : String.eqb (tx_Method d) "VoteByName"
               || String.eqb (tx_Method d) "VoteByProdAddress" = true)
    by (by destruct Hv as [-> | ->]).
  rewrite Hm. destruct (str_empty (get_str (tx_Inputs d) "id")); [done|].
  by destruct (resolve_voting_id env _).
Qed.

(** ** Sample runs *)

(** Two vote calls of one pillar on one proposal: no, then yes. *)
Definition vote_send (hash vote : string) : NomBlock :=
  mkNomBlock hash BlockTypeUserSend 1 "z1owner" AcceleratorAddress (Some 0) ZnnTokenStandard
    ("votep1,pillar-one," +:+ vote) "".

Definition vote_row (m : ChainMomentum) (b : NomBlock) : AccountBlock :=
  (block_row m (mkChainBlock b None None [])) <| ab_Method := "VoteByName" |>
    <| ab_PairedAccountBlock := "r" |>.

Definition votes_db (blocks : list AccountBlock) : Db :=
  empty_db <| db_account_blocks := list_to_map (map (fun b => (ab_Hash b, b)) blocks) |>.

Definition repair_run (db : Db) : RepairRun :=
  mkRepairRun toy_sdk None None (steady (mkView db scan_id (fun _ _ => true) 0)) no_tx_faults.

Definition one_vote_db : Db := votes_db [vote_row (toy_momentum 5 []) (vote_send "v1" "1")].

Definition two_votes_db : Db :=
  votes_db [vote_row (toy_momentum 5 []) (vote_send "v1" "1");
            vote_row (toy_momentum 6 []) (vote_send "v2" "0")].

(** A vote of another session, on another proposal, committed while the transaction runs. *)
Definition other_vote : Vote := mkVote 0 "m9" 1090 9 "z1other" "" "" "p9" 0.

Example repair_disturbed :
  let faults := mkTxFaults None None (fun _ => None) None
                  (fun _ => {[vote_key_of other_vote := other_vote]}) in
  let run := mkRepairRun toy_sdk None None (rr_conn (repair_run one_vote_db)) faults in
  let '(db', e) := repair run one_vote_db in
  e = Done 1 /\ map vote_VoterAddress (map snd (map_to_list (db_votes db'))) = ["z1other"; "z1owner"].
Proof. vm_compute. by split. Qed.

Example repair_one_vote : (repair (repair_run one_vote_db) one_vote_db).2 = Done 1.
Proof. vm_compute. reflexivity. Qed.

Lemma repair_refuses_revotes_witness :
  let votes := match fst (read_votes (repair_run two_votes_db)
                            (rr_conn (repair_run two_votes_db)) O) with
               | Ok (Some votes) => votes
               | _ => []
               end in
  length votes = 2%nat
  /\ repair (repair_run two_votes_db) two_votes_db
     = (two_votes_db, Fatal (EWrap "failed to commit transaction"
                               (EMsg "commit unexpectedly resulted in rollback"))).
Proof.
  split; [vm_compute; reflexivity|].
  refine (proj2 (repair_refuses_revotes (repair_run two_votes_db) two_votes_db _
                   eq_refl eq_refl eq_refl eq_refl) _).
  vm_compute. intros H. inversion H as [|? ? Hn]. apply Hn. left.
Defined.

Lemma repair_matches_live_witness :
  let m := toy_momentum 6 [] in
  let paired := vote_send "v1" "1" in
  let block := contract_receive "r" AcceleratorAddress paired in
  let env := toy_env empty_db [block] in
  let d := default NewTxData (tryDecodeTxData toy_sdk paired) in
  let row := vote_row (toy_momentum 5 []) paired in
  decode_block toy_sdk (<["pillar-one" := "z1owner"]> ∅) row = Some ("z1owner", "p1", 1)
  /\ indexAcceleratorContract env block d m
     = [SVoteInsert (mkVote 0 "m6" 1060 6 "z1owner" "" "" "p1" 1)].
Proof.
  split; [vm_compute; reflexivity|].
  rewrite (repair_matches_live
             (toy_env empty_db [contract_receive "r" AcceleratorAddress (vote_send "v1" "1")])
             (contract_receive "r" AcceleratorAddress (vote_send "v1" "1"))
             (vote_send "v1" "1") _ (toy_momentum 6 []) (toy_momentum 5 [])
             (vote_row (toy_momentum 5 []) (vote_send "v1" "1"))
             (<["pillar-one" := "z1owner"]> ∅)).
  - vm_compute. reflexivity.
  - reflexivity.
  - repeat split; try (vm_compute; reflexivity). by left.
  - reflexivity.
  - vm_compute. reflexivity.
  - intros name. change (getPillarOwnerAddress _ name)
      with (get_str (<["pillar-one" := "z1owner"]> ∅) name). unfold get_str.
    destruct (decide (name = "pillar-one")) as [->|Hne];
      [rewrite lookup_insert_eq; by split|].
    by rewrite lookup_insert_ne, lookup_empty by done.
Defined.

(** ** The dump precedes every change *)

(** The repair changes tables only when it ends with its rows inserted, and then the dump was
    reported as made. *)
Lemma repair_changes run db db' r :
  repair run db = (db', r) -> db' <> db \/ (exists n, r = Done n) ->
  rr_ping run = None /\ rr_backup run = None.
Proof.
  unfold repair. destruct (rr_ping run); [intros [= <- <-] [?|[n ?]]; done|].
  destruct (rr_backup run); [intros [= <- <-] [?|[n ?]]; done|done].
Qed.

(** A dump that is reported as made holds all pg_dump wrote, and pg_dump ended well. *)
Lemma backedUp_complete gzip getenv bk fs fs' file size :
  backupVotesTable gzip getenv bk fs = (fs', BackedUp file size) ->
  file = backup_file bk /\ bk_wait bk (dump_args getenv) = None
  /\ fs' = <[file := gzip (bk_stdout bk (dump_args getenv))]> fs
  /\ exists out, bk_output bk docker_ps = Ok out /\ contains (container_name getenv) out = true.
Proof.
  unfold backupVotesTable. destruct (bk_output bk docker_ps) as [out|e]; [|done].
  destruct (contains _ out) eqn:Ec; cbn [negb]; [|done].
  destruct (bk_mkdir bk); [done|]. destruct (bk_pipe bk); [done|].
  destruct (bk_start bk _); [done|]. destruct (bk_create bk); [done|].
  unfold deferred_close. intros H.
  assert (forall r : Files * BackupEnd, match bk_file_close bk with Some _ => r | None => r end = r)
    as Hd by (intros r; by destruct (bk_file_close bk)).
  rewrite Hd in H. revert H.
  destruct (bk_copy bk) as [[]|]; [done|]. destruct (bk_close bk) as [[]|]; [done|].
  destruct (bk_wait bk _); [done|]. destruct (bk_stat bk); [|done].
  intros [= <- <- _]. split_and!; try done. by eexists.
Qed.

(** C32. No vote is touched without its backup: whatever fails - the environment, the pool,
    Docker, the dump, the files or the transaction - a run of repair-votes that changed a
    table, or that reports votes inserted, has before that written to the backup file, and
    to no other, the compressed whole of what pg_dump printed of the votes table, with
    pg_dump ending well, against a container the running ones' names mention. *)
Theorem backup_before_repair gzip getenv newPool bk run fs db fs' db' e :
  repair_main gzip getenv newPool bk run fs db = (fs', db', e) ->
  db' <> db \/ (exists n, e = MainEnded (Done n)) ->
  (exists connStr, buildConnString getenv = Ok connStr /\ newPool connStr = None)
  /\ (exists out, bk_output bk docker_ps = Ok out /\ contains (container_name getenv) out = true)
  /\ bk_wait bk (dump_args getenv) = None
  /\ fs' = <[backup_file bk := gzip (bk_stdout bk (dump_args getenv))]> fs.
Proof.
  assert (forall r x, (MainEnded r : MainEnd) = e -> db' <> db \/ (exists n, e = MainEnded (Done n)) ->
            repair x db = (db', r) -> rr_ping x = None /\ rr_backup x = None) as Hc.
  { intros r x <- Hd Hx. apply (repair_changes x db db' r Hx).
    destruct Hd as [?|[n [= ->]]]; [by left|right; by eexists]. }
  unfold repair_main. destruct (buildConnString getenv) as [conn|err]; cycle 1.
  { intros [= <- <- <-] [?|[n ?]]; done. }
  destruct (newPool conn) eqn:En; [intros [= <- <- <-] [?|[n ?]]; done|].
  destruct (rr_ping run) eqn:Ep.
  { intros [= <- <- <-] Hd. by destruct (Hc _ _ eq_refl Hd (surjective_pairing _)) as [? _]; congruence. }
  destruct (backupVotesTable gzip getenv bk fs) as [fs1 [file size|err|]] eqn:Eb; intros [= <- <- <-] Hd.
  - destruct (backedUp_complete _ _ _ _ _ _ _ Eb) as (-> & Hw & -> & Hout).
    split_and!; [by exists conn|done..].
  - by destruct Hd as [?|[n ?]].
  - by destruct Hd as [?|[n ?]].
Qed.

(** A server with a dump to give, whose container's name only mentions the one asked for. *)
Definition toy_getenv (key : string) : string :=
  if String.eqb key "DATABASE_PASSWORD" then "secret" else "".

Definition toy_backup (names : string) : BackupRun :=
  mkBackupRun (fun _ => Ok names) None (fun _ => None) (fun _ => "CREATE TABLE votes") (fun _ => None)
    "20240101_120000" None None None None None (Ok 18).

Definition toy_gzip (s : string) : string := "gz:" +:+ s.

Lemma backup_before_repair_witness :
  let '(fs', _, e) := repair_main toy_gzip toy_getenv (fun _ => None)
                        (toy_backup "nom-indexer-postgres") (repair_run one_vote_db) ∅ one_vote_db in
  e = MainEnded (Done 1)
  /\ fs' = {["scripts/backups/votes_backup_20240101_120000.sql.gz" := "gz:CREATE TABLE votes"]}.
Proof.
  destruct (repair_main _ _ _ _ _ _ _) as [[fs' db'] e] eqn:E.
  assert (e = MainEnded (Done 1)) as Ee.
  { transitivity (repair_main toy_gzip toy_getenv (fun _ => None) (toy_backup "nom-indexer-postgres")
      (repair_run one_vote_db) ∅ one_vote_db).2; [by rewrite E|vm_compute; reflexivity]. }
  split; [exact Ee|].
  destruct (backup_before_repair toy_gzip toy_getenv (fun _ => None) (toy_backup "nom-indexer-postgres")
              (repair_run one_vote_db) ∅ one_vote_db fs' db' e E) as (_ & _ & _ & ->).
  - right. exists 1. exact Ee.
  - vm_compute. reflexivity.
Defined.

(** The deferred close of the file fails, the run reports the backup and goes on. *)
Example close_error_dropped :
  let bk := mkBackupRun (fun _ => Ok "nom-indexer-postgres") None (fun _ => None)
              (fun _ => "CREATE TABLE votes") (fun _ => None) "t" None None None None
              (Some (EMsg "close: input/output error")) (Ok 18) in
  (repair_main toy_gzip toy_getenv (fun _ => None) bk (repair_run one_vote_db) ∅ one_vote_db).2
  = MainEnded (Done 1).
Proof. vm_compute. reflexivity. Qed.

(** The check for the container is one for its name anywhere in the list: a container that is
    not running passes it when another's name has its name in it. The dump then fails, and
    leaves a file without a dump behind. *)
Example container_check_by_substring :
  let bk := mkBackupRun (fun _ => Ok "nom-indexer-postgres-old") None (fun _ => None) (fun _ => "")
              (fun _ => Some (EMsg "exit status 1")) "t" None None None None None (Ok 0) in
  backupVotesTable toy_gzip toy_getenv bk ∅
  = ({["scripts/backups/votes_backup_t.sql.gz" := "gz:"]},
     BackupFailed (EWrap "pg_dump failed" (EMsg "exit status 1"))).
Proof. vm_compute. reflexivity. Qed.
