(* ===== verification/PhaseOutreach.v ===== *)
(** scripts/phase-outreach/main.go: the pillars to ask for a vote on a phase, in three tiers,
    and how far the phase is from its quorum. The report's text and the
    whole of [main] are at the end. Not modelled: a connection lost while rows stream, which the script
    does not look for. *)

From S2P Require Import Prelude.
From S2P Require Import Models.
From S2P Require Import RepoContracts.
From S2P Require Import Database.
From S2P Require Import Queries.
From S2P Require Import Text.
From S2P Require Import RepairVotes.
#[local] Open Scope string_scope.
#[local] Open Scope Z_scope.

Record pillarEntry : Type := mkpillarEntry {
  pe_Name : string;
  pe_Note : string;
  pe_ProposalsVoted : Z;
  pe_YesVotes : Z;
  pe_NoVotes : Z;
  pe_AbstainVotes : Z
}.

Definition noted (name note : string) : pillarEntry := mkpillarEntry name note 0 0 0 0.

(** ** Rows and conditions *)

Definition votes_of (v : View) : list Vote := rows_of v (db_votes (vw_db v)).

Definition on_phase (phaseID : string) (x : Vote) : bool := String.eqb (vote_PhaseID x) phaseID.

Definition on_project (projectID : string) (x : Vote) : bool :=
  String.eqb (vote_ProjectID x) projectID && str_empty (vote_PhaseID x).

(** [v.voter_address IN (SELECT voter_address FROM votes WHERE ...)]. *)
Definition voter_in (cond : Vote -> bool) (x : Vote) (v : View) : bool :=
  existsb (fun y => String.eqb (vote_VoterAddress y) (vote_VoterAddress x) && cond y) (votes_of v).

(** [JOIN pillars p ON p.owner_address = v.voter_address], of any pillar or the active ones. *)
Definition pillar_of_voter (x : Vote) (v : View) : option Pillar :=
  db_pillars (vw_db v) !! vote_VoterAddress x.

Definition active_pillar_of_voter (x : Vote) (v : View) : option Pillar :=
  p ← pillar_of_voter x v; if pil_IsRevoked p then None else Some p.

(** The votes that satisfy a condition, with their active pillar. *)
Definition joined (cond : Vote -> bool) (v : View) : list (Vote * Pillar) :=
  omap (fun x => p ← active_pillar_of_voter x v; if cond x then Some (x, p) else None) (votes_of v).

(** [CASE v.vote ... END], NULL for any other value. *)
Definition vote_label (vote : Z) : option string :=
  if vote =? 0 then Some "Yes" else if vote =? 1 then Some "No"
  else if vote =? 2 then Some "Abstain" else None.

(** ** The queries *)

Definition count_if {V} (cond : V -> bool) (l : list V) : Z := count (List.filter cond l).

(** [COUNT(DISTINCT col)]. *)
Definition count_distinct (col : Vote -> string) (l : list Vote) : Z :=
  Z.of_nat (size (list_to_set (map col l) : gset string)).

Record VoteCounts : Type := mkVoteCounts {
  vc_total : Z;
  vc_yes : Z;
  vc_no : Z;
  vc_abstain : Z;
  vc_uniqueVoters : Z
}.

Definition vote_counts (phaseID : string) (v : View) : VoteCounts :=
  let l := List.filter (on_phase phaseID) (votes_of v) in
  mkVoteCounts (count l) (count_if (fun x => vote_Vote x =? 0) l)
    (count_if (fun x => vote_Vote x =? 1) l) (count_if (fun x => vote_Vote x =? 2) l)
    (count_distinct vote_VoterAddress l).

Definition active_pillars (v : View) : Z :=
  count_if (fun p => negb (pil_IsRevoked p)) (rows_of v (db_pillars (vw_db v))).

(** [DISTINCT ON (p.name)]: of the rows of a name, the first the scan meets. *)
Fixpoint distinct_on (seen : list string) (l : list (string * option string))
  : list (string * option string) :=
  match l with
  | [] => []
  | (name, vote) :: rest =>
      if bool_decide (name ∈ seen) then distinct_on seen rest
      else (name, vote) :: distinct_on (name :: seen) rest
  end.

(** The rows the loop keeps: scanning a NULL into a string fails, which leaves the vote empty
    and closes the rows. *)
Fixpoint scan_votes (l : list (string * option string)) : list (string * string) :=
  match l with
  | [] => []
  | (name, Some vote) :: rest => (name, vote) :: scan_votes rest
  | (name, None) :: _ => [(name, "")]
  end.

Definition current_votes (phaseID : string) (v : View) : list (string * string) :=
  scan_votes
    (order_by (fun a b => vw_collate v (fst a) (fst b))
       (distinct_on []
          (omap (fun x => p ← pillar_of_voter x v;
                          if on_phase phaseID x then Some (pil_Name p, vote_label (vote_Vote x))
                          else None)
             (votes_of v)))).

(** Voted yes on the project, and not on the phase. *)
Definition tier1_cond (projectID phaseID : string) (v : View) (x : Vote) : bool :=
  on_project projectID x && (vote_Vote x =? 0) && negb (voter_in (on_phase phaseID) x v).

Definition tier1 (projectID phaseID : string) (v : View) : list pillarEntry :=
  map (fun name => noted name "Voted YES on project")
    (order_by (vw_collate v)
       (remove_dups (map (fun '(_, p) => pil_Name p) (joined (tier1_cond projectID phaseID v) v)))).

(** Voted no or abstained on the project, never yes, and not on the phase. *)
Definition tier2_cond (projectID phaseID : string) (v : View) (x : Vote) : bool :=
  on_project projectID x && ((vote_Vote x =? 1) || (vote_Vote x =? 2))
  && negb (voter_in (on_phase phaseID) x v)
  && negb (voter_in (fun y => on_project projectID y && (vote_Vote y =? 0)) x v).

Definition tier2 (projectID phaseID : string) (v : View) : list pillarEntry :=
  map (fun '(name, label) => noted name ("Voted " +:+ label +:+ " on project"))
    (order_by (fun a b => vw_collate v (fst a) (fst b))
       (remove_dups (map (fun '(x, p) => (pil_Name p, default "" (vote_label (vote_Vote x))))
                       (joined (tier2_cond projectID phaseID v) v)))).

(** Voted neither on the project nor on the phase, but on five proposals or more. *)
Definition tier3_cond (projectID phaseID : string) (v : View) (x : Vote) : bool :=
  negb (voter_in (on_phase phaseID) x v) && negb (voter_in (on_project projectID) x v).

Definition tier3_entry (rows : list (Vote * Pillar)) (name : string) : pillarEntry :=
  let votes := map fst (List.filter (fun '(_, p) => String.eqb (pil_Name p) name) rows) in
  mkpillarEntry name "" (count_distinct vote_VotingID votes)
    (count_if (fun x => vote_Vote x =? 0) votes) (count_if (fun x => vote_Vote x =? 1) votes)
    (count_if (fun x => vote_Vote x =? 2) votes).

Definition tier3 (projectID phaseID : string) (v : View) : list pillarEntry :=
  let rows := joined (tier3_cond projectID phaseID v) v in
  order_by (desc pe_ProposalsVoted)
    (List.filter (fun e => 5 <=? pe_ProposalsVoted e)
       (map (tier3_entry rows) (remove_dups (map (fun '(_, p) => pil_Name p) rows)))).

(** The phase with its project's name. *)
Definition phase_and_project (phaseID : string) (v : View)
  : result (string * string * string * Z) :=
  phase ← lookup_row phaseID (db_project_phases (vw_db v));
  project ← lookup_row (ph_ProjectID phase) (db_projects (vw_db v));
  Ok (ph_Name phase, ph_ProjectID phase, prj_Name project, ph_Status phase).

(** ** [main] *)

Record Outreach : Type := mkOutreach {
  or_phaseName : string;
  or_projectName : string;
  or_votes : VoteCounts;
  or_activePillars : Z;
  or_quorum : Z;
  or_votesNeeded : Z;
  or_currentVotes : list (string * string);
  or_tier1 : list pillarEntry;
  or_tier2 : list pillarEntry;
  or_tier3 : list pillarEntry
}.

(** A third of the active pillars, and one at least. *)
Definition quorum (activePillars : Z) : Z :=
  let q := Z.quot activePillars 3 in if q =? 0 then 1 else q.

Definition votesNeeded (quorum uniqueVoters : Z) : Z :=
  if quorum - uniqueVoters <? 0 then 0 else quorum - uniqueVoters.

Definition status_label (phaseStatus : Z) : string :=
  if phaseStatus =? 1 then "Accepted" else if phaseStatus =? 2 then "Rejected"
  else "Unknown(" +:+ format_int phaseStatus +:+ ")".

(** What the script reports, or the error it dies with. *)
Definition outreach (phaseID : string) : Q Outreach :=
  found ← wrapped ("phase " +:+ phaseID +:+ " not found")
            (statement (phase_and_project phaseID));
  let '(phaseName, projectID, projectName, phaseStatus) := found in
  if negb (phaseStatus =? 0) then
    fail (EMsg ("phase is already " +:+ status_label phaseStatus +:+ " (status="
                +:+ format_int phaseStatus +:+ "), no outreach needed"))
  else
    counts ← wrapped "failed to get vote counts"
               (statement (fun v => Ok (vote_counts phaseID v)));
    active ← wrapped "failed to count pillars" (statement (fun v => Ok (active_pillars v)));
    current ← wrapped "failed to query current votes"
                (statement (fun v => Ok (current_votes phaseID v)));
    t1 ← wrapped "failed to query tier 1" (statement (fun v => Ok (tier1 projectID phaseID v)));
    t2 ← wrapped "failed to query tier 2" (statement (fun v => Ok (tier2 projectID phaseID v)));
    t3 ← wrapped "failed to query tier 3" (statement (fun v => Ok (tier3 projectID phaseID v)));
    mret (mkOutreach phaseName projectName counts active (quorum active)
            (votesNeeded (quorum active) (vc_uniqueVoters counts)) current t1 t2 t3).

(** ** The report *)

Definition newline : ascii := ascii_of_nat 10.

(** [Fprintf] of formats that end with a line feed, one line or more. *)
Definition ln (s : string) : string := s +:+ String newline "".
Definition lns (l : list string) : string := String.concat "" (map ln l).

(** [| a | b |] *)
Definition table_row (cells : list string) : string :=
  "|" +:+ String.concat "" (map (fun c => " " +:+ c +:+ " |") cells).

(** The lines before the tiers. *)
Definition heading_lines (phaseID generated : string) (o : Outreach) : list string :=
  ["# Phase Outreach: " +:+ or_phaseName o; "";
   "**Project:** " +:+ or_projectName o;
   "**Phase:** " +:+ or_phaseName o;
   "**Phase ID:** `" +:+ phaseID +:+ "`";
   "**Status:** Pending (not yet approved)";
   "**Generated:** " +:+ generated; ""].

Definition votes_needed_row (o : Outreach) : string :=
  let unique := vc_uniqueVoters (or_votes o) in
  if 0 <? or_votesNeeded o
  then table_row ["**Votes Needed**";
                  "**" +:+ format_int (or_votesNeeded o) +:+ " more to reach quorum**"]
  else table_row ["**Votes Needed**";
                  "**Quorum reached! (" +:+ format_int unique +:+ " >= "
                  +:+ format_int (or_quorum o) +:+ ")**"].

Definition current_votes_lines (o : Outreach) : list string :=
  let v := or_votes o in
  ["## Current Votes"; "";
   "| Metric | Value |"; "|--------|-------|";
   table_row ["Phase Votes";
              format_int (vc_yes v) +:+ " Yes / " +:+ format_int (vc_no v) +:+ " No / "
              +:+ format_int (vc_abstain v) +:+ " Abstain (" +:+ format_int (vc_uniqueVoters v)
              +:+ " unique voters)"];
   table_row ["Active Pillars"; format_int (or_activePillars o)];
   table_row ["Quorum"; format_int (or_quorum o) +:+ " (1/3 of active pillars)"];
   votes_needed_row o;
   ""; "### Pillars who already voted"; "";
   "| Pillar | Vote |"; "|--------|------|"]
  ++ map (fun pv => table_row [fst pv; snd pv]) (or_currentVotes o).

(** The cells of a pillar in the tables of the first two tiers and of the third, numbered
    from one. *)
Definition note_cells (i : nat) (e : pillarEntry) : list string :=
  [format_int (Z.of_nat i + 1); pe_Name e; pe_Note e].

Definition count_cells (i : nat) (e : pillarEntry) : list string :=
  [format_int (Z.of_nat i + 1); pe_Name e; format_int (pe_ProposalsVoted e);
   format_int (pe_YesVotes e); format_int (pe_NoVotes e); format_int (pe_AbstainVotes e)].

(** A tier's section: its title, its remark, and its table or that there is nobody. *)
Definition tier_lines (title remark nobody : string) (header : list string)
    (cells : nat -> pillarEntry -> list string) (tier : list pillarEntry) : list string :=
  [""; title; ""; remark; ""]
  ++ match tier with
     | [] => [nobody]
     | _ => header ++ imap (fun i e => table_row (cells i e)) tier
     end.

Definition note_header : list string := ["| # | Pillar | Note |"; "|---|--------|------|"].
Definition count_header : list string :=
  ["| # | Pillar | Proposals Voted | Yes | No | Abstain |";
   "|---|--------|---------------:|----:|---:|--------:|"].

Definition tier1_title : string := "## Tier 1: Voted YES on project, haven't voted on this phase".
Definition tier2_title : string :=
  "## Tier 2: Voted on project (No/Abstain), haven't voted on this phase".
Definition tier3_title : string :=
  "## Tier 3: Active voters who didn't vote on this project or phase".

Definition tier1_lines (o : Outreach) : list string :=
  tier_lines tier1_title "> Most likely to vote YES — they already approved the project."
    "_(none)_" note_header note_cells (or_tier1 o).

Definition tier2_lines (o : Outreach) : list string :=
  tier_lines tier2_title "> Engaged with this project but didn't vote Yes."
    "_(none)_" note_header note_cells (or_tier2 o).

Definition tier3_lines (o : Outreach) : list string :=
  tier_lines tier3_title "> Ranked by number of unique proposals voted on (min 5)."
    "_(none with 5+ proposals voted)_" count_header count_cells (or_tier3 o).

Definition summary_lines (o : Outreach) : list string :=
  let n l := format_int (Z.of_nat (length (A := pillarEntry) l)) in
  let total := Z.of_nat (length (or_tier1 o) + length (or_tier2 o) + length (or_tier3 o)) in
  [""; "## Summary"; "";
   "- **" +:+ n (or_tier1 o) +:+ " Tier 1** + **" +:+ n (or_tier2 o) +:+ " Tier 2** + **"
   +:+ n (or_tier3 o) +:+ " Tier 3** = **" +:+ format_int total +:+ " pillars** to contact"]
  ++ (if 0 <? or_votesNeeded o
      then ["- **" +:+ format_int (or_votesNeeded o) +:+ " more votes** needed for quorum"]
      else []).

Definition report_lines (phaseID generated : string) (o : Outreach) : list string :=
  heading_lines phaseID generated o ++ current_votes_lines o
  ++ tier1_lines o ++ tier2_lines o ++ tier3_lines o ++ summary_lines o.

Definition report (phaseID generated : string) (o : Outreach) : string :=
  lns (report_lines phaseID generated o).

(** ** The program *)

(** How the script ends: dead with a message, or with the report in a file and on the
    standard output. [today] is the date of the file's name and [generated] the time of the
    report; the write errors are not looked at. *)
Inductive OutreachEnd : Type :=
| OutreachFatal (e : error)
| OutreachSaved (filename text : string).

Definition outreach_main (args : list string) (getenv : string -> string)
    (newPool : string -> option error) (create : option error) (today generated : string)
    (c : Conn) : OutreachEnd :=
  match args with
  | _ :: phaseID :: _ =>
      match buildConnString getenv with
      | Err e => OutreachFatal e
      | Ok connStr =>
          match newPool connStr with
          | Some e => OutreachFatal (EWrap "failed to connect" e)
          | None =>
              match fst (outreach phaseID c O) with
              | Err e => OutreachFatal e
              | Ok o =>
                  let filename := "phase-outreach-" +:+ today +:+ ".md" in
                  match create with
                  | Some e => OutreachFatal (EWrap ("failed to create " +:+ filename) e)
                  | None => OutreachSaved filename (report phaseID generated o)
                  end
              end
          end
      end
  | _ => OutreachFatal (EMsg "usage: go run scripts/phase-outreach/main.go <phase_id>")
  end.
