(* ===== verification/OutreachTheorems.v ===== *)
(** scripts/phase-outreach: who is in which tier, and whom the script takes for silent; and that
    the tables of the tiers can be read back from the report. *)

From S2P Require Import Prelude.
From S2P Require Import Models.
From S2P Require Import RepoContracts.
From S2P Require Import Database.
From S2P Require Import Queries.
From S2P Require Import QueryFacts.
From S2P Require Import Text.
From S2P Require Import KeyTheorems.
From S2P Require Import PhaseOutreach.
#[local] Open Scope string_scope.
#[local] Open Scope Z_scope.

(** ** Voters *)

(** Some vote of the address satisfies the condition. *)
Definition voted (v : View) (cond : Vote -> bool) (owner : string) : Prop :=
  exists x, x ∈ votes_of v /\ vote_VoterAddress x = owner /\ cond x = true.

(** A pillar that is not revoked, its name, and a property of its owner. *)
Definition active_with (v : View) (name : string) (P : string -> Prop) : Prop :=
  exists owner p, db_pillars (vw_db v) !! owner = Some p /\ pil_IsRevoked p = false
    /\ pil_Name p = name /\ P owner.

(** Pillars have names of their own, as the pillar contract requires. *)
Definition names_unique (v : View) : Prop :=
  forall o o' p p', db_pillars (vw_db v) !! o = Some p -> db_pillars (vw_db v) !! o' = Some p' ->
    pil_Name p = pil_Name p' -> o = o'.

Lemma voter_in_spec cond x v :
  voter_in cond x v = true <-> voted v cond (vote_VoterAddress x).
Proof.
  unfold voter_in, voted. rewrite existsb_exists. split.
  - intros (y & Hin & [He%String.eqb_eq Hc]%andb_true_iff). exists y.
    split; [by apply list_elem_of_In|done].
  - intros (y & Hin & He & Hc). exists y. split; [by apply list_elem_of_In|].
    by rewrite He, String.eqb_refl, Hc.
Qed.

Lemma not_voter_in cond x v :
  negb (voter_in cond x v) = true <-> ~ voted v cond (vote_VoterAddress x).
Proof. rewrite negb_true_iff, <- not_true_iff_false. by rewrite voter_in_spec. Qed.

Lemma joined_spec cond v x p :
  (x, p) ∈ joined cond v
  <-> x ∈ votes_of v /\ cond x = true /\ pil_IsRevoked p = false
      /\ db_pillars (vw_db v) !! vote_VoterAddress x = Some p.
Proof.
  unfold joined, active_pillar_of_voter, pillar_of_voter. rewrite list_elem_of_omap. split.
  - intros (y & Hy & E). destruct (db_pillars (vw_db v) !! _) as [q|] eqn:Eq; [|done].
    cbn [mbind option_bind] in E. destruct (pil_IsRevoked q) eqn:Er; [done|].
    cbn [mbind option_bind] in E. destruct (cond y) eqn:Ec; [|done]. by injection E as -> ->.
  - intros (Hx & Hc & Hr & Hp). exists x. split; [done|]. rewrite Hp.
    cbn [mbind option_bind]. rewrite Hr. cbn [mbind option_bind]. by rewrite Hc.
Qed.

(** The pillars of the joined votes, by name. *)
Lemma joined_names cond v (P : string -> Prop) :
  (forall x, x ∈ votes_of v -> cond x = true -> P (vote_VoterAddress x)) ->
  (forall o, P o -> voted v cond o) ->
  forall name, (exists x p, (x, p) ∈ joined cond v /\ pil_Name p = name) <-> active_with v name P.
Proof.
  intros H1 H2 name. split.
  - intros (x & p & (Hx & Hc & Hr & Hp)%joined_spec & Hn).
    exists (vote_VoterAddress x), p. split; [done|]. split; [done|]. split; [done|]. by apply H1.
  - intros (o & p & Hp & Hr & Hn & (x & Hx & <- & Hc)%H2). exists x, p.
    split; [by apply joined_spec|done].
Qed.

Lemma elem_of_joined_names {B} (f : Vote -> Pillar -> B) cond v b :
  b ∈ map (fun '(x, p) => f x p) (joined cond v)
  <-> exists x p, (x, p) ∈ joined cond v /\ f x p = b.
Proof.
  rewrite list_elem_of_fmap. split.
  - intros ([x p] & -> & Hin). eauto.
  - intros (x & p & Hin & <-). by exists (x, p).
Qed.

(** ** Tiers *)

Section tiers.
Context (projectID phaseID : string) (v : View).

Definition yes_on_project (x : Vote) : bool := on_project projectID x && (vote_Vote x =? 0).
Definition other_on_project (x : Vote) : bool :=
  on_project projectID x && ((vote_Vote x =? 1) || (vote_Vote x =? 2)).

Definition in_tier1 (o : string) : Prop :=
  voted v yes_on_project o /\ ~ voted v (on_phase phaseID) o.
Definition in_tier2 (o : string) : Prop :=
  voted v other_on_project o /\ ~ voted v (on_phase phaseID) o /\ ~ voted v yes_on_project o.
(** The votes of an address, on anything. *)
Definition own_votes (o : string) : list Vote :=
  List.filter (fun x => String.eqb (vote_VoterAddress x) o) (votes_of v).
Definition in_tier3 (o : string) : Prop :=
  ~ voted v (on_phase phaseID) o /\ ~ voted v (on_project projectID) o
  /\ 5 <= count_distinct vote_VotingID (own_votes o).

Lemma tier1_cond_spec x :
  tier1_cond projectID phaseID v x = true
  <-> yes_on_project x = true /\ ~ voted v (on_phase phaseID) (vote_VoterAddress x).
Proof. unfold tier1_cond, yes_on_project. by rewrite andb_true_iff, not_voter_in. Qed.

Lemma tier2_cond_spec x :
  tier2_cond projectID phaseID v x = true
  <-> other_on_project x = true /\ ~ voted v (on_phase phaseID) (vote_VoterAddress x)
      /\ ~ voted v yes_on_project (vote_VoterAddress x).
Proof.
  unfold tier2_cond, other_on_project.
  rewrite andb_true_iff, (andb_true_iff _ (negb _)), !not_voter_in. tauto.
Qed.

Lemma tier3_cond_spec x :
  tier3_cond projectID phaseID v x = true
  <-> ~ voted v (on_phase phaseID) (vote_VoterAddress x)
      /\ ~ voted v (on_project projectID) (vote_VoterAddress x).
Proof. unfold tier3_cond. by rewrite andb_true_iff, !not_voter_in. Qed.

Lemma tier1_names name :
  name ∈ map pe_Name (tier1 projectID phaseID v) <-> active_with v name in_tier1.
Proof.
  rewrite <- (joined_names (tier1_cond projectID phaseID v) v in_tier1).
  - unfold tier1. rewrite map_map. cbn [noted pe_Name]. rewrite map_id.
    rewrite order_by_perm, elem_of_remove_dups.
    apply (elem_of_joined_names (fun _ p => pil_Name p)).
  - intros x Hx [Hy Hn]%tier1_cond_spec. split; [by exists x|done].
  - intros o [(x & Hx & <- & Hy) Hn]. exists x. split; [done|]. split; [done|].
    by apply tier1_cond_spec.
Qed.

Lemma tier2_names name :
  name ∈ map pe_Name (tier2 projectID phaseID v) <-> active_with v name in_tier2.
Proof.
  rewrite <- (joined_names (tier2_cond projectID phaseID v) v in_tier2).
  - unfold tier2. rewrite map_map. split.
    + intros ([n l] & -> & Hin)%list_elem_of_fmap. cbn.
      rewrite order_by_perm, elem_of_remove_dups in Hin.
      apply (elem_of_joined_names (fun x p => (pil_Name p, _))) in Hin as (x & p & Hj & [= <- _]).
      eauto.
    + intros (x & p & Hj & <-). apply list_elem_of_fmap.
      exists (pil_Name p, default "" (vote_label (vote_Vote x))). split; [done|].
      rewrite order_by_perm, elem_of_remove_dups.
      apply (elem_of_joined_names (fun x p => (pil_Name p, default "" (vote_label (vote_Vote x))))).
      eauto.
  - intros x Hx (Hy & Hn & Hz)%tier2_cond_spec. split; [by exists x|done].
  - intros o [(x & Hx & <- & Hy) [Hn Hz]]. exists x. split; [done|]. split; [done|].
    by apply tier2_cond_spec.
Qed.

(** The rows grouped under a pillar's name are its owner's votes. *)
Lemma group_votes o p :
  names_unique v -> db_pillars (vw_db v) !! o = Some p -> pil_IsRevoked p = false ->
  ~ voted v (on_phase phaseID) o -> ~ voted v (on_project projectID) o ->
  map fst (List.filter (fun '(_, q) => String.eqb (pil_Name q) (pil_Name p))
             (joined (tier3_cond projectID phaseID v) v))
  = own_votes o.
Proof.
  intros Hu Hp Hr Hph Hpr. unfold joined, own_votes.
  induction (votes_of v) as [|x l IH]; [done|]. simpl.
  unfold active_pillar_of_voter at 1, pillar_of_voter at 1.
  destruct (String.eqb (vote_VoterAddress x) o) eqn:Eo.
  - apply String.eqb_eq in Eo. rewrite Eo, Hp. cbn [mbind option_bind]. rewrite Hr.
    cbn [mbind option_bind].
    rewrite (proj2 (tier3_cond_spec x)) by (rewrite Eo; by split).
    cbn [List.filter]. rewrite String.eqb_refl. cbn [map fst]. by f_equal.
  - destruct (db_pillars (vw_db v) !! vote_VoterAddress x) as [q|] eqn:Eq; [|exact IH].
    cbn [mbind option_bind]. destruct (pil_IsRevoked q); [exact IH|]. cbn [mbind option_bind].
    destruct (tier3_cond _ _ _ _); [|exact IH]. cbn [List.filter].
    destruct (String.eqb (pil_Name q) (pil_Name p)) eqn:En; [|exact IH].
    apply String.eqb_eq in En. pose proof (Hu _ _ _ _ Eq Hp En) as Ho.
    apply String.eqb_neq in Eo. congruence.
Qed.

Lemma count_distinct_voted o : 5 <= count_distinct vote_VotingID (own_votes o) ->
  exists x, x ∈ votes_of v /\ vote_VoterAddress x = o.
Proof.
  unfold own_votes. intros H. destruct (List.filter _ _) as [|x l] eqn:E; [done|].
  exists x. assert (Hx : x ∈ List.filter (fun x => String.eqb (vote_VoterAddress x) o) (votes_of v))
    by (rewrite E; by left).
  apply elem_of_filter_list in Hx as [? ?%String.eqb_eq]. by split.
Qed.

Lemma tier3_names name :
  names_unique v ->
  name ∈ map pe_Name (tier3 projectID phaseID v) <-> active_with v name in_tier3.
Proof.
  intros Hu. unfold tier3. rewrite list_elem_of_fmap. split.
  - intros (e & -> & Hin). rewrite order_by_perm in Hin.
    apply elem_of_filter_list in Hin as [(n & -> & Hn)%list_elem_of_fmap H5%Z.leb_le].
    apply elem_of_remove_dups, (elem_of_joined_names (fun _ p => pil_Name p)) in Hn
      as (x & p & (Hx & [Hph Hpr]%tier3_cond_spec & Hr & Hp)%joined_spec & <-).
    exists (vote_VoterAddress x), p. repeat (split; [done|]). cbn [tier3_entry pe_ProposalsVoted] in H5.
    by rewrite (group_votes _ _ Hu Hp Hr Hph Hpr) in H5.
  - intros (o & p & Hp & Hr & <- & Hph & Hpr & H5).
    exists (tier3_entry (joined (tier3_cond projectID phaseID v) v) (pil_Name p)).
    split; [done|]. rewrite order_by_perm. apply elem_of_filter_list. split.
    + apply list_elem_of_fmap. exists (pil_Name p). split; [done|].
      apply elem_of_remove_dups, (elem_of_joined_names (fun _ p => pil_Name p)).
      destruct (count_distinct_voted _ H5) as (x & Hx & Ho). exists x, p. split; [|done].
      apply joined_spec. rewrite Ho. repeat (split; [done|]). split; [|done].
      apply tier3_cond_spec. by rewrite Ho.
    + apply Z.leb_le. cbn [tier3_entry pe_ProposalsVoted].
      by rewrite (group_votes _ _ Hu Hp Hr Hph Hpr).
Qed.
End tiers.

(** ** The report *)

Lemma outreach_steady phaseID v r n :
  outreach phaseID (steady v) 0%nat = (Ok r, n) ->
  exists phase, db_project_phases (vw_db v) !! phaseID = Some phase /\ ph_Status phase = 0
    /\ or_votes r = vote_counts phaseID v /\ or_activePillars r = active_pillars v
    /\ or_quorum r = quorum (active_pillars v)
    /\ or_votesNeeded r = votesNeeded (quorum (active_pillars v)) (vc_uniqueVoters (vote_counts phaseID v))
    /\ or_tier1 r = tier1 (ph_ProjectID phase) phaseID v
    /\ or_tier2 r = tier2 (ph_ProjectID phase) phaseID v
    /\ or_tier3 r = tier3 (ph_ProjectID phase) phaseID v.
Proof.
  unfold outreach, wrapped, attempt, statement, phase_and_project, lookup_row, mbind, Q_bind,
    result_bind, mret, Q_ret, steady.
  cbn [cn_fault cn_view].
  destruct (db_project_phases (vw_db v) !! phaseID) as [phase|]; [|discriminate].
  destruct (db_projects (vw_db v) !! _) as [project|]; [|discriminate].
  destruct (ph_Status phase =? 0) eqn:Es; cbn [negb]; [|discriminate]. apply Z.eqb_eq in Es.
  intros [= <- _]. exists phase. by repeat split.
Qed.

Lemma quorum_third n : 0 <= n -> quorum n = Z.max 1 (n / 3).
Proof.
  intros Hn. unfold quorum. rewrite Z.quot_div_nonneg by lia.
  pose proof (Z.div_pos n 3 Hn ltac:(lia)). destruct (Z.eqb_spec (n / 3) 0); lia.
Qed.

(** C36. Whom the phase outreach contacts: on tables that do not change and with pillars of
    distinct names, a report is made only of a pending phase; its first tier is the active
    pillars whose owner voted yes on the project, its second those whose owner voted no or
    abstained and never yes, its third those whose owner voted on five proposals or more but
    not on this project, all of them without a vote of the owner on the phase (votes are
    matched to pillars by the owner's address only: a vote by producer address is not seen);
    the quorum is a third of the active pillars, rounded down but at least one; and the votes
    needed are what it lacks of the phase's voters. *)
Theorem outreach_tiers phaseID v r n :
  names_unique v -> outreach phaseID (steady v) 0%nat = (Ok r, n) ->
  exists phase, db_project_phases (vw_db v) !! phaseID = Some phase /\ ph_Status phase = 0
    /\ (forall name, name ∈ map pe_Name (or_tier1 r)
          <-> active_with v name (in_tier1 (ph_ProjectID phase) phaseID v))
    /\ (forall name, name ∈ map pe_Name (or_tier2 r)
          <-> active_with v name (in_tier2 (ph_ProjectID phase) phaseID v))
    /\ (forall name, name ∈ map pe_Name (or_tier3 r)
          <-> active_with v name (in_tier3 (ph_ProjectID phase) phaseID v))
    /\ or_quorum r = Z.max 1 (active_pillars v / 3)
    /\ or_votesNeeded r = Z.max 0 (or_quorum r - vc_uniqueVoters (or_votes r)).
Proof.
  intros Hu (phase & Hp & Hs & Hv & Ha & Hq & Hn & H1 & H2 & H3)%outreach_steady.
  exists phase. rewrite H1, H2, H3, Hq, Hn, Hv. split; [done|]. split; [done|].
  split; [apply tier1_names|]. split; [apply tier2_names|].
  split; [intros name; by apply tier3_names|].
  split; [apply quorum_third; unfold active_pillars, count_if, count; lia|].
  unfold votesNeeded. destruct (_ <? 0) eqn:E; [apply Z.ltb_lt in E|apply Z.ltb_ge in E]; lia.
Qed.

(** ** Sample tables *)

Definition sample_pillar (owner producer name : string) : Pillar :=
  mkPillar owner producer "z1w" name 1 0 0 true 0 0 0
    0 0 0 100 (S754_zero false) 0 false.

Definition sample_vote (voter phase votingID : string) (vote : Z) : (string * string) * Vote :=
  ((voter, votingID), mkVote 0 "m" 0 1 voter "p1" phase votingID vote).

(** Two pillars voted yes on the project; then the second voted on the phase with the address
    it produces momentums with. *)
Definition outreach_db : Db :=
  empty_db
    <| db_pillars := <["z1one" := sample_pillar "z1one" "z1p1" "Anvil"]>
                     (<["z1two" := sample_pillar "z1two" "z1p2" "Bellows"]> ∅) |>
    <| db_projects := {["p1" := mkProject "p1" "v1" "z1a" "One" "" "" 0 0 150 150 0 0 0 0]} |>
    <| db_project_phases :=
         {["ph1" := mkProjectPhase "ph1" "p1" "v2" "Phase" "" "" 0 0 160 0 0 0 0 0]} |>
    <| db_votes := list_to_map [sample_vote "z1one" "" "v1" 0; sample_vote "z1two" "" "v1" 0;
                                sample_vote "z1p2" "ph1" "v2" 0] |>.

Definition outreach_view : View := mkView outreach_db scan_id (fun _ _ => true) 0.

Definition outreach_report : Outreach :=
  match fst (outreach "ph1" (steady outreach_view) 0%nat) with
  | Ok r => r
  | Err _ => mkOutreach "" "" (mkVoteCounts 0 0 0 0 0) 0 0 0 [] [] [] []
  end.

Lemma outreach_names_unique : names_unique outreach_view.
Proof.
  intros o o' p p'. change (db_pillars (vw_db outreach_view))
    with (<["z1one" := sample_pillar "z1one" "z1p1" "Anvil"]>
          (<["z1two" := sample_pillar "z1two" "z1p2" "Bellows"]> (∅ : gmap string Pillar))).
  rewrite !lookup_insert_Some, !lookup_empty. naive_solver.
Qed.

(** The vote is counted, yet its pillar is contacted as one that has not voted. *)
Example producer_vote_unseen :
  vc_uniqueVoters (or_votes outreach_report) = 1 /\ or_currentVotes outreach_report = []
  /\ "Bellows" ∈ map pe_Name (or_tier1 outreach_report).
Proof.
  split; [vm_compute; reflexivity|]. split; [vm_compute; reflexivity|].
  apply (bool_decide_unpack _). vm_compute. exact I.
Qed.

Lemma outreach_tiers_witness :
  length (or_tier1 outreach_report) = 2%nat /\
  exists phase, db_project_phases outreach_db !! "ph1" = Some phase /\ ph_Status phase = 0
    /\ (forall name, name ∈ map pe_Name (or_tier1 outreach_report)
          <-> active_with outreach_view name (in_tier1 (ph_ProjectID phase) "ph1" outreach_view)).
Proof.
  split; [vm_compute; reflexivity|].
  destruct (outreach_tiers "ph1" outreach_view outreach_report
              (snd (outreach "ph1" (steady outreach_view) 0%nat))
              outreach_names_unique ltac:(vm_compute; reflexivity))
    as (phase & Hp & Hs & H1 & _).
  exists phase. split; [exact Hp|]. split; [exact Hs|exact H1].
Defined.

(** ** Reading a report *)

(** The lines of a section, the cells of a row, and the rows of the section's table after its
    header: what a reader of the file does. *)
Definition starts (p s : string) : bool :=
  match strip_prefix p s with Some _ => true | None => false end.

Fixpoint after (title : string) (lines : list string) : list string :=
  match lines with
  | [] => []
  | l :: lines' => if String.eqb l title then lines' else after title lines'
  end.

Fixpoint until_heading (lines : list string) : list string :=
  match lines with
  | [] => []
  | l :: lines' => if starts "## " l then [] else l :: until_heading lines'
  end.

Fixpoint drop_last (s : string) : string :=
  match s with
  | EmptyString | String _ EmptyString => ""
  | String c s' => String c (drop_last s')
  end.

Definition unpad (cell : string) : string :=
  match cell with EmptyString => "" | String _ s => drop_last s end.

Definition read_row (line : string) : list string :=
  map unpad (removelast (tail (split_char "|" line))).

Definition read_table (title text : string) : list (list string) :=
  map read_row
    (tail (List.filter (starts "| ") (until_heading (after title (split_char newline text))))).

(** *** Characters *)

Fixpoint char_free (c : ascii) (s : string) : bool :=
  match s with EmptyString => true | String x s' => negb (Ascii.eqb x c) && char_free c s' end.

Lemma char_free_app c a b : char_free c (a +:+ b) = char_free c a && char_free c b.
Proof.
  induction a as [|x a IH]; [done|]. rewrite string_app_cons. cbn. by rewrite IH, andb_assoc.
Qed.

Lemma digits_free c acc s v :
  digit_value c = None -> parse_digits acc s = Some v -> char_free c s = true.
Proof.
  intros Hc. revert acc. induction s as [|x s IH]; intros acc; [done|]. cbn.
  destruct (digit_value x) eqn:Ex; [|done]. intros H. rewrite (IH _ H), andb_true_r.
  apply negb_true_iff, Ascii.eqb_neq. congruence.
Qed.

Lemma format_int_free c z :
  digit_value c = None -> c <> "-"%char -> c <> "+"%char -> char_free c (format_int z) = true.
Proof.
  intros Hc Hm Hp. pose proof (parse_big_format z) as H. revert H.
  destruct (format_int z) as [|x s]; [done|].
  assert (forall t, parse_nonempty t = Some z \/ parse_nonempty t = Some (- z) ->
            char_free c t = true) as Hn.
  { intros [|y t]; [done|]. intros [H|H]; by apply (digits_free c _ _ _ Hc H). }
  destruct (decide (x = "-"%char)) as [->|H1]; [|destruct (decide (x = "+"%char)) as [->|H2]].
  - intros H. cbn [char_free]. rewrite (proj2 (Ascii.eqb_neq _ _)) by done. apply Hn. right.
    change (Z.opp <$> parse_nonempty s = Some z) in H.
    destruct (parse_nonempty s) as [v|]; [|done]. cbn in H. injection H as <-. by rewrite Z.opp_involutive.
  - intros H. cbn [char_free]. rewrite (proj2 (Ascii.eqb_neq _ _)) by done. apply Hn. by left.
  - intros H. apply Hn. left. rewrite <- H. unfold parse_big.
    destruct x as [[] [] [] [] [] [] [] []]; done.
Qed.

Lemma split_char_app sep a b :
  char_free sep a = true -> split_char sep (a +:+ String sep b) = a :: split_char sep b.
Proof.
  induction a as [|x a IH]; cbn [char_free]; intros H.
  - change (split_char sep (String sep b) = "" :: split_char sep b). cbn [split_char].
    by rewrite Ascii.eqb_refl.
  - apply andb_true_iff in H as [H1%negb_true_iff H2]. rewrite string_app_cons.
    cbn [split_char]. by rewrite H1, (IH H2).
Qed.

Lemma concat_cons (s : string) l : String.concat "" (s :: l) = s +:+ String.concat "" l.
Proof.
  destruct l as [|t l]; [cbn; by rewrite string_app_nil|].
  change (String.concat "" (s :: t :: l)) with (s +:+ ("" +:+ String.concat "" (t :: l))).
  by rewrite string_nil_app.
Qed.

(** The lines a text of lines splits into. *)
Lemma split_lines ls :
  Forall (fun l => char_free newline l = true) ls -> split_char newline (lns ls) = (ls ++ [""])%list.
Proof.
  induction 1 as [|l ls Hl _ IH]; [done|]. unfold lns, ln. cbn [map]. fold ln.
  rewrite concat_cons, string_app_assoc, string_app_cons, string_nil_app.
  rewrite split_char_app by done. cbn [app]. f_equal. exact IH.
Qed.

(** A row reads back as its cells. *)
Lemma drop_last_space c : drop_last (c +:+ " ") = c.
Proof.
  induction c as [|x c IH]; [done|]. rewrite string_app_cons. cbn [drop_last]. rewrite IH.
  by destruct c.
Qed.

Lemma split_cells cells :
  Forall (fun c => char_free "|" c = true) cells ->
  split_char "|" (String.concat "" (map (fun c => " " +:+ c +:+ " |") cells))
  = (map (fun c => " " +:+ c +:+ " ") cells ++ [""])%list.
Proof.
  induction 1 as [|c cells Hc _ IH]; [done|]. cbn [map]. rewrite concat_cons.
  replace ((" " +:+ c +:+ " |") +:+ String.concat "" (map (fun c => " " +:+ c +:+ " |") cells))
    with ((" " +:+ c +:+ " ") +:+ String "|"
            (String.concat "" (map (fun c => " " +:+ c +:+ " |") cells))).
  - rewrite split_char_app; [by rewrite IH|]. rewrite !char_free_app, Hc. done.
  - rewrite !string_app_cons, !string_nil_app, !string_app_assoc. done.
Qed.

Lemma read_table_row cells :
  Forall (fun c => char_free "|" c = true) cells -> read_row (table_row cells) = cells.
Proof.
  intros Hc. unfold read_row, table_row.
  change ("|" +:+ ?x) with (String "|" x). cbn [split_char]. rewrite Ascii.eqb_refl. cbn [tail].
  rewrite split_cells by done. rewrite removelast_last, map_map.
  rewrite <- (map_id cells) at 2. apply map_ext. intros c.
  change (drop_last (c +:+ " ") = c). apply drop_last_space.
Qed.

(** *** Sections *)

Lemma after_title title pre post :
  Forall (fun l => String.eqb l title = false) pre -> after title (pre ++ title :: post)%list = post.
Proof.
  induction 1 as [|l pre Hl _ IH]; cbn [app after].
  - by rewrite String.eqb_refl.
  - by rewrite Hl.
Qed.

Lemma until_next body h post :
  Forall (fun l => starts "## " l = false) body -> starts "## " h = true ->
  until_heading (body ++ h :: post)%list = body.
Proof.
  intros Hb Hh. induction Hb as [|l body Hl _ IH]; cbn [app until_heading].
  - by rewrite Hh.
  - by rewrite Hl, IH.
Qed.

Lemma filter_rows {A} (f : nat -> A -> list string) (tier : list A) :
  (forall i e, f i e <> []) ->
  List.filter (starts "| ") (imap (fun i e => table_row (f i e)) tier)
  = imap (fun i e => table_row (f i e)) tier.
Proof.
  intros Hf. revert f Hf. induction tier as [|e tier IH]; intros f Hf; [done|].
  cbn [imap List.filter]. destruct (f 0%nat e) as [|c cs] eqn:E; [by destruct (Hf 0%nat e)|].
  assert (starts "| " (table_row (c :: cs)) = true) as ->.
  { unfold table_row. cbn [map]. by rewrite concat_cons. }
  f_equal. apply (IH (fun i e => f (S i) e)). intros i x. apply Hf.
Qed.

Lemma rows_not_heading {A} (f : nat -> A -> list string) (tier : list A) :
  Forall (fun l => starts "## " l = false) (imap (fun i e => table_row (f i e)) tier).
Proof.
  apply Forall_forall. intros l (i & e & -> & _)%elem_of_lookup_imap. done.
Qed.

Lemma read_rows {A} (f : nat -> A -> list string) (tier : list A) :
  (forall i e, e ∈ tier -> Forall (fun c => char_free "|" c = true) (f i e)) ->
  map read_row (imap (fun i e => table_row (f i e)) tier) = imap f tier.
Proof.
  revert f. induction tier as [|e tier IH]; intros f Hf; [done|]. cbn [imap map].
  rewrite read_table_row by (apply Hf; by left). f_equal.
  apply (IH (fun i e => f (S i) e)). intros i x Hx. apply Hf. by right.
Qed.

(** The lines of a tier's section after its title. *)
Definition tier_body (remark nobody : string) (header rows : list string) : list string :=
  (["";  remark; ""] ++ match rows with [] => [nobody] | _ => header ++ rows end)%list.

Lemma tier_lines_body title remark nobody header cells tier :
  tier_lines title remark nobody header cells tier
  = ("" :: title :: tier_body remark nobody header (imap (fun i e => table_row (cells i e)) tier))%list.
Proof. by destruct tier. Qed.

(** A tier's section in a report, between any other lines, reads back as its pillars. *)
Lemma read_tier title remark nobody h1 h2 cells tier pre h post :
  let section := tier_lines title remark nobody [h1; h2] cells tier in
  Forall (fun l => String.eqb l title = false) pre -> String.eqb "" title = false ->
  (starts "## " remark || starts "## " nobody || starts "## " h1 || starts "## " h2
   || starts "| " remark || starts "| " nobody || starts "| " h2) = false ->
  starts "| " h1 = true -> starts "## " h = true ->
  (forall i e, cells i e <> []) ->
  (forall i e, e ∈ tier -> Forall (fun c => char_free "|" c = true) (cells i e)) ->
  Forall (fun l => char_free newline l = true) (pre ++ section ++ "" :: h :: post)%list ->
  read_table title (lns (pre ++ section ++ "" :: h :: post)%list) = imap cells tier.
Proof.
  intros section Hpre Ht Hplain Hh1 Hh Hne Hc Hn.
  repeat apply orb_false_iff in Hplain as [Hplain ?].
  unfold read_table. rewrite split_lines by done. unfold section. rewrite tier_lines_body.
  set (rows := imap (fun i e => table_row (cells i e)) tier).
  set (body := tier_body remark nobody [h1; h2] rows).
  replace ((pre ++ ("" :: title :: body) ++ "" :: h :: post) ++ [""])%list
    with ((pre ++ [""]) ++ title :: (body ++ [""]) ++ h :: (post ++ [""]))%list
    by (repeat (rewrite <- ?app_assoc; cbn [app]); reflexivity).
  rewrite after_title by (apply Forall_app; split; [done|by repeat constructor]).
  rewrite until_next; [| |done].
  - rewrite List.filter_app. unfold body, tier_body. rewrite List.filter_app.
    cbn [List.filter app]. 
    change (starts "| " "") with false. cbv iota.
    rewrite (ltac:(assumption) : starts "| " remark = false). cbn [app]. rewrite app_nil_r.
    rewrite <- (read_rows cells tier Hc). fold rows.
    pose proof (filter_rows cells tier Hne) as Hf. fold rows in Hf.
    destruct rows as [|r rs].
    + cbn [List.filter]. by rewrite (ltac:(assumption) : starts "| " nobody = false).
    + cbn [app]. cbn [List.filter] in Hf |- *. rewrite Hh1. 
      rewrite (ltac:(assumption) : starts "| " h2 = false). cbn [tail]. by rewrite Hf.
  - apply Forall_app. split; [|by repeat constructor]. unfold body, tier_body.
    apply Forall_app. split; [by repeat constructor|].
    pose proof (rows_not_heading cells tier) as Hr. fold rows in Hr.
    destruct rows as [|r rs]; [by repeat constructor|].
    apply Forall_app. split; [by repeat constructor|exact Hr].
Qed.

(** *** The whole report *)

(** Text a table cell can hold: no bar and no line feed. *)
Definition cell_text (s : string) : bool := char_free "|" s && char_free newline s.
Definition line_text (s : string) : bool := char_free newline s.

(** The strings a report is made of: the chain's names have neither bars nor line feeds. *)
Record printable (phaseID generated : string) (o : Outreach) : Prop := mkPrintable {
  pr_phase : line_text phaseID = true;
  pr_generated : line_text generated = true;
  pr_names : line_text (or_phaseName o) = true /\ line_text (or_projectName o) = true;
  pr_votes : Forall (fun pv => line_text (fst pv) = true /\ line_text (snd pv) = true)
               (or_currentVotes o);
  pr_tiers : Forall (fun e => cell_text (pe_Name e) = true /\ cell_text (pe_Note e) = true)
               (or_tier1 o ++ or_tier2 o ++ or_tier3 o)%list
}.

Lemma format_newline z : char_free newline (format_int z) = true.
Proof. by apply format_int_free. Qed.

Lemma format_bar z : char_free "|" (format_int z) = true.
Proof. by apply format_int_free. Qed.

Lemma row_newline cells :
  Forall (fun c => char_free newline c = true) cells -> char_free newline (table_row cells) = true.
Proof.
  intros Hc. unfold table_row. rewrite char_free_app. apply andb_true_iff. split; [done|].
  induction Hc as [|c cells H _ IH]; [done|]. cbn [map]. rewrite concat_cons, !char_free_app, H.
  by rewrite IH.
Qed.

(** Splits a line into its parts and checks each. *)
Ltac check_line :=
  rewrite ?char_free_app, ?format_newline; repeat (apply andb_true_iff; split);
  first [assumption|reflexivity|idtac].

Lemma heading_newline phaseID generated o :
  printable phaseID generated o ->
  Forall (fun l => char_free newline l = true) (heading_lines phaseID generated o).
Proof.
  intros [H1 H2 [H3 H4] _ _]. unfold line_text in *. repeat constructor; check_line.
Qed.

Lemma current_newline phaseID generated o :
  printable phaseID generated o ->
  Forall (fun l => char_free newline l = true) (current_votes_lines o).
Proof.
  intros [_ _ _ Hv _]. unfold current_votes_lines. apply Forall_app. split.
  - repeat constructor; try reflexivity; try (apply row_newline; repeat constructor; check_line).
    unfold votes_needed_row. destruct (0 <? _); apply row_newline; repeat constructor; check_line.
  - apply Forall_map. eapply Forall_impl; [exact Hv|]. intros [n v] [Hn Hv']. cbn.
    by apply row_newline; repeat constructor.
Qed.

Lemma tier_newline title remark nobody header cells tier :
  Forall (fun l => char_free newline l = true) (title :: remark :: nobody :: header) ->
  (forall i e, e ∈ tier -> Forall (fun c => char_free newline c = true) (cells i e)) ->
  Forall (fun l => char_free newline l = true) (tier_lines title remark nobody header cells tier).
Proof.
  rewrite !Forall_cons. intros (Ht & Hr & Hn & Hh) Hc. rewrite tier_lines_body. unfold tier_body.
  repeat (constructor; [done|]). cbn [app]. repeat (constructor; [done|]).
  assert (Forall (fun l => char_free newline l = true) (imap (fun i e => table_row (cells i e)) tier))
    as Hrows.
  { apply Forall_forall. intros l (i & e & -> & He)%elem_of_lookup_imap. apply row_newline, Hc.
    by eapply list_elem_of_lookup_2. }
  destruct (imap _ tier); [by repeat constructor|]. by apply Forall_app.
Qed.

Lemma summary_newline o : Forall (fun l => char_free newline l = true) (summary_lines o).
Proof.
  unfold summary_lines. apply Forall_app. split; [repeat constructor; check_line|].
  destruct (0 <? _); repeat constructor; check_line.
Qed.

(** The cells of a pillar. *)
Lemma entry_cells c i e :
  (forall z, char_free c (format_int z) = true) ->
  char_free c (pe_Name e) = true -> char_free c (pe_Note e) = true ->
  Forall (fun x => char_free c x = true) (note_cells i e)
  /\ Forall (fun x => char_free c x = true) (count_cells i e).
Proof. intros Hz Hn Ho. split; repeat constructor; done. Qed.

Lemma report_newline phaseID generated o :
  printable phaseID generated o ->
  Forall (fun l => char_free newline l = true) (report_lines phaseID generated o).
Proof.
  intros Hp. unfold report_lines, tier1_lines, tier2_lines, tier3_lines.
  assert (forall i e, e ∈ (or_tier1 o ++ or_tier2 o ++ or_tier3 o)%list ->
            Forall (fun x => char_free newline x = true) (note_cells i e)
            /\ Forall (fun x => char_free newline x = true) (count_cells i e)) as He.
  { intros i e Hin. pose proof (pr_tiers _ _ _ Hp) as Ht. rewrite Forall_forall in Ht.
    destruct (Ht e Hin) as [[_ ?]%andb_true_iff [_ ?]%andb_true_iff].
    apply entry_cells; [apply format_newline|done|done]. }
  rewrite !Forall_app. split_and!.
  - by apply heading_newline.
  - by eapply current_newline.
  - apply tier_newline; [by repeat constructor|]. intros i e Hin. apply He. set_solver.
  - apply tier_newline; [by repeat constructor|]. intros i e Hin. apply He. set_solver.
  - apply tier_newline; [by repeat constructor|]. intros i e Hin. apply He. set_solver.
  - apply summary_newline.
Qed.

(** The lines before the tiers, and those of a tier, are not the title of another. *)
Lemma intro_not_title phaseID generated o title :
  title ∈ [tier1_title; tier2_title; tier3_title] ->
  Forall (fun l => String.eqb l title = false)
    (heading_lines phaseID generated o ++ current_votes_lines o)%list.
Proof.
  intros Ht. assert (exists rest, title = "## T" +:+ rest) as [rest ->].
  { repeat (apply elem_of_cons in Ht as [->|Ht]; [by eexists|]). by apply elem_of_nil in Ht. }
  unfold current_votes_lines. rewrite !Forall_app. split_and!.
  - repeat constructor.
  - repeat constructor. unfold votes_needed_row. by destruct (0 <? _).
  - by apply Forall_map, Forall_true.
Qed.

Lemma tier_not_title title remark nobody h1 h2 cells tier other :
  (String.eqb "" other || String.eqb title other || String.eqb remark other
   || String.eqb nobody other || String.eqb h1 other || String.eqb h2 other) = false ->
  (exists rest, other = "## T" +:+ rest) ->
  Forall (fun l => String.eqb l other = false) (tier_lines title remark nobody [h1; h2] cells tier).
Proof.
  intros H [rest ->]. repeat apply orb_false_iff in H as [H ?]. rewrite tier_lines_body. unfold tier_body.
  assert (Forall (fun l => String.eqb l ("## T" +:+ rest) = false)
            (imap (fun i e => table_row (cells i e)) tier)) as Hrows.
  { by apply Forall_forall; intros l (i & e & -> & _)%elem_of_lookup_imap. }
  cbn [app]. repeat (constructor; [done|]). destruct (imap _ tier); [by repeat constructor|].
  by repeat (constructor; [done|]).
Qed.

(** The report says whom to ask: read back from the text [main] prints and saves, the
    tables of the three tiers hold every pillar the queries found for them, in their order
    and numbered from one - with its note in the first two, with its proposals and votes in
    the third - and nothing else, for names and notes without bars and line feeds, as the
    chain's are. *)
Theorem report_reads_back phaseID generated o :
  printable phaseID generated o ->
  read_table tier1_title (report phaseID generated o) = imap note_cells (or_tier1 o)
  /\ read_table tier2_title (report phaseID generated o) = imap note_cells (or_tier2 o)
  /\ read_table tier3_title (report phaseID generated o) = imap count_cells (or_tier3 o).
Proof.
  intros Hp. pose proof (report_newline _ _ _ Hp) as Hn. unfold report.
  assert (forall i e, e ∈ (or_tier1 o ++ or_tier2 o ++ or_tier3 o)%list ->
            Forall (fun x => char_free "|" x = true) (note_cells i e)
            /\ Forall (fun x => char_free "|" x = true) (count_cells i e)) as He.
  { intros i e Hin. pose proof (pr_tiers _ _ _ Hp) as Ht. rewrite Forall_forall in Ht.
    destruct (Ht e Hin) as [[? _]%andb_true_iff [? _]%andb_true_iff].
    apply entry_cells; [apply format_bar|done|done]. }
  set (intro := (heading_lines phaseID generated o ++ current_votes_lines o)%list).
  split; [|split].
  - assert (report_lines phaseID generated o
            = intro ++ tier1_lines o ++ tier2_lines o ++ tier3_lines o ++ summary_lines o)%list
      as E by (unfold report_lines, intro; by rewrite <- !app_assoc).
    rewrite E in *. unfold tier2_lines in *. rewrite tier_lines_body in *.
    apply read_tier; [by apply intro_not_title; left|done..| |exact Hn].
    intros i e Hin. apply He. set_solver.
  - assert (report_lines phaseID generated o
            = (intro ++ tier1_lines o) ++ tier2_lines o ++ tier3_lines o ++ summary_lines o)%list
      as E by (unfold report_lines, intro; by rewrite <- !app_assoc).
    rewrite E in *. unfold tier3_lines in *. rewrite tier_lines_body in *.
    apply read_tier; [|done..| |exact Hn].
    + apply Forall_app. split; [by apply intro_not_title; right; left|].
      by apply tier_not_title; [|eexists].
    + intros i e Hin. apply He. set_solver.
  - assert (report_lines phaseID generated o
            = (intro ++ tier1_lines o ++ tier2_lines o) ++ tier3_lines o ++ summary_lines o)%list
      as E by (unfold report_lines, intro; by rewrite <- !app_assoc).
    rewrite E in *. apply read_tier; [|done..| |exact Hn].
    + rewrite !Forall_app. split; [by apply intro_not_title; right; right; left|].
      split; by apply tier_not_title; [|eexists].
    + intros i e Hin. apply He. set_solver.
Qed.

(** A report with one pillar in the first tier and one in the third. *)
Definition toy_outreach : Outreach :=
  mkOutreach "Phase One" "Project" (mkVoteCounts 1 1 0 0 1) 6 2 1 [("pillar-z", "Yes")]
    [noted "pillar-a" "Voted YES on project"] [] [mkpillarEntry "pillar-b" "" 7 5 1 1].

Lemma report_reads_back_witness :
  let text := report "ph1" "2024-01-01 12:00 UTC" toy_outreach in
  read_table tier1_title text = [["1"; "pillar-a"; "Voted YES on project"]]
  /\ read_table tier2_title text = []
  /\ read_table tier3_title text = [["1"; "pillar-b"; "7"; "5"; "1"; "1"]].
Proof.
  apply (report_reads_back "ph1" "2024-01-01 12:00 UTC" toy_outreach).
  split; [reflexivity|reflexivity|by split|..].
  - by repeat constructor.
  - by repeat constructor.
Defined.

(** A name with a bar is printed as it is, and breaks its row. *)
Example bar_breaks_row :
  read_row (table_row (note_cells 0 (noted "a|b" "Voted YES on project")))
  = ["1"; ""; ""; "Voted YES on project"].
Proof. vm_compute. reflexivity. Qed.
