(* ===== verification/Servers.v ===== *)
(** The small programs around the core: the indexer's health endpoint
    (internal/health/server.go, wired in cmd/indexer/main.go), the MCP server's HTTP side
    (internal/mcp/server, wired in cmd/mcp/main.go) and the token command
    (cmd/jwt-issue/main.go). Paths are taken clean: the redirect of net/http's mux to the
    cleaned path is not modelled.

    Theorems: when the indexer reports itself ready, how the two
    readiness probes compare, what the MCP server does without a token, and that the tokens
    of the command are accepted. *)

From S2P Require Import Prelude.
From S2P Require Import Database.
From S2P Require Import Watchdog.
From S2P Require Import Queries.
From S2P Require Import Text.
From S2P Require Import Httpx.
From S2P Require Import Auth.
From S2P Require Import Middleware.
From S2P Require Import Router.
From S2P Require Import Mcp.
From S2P Require Import QueryFacts.
From S2P Require Import ApiSamples.
#[local] Open Scope string_scope.
#[local] Open Scope Z_scope.

(** ** JSON answers *)

(** The values these handlers encode. A [map] is encoded in key order: two objects with the
    same members are the same text. *)
Inductive Json : Type :=
| JsonNull
| JsonText (s : string)
| JsonNumber (z : Z)
| JsonObject (members : list (string * Json)).

Record Answer : Type := mkAnswer {
  an_Status : Z;
  an_ContentType : string;
  an_Body : Json
}.

Definition writeJSON (code : Z) (v : Json) : Answer := mkAnswer code "application/json" v.

(** [http.ServeMux]: a pattern is a path, or with a trailing slash everything below it; the
    longest that matches is served. *)
Definition mux_match (pattern path : string) : bool :=
  match String.get (pred (String.length pattern)) pattern with
  | Some "/"%char => String.prefix pattern path
  | _ => String.eqb pattern path
  end.

Definition not_found : Answer := mkAnswer 404 "text/plain; charset=utf-8" (JsonText "404 page not found").

(** ** The indexer's health server *)

Module HealthServer.

Record Snapshot : Type := mkSnapshot {
  Ready : bool;
  State : string;
  NodeLabel : string;
  Drift : Z
}.

(** [/healthz] and [/readyz]; the callback runs on every request to the latter. *)
Definition serve (snapshot : Snapshot) (path : string) : Answer :=
  if mux_match "/healthz" path then writeJSON 200 (JsonObject [("status", JsonText "ok")])
  else if mux_match "/readyz" path then
    let body status := JsonObject [("drift", JsonNumber (Drift snapshot));
                                   ("node", JsonText (NodeLabel snapshot));
                                   ("state", JsonText (State snapshot));
                                   ("status", JsonText status)] in
    if Ready snapshot then writeJSON 200 (body "ready") else writeJSON 503 (body "draining")
  else not_found.

(** The callback cmd/indexer passes. *)
Definition snapshot_of (s : HealthSnapshot) : Snapshot :=
  mkSnapshot (hs_Ready s) (hs_State s) (hs_NodeLabel s) (hs_Drift s).

(** The endpoint over the watchdog's state. *)
Definition endpoint (cfg : WatchdogConfigForIndexer) (w : option WState) (path : string) : Answer :=
  serve (snapshot_of (Indexer_HealthSnapshot cfg w)) path.
End HealthServer.

(** ** The MCP server *)

Module McpServer.

Definition MHandler : Type := Ctx -> Request -> Conn -> nat -> Answer * nat.

Definition reply (a : Answer) : MHandler := fun _ _ _ n => (a, n).

Definition writeProblem (status : Z) (code message : string) : Answer :=
  writeJSON status (JsonObject [("error", JsonText code); ("message", JsonText message)]).

Definition Healthz : MHandler := reply (writeJSON 200 (JsonObject [("status", JsonText "ok")])).

Definition ready_answer : Answer := writeJSON 200 (JsonObject [("status", JsonText "ready")]).

(** [ping] is the pool's answer, [schema] what a statement reads of schema_migrations. *)
Definition Readyz (has_pool : bool) (ping : option error) (schema : View -> result (Z * bool))
  : MHandler := fun _ _ c n =>
  if negb has_pool then (ready_answer, n)
  else match ping with
  | Some e => (writeProblem 503 "db_unavailable" (Error_text e), n)
  | None =>
      match statement schema c n with
      | (Err e, n') =>
          if contains "schema_migrations" (Error_text e) then
            (writeProblem 503 "schema_not_migrated"
               "schema_migrations table missing — start the indexer container so migrations run",
             n')
          else (writeProblem 503 "db_unavailable" (Error_text e), n')
      | (Ok (version, dirty), n') =>
          if (dirty : bool) then
            (writeProblem 503 "schema_dirty"
               ("schema_migrations marks version " +:+ format_int version
                +:+ " dirty — manual repair needed"), n')
          else if version <? mcp.minSchemaVersion then
            (writeProblem 503 "schema_not_migrated"
               ("schema_migrations.version = " +:+ format_int version
                +:+ ", MCP requires >= " +:+ format_int mcp.minSchemaVersion), n')
          else (ready_answer, n')
      end
  end.

(** A JSON-RPC 2.0 error frame. *)
Definition rpc_error (status code : Z) (message data_code : string) : Answer :=
  writeJSON status
    (JsonObject
       [("error", JsonObject [("code", JsonNumber code);
                              ("data", JsonObject [("code", JsonText data_code)]);
                              ("message", JsonText message)]);
        ("id", JsonNull); ("jsonrpc", JsonText "2.0")]).

Definition writeAuthError (code message : string) : Answer := rpc_error 401 (-32001) message code.

Definition rateLimited : MHandler :=
  reply (rpc_error 429 (-32002) "too many requests; slow down" "rate_limited").

Record CorsOptions : Type := mkCorsOptions {
  AllowedOrigins : list string;
  AllowedMethods : list string;
  AllowedHeaders : list string;
  ExposedHeaders : list string;
  AllowCredentials : bool;
  MaxAge : Z
}.

(** The libraries the transport is built from: the limiter of github.com/go-chi/httprate
    with its key by address, github.com/go-chi/cors, and the SDK's streamable handler. *)
Class McpLibs : Type := {
  limit : Z -> Z -> (Ctx -> Request -> result string) -> MHandler -> MHandler -> MHandler;
  key_by_ip : Request -> result string;
  cors_with : CorsOptions -> MHandler -> MHandler;
  streamable : string -> MHandler
}.

Section transport.
Context {JL : JwtLib} {ML : McpLibs}.

Definition Auth (now : Z) (signer : Signer) (next : MHandler) : MHandler := fun cx r c n =>
  match mcp.authenticate signer now r with
  | inl claims => next (mkCtx (cx_RequestID cx) (Some claims)) r c n
  | inr (code, message) => (writeAuthError code message, n)
  end.

Definition keyBySubjectThenIP (cx : Ctx) (r : Request) : result string :=
  match ClaimsFromContext cx with
  | Some claims => if str_empty (cl_Subject claims) then key_by_ip r
                   else Ok ("sub:" +:+ cl_Subject claims)
  | None => key_by_ip r
  end.

Definition RateLimit (perMinute : Z) (next : MHandler) : MHandler :=
  if perMinute <=? 0 then next
  else limit perMinute 60000000000 keyBySubjectThenIP rateLimited next.

Definition cors_options (allowedOrigins : list string) : CorsOptions :=
  mkCorsOptions allowedOrigins ["GET"; "POST"; "DELETE"; "OPTIONS"]
    ["Accept"; "Authorization"; "Content-Type"; "X-Request-Id"; "Mcp-Session-Id";
     "MCP-Protocol-Version"; "Last-Event-ID"]
    ["X-Request-Id"; "Mcp-Session-Id"; "MCP-Protocol-Version"] false 300.

Definition CORS (allowedOrigins : list string) (next : MHandler) : MHandler :=
  match allowedOrigins with
  | [] => next
  | _ => cors_with (cors_options allowedOrigins) next
  end.

(** cmd/mcp: authentication inside CORS, the limiter inside authentication. *)
Record Setup : Type := mkSetup {
  su_Signer : Signer;
  su_Version : string;
  su_RateLimitPerMinute : Z;
  su_CORSAllowedOrigins : list string;
  su_Readyz : MHandler
}.

Definition mcp_handler (su : Setup) (now : Z) : MHandler :=
  CORS (su_CORSAllowedOrigins su)
    (Auth now (su_Signer su)
       (RateLimit (su_RateLimitPerMinute su)
          (streamable (if str_empty (su_Version su) then "dev" else su_Version su)))).

Definition serve (su : Setup) (now : Z) (r : Request) (c : Conn) (n : nat) : Answer * nat :=
  let path := rq_Path r in
  if mux_match "/mcp" path || mux_match "/mcp/" path then mcp_handler su now background r c n
  else if mux_match "/healthz" path then Healthz background r c n
  else if mux_match "/readyz" path then su_Readyz su background r c n
  else (not_found, n).
End transport.
End McpServer.

(** ** jwt-issue *)

Module JwtIssue.

Definition splitScopes (s : string) : list string :=
  if str_empty s then []
  else List.filter (fun t => negb (str_empty t)) (map trim_space (split_char "," s)).

(** The environment variable the secret is read from. *)
Definition secret_env (getenv : string -> string) (secretEnv : string) : string :=
  if str_empty secretEnv then
    if str_empty (getenv "API_JWT_SECRET") && negb (str_empty (getenv "MCP_JWT_SECRET"))
    then "MCP_JWT_SECRET" else "API_JWT_SECRET"
  else secretEnv.

(** What the command prints and its exit status, after its flags are parsed; [ttl] and [now]
    in nanoseconds. *)
Definition run {JL : JwtLib} (getenv : string -> string) (now : Z) (sub : string) (ttl : Z)
    (scope secretEnv : string) : string * Z :=
  if str_empty sub then ("error: --sub is required", 2)
  else
    let envName := secret_env getenv secretEnv in
    let secret := getenv envName in
    if str_empty secret then ("error: " +:+ envName +:+ " environment variable is required", 2)
    else match NewSigner secret with
         | Err e => ("error: " +:+ Error_text e, 1)
         | Ok signer =>
             match Issue signer now sub ttl (splitScopes scope) with
             | Err e => ("error: " +:+ Error_text e, 1)
             | Ok token => (token, 0)
             end
         end.
End JwtIssue.

(** ** The indexer's readiness *)

(** With the watchdog disabled the indexer is always ready; otherwise it answers 503 exactly
    while the active node's bad streak has reached the configured threshold (two by
    default). *)
Theorem indexer_readyz cfg w :
  an_Status (HealthServer.endpoint cfg w "/readyz")
  = match w with
    | None => 200
    | Some w =>
        if unhealthy (streak (w_sync w) (activeIdx (w_sync w)))
           <? (if wc_UnhealthyStreak cfg <=? 0 then 2 else wc_UnhealthyStreak cfg)
        then 200 else 503
    end.
Proof.
  unfold HealthServer.endpoint, HealthServer.serve. simpl.
  destruct w as [w|]; [|done]. simpl. by destruct (_ <? _).
Qed.

(** ** The readiness of the two read services *)

(** The code a problem answer carries; none for a success. *)
Definition problem_code (a : Answer) : option string :=
  match an_Body a with
  | JsonObject (("error", JsonText code) :: _) => Some code
  | _ => None
  end.

Definition response_code (rs : Response) : option string :=
  match rs_Body rs with BProblem p => Some (pb_Code p) | BJson _ => None end.

(** The API's probe without the watchdog's row and the MCP server's probe, on the same pool:
    same status and same code, except on schema 12, which only the MCP server serves. *)
Theorem probes_agree has_pool ping schema now cx r c n :
  let api := readyz has_pool false ping schema now c n in
  let mcp := McpServer.Readyz has_pool ping schema cx r c n in
  snd api = snd mcp
  /\ exists rs, fst api = Ok rs
     /\ ((rs_Status rs = an_Status (fst mcp) /\ response_code rs = problem_code (fst mcp))
         \/ (has_pool = true /\ ping = None /\ fst (statement schema c n) = Ok (12, false)
             /\ rs_Status rs = 503 /\ an_Status (fst mcp) = 200)).
Proof.
  unfold readyz, McpServer.Readyz, attempt. destruct has_pool; cbn [negb].
  2:{ split; [done|]. eexists. split; [done|]. by left. }
  destruct ping as [e|]; [split; [done|]; eexists; split; [done|]; by left|].
  destruct (statement schema c n) as [[[version dirty]|e] n'].
  - destruct dirty; [split; [done|]; eexists; split; [done|]; by left|].
    unfold minSchemaVersion, mcp.minSchemaVersion.
    destruct (version <? 12) eqn:E12.
    + apply Z.ltb_lt in E12. rewrite (proj2 (Z.ltb_lt version 13)) by lia.
      split; [done|]. eexists. split; [done|]. by left.
    + apply Z.ltb_ge in E12. destruct (version <? 13) eqn:E13.
      * apply Z.ltb_lt in E13. assert (version = 12) as -> by lia.
        split; [done|]. eexists. split; [done|]. by right.
      * split; [done|]. eexists. split; [done|]. by left.
  - destruct (contains _ _); (split; [done|]); eexists; (split; [done|]); by left.
Qed.

(** ** The MCP server without a token *)

(** The same libraries around another tool handler. *)
Definition with_streamable (ML : McpServer.McpLibs) (h : string -> McpServer.MHandler)
  : McpServer.McpLibs :=
  McpServer.Build_McpLibs (@McpServer.limit ML) (@McpServer.key_by_ip ML)
    (@McpServer.cors_with ML) h.

(** What github.com/go-chi/cors documents: it answers by itself or passes the request on. *)
Definition cors_passes (ML : McpServer.McpLibs) : Prop :=
  forall o h h' cx r c n, h cx r c n = h' cx r c n ->
    McpServer.cors_with o h cx r c n = McpServer.cors_with o h' cx r c n.

(** A request without an accepted token is answered the same whatever the tools would do:
    nothing behind the authentication runs. *)
Theorem mcp_tools_unreached {JL : JwtLib} {ML : McpServer.McpLibs} su now r c n h err :
  cors_passes ML -> mcp.authenticate (McpServer.su_Signer su) now r = inr err ->
  McpServer.serve (ML := with_streamable ML h) su now r c n = McpServer.serve su now r c n.
Proof.
  intros Hc Ha. unfold McpServer.serve. destruct (_ || _); [|done].
  unfold McpServer.mcp_handler, McpServer.CORS.
  assert (Hauth : forall next next' : McpServer.MHandler,
    McpServer.Auth now (McpServer.su_Signer su) next background r c n
    = McpServer.Auth now (McpServer.su_Signer su) next' background r c n).
  { intros next next'. unfold McpServer.Auth. rewrite Ha. by destruct err. }
  destruct (McpServer.su_CORSAllowedOrigins su); [apply Hauth|].
  apply (Hc _ _ _ background r c n). apply Hauth.
Qed.

(** Where no origin is configured, such a request is answered with status 401. *)
Theorem mcp_unauthenticated {JL : JwtLib} {ML : McpServer.McpLibs} su now r c n err :
  McpServer.su_CORSAllowedOrigins su = [] -> rq_Path r = "/mcp" ->
  mcp.authenticate (McpServer.su_Signer su) now r = inr err ->
  an_Status (fst (McpServer.serve su now r c n)) = 401.
Proof.
  intros Ho Hp Ha. unfold McpServer.serve. rewrite Hp. cbn.
  unfold McpServer.mcp_handler, McpServer.CORS. rewrite Ho. unfold McpServer.Auth. rewrite Ha.
  by destruct err.
Qed.

(** ** The token command *)

Lemma splitScopes_clean s t : t ∈ JwtIssue.splitScopes s -> t <> "".
Proof.
  unfold JwtIssue.splitScopes. destruct (str_empty s); [by intros ?%not_elem_of_nil|].
  intros [_ H]%elem_of_filter_list. by destruct t.
Qed.

(** What the command prints on success is a token of the secret it read, which a service
    with that secret accepts until it expires, with the scopes of the flag. *)
Theorem jwt_issue_verifies {JL : JwtLib} {signed} {JW : JwtLaws signed} getenv now sub ttl scope
    secretEnv tok :
  JwtIssue.run getenv now sub ttl scope secretEnv = (tok, 0) ->
  let key := getenv (JwtIssue.secret_env getenv secretEnv) in
  let claims := mkClaims sub (NewNumericDate now) (NewNumericDate (now + ttl))
                  (join " " (JwtIssue.splitScopes scope)) in
  key <> "" /\ forall now', NewNumericDate now' < NewNumericDate (now + ttl) ->
    Verify (mkSigner key) now' tok = Ok claims.
Proof.
  cbv zeta. unfold JwtIssue.run, NewSigner. destruct (str_empty sub) eqn:Es; [done|].
  set (key := getenv _). destruct (str_empty key) eqn:Ek; [done|].
  destruct (Issue _ _ _ _ _) as [t|] eqn:Et; [|done]. intros [= ->].
  split; [by intros E; rewrite E in Ek|]. intros now' Hn.
  by apply (Issue_verifies (mkSigner key) now sub ttl (JwtIssue.splitScopes scope)).
Qed.

(** A command run with the API's secret in the environment. *)
Example jwt_issue_runs :
  snd (JwtIssue.run (fun v => if String.eqb v "API_JWT_SECRET" then toy_secret else "")
         1000000000000 "alice" 3600000000000 "read, stream," "") = 0
  /\ JwtIssue.splitScopes "read, stream," = ["read"; "stream"].
Proof. vm_compute. by split. Qed.

(** Schema 12: the MCP server is ready, the API is not. *)
Example schema_12_differs :
  let schema (_ : View) := Ok (12, false) in
  let v := steady (mkView empty_db scan_id (fun _ _ => true) 0) in
  an_Status (fst (McpServer.Readyz true None schema background (mkRequest "GET" "/readyz" [] ∅ ∅) v 0%nat))
  = 200
  /\ match fst (readyz true false None schema 0 v 0%nat) with
     | Ok rs => rs_Status rs = 503
     | Err _ => False
     end.
Proof. vm_compute. by split. Qed.
