(* ===== verification/Wire.v ===== *)
(** The consumer's end of a notification: encoding/json's decoding of a payload into the wire
    types of the streams ([UnmarshalJSON] of internal/api/stream/hub.go with the field tags of
    internal/api/dto), as cmd/api wires it to the two channels.

    [json.Unmarshal] answers an error for text that is not JSON and for a member whose value
    does not fit its field; which of the two, and the message, is not kept: [None] is an
    error. *)

From S2P Require Import Prelude.
From S2P Require Import Models.
From S2P Require Import Json.
From S2P Require Import Text.
From S2P Require Import ListQueries.
From S2P Require Import Dto.
#[local] Open Scope string_scope.
#[local] Open Scope Z_scope.

(** ** Runes *)

Definition byte_of (z : Z) : ascii := ascii_of_nat (Z.to_nat z).

(** [utf8.EncodeRune] of a code point that is not a surrogate and below 2^21. *)
Definition encode_rune (r : Z) : string :=
  let tail sh := String (byte_of (128 + Z.shiftr r sh mod 64)) "" in
  if r <? 128 then String (byte_of r) ""
  else if r <? 2048 then String (byte_of (192 + Z.shiftr r 6)) (tail 0)
  else if r <? 65536 then String (byte_of (224 + Z.shiftr r 12)) (tail 6 +:+ tail 0)
  else String (byte_of (240 + Z.shiftr r 18)) (tail 12 +:+ tail 6 +:+ tail 0).

(** U+FFFD, what a malformed sequence or an unpaired surrogate becomes. *)
Definition replacement : string := bytes_of [239; 191; 189]%nat.

Definition is_surrogate (r : Z) : bool := (55296 <=? r) && (r <? 57344).

(** [utf16.DecodeRune]; [None] is U+FFFD. *)
Definition decode_surrogates (hi lo : Z) : option Z :=
  if (55296 <=? hi) && (hi <? 56320) && (56320 <=? lo) && (lo <? 57344)
  then Some (Z.shiftl (hi - 55296) 10 + (lo - 56320) + 65536) else None.

Definition hex_value (c : ascii) : option Z :=
  let n := Z.of_nat (nat_of_ascii c) in
  if (48 <=? n) && (n <=? 57) then Some (n - 48)
  else if (97 <=? n) && (n <=? 102) then Some (n - 87)
  else if (65 <=? n) && (n <=? 70) then Some (n - 55)
  else None.

Fixpoint hex_digits (k : nat) (acc : Z) (s : string) : option (Z * string) :=
  match k, s with
  | O, _ => Some (acc, s)
  | S _, EmptyString => None
  | S k', String c s' => d ← hex_value c; hex_digits k' (16 * acc + d) s'
  end.

(** [getu4]: a [\uXXXX] at the head of the text. *)
Definition getu4 (s : string) : option (Z * string) :=
  rest ← strip_prefix (String backslash "u") s; hex_digits 4 0 rest.

(** ** String literals *)

(** What follows a backslash, [u] apart. *)
Definition simple_escape (c : ascii) : option ascii :=
  match nat_of_ascii c with
  | 34 | 92 | 47 => Some c
  | 98 => Some (ascii_of_nat 8) | 102 => Some (ascii_of_nat 12) | 110 => Some (ascii_of_nat 10)
  | 114 => Some (ascii_of_nat 13) | 116 => Some (ascii_of_nat 9)
  | _ => None
  end%nat.

(** One item of a literal's text (not the closing quote): the bytes it stands for and the
    text after it. *)
Definition literal_item (s : string) : option (string * string) :=
  match s with
  | EmptyString => None
  | String c s' =>
      if Ascii.eqb c backslash then
        match getu4 s with
        | Some (rr, rest) =>
            if is_surrogate rr then
              match getu4 rest with
              | Some (rr1, rest') =>
                  match decode_surrogates rr rr1 with
                  | Some r => Some (encode_rune r, rest')
                  | None => Some (replacement, rest)
                  end
              | None => Some (replacement, rest)
              end
            else Some (encode_rune rr, rest)
        | None =>
            match s' with
            | EmptyString => None
            | String e s'' => b ← simple_escape e; Some (String b "", s'')
            end
        end
      else if Nat.ltb (nat_of_ascii c) 32 then None
      else match utf8_seq s with
           | Some (r, rest) => Some (r, rest)
           | None => Some (replacement, s')
           end
  end.

(** The literal after its opening quote: its value and the text after the closing one. Every
    item is at least a byte long, so the length of the text is fuel enough. *)
Fixpoint unquote (fuel : nat) (s : string) : option (string * string) :=
  match fuel, s with
  | O, _ | _, EmptyString => None
  | S fuel', String c s' =>
      if Ascii.eqb c quote_char then Some ("", s')
      else '(piece, rest) ← literal_item s;
           '(v, rest') ← unquote fuel' rest;
           Some (piece +:+ v, rest')
  end.

Definition scan_string (s : string) : option (string * string) := unquote (String.length s) s.

(** ** Numbers *)

Fixpoint take_digits (s : string) : string * string :=
  match s with
  | EmptyString => ("", "")
  | String c s' =>
      match digit_value c with
      | Some _ => let '(d, r) := take_digits s' in (String c d, r)
      | None => ("", s)
      end
  end.

Definition digits1 (s : string) : option (string * string) :=
  let '(d, r) := take_digits s in if str_empty d then None else Some (d, r).

(** [0], or digits that do not start with it. *)
Definition scan_int (s : string) : option (string * string) :=
  match strip_prefix "0" s with
  | Some r => Some ("0", r)
  | None => digits1 s
  end.

Definition scan_frac (s : string) : option (string * string) :=
  match strip_prefix "." s with
  | Some r => '(d, r') ← digits1 r; Some ("." +:+ d, r')
  | None => Some ("", s)
  end.

Definition scan_sign (s : string) : string * string :=
  match strip_prefix "+" s, strip_prefix "-" s with
  | Some r, _ => ("+", r)
  | None, Some r => ("-", r)
  | None, None => ("", s)
  end.

Definition scan_exp (s : string) : option (string * string) :=
  let after e r := let '(sg, r1) := scan_sign r in
                   '(d, r2) ← digits1 r1; Some (e +:+ sg +:+ d, r2) in
  match strip_prefix "e" s, strip_prefix "E" s with
  | Some r, _ => after "e" r
  | None, Some r => after "E" r
  | None, None => Some ("", s)
  end.

Definition scan_number (s : string) : option (string * string) :=
  let '(sg, r0) := match strip_prefix "-" s with Some r => ("-", r) | None => ("", s) end in
  '(i, r1) ← scan_int r0;
  '(f, r2) ← scan_frac r1;
  '(e, r3) ← scan_exp r2;
  Some (sg +:+ i +:+ f +:+ e, r3).

(** ** Values *)

(** A value: its kind with what a field can take from it. A member of an object has its key
    and its value with the value's own text, which a [json.RawMessage] keeps. *)
Inductive jnode : Type :=
| NNull
| NBool (b : bool)
| NNum (text : string)
| NStr (s : string)
| NArr
| NObj (members : list (string * (jnode * string))).

Definition member : Type := string * (jnode * string).

Definition is_space (c : ascii) : bool :=
  match nat_of_ascii c with 32 | 9 | 10 | 13 => true | _ => false end%nat.

Fixpoint skip_space (s : string) : string :=
  match s with
  | EmptyString => ""
  | String c s' => if is_space c then skip_space s' else s
  end.

(** The text of [s] before its suffix [rest]. *)
Definition text_before (s rest : string) : string :=
  String.substring 0 (String.length s - String.length rest) s.

(** [maxNestingDepth] of the scanner. *)
Definition maxNestingDepth : Z := 10000.

(** One value at the head of the text, the members of an object from a key on, and the
    elements of an array from a value on. [depth] is how many more brackets may be opened.
    A text that is read closes what it opens, so its length is fuel enough ([scan_enough] of
    ScannerTheorems.v). *)
Fixpoint scan_value (fuel : nat) (depth : Z) (s : string) : option (jnode * string) :=
  match fuel with
  | O => None
  | S fuel' =>
      match s with
      | EmptyString => None
      | String c s' =>
          if Ascii.eqb c quote_char then
            '(v, r) ← scan_string s'; Some (NStr v, r)
          else if Ascii.eqb c "{" then
            if depth <=? 0 then None
            else match strip_prefix "}" (skip_space s') with
                 | Some r => Some (NObj [], r)
                 | None => '(ms, r) ← scan_members fuel' (depth - 1) (skip_space s');
                           Some (NObj ms, r)
                 end
          else if Ascii.eqb c "[" then
            if depth <=? 0 then None
            else match strip_prefix "]" (skip_space s') with
                 | Some r => Some (NArr, r)
                 | None => r ← scan_elements fuel' (depth - 1) (skip_space s'); Some (NArr, r)
                 end
          else if Ascii.eqb c "t" then r ← strip_prefix "rue" s'; Some (NBool true, r)
          else if Ascii.eqb c "f" then r ← strip_prefix "alse" s'; Some (NBool false, r)
          else if Ascii.eqb c "n" then r ← strip_prefix "ull" s'; Some (NNull, r)
          else '(t, r) ← scan_number s; Some (NNum t, r)
      end
  end

with scan_members (fuel : nat) (depth : Z) (s : string) : option (list member * string) :=
  match fuel with
  | O => None
  | S fuel' =>
      q ← strip_prefix (String quote_char "") s;
      '(k, s1) ← scan_string q;
      s2 ← strip_prefix ":" (skip_space s1);
      let text := skip_space s2 in
      '(v, s3) ← scan_value fuel' depth text;
      let m := (k, (v, text_before text s3)) in
      match strip_prefix "," (skip_space s3) with
      | Some s4 => '(ms, r) ← scan_members fuel' depth (skip_space s4); Some (m :: ms, r)
      | None => r ← strip_prefix "}" (skip_space s3); Some ([m], r)
      end
  end

with scan_elements (fuel : nat) (depth : Z) (s : string) : option string :=
  match fuel with
  | O => None
  | S fuel' =>
      '(_, s1) ← scan_value fuel' depth s;
      match strip_prefix "," (skip_space s1) with
      | Some s2 => scan_elements fuel' depth (skip_space s2)
      | None => strip_prefix "]" (skip_space s1)
      end
  end.

(** A whole text: one value and nothing but white space around it. *)
Definition parse_json (text : string) : option jnode :=
  let s := skip_space text in
  '(v, r) ← scan_value (S (String.length s)) maxNestingDepth s;
  if str_empty (skip_space r) then Some v else None.

(** ** Structs *)

(** Upper case of a byte, the key a name is looked up under when no field has it exactly.
    Two characters outside ASCII fold to ASCII letters: U+017F to [S], U+212A to [K]. *)
Definition upper (c : ascii) : ascii :=
  let n := nat_of_ascii c in if Nat.leb 97 n && Nat.leb n 122 then ascii_of_nat (n - 32) else c.

Fixpoint fold_name_fuel (fuel : nat) (s : string) : string :=
  match fuel, s with
  | O, _ | _, EmptyString => ""
  | S fuel', String c s' =>
      match strip_prefix (bytes_of [197; 191]%nat) s, strip_prefix (bytes_of [226; 132; 170]%nat) s with
      | Some r, _ => String "S" (fold_name_fuel fuel' r)
      | None, Some r => String "K" (fold_name_fuel fuel' r)
      | None, None => String (upper c) (fold_name_fuel fuel' s')
      end
  end.

Definition fold_name (s : string) : string := fold_name_fuel (String.length s) s.

(** A field of a struct: how it takes a value. *)
Definition Field (A : Type) : Type := string * (jnode -> string -> A -> option A).

(** The field a key names: the one of exactly that name, else the first with its folded
    name. The names are ASCII. *)
Definition find_field {A} (key : string) (fields : list (Field A)) : option (Field A) :=
  match find (fun f => String.eqb (fst f) key) fields with
  | Some f => Some f
  | None => find (fun f => String.eqb (fold_name (fst f)) (fold_name key)) fields
  end.

(** The members in order: an unknown one is skipped, a repeated one overwrites. *)
Fixpoint decode_members {A} (fields : list (Field A)) (ms : list member) (a : A) : option A :=
  match ms with
  | [] => Some a
  | (k, (v, text)) :: ms' =>
      match find_field k fields with
      | Some f => a' ← snd f v text a; decode_members fields ms' a'
      | None => decode_members fields ms' a
      end
  end.

(** [json.Unmarshal] into a zero struct; the text [null] leaves it zero. *)
Definition unmarshal_struct {A} (fields : list (Field A)) (zero : A) (text : string) : option A :=
  v ← parse_json text;
  match v with
  | NObj ms => decode_members fields ms zero
  | NNull => Some zero
  | _ => None
  end.

(** The kinds of field: a string, a signed integer of a range, a [uint64], raw JSON. A
    [null] leaves the first three as they are. *)
Section fields.
Context {A : Type}.

Definition string_field (set : string -> A -> A) (v : jnode) (_ : string) (a : A) : option A :=
  match v with NStr s => Some (set s a) | NNull => Some a | _ => None end.

Definition int_field (lo hi : Z) (set : Z -> A -> A) (v : jnode) (_ : string) (a : A)
  : option A :=
  match v with
  | NNum t => z ← parse_int64 t; if (lo <=? z) && (z <=? hi) then Some (set z a) else None
  | NNull => Some a
  | _ => None
  end.

Definition uint64_field (set : Z -> A -> A) (v : jnode) (_ : string) (a : A) : option A :=
  match v with
  | NNum t => z ← parse_uint64 t; Some (set z a)
  | NNull => Some a
  | _ => None
  end.

Definition raw_field (set : string -> A -> A) (_ : jnode) (text : string) (a : A) : option A :=
  Some (set text a).
End fields.

(** ** The streams' events *)

#[export] Instance momentum_dto_eta : Eta dto.Momentum := fun r =>
  dto.mkMomentum (dto.mom_Height r) (dto.mom_Hash r) (dto.mom_Timestamp r) (dto.mom_TxCount r)
    (dto.mom_Producer r) (dto.mom_ProducerOwner r) (dto.mom_ProducerName r).

#[export] Instance block_dto_eta : Eta dto.AccountBlock := fun r =>
  dto.mkAccountBlock (dto.ab_Hash r) (dto.ab_MomentumHash r) (dto.ab_MomentumTimestamp r)
    (dto.ab_MomentumHeight r) (dto.ab_BlockType r) (dto.ab_Height r) (dto.ab_Address r)
    (dto.ab_ToAddress r) (dto.ab_Amount r) (dto.ab_TokenStandard r) (dto.ab_Data r)
    (dto.ab_Method r) (dto.ab_Input r) (dto.ab_PairedAccountBlock r) (dto.ab_DescendantOf r).

(** The tags of [dto.Momentum]. *)
Definition momentum_fields : list (Field dto.Momentum) :=
  [("height", uint64_field (fun z m => m <| dto.mom_Height := z |>));
   ("hash", string_field (fun s m => m <| dto.mom_Hash := s |>));
   ("timestamp", int_field min_int64 max_int64 (fun z m => m <| dto.mom_Timestamp := z |>));
   ("tx_count", int_field min_int64 max_int64 (fun z m => m <| dto.mom_TxCount := z |>));
   ("producer", string_field (fun s m => m <| dto.mom_Producer := s |>));
   ("producer_owner", string_field (fun s m => m <| dto.mom_ProducerOwner := s |>));
   ("producer_name", string_field (fun s m => m <| dto.mom_ProducerName := s |>))].

(** The tags of [dto.AccountBlock]. *)
Definition block_dto_fields : list (Field dto.AccountBlock) :=
  [("hash", string_field (fun s b => b <| dto.ab_Hash := s |>));
   ("momentum_hash", string_field (fun s b => b <| dto.ab_MomentumHash := s |>));
   ("momentum_timestamp",
     int_field min_int64 max_int64 (fun z b => b <| dto.ab_MomentumTimestamp := z |>));
   ("momentum_height",
     int_field min_int64 max_int64 (fun z b => b <| dto.ab_MomentumHeight := z |>));
   ("block_type", int_field min_int16 max_int16 (fun z b => b <| dto.ab_BlockType := z |>));
   ("height", int_field min_int64 max_int64 (fun z b => b <| dto.ab_Height := z |>));
   ("address", string_field (fun s b => b <| dto.ab_Address := s |>));
   ("to_address", string_field (fun s b => b <| dto.ab_ToAddress := s |>));
   ("amount", string_field (fun s b => b <| dto.ab_Amount := s |>));
   ("token_standard", string_field (fun s b => b <| dto.ab_TokenStandard := s |>));
   ("data", string_field (fun s b => b <| dto.ab_Data := s |>));
   ("method", string_field (fun s b => b <| dto.ab_Method := s |>));
   ("input", raw_field (fun s b => b <| dto.ab_Input := s |>));
   ("paired_account_block", string_field (fun s b => b <| dto.ab_PairedAccountBlock := s |>));
   ("descendant_of", string_field (fun s b => b <| dto.ab_DescendantOf := s |>))].

(** [UnmarshalJSON]: the hook of a hub; [None] is the error the hub logs before it goes on
    without the event. *)
Definition UnmarshalJSON {A} (fields : list (Field A)) (zero : A) (payload : string) : option A :=
  unmarshal_struct fields zero payload.

(** The two hubs of cmd/api: their channels and hooks. *)
Definition momentum_channel : string := "momentum_new".
Definition block_channel : string := "account_block_new".

Definition decode_momentum : string -> option dto.Momentum :=
  UnmarshalJSON momentum_fields (dto.mkMomentum 0 "" 0 0 "" "" "").

Definition decode_block : string -> option dto.AccountBlock :=
  UnmarshalJSON block_dto_fields (dto.mkAccountBlock "" "" 0 0 0 0 "" "" "" "" "" "" "" "" "").

(** What a hub's LISTEN loop makes of a connection's notifications, in order: those on
    another channel do not reach it. *)
Definition heard {A} (channel : string) (decode : string -> option A)
    (notes : list (string * string)) : list (option A) :=
  map (fun n => decode (snd n)) (List.filter (fun n => String.eqb (fst n) channel) notes).
