(* ===== verification/Durations.v ===== *)
(** Go's durations as configuration text: [time.ParseDuration] with its overflow checks and
    its floating-point fractions, and [ParseCronInterval] (internal/indexer/cron.go). *)

From Stdlib Require Import Floats.SpecFloat.
From S2P Require Import Prelude.
From S2P Require Import Json.
From S2P Require Import Text.
From S2P Require Import NodePool.
From S2P Require Import Retry.
#[local] Open Scope string_scope.
#[local] Open Scope Z_scope.

(** ** time.ParseDuration *)

Definition two63 : Z := 9223372036854775808.

(** [leadingInt]: the digits at the head; [None] above 2^63. *)
Fixpoint leadingInt (x : Z) (s : string) : option (Z * string) :=
  match s with
  | EmptyString => Some (x, s)
  | String c s' =>
      match digit_value c with
      | None => Some (x, s)
      | Some d =>
          if two63 / 10 <? x then None
          else let y := x * 10 + d in if two63 <? y then None else leadingInt y s'
      end
  end.

Definition float64 (n : Z) : spec_float := binary_normalize 53 1024 n 0 false.

(** [leadingFraction]: the digits after the point with their scale, a power of ten; digits
    that do not fit are read and dropped. *)
Fixpoint leadingFraction (overflow : bool) (x : Z) (scale : spec_float) (s : string)
  : Z * spec_float * string :=
  match s with
  | EmptyString => (x, scale, s)
  | String c s' =>
      match digit_value c with
      | None => (x, scale, s)
      | Some d =>
          if overflow || (max_int64 / 10 <? x) || (two63 <? x * 10 + d)
          then leadingFraction true x scale s'
          else leadingFraction false (x * 10 + d) (SFmul 53 1024 scale (float64 10)) s'
      end
  end.

Definition is_digit (c : ascii) : bool :=
  match digit_value c with Some _ => true | None => false end.

(** The bytes up to the next digit or point. *)
Fixpoint span_unit (s : string) : string * string :=
  match s with
  | EmptyString => ("", "")
  | String c s' =>
      if Ascii.eqb c "." || is_digit c then ("", s)
      else let '(u, r) := span_unit s' in (String c u, r)
  end.

Definition Microsecond : Z := 1000.
Definition Minute : Z := 60 * Second.
Definition Hour : Z := 60 * Minute.

(** [unitMap]; the micro sign and the Greek letter are UTF-8. *)
Definition unit_of (u : string) : option Z :=
  if String.eqb u "ns" then Some 1
  else if String.eqb u "us" || String.eqb u (bytes_of [194; 181; 115]%nat)
          || String.eqb u (bytes_of [206; 188; 115]%nat) then Some Microsecond
  else if String.eqb u "ms" then Some Millisecond
  else if String.eqb u "s" then Some Second
  else if String.eqb u "m" then Some Minute
  else if String.eqb u "h" then Some Hour
  else None.

Definition invalid_duration (orig : string) : error := EMsg ("time: invalid duration " +:+ orig).

(** One number with its unit: its nanoseconds and the text after it. *)
Definition duration_term (orig s : string) : result (Z * string) :=
  let bad := Err (invalid_duration orig) in
  match s with
  | EmptyString => bad
  | String c _ =>
      if negb (Ascii.eqb c "." || is_digit c) then bad
      else match leadingInt 0 s with
      | None => bad
      | Some (v, s1) =>
          let pre := negb (Nat.eqb (String.length s) (String.length s1)) in
          let '(f, scale, s2, post) :=
            match strip_prefix "." s1 with
            | Some s1' => let '(f, scale, s2) := leadingFraction false 0 (float64 1) s1' in
                          (f, scale, s2, negb (Nat.eqb (String.length s1') (String.length s2)))
            | None => (0, float64 1, s1, false)
            end in
          if negb pre && negb post then bad
          else
            let '(u, s3) := span_unit s2 in
            if str_empty u then Err (EMsg ("time: missing unit in duration " +:+ orig))
            else match unit_of u with
            | None => Err (EMsg ("time: unknown unit " +:+ u +:+ " in duration " +:+ orig))
            | Some unit =>
                if two63 / unit <? v then bad
                else
                  let v1 := v * unit in
                  if 0 <? f then
                    let v2 := v1 + float_uint64
                                (SFmul 53 1024 (float64 f) (SFdiv 53 1024 (float64 unit) scale)) in
                    if two63 <? v2 then bad else Ok (v2, s3)
                  else Ok (v1, s3)
            end
      end
  end.

(** The terms of a duration, summed; each consumes at least its first byte, so the length of
    the text is fuel enough. *)
Fixpoint duration_terms (fuel : nat) (orig : string) (d : Z) (s : string) : result Z :=
  if str_empty s then Ok d
  else match fuel with
  | O => Err (invalid_duration orig)
  | S fuel' =>
      '(v, rest) ← duration_term orig s;
      let d' := uint64 (d + v) in
      if two63 <? d' then Err (invalid_duration orig) else duration_terms fuel' orig d' rest
  end.

(** Nanoseconds. *)
Definition ParseDuration (orig : string) : result Z :=
  let '(neg, s) := match strip_prefix "-" orig, strip_prefix "+" orig with
                   | Some r, _ => (true, r)
                   | None, Some r => (false, r)
                   | None, None => (false, orig)
                   end in
  if String.eqb s "0" then Ok 0
  else if str_empty s then Err (invalid_duration orig)
  else
    d ← duration_terms (String.length s) orig 0 s;
    if neg then Ok (- d)
    else if max_int64 <? d then Err (invalid_duration orig) else Ok d.

Example duration_ex1 : ParseDuration "1h15m30.918s" = Ok (4530918 * Millisecond).
Proof. vm_compute. reflexivity. Qed.
Example duration_ex2 : ParseDuration "-1.5h" = Ok (- 90 * Minute).
Proof. vm_compute. reflexivity. Qed.
Example duration_ex3 : is_ok (ParseDuration "10") = false /\ is_ok (ParseDuration "5x") = false
  /\ is_ok (ParseDuration "2562048h") = false.
Proof. vm_compute. done. Qed.

(** ** Intervals *)

Definition ParseCronInterval (s : string) (defaultInterval : Z) : result Z :=
  if str_empty s then Ok defaultInterval
  else wrap_err ("parse interval " +:+ s) (ParseDuration s).

(** ** Facts *)

Lemma digit_value_range c d : digit_value c = Some d -> 0 <= d <= 9.
Proof.
  unfold digit_value. destruct (_ && _) eqn:E; [|done]. intros [= <-].
  apply andb_true_iff in E as [H1%Z.leb_le H2%Z.leb_le]. lia.
Qed.

Lemma parse_digits_ge acc s v : 0 <= acc -> parse_digits acc s = Some v -> acc <= v.
Proof.
  revert acc. induction s as [|c s IH]; intros acc Ha; [by intros [= <-]|].
  cbn [parse_digits]. destruct (digit_value c) as [d|] eqn:E; [|done].
  apply digit_value_range in E. intros H%IH; lia.
Qed.

(** Text a number may be followed by: no digit. *)
Definition no_digit (t : string) : bool :=
  match t with EmptyString => true | String c _ => negb (is_digit c) end.

Lemma leadingInt_digits acc s t v :
  0 <= acc -> parse_digits acc s = Some v -> v <= two63 -> no_digit t = true ->
  leadingInt acc (s +:+ t) = Some (v, t).
Proof.
  revert acc. induction s as [|c s IH]; intros acc Ha Hv Hb Ht.
  - injection Hv as <-. change ("" +:+ t) with t. destruct t as [|c t]; [done|]. cbn in *.
    unfold is_digit in Ht. by destruct (digit_value c).
  - change (String c s +:+ t) with (String c (s +:+ t)). cbn [parse_digits leadingInt] in *.
    destruct (digit_value c) as [d|] eqn:E; [|done]. apply digit_value_range in E.
    replace (acc * 10 + d) with (10 * acc + d) by lia.
    pose proof (parse_digits_ge (10 * acc + d) s v ltac:(lia) Hv).
    unfold two63 in *.
    rewrite (proj2 (Z.ltb_ge _ _)) by (apply Z.div_le_lower_bound; lia).
    rewrite (proj2 (Z.ltb_ge _ _)) by lia. apply IH; [lia|done|done|done].
Qed.

(** The value a text stands for never leaves [int64]. *)
Lemma duration_terms_range fuel orig d s v :
  0 <= d <= two63 -> duration_terms fuel orig d s = Ok v -> 0 <= v <= two63.
Proof.
  revert d s. induction fuel as [|fuel IH]; intros d s Hd; cbn [duration_terms];
    (destruct (str_empty s); [by intros [= <-]|]); [done|].
  destruct (duration_term orig s) as [[v' rest]|e]; [|done]. cbn [mbind result_bind].
  destruct (Z.ltb_spec two63 (uint64 (d + v'))); [done|]. apply IH.
  unfold uint64 in *. pose proof (Z.mod_pos_bound (d + v') 18446744073709551616). lia.
Qed.

Theorem ParseDuration_range s d : ParseDuration s = Ok d -> in_int64 d = true.
Proof.
  unfold ParseDuration. destruct (match strip_prefix "-" s with Some _ => _ | None => _ end)
    as [neg r]. destruct (String.eqb r "0"); [by intros [= <-]|].
  destruct (str_empty r); [done|].
  destruct (duration_terms _ _ _ _) as [v|e] eqn:E; [|done]. cbn [mbind result_bind].
  apply duration_terms_range in E; [|done]. unfold two63 in E.
  destruct neg; [intros [= <-]|destruct (Z.ltb_spec max_int64 v); [done|]; intros [= <-]];
    apply in_int64_spec; unfold min_int64, max_int64 in *; lia.
Qed.

Lemma ParseDuration_range_witness : in_int64 (Hour + 30 * Minute) = true.
Proof. apply (ParseDuration_range "1h30m"). vm_compute. reflexivity. Defined.

Lemma unit_facts u unit :
  unit_of u = Some unit ->
  str_empty u = false /\ no_digit u = true /\ span_unit u = (u, "")
  /\ strip_prefix "." u = None /\ 1 <= unit <= Hour.
Proof.
  unfold unit_of.
  repeat (destruct (String.eqb u _) eqn:E at 1;
          [apply String.eqb_eq in E; subst u; intros [= <-]; by vm_compute|clear E]; cbn [orb]).
  done.
Qed.

Lemma pretty_digit p :
  exists c r, pretty (N.pos p) = String c r /\ is_digit c = true.
Proof.
  pose proof (parse_nonempty_pretty p) as H. destruct (pretty (N.pos p)) as [|c r]; [done|].
  exists c, r. split; [done|]. cbn in H. unfold is_digit. by destruct (digit_value c).
Qed.

Lemma digit_not c d : is_digit c = true -> is_digit d = false -> Ascii.eqb d c = false.
Proof. intros Hc Hd. apply Ascii.eqb_neq. congruence. Qed.

Lemma duration_term_units orig p u unit :
  unit_of u = Some unit -> Z.pos p * unit <= max_int64 ->
  duration_term orig (pretty (N.pos p) +:+ u) = Ok (Z.pos p * unit, "").
Proof.
  intros Hu Hb. destruct (unit_facts u unit Hu) as (He & Hnd & Hs & Hdot & Hr).
  pose proof (parse_nonempty_pretty p) as Hp.
  destruct (pretty_digit p) as (c & r & E & Hc). rewrite E in *.
  assert (leadingInt 0 (String c r +:+ u) = Some (Z.pos p, u)) as Hl.
  { apply leadingInt_digits; [done|exact Hp| |done]. unfold two63, max_int64 in *. nia. }
  change (String c r +:+ u) with (String c (r +:+ u)) in *. unfold duration_term.
  rewrite Hc, orb_true_r, Hl, Hdot. cbn [negb andb].
  assert (Nat.eqb (String.length (String c (r +:+ u))) (String.length u) = false) as ->.
  { apply Nat.eqb_neq. string_length. }
  cbn [negb andb]. rewrite Hs, He, Hu.
  rewrite (proj2 (Z.ltb_ge _ _)); [done|].
  apply Z.div_le_lower_bound; [lia|]. unfold two63, max_int64 in *. lia.
Qed.

(** Whole numbers of a unit are read back exactly, to the last one that fits. *)
Theorem ParseDuration_units n u unit :
  unit_of u = Some unit -> 0 < n -> n * unit <= max_int64 ->
  ParseDuration (format_int n +:+ u) = Ok (n * unit).
Proof.
  intros Hu Hn Hb. destruct n as [|p|p]; [lia| |lia].
  change (format_int (Z.pos p)) with (pretty (N.pos p)).
  pose proof (duration_term_units (pretty (N.pos p) +:+ u) p u unit Hu Hb) as Ht.
  destruct (unit_facts u unit Hu) as (He & _ & _ & _ & Hr).
  destruct (pretty_digit p) as (c & r & E & Hc). rewrite E in *.
  change (String c r +:+ u) with (String c (r +:+ u)) in *. unfold ParseDuration.
  cbn [strip_prefix]. rewrite !(digit_not c) by done.
  assert (String.eqb (String c (r +:+ u)) "0" = false) as ->.
  { apply String.eqb_neq. intros [= _ H]. by destruct r, u. }
  cbn [str_empty String.length duration_terms]. rewrite Ht. cbn [mbind result_bind].
  unfold uint64. rewrite Z.add_0_l, Z.mod_small by (unfold max_int64 in *; lia).
  rewrite (proj2 (Z.ltb_ge two63 _)) by (unfold two63, max_int64 in *; lia).
  assert (forall k d, duration_terms k (String c (r +:+ u)) d "" = Ok d) as ->
    by (intros k d; by destruct k).
  cbn [mbind result_bind]. by rewrite (proj2 (Z.ltb_ge max_int64 _)).
Qed.

Lemma ParseDuration_units_witness : ParseDuration "90m" = Ok (90 * Minute).
Proof. apply (ParseDuration_units 90 "m" Minute); [done|done|vm_compute; discriminate]. Defined.

(** An interval of the configuration is the default, or what [time.ParseDuration] reads. *)
Theorem ParseCronInterval_spec s def d :
  ParseCronInterval s def = Ok d <-> (s = "" /\ d = def) \/ (s <> "" /\ ParseDuration s = Ok d).
Proof.
  unfold ParseCronInterval. destruct s as [|c s]; cbn [str_empty].
  - split; [intros [= ->]; by left|]. by intros [[_ ->]|[? _]].
  - rewrite wrap_err_Ok. split; [intros H; by right|]. by intros [[? _]|[_ ?]].
Qed.
