(* ===== verification/ScannerTheorems.v ===== *)
(** The scanners of Wire.v and Durations.v end by themselves: every step consumes a byte, so
    that the length of the text is fuel enough and more fuel changes nothing. *)

From S2P Require Import Prelude.
From S2P Require Import Json.
From S2P Require Import Text.
From S2P Require Import Retry.
From S2P Require Import Wire.
From S2P Require Import Durations.
#[local] Open Scope string_scope.
#[local] Open Scope Z_scope.

#[local] Abbreviation len := String.length.

(** ** What each scanner consumes *)

Lemma strip_prefix_len p s r : strip_prefix p s = Some r -> len s = (len p + len r)%nat.
Proof.
  revert s. induction p as [|a p IH]; intros s; cbn [strip_prefix]; [by intros [= ->]|].
  destruct s as [|b s]; [done|]. destruct (Ascii.eqb a b); [|done].
  intros H%IH. rewrite !length_string_cons, H. lia.
Qed.

Lemma strip1_len c s r : strip_prefix (String c "") s = Some r -> (len r < len s)%nat.
Proof. intros H%strip_prefix_len. cbn in H. lia. Qed.

Lemma skip_space_len s : (len (skip_space s) <= len s)%nat.
Proof. induction s as [|c s IH]; cbn; [done|]. destruct (is_space c); cbn; lia. Qed.

Lemma hex_digits_len k acc s v r : hex_digits k acc s = Some (v, r) -> (len r <= len s)%nat.
Proof.
  revert acc s. induction k as [|k IH]; intros acc s; cbn [hex_digits]; [by intros [= _ ->]|].
  destruct s as [|c s]; [done|]. destruct (hex_value c); [|done]. cbn [mbind option_bind].
  intros H%IH. cbn. lia.
Qed.

Lemma getu4_len s v r : getu4 s = Some (v, r) -> (len r < len s)%nat.
Proof.
  unfold getu4. intros (s' & H%strip_prefix_len & Hd%hex_digits_len)%bind_Some. cbn in H. lia.
Qed.

Lemma utf8_seq_len s v r : utf8_seq s = Some (v, r) -> (len r < len s)%nat.
Proof.
  unfold utf8_seq. intros H.
  repeat match type of H with
  | context [match ?x with _ => _ end] => destruct x
  end; try done; injection H as _ <-; cbn; lia.
Qed.

Lemma literal_item_len s p r : literal_item s = Some (p, r) -> (len r < len s)%nat.
Proof.
  unfold literal_item. destruct s as [|c s]; [done|]. destruct (Ascii.eqb c backslash).
  - destruct (getu4 (String c s)) as [[rr rest]|] eqn:E.
    + apply getu4_len in E. destruct (is_surrogate rr); [|intros [= _ <-]; exact E].
      destruct (getu4 rest) as [[rr1 rest']|] eqn:E'; [|intros [= _ <-]; exact E].
      apply getu4_len in E'. destruct (decode_surrogates rr rr1); intros [= _ <-]; lia.
    + destruct s as [|e s]; [done|]. intros (b & _ & [= _ <-])%bind_Some. cbn. lia.
  - destruct (Nat.ltb _ 32); [done|].
    destruct (utf8_seq (String c s)) as [[r' rest]|] eqn:E; intros [= _ <-]; [|cbn; lia].
    by apply utf8_seq_len in E.
Qed.

Lemma unquote_len fuel s v r : unquote fuel s = Some (v, r) -> (len r < len s)%nat.
Proof.
  revert s v r. induction fuel as [|fuel IH]; intros [|c s] v r; cbn [unquote]; try done.
  destruct (Ascii.eqb c quote_char); [intros [= _ <-]; cbn; lia|].
  intros ([p rest] & H1%literal_item_len & ([v' r'] & H2%IH & [= _ <-])%bind_Some)%bind_Some. lia.
Qed.

Lemma take_digits_len s d r : take_digits s = (d, r) -> len s = (len d + len r)%nat.
Proof.
  revert d r. induction s as [|c s IH]; intros d r; cbn [take_digits]; [by intros [= <- <-]|].
  destruct (digit_value c); [|by intros [= <- <-]].
  destruct (take_digits s) as [d' r'] eqn:E. intros [= <- <-]. rewrite !length_string_cons.
  by rewrite (IH d' r').
Qed.

Lemma digits1_len s d r : digits1 s = Some (d, r) -> (len r < len s)%nat.
Proof.
  unfold digits1. destruct (take_digits s) as [d' r'] eqn:E. apply take_digits_len in E.
  destruct d'; [done|]. intros [= _ <-]. cbn in E. lia.
Qed.

Lemma scan_int_len s t r : scan_int s = Some (t, r) -> (len r < len s)%nat.
Proof.
  unfold scan_int. destruct (strip_prefix "0" s) eqn:E; [intros [= _ <-]|apply digits1_len].
  by apply strip1_len in E.
Qed.

Lemma scan_frac_len s t r : scan_frac s = Some (t, r) -> (len r <= len s)%nat.
Proof.
  unfold scan_frac. destruct (strip_prefix "." s) eqn:E; [|intros [= _ <-]; lia].
  apply strip1_len in E. intros ([d r'] & H%digits1_len & [= _ <-])%bind_Some. lia.
Qed.

Lemma scan_sign_len s t r : scan_sign s = (t, r) -> (len r <= len s)%nat.
Proof.
  unfold scan_sign. destruct (strip_prefix "+" s) eqn:E1; [apply strip1_len in E1; intros [= _ <-]; lia|].
  destruct (strip_prefix "-" s) eqn:E2; intros [= _ <-]; [apply strip1_len in E2|]; lia.
Qed.

Lemma scan_exp_len s t r : scan_exp s = Some (t, r) -> (len r <= len s)%nat.
Proof.
  unfold scan_exp. intros H.
  assert (forall e s0, (let '(sg, r1) := scan_sign s0 in
            '(d, r2) ← digits1 r1; Some (e +:+ sg +:+ d, r2)) = Some (t, r) ->
          (len r <= len s0)%nat) as Ha.
  { intros e s0. destruct (scan_sign s0) as [sg r1] eqn:E. apply scan_sign_len in E.
    intros ([d r2] & Hd%digits1_len & [= _ <-])%bind_Some. lia. }
  destruct (strip_prefix "e" s) eqn:E1; [apply strip1_len in E1; apply Ha in H; lia|].
  destruct (strip_prefix "E" s) eqn:E2; [apply strip1_len in E2; apply Ha in H; lia|].
  injection H as _ <-. lia.
Qed.

Lemma scan_number_len s t r : scan_number s = Some (t, r) -> (len r < len s)%nat.
Proof.
  unfold scan_number.
  destruct (match strip_prefix "-" s with Some r => _ | None => _ end) as [sg r0] eqn:E.
  assert (len r0 <= len s)%nat.
  { destruct (strip_prefix "-" s) eqn:E1; injection E as _ <-; [apply strip1_len in E1|]; lia. }
  intros ([i r1] & H1%scan_int_len & ([f r2] & H2%scan_frac_len
    & ([e r3] & H3%scan_exp_len & [= _ <-])%bind_Some)%bind_Some)%bind_Some. lia.
Qed.

(** ** Fuel *)

Lemma unquote_fuel f1 f2 s :
  (len s <= f1)%nat -> (len s <= f2)%nat -> unquote f1 s = unquote f2 s.
Proof.
  revert f2 s. induction f1 as [|f1 IH]; intros f2 [|c s] H1 H2; cbn in H1, H2; try lia.
  - by destruct f2.
  - by destruct f2.
  - destruct f2 as [|f2]; [lia|]. cbn [unquote]. destruct (Ascii.eqb c quote_char); [done|].
    destruct (literal_item (String c s)) as [[p rest]|] eqn:E; [|done].
    apply literal_item_len in E. cbn in E. cbn [mbind option_bind].
    by rewrite (IH f2 rest) by lia.
Qed.

(** Every scanner leaves less than it was given. *)
Lemma scan_len fuel :
  (forall d s v r, scan_value fuel d s = Some (v, r) -> (len r < len s)%nat)
  /\ (forall d s ms r, scan_members fuel d s = Some (ms, r) -> (len r < len s)%nat)
  /\ (forall d s r, scan_elements fuel d s = Some r -> (len r < len s)%nat).
Proof.
  induction fuel as [|fuel (IHv & IHm & IHe)]; [by split_and!|].
  split; [|split]; intros d s; cbn [scan_value scan_members scan_elements].
  - intros v r. destruct s as [|c s]; [done|].
    destruct (Ascii.eqb c quote_char).
    { intros ([w r'] & H%unquote_len & [= _ <-])%bind_Some. cbn. lia. }
    pose proof (skip_space_len s).
    destruct (Ascii.eqb c "{").
    { destruct (d <=? 0); [done|]. destruct (strip_prefix "}" _) eqn:E.
      - intros [= _ <-]. apply strip1_len in E. cbn. lia.
      - intros ([ms r'] & H1%IHm & [= _ <-])%bind_Some. cbn. lia. }
    destruct (Ascii.eqb c "[").
    { destruct (d <=? 0); [done|]. destruct (strip_prefix "]" _) eqn:E.
      - intros [= _ <-]. apply strip1_len in E. cbn. lia.
      - intros (r' & H1%IHe & [= _ <-])%bind_Some. cbn. lia. }
    do 3 (destruct (Ascii.eqb c _);
          [intros (r' & H1%strip_prefix_len & [= _ <-])%bind_Some; cbn in *; lia|]).
    intros ([t r'] & H1%scan_number_len & [= _ <-])%bind_Some. exact H1.
  - intros ms r (q & H1%strip1_len & H)%bind_Some.
    apply bind_Some in H as ([k s1] & H2%unquote_len & H).
    apply bind_Some in H as (s2 & H3%strip1_len & H).
    apply bind_Some in H as ([v s3] & H4%IHv & H).
    pose proof (skip_space_len s1). pose proof (skip_space_len s2).
    pose proof (skip_space_len s3).
    destruct (strip_prefix "," _) as [s4|] eqn:E.
    + apply strip1_len in E. pose proof (skip_space_len s4).
      apply bind_Some in H as ([ms' r'] & H9%IHm & [= _ <-]). lia.
    + apply bind_Some in H as (r' & H9%strip1_len & [= _ <-]). lia.
  - intros r ([v s1] & H1%IHv & H)%bind_Some. pose proof (skip_space_len s1).
    destruct (strip_prefix "," _) as [s2|] eqn:E.
    + apply strip1_len in E. pose proof (skip_space_len s2). apply IHe in H. lia.
    + apply strip1_len in H. lia.
Qed.

(** What a scanner reads in some fuel it reads in any that exceeds the bytes it consumes: an
    opening bracket takes two steps, but its closing one is a byte too. *)
Lemma scan_enough f1 :
  (forall f2 d s v r, scan_value f1 d s = Some (v, r) -> (len s < f2 + len r)%nat ->
     scan_value f2 d s = Some (v, r))
  /\ (forall f2 d s ms r, scan_members f1 d s = Some (ms, r) -> (len s < f2 + len r)%nat ->
        scan_members f2 d s = Some (ms, r))
  /\ (forall f2 d s r, scan_elements f1 d s = Some r -> (len s < f2 + len r)%nat ->
        scan_elements f2 d s = Some r).
Proof.
  induction f1 as [|f1 (IHv & IHm & IHe)]; [by split_and!|].
  destruct (scan_len f1) as (Lv & Lm & Le).
  split; [|split]; intros f2 d s.
  - intros v r H Hf. pose proof (proj1 (scan_len (S f1)) _ _ _ _ H).
    destruct f2 as [|f2]; [lia|]. cbn [scan_value] in *.
    destruct s as [|c s]; [done|]. pose proof (skip_space_len s). cbn in Hf.
    destruct (Ascii.eqb c quote_char); [done|].
    destruct (Ascii.eqb c "{").
    { destruct (d <=? 0); [done|]. destruct (strip_prefix "}" _); [done|].
      apply bind_Some in H as ([ms r'] & Hm & [= <- <-]).
      by rewrite (IHm f2 _ _ _ _ Hm) by lia. }
    destruct (Ascii.eqb c "["); [|done].
    destruct (d <=? 0); [done|]. destruct (strip_prefix "]" _); [done|].
    apply bind_Some in H as (r' & He & [= <- <-]). by rewrite (IHe f2 _ _ _ He) by lia.
  - intros ms r H Hf. pose proof (proj1 (proj2 (scan_len (S f1))) _ _ _ _ H).
    destruct f2 as [|f2]; [lia|]. cbn [scan_members] in *.
    apply bind_Some in H as (q & E1 & H). rewrite E1. cbn [mbind option_bind].
    apply bind_Some in H as ([k s1] & E2 & H). rewrite E2. cbn [mbind option_bind].
    apply bind_Some in H as (s2 & E3 & H). rewrite E3. cbn [mbind option_bind].
    apply bind_Some in H as ([v s3] & E4 & H).
    pose proof (strip1_len _ _ _ E1). pose proof (strip1_len _ _ _ E3).
    pose proof (unquote_len _ _ _ _ E2). pose proof (Lv _ _ _ _ E4).
    pose proof (skip_space_len s1). pose proof (skip_space_len s2). pose proof (skip_space_len s3).
    destruct (strip_prefix "," (skip_space s3)) as [s4|] eqn:E5.
    + pose proof (strip1_len _ _ _ E5). pose proof (skip_space_len s4).
      apply bind_Some in H as ([ms' r'] & E6 & [= <- <-]). pose proof (Lm _ _ _ _ E6).
      rewrite (IHv f2 _ _ _ _ E4) by lia. cbn [mbind option_bind].
      rewrite E5. by rewrite (IHm f2 _ _ _ _ E6) by lia.
    + apply bind_Some in H as (r' & E6 & [= <- <-]). pose proof (strip1_len _ _ _ E6).
      rewrite (IHv f2 _ _ _ _ E4) by lia. cbn [mbind option_bind]. by rewrite E5, E6.
  - intros r H Hf. pose proof (proj2 (proj2 (scan_len (S f1))) _ _ _ H).
    destruct f2 as [|f2]; [lia|]. cbn [scan_elements] in *.
    apply bind_Some in H as ([v s1] & E1 & H). pose proof (Lv _ _ _ _ E1).
    pose proof (skip_space_len s1).
    destruct (strip_prefix "," (skip_space s1)) as [s2|] eqn:E2.
    + pose proof (strip1_len _ _ _ E2). pose proof (skip_space_len s2). pose proof (Le _ _ _ H).
      rewrite (IHv f2 _ _ _ _ E1) by lia. cbn [mbind option_bind]. rewrite E2. by apply IHe; [|lia].
    + pose proof (strip1_len _ _ _ H).
      rewrite (IHv f2 _ _ _ _ E1) by lia. cbn [mbind option_bind]. by rewrite E2, H.
Qed.

Lemma scan_fuel f1 f2 d s :
  (len s < f1)%nat -> (len s < f2)%nat -> scan_value f1 d s = scan_value f2 d s.
Proof.
  intros H1 H2. destruct (scan_value f1 d s) as [[v r]|] eqn:E1.
  - symmetry. apply (proj1 (scan_enough f1) _ _ _ _ _ E1). lia.
  - destruct (scan_value f2 d s) as [[v r]|] eqn:E2; [|done].
    rewrite (proj1 (scan_enough f2) f1 _ _ _ _ E2) in E1 by lia. done.
Qed.

(** Whatever is decoded is decoded in the fuel given: more of it, for a text of any length,
    answers the same, for JSON texts and their string literals. *)
Theorem parse_json_fuel text fuel :
  (len text <= fuel)%nat ->
  parse_json text
  = ('(v, r) ← scan_value (S fuel) maxNestingDepth (skip_space text);
     if str_empty (skip_space r) then Some v else None).
Proof.
  intros Hf. unfold parse_json. pose proof (skip_space_len text).
  by rewrite (scan_fuel (S (len (skip_space text))) (S fuel)) by lia.
Qed.

Lemma parse_json_fuel_witness :
  parse_json " {} " = Some (NObj [])
  /\ parse_json " {} " = ('(v, r) ← scan_value 10 maxNestingDepth "{} ";
                          if str_empty (skip_space r) then Some v else None).
Proof. split; [reflexivity|]. apply (parse_json_fuel " {} " 9). cbn. lia. Defined.

(** ** Durations *)

Lemma leadingInt_len x s v r : leadingInt x s = Some (v, r) -> (len r <= len s)%nat.
Proof.
  revert x. induction s as [|c s IH]; intros x; cbn [leadingInt]; [by intros [= _ <-]|].
  destruct (digit_value c) as [d|]; [|by intros [= _ <-]].
  destruct (_ <? x); [done|]. destruct (two63 <? _); [done|]. intros H%IH. cbn. lia.
Qed.

Lemma leadingFraction_len o x sc s v sc' r :
  leadingFraction o x sc s = (v, sc', r) -> (len r <= len s)%nat.
Proof.
  revert o x sc. induction s as [|c s IH]; intros o x sc; cbn [leadingFraction]; [by intros [= _ _ <-]|].
  destruct (digit_value c) as [d|]; [|by intros [= _ _ <-]].
  destruct (_ || _); intros H%IH; cbn; lia.
Qed.

Lemma span_unit_len s u r : span_unit s = (u, r) -> len s = (len u + len r)%nat.
Proof.
  revert u r. induction s as [|c s IH]; intros u r; cbn [span_unit]; [by intros [= <- <-]|].
  destruct (_ || _); [by intros [= <- <-]|]. destruct (span_unit s) as [u' r'] eqn:E.
  intros [= <- <-]. rewrite !length_string_cons. by rewrite (IH u' r').
Qed.

(** A term is at least its unit long. *)
Lemma duration_term_len orig s v r : duration_term orig s = Ok (v, r) -> (len r < len s)%nat.
Proof.
  unfold duration_term. destruct s as [|c s]; [done|].
  destruct (negb (_ || _)); [done|].
  destruct (leadingInt 0 (String c s)) as [[v0 s1]|] eqn:E1; [|done]. apply leadingInt_len in E1.
  destruct (match strip_prefix "." s1 with Some _ => _ | None => _ end) as [[[f sc] s2] post] eqn:E2.
  assert (len s2 <= len s1)%nat.
  { destruct (strip_prefix "." s1) as [s1'|] eqn:Es; [|by injection E2 as _ _ <- _].
    apply strip1_len in Es. destruct (leadingFraction _ _ _ s1') as [[f' sc'] s2'] eqn:E3.
    apply leadingFraction_len in E3. injection E2 as _ _ <- _. lia. }
  destruct (negb _ && negb post); [done|].
  destruct (span_unit s2) as [u s3] eqn:E4. apply span_unit_len in E4.
  destruct u as [|a u]; [done|]. cbn [str_empty]. destruct (unit_of _); [|done].
  destruct (_ <? v0); [done|]. intros Hv. rewrite length_string_cons in E4.
  assert (r = s3) as ->; [|lia].
  destruct (0 <? f); [destruct (two63 <? _); [done|]|]; by injection Hv as _ <-.
Qed.

Lemma duration_terms_fuel f1 f2 orig d s :
  (len s <= f1)%nat -> (len s <= f2)%nat ->
  duration_terms f1 orig d s = duration_terms f2 orig d s.
Proof.
  revert f2 d s. induction f1 as [|f1 IH]; intros f2 d s H1 H2.
  - destruct s; [|cbn in H1; lia]. by destruct f2.
  - destruct f2 as [|f2]; [destruct s; [done|cbn in H2; lia]|]. cbn [duration_terms].
    destruct (str_empty s); [done|].
    destruct (duration_term orig s) as [[v r]|e] eqn:E; [|done]. apply duration_term_len in E.
    cbn [mbind result_bind]. destruct (two63 <? _); [done|]. apply IH; lia.
Qed.
