(* ===== verification/WireTheorems.v ===== *)
(** Decoding undoes encoding: what [json.Marshal] makes of a map, [json.Unmarshal] reads back,
    up to the bytes that are not UTF-8; and so every notification of a committed momentum is
    decoded by its hub to the wire form of the row it announces. *)

From S2P Require Import Prelude.
From S2P Require Import Models.
From S2P Require Import Chain.
From S2P Require Import Json.
From S2P Require Import RepoLedger.
From S2P Require Import Database.
From S2P Require Import Embedded.
From S2P Require Import Processor.
From S2P Require Import ProcessorShape.
From S2P Require Import LedgerFacts.
From S2P Require Import LedgerProps.
From S2P Require Import Samples.
From S2P Require Import Text.
From S2P Require Import ListQueries.
From S2P Require Import Dto.
From S2P Require Import Wire.
From S2P Require Import ScannerTheorems.
#[local] Open Scope string_scope.
#[local] Open Scope Z_scope.

(** ** Strings that are UTF-8 *)

(** What a trip through JSON leaves of a string: a byte that starts no well-formed sequence
    becomes U+FFFD. *)
Fixpoint coerce_fuel (fuel : nat) (s : string) : string :=
  match fuel, s with
  | O, _ | _, EmptyString => ""
  | S fuel', String c s' =>
      match utf8_seq s with
      | Some (r, rest) => r +:+ coerce_fuel fuel' rest
      | None => replacement +:+ coerce_fuel fuel' s'
      end
  end.

Definition coerce_utf8 (s : string) : string := coerce_fuel (String.length s) s.

Fixpoint valid_fuel (fuel : nat) (s : string) : bool :=
  match fuel, s with
  | _, EmptyString => true
  | O, _ => false
  | S fuel', _ => match utf8_seq s with Some (_, rest) => valid_fuel fuel' rest | None => false end
  end.

(** [utf8.ValidString]. *)
Definition valid_utf8 (s : string) : bool := valid_fuel (String.length s) s.

(** ** Strings *)

Lemma substring_app a b : String.substring 0 (String.length a) (a +:+ b) = a.
Proof.
  induction a as [|c a IH]; [by destruct b|]. rewrite string_app_cons. cbn. by rewrite IH.
Qed.

Lemma text_before_app a b : text_before (a +:+ b) b = a.
Proof.
  unfold text_before. rewrite length_string_app.
  replace (String.length a + String.length b - String.length b)%nat with (String.length a) by lia.
  apply substring_app.
Qed.

(** ** UTF-8 sequences *)

(** A sequence is found again whatever follows it, and is not empty. *)
Lemma utf8_seq_app s r rest :
  utf8_seq s = Some (r, rest) ->
  s = r +:+ rest /\ (1 <= String.length r)%nat /\ forall t, utf8_seq (r +:+ t) = Some (r, t).
Proof.
  destruct s as [|a s1]; [done|]. cbn [utf8_seq].
  destruct (in_range 0 127 a) eqn:E1.
  { intros [= <- <-]. split; [done|]. split; [cbn; lia|]. intros t.
    rewrite ?string_app_cons, string_nil_app. cbn [utf8_seq]. by rewrite E1. }
  destruct s1 as [|b s2]; [done|].
  destruct (in_range 194 223 a && cont b) eqn:E2.
  { intros [= <- <-]. split; [done|]. split; [cbn; lia|]. intros t.
    rewrite ?string_app_cons, string_nil_app. cbn [utf8_seq]. by rewrite E1, E2. }
  destruct s2 as [|c s3]; [done|].
  destruct (_ || _ || _ || _) eqn:E3.
  { intros [= <- <-]. split; [done|]. split; [cbn; lia|]. intros t.
    rewrite ?string_app_cons, string_nil_app. cbn [utf8_seq].
    by rewrite E1, E2, E3. }
  destruct s3 as [|d s4]; [done|].
  destruct (_ || _ || _) eqn:E4 in |- *; [|done].
  intros [= <- <-]. split; [done|]. split; [cbn; lia|]. intros t.
  rewrite ?string_app_cons, string_nil_app. cbn [utf8_seq].
  by rewrite E1, E2, E3, E4.
Qed.

(** A sequence of one byte is an ASCII byte. *)
Lemma utf8_seq_single s a rest :
  utf8_seq s = Some (String a "", rest) -> in_range 0 127 a = true /\ s = String a rest.
Proof.
  destruct s as [|x s1]; [done|]. cbn [utf8_seq].
  destruct (in_range 0 127 x) eqn:E; [by intros [= -> ->]|].
  destruct s1 as [|? s2]; [done|]. destruct (_ && _); [done|].
  destruct s2 as [|? s3]; [done|]. destruct (_ || _ || _ || _); [done|].
  destruct s3 as [|? s4]; [done|]. by destruct (_ || _ || _).
Qed.

(** The first byte of a longer sequence is neither a quote nor a backslash, nor a control
    character. *)
Lemma utf8_seq_lead s a b r rest :
  utf8_seq s = Some (String a (String b r), rest) -> (194 <= nat_of_ascii a)%nat.
Proof.
  destruct s as [|x s1]; [done|]. cbn [utf8_seq].
  destruct (in_range 0 127 x) eqn:E; [done|]. unfold in_range, cont, in_range.
  destruct s1 as [|y s2]; [done|]. destruct (_ && _) eqn:E2.
  { intros [= -> -> _ _]. repeat (rewrite ?andb_true_iff, ?Nat.leb_le in E2). lia. }
  destruct s2 as [|c s3]; [done|]. destruct (_ || _ || _ || _) eqn:E3.
  { intros [= -> -> _ _]. repeat (rewrite ?orb_true_iff, ?andb_true_iff, ?Nat.leb_le in E3). lia. }
  destruct s3 as [|d s4]; [done|]. destruct (_ || _ || _) eqn:E4 in |- *; [|done].
  intros [= -> -> _ _]. repeat (rewrite ?orb_true_iff, ?andb_true_iff, ?Nat.leb_le in E4). lia.
Qed.

(** ** Literals *)

(** A piece of encoded text that is one item of a literal. *)
Definition item_of (enc v : string) : Prop :=
  (1 <= String.length enc)%nat
  /\ (forall c t, enc = String c t -> Ascii.eqb c quote_char = false)
  /\ forall t, literal_item (enc +:+ t) = Some (v, t).

Lemma escape_ascii_item a : in_range 0 127 a = true -> item_of (escape_ascii a) (String a "").
Proof.
  destruct a as [[] [] [] [] [] [] [] []]; intros H;
    solve [discriminate H
          | split; [vm_compute; lia|];
            split; [intros c t E; vm_compute in E; injection E as <- _; reflexivity|reflexivity]].
Qed.

Lemma eqb_code_ne a c : nat_of_ascii a <> nat_of_ascii c -> Ascii.eqb a c = false.
Proof. intros H. apply Ascii.eqb_neq. congruence. Qed.

(** Only U+2028 and U+2029 are escaped. *)
Lemma escape_rune_cases r :
  escape_rune r = r \/ r = bytes_of [226; 128; 168]%nat \/ r = bytes_of [226; 128; 169]%nat.
Proof.
  destruct r as [|a [|b [|c [|]]]]; try (by left).
  destruct a as [[] [] [] [] [] [] [] []]; try (by left).
  destruct b as [[] [] [] [] [] [] [] []]; try (by left).
  destruct c as [[] [] [] [] [] [] [] []]; (by left) || (right; by left) || (right; by right).
Qed.

Lemma escape_rune_item s a b r rest :
  utf8_seq s = Some (String a (String b r), rest) ->
  item_of (escape_rune (String a (String b r))) (String a (String b r)).
Proof.
  intros Hs. pose proof (utf8_seq_lead s a b r rest Hs) as Ha.
  destruct (utf8_seq_app _ _ _ Hs) as (_ & _ & Happ).
  assert (item_of (String a (String b r)) (String a (String b r))) as Hplain.
  { split; [cbn; lia|]. split.
    - intros c t [= <- _]. apply (eqb_code_ne a quote_char).
      change (nat_of_ascii quote_char) with 34%nat. lia.
    - intros t. specialize (Happ t). rewrite !string_app_cons in *. cbn [literal_item].
      rewrite (eqb_code_ne a backslash)
        by (change (nat_of_ascii backslash) with 92%nat; lia).
      rewrite (proj2 (Nat.ltb_ge _ _)) by lia. by rewrite Happ. }
  destruct (escape_rune_cases (String a (String b r))) as [->|[E|E]]; [exact Hplain| |];
    rewrite E; (split; [vm_compute; lia|split; [by intros ? ? [= <- _]|by intros t]]).
Qed.

Lemma bad_byte_item : item_of (String backslash "ufffd") replacement.
Proof.
  split; [cbn; lia|]. split; [|reflexivity].
  intros c t E. injection E as <- _. reflexivity.
Qed.

Lemma unquote_item enc v n t :
  item_of enc v -> unquote (S n) (enc +:+ t)
                   = ('(w, rest) ← unquote n t; Some (v +:+ w, rest)).
Proof.
  intros (Hlen & Hq & Hitem). specialize (Hitem t).
  destruct enc as [|c e]; [cbn in Hlen; lia|]. rewrite string_app_cons in *.
  cbn [unquote]. rewrite (Hq c e eq_refl), Hitem. done.
Qed.

(** Reading back an encoded string, whatever text follows it. *)
Lemma unquote_escape k s n t :
  (String.length (escape_fuel k s) < n)%nat -> (String.length s <= k)%nat ->
  unquote n (escape_fuel k s +:+ String quote_char t) = Some (coerce_fuel k s, t).
Proof.
  revert s n. induction k as [|k IH]; intros s n Hn Hk.
  { destruct s; [|cbn in Hk; lia]. by destruct n; [cbn in Hn; lia|]. }
  destruct s as [|c s]; [by destruct n; [cbn in Hn; lia|]|].
  assert (forall enc v rest, item_of enc v -> (String.length rest <= k)%nat ->
            (String.length (enc +:+ escape_fuel k rest) < n)%nat ->
            unquote n ((enc +:+ escape_fuel k rest) +:+ String quote_char t)
            = Some (v +:+ coerce_fuel k rest, t)) as Hstep.
  { intros enc v rest Hi Hr Hl. rewrite length_string_app in Hl. destruct n as [|n]; [lia|].
    destruct (Hi) as (H1 & _). rewrite string_app_assoc, (unquote_item enc v) by done.
    rewrite IH by lia. done. }
  cbn [escape_fuel coerce_fuel] in *.
  destruct (utf8_seq (String c s)) as [[r rest]|] eqn:E.
  - destruct (utf8_seq_app _ _ _ E) as (Es & Hr & _).
    assert (String.length rest <= k)%nat as Hrest.
    { apply (f_equal String.length) in Es. rewrite length_string_app in Es. cbn in Es, Hk. lia. }
    destruct r as [|a [|b r]]; [cbn in Hr; lia| |].
    + apply Hstep; [|done|done]. apply escape_ascii_item.
      by destruct (utf8_seq_single _ _ _ E).
    + apply Hstep; [|done|done]. by apply (escape_rune_item (String c s) a b r rest).
  - apply Hstep; [exact bad_byte_item|cbn in Hk; lia|done].
Qed.

Lemma scan_string_escape s t :
  scan_string (escape_fuel (String.length s) s +:+ String quote_char t) = Some (coerce_utf8 s, t).
Proof.
  unfold scan_string. apply unquote_escape; [|done]. rewrite length_string_app. cbn. lia.
Qed.

(** A string that is UTF-8 comes back as it was. *)
Lemma coerce_valid_fuel k s : valid_fuel k s = true -> coerce_fuel k s = s.
Proof.
  revert s. induction k as [|k IH]; intros [|c s] H; try done.
  cbn [valid_fuel coerce_fuel] in *. destruct (utf8_seq (String c s)) as [[r rest]|] eqn:E; [|done].
  rewrite IH by done. by destruct (utf8_seq_app _ _ _ E) as [-> _].
Qed.

Lemma coerce_valid s : valid_utf8 s = true -> coerce_utf8 s = s.
Proof. apply coerce_valid_fuel. Qed.

(** Coercion leaves what it wrote. *)
Lemma coerce_coerced n k s :
  (String.length (coerce_fuel k s) <= n)%nat -> coerce_fuel n (coerce_fuel k s) = coerce_fuel k s.
Proof.
  assert (forall n r u, (1 <= String.length r)%nat -> (forall t, utf8_seq (r +:+ t) = Some (r, t)) ->
            (String.length (r +:+ u) <= n)%nat ->
            ((String.length u <= pred n)%nat -> coerce_fuel (pred n) u = u) ->
            coerce_fuel n (r +:+ u) = r +:+ u) as Hstep.
  { intros n' r u Hr Hseq Hlen Hu. rewrite length_string_app in Hlen.
    destruct n' as [|n']; [lia|]. cbn [pred] in Hu. destruct r as [|c r]; [cbn in Hr; lia|].
    specialize (Hseq u). rewrite string_app_cons in *. cbn [coerce_fuel]. rewrite Hseq.
    cbn in Hlen. rewrite Hu by lia. by rewrite string_app_cons. }
  revert n s. induction k as [|k IH]; intros n [|c s]; [by destruct n..|]. cbn [coerce_fuel].
  destruct (utf8_seq (String c s)) as [[r rest]|] eqn:E; intros Hn.
  - destruct (utf8_seq_app _ _ _ E) as (_ & Hr & Hseq). apply Hstep; [done..|]. intros H. by apply IH.
  - apply Hstep; [vm_compute; lia|by intros t|done|]. intros H. by apply IH.
Qed.

Lemma coerce_idem s : coerce_utf8 (coerce_utf8 s) = coerce_utf8 s.
Proof. by apply coerce_coerced. Qed.

(** ** Numbers *)

(** Text a value of an object or of an array may be followed by. *)
Definition stops (t : string) : bool :=
  match t with
  | EmptyString => true
  | String c _ => Ascii.eqb c "," || Ascii.eqb c "}" || Ascii.eqb c "]"
  end.

Lemma stops_cases t :
  stops t = true -> t = "" \/ exists r, t = String "," r \/ t = String "}" r \/ t = String "]" r.
Proof.
  destruct t as [|c t]; [by left|]. cbn [stops]. intros H. right. exists t.
  apply orb_true_iff in H as [[H%Ascii.eqb_eq|H%Ascii.eqb_eq]%orb_true_iff|H%Ascii.eqb_eq]; subst c; auto.
Qed.

Lemma stops_digits t : stops t = true -> take_digits t = ("", t).
Proof. by intros [->|(r & [->|[->| ->]])]%stops_cases. Qed.

Lemma stops_frac_exp t : stops t = true -> scan_frac t = Some ("", t) /\ scan_exp t = Some ("", t).
Proof. by intros [->|(r & [->|[->| ->]])]%stops_cases. Qed.

Lemma take_digits_pretty x s t :
  take_digits (s +:+ t) = (s, t) ->
  take_digits (pretty_N_go x s +:+ t) = (pretty_N_go x s, t).
Proof.
  revert s. induction (N.lt_wf_0 x) as [x _ IH]. intros s Hs.
  destruct (decide (x = 0)%N) as [->|Hx]; [by rewrite pretty_N_go_0|].
  rewrite pretty_N_go_step by lia. apply IH; [apply N.div_lt; lia|].
  rewrite string_app_cons. cbn [take_digits].
  rewrite digit_value_char by (apply N.mod_lt; lia). by rewrite Hs.
Qed.

Lemma pretty_head x s :
  (0 < x)%N -> exists c r, pretty_N_go x s = String c r /\ c <> "0"%char /\ c <> "-"%char.
Proof.
  revert s. induction (N.lt_wf_0 x) as [x _ IH]. intros s Hx. rewrite pretty_N_go_step by lia.
  destruct (decide (x / 10 = 0)%N) as [E|E]; [|apply IH; [apply N.div_lt; lia|by apply N.neq_0_lt_0]].
  rewrite E, pretty_N_go_0. eexists _, _. split; [done|].
  apply N.div_small_iff in E; [|done]. rewrite (N.mod_small x 10) by done.
  destruct x as [|p]; [lia|].
  do 4 (try destruct p as [p|p|]); try (exfalso; lia); done.
Qed.

Lemma scan_int_pretty p t :
  stops t = true -> scan_int (pretty (N.pos p) +:+ t) = Some (pretty (N.pos p), t).
Proof.
  intros Ht. pose proof (take_digits_pretty (N.pos p) "" t (stops_digits t Ht)) as Hd.
  unfold pretty, pretty_N in *. rewrite decide_False by done.
  destruct (pretty_head (N.pos p) "") as (c & r & E & H0 & _); [lia|].
  unfold scan_int, digits1. rewrite Hd. rewrite E, string_app_cons. cbn [strip_prefix].
  by rewrite (proj2 (Ascii.eqb_neq _ _)) by congruence.
Qed.

Lemma strip_minus_pretty p t : strip_prefix "-" (pretty (N.pos p) +:+ t) = None.
Proof.
  unfold pretty, pretty_N. rewrite decide_False by done.
  destruct (pretty_head (N.pos p) "") as (c & r & E & _ & H0); [lia|].
  rewrite E, string_app_cons. cbn [strip_prefix].
  by rewrite (proj2 (Ascii.eqb_neq _ _)) by congruence.
Qed.

Lemma scan_number_format z t :
  stops t = true -> scan_number (format_int z +:+ t) = Some (format_int z, t).
Proof.
  intros Ht. destruct (stops_frac_exp t Ht) as [Hf He]. unfold scan_number, format_int.
  destruct z as [|p|p].
  - change (pretty 0) with "0". rewrite string_app_cons, string_nil_app. cbn [strip_prefix].
    unfold scan_int. cbn. by rewrite Hf; cbn; rewrite He.
  - change (pretty (Z.pos p)) with (pretty (N.pos p)).
    rewrite strip_minus_pretty, scan_int_pretty by done. cbn. rewrite Hf. cbn. rewrite He. cbn.
    by rewrite string_nil_app, !string_app_nil.
  - change (pretty (Z.neg p)) with ("-" +:+ pretty (N.pos p)).
    rewrite string_app_assoc, strip_prefix_app, scan_int_pretty by done.
    cbn. rewrite Hf. cbn. rewrite He. cbn. by rewrite !string_app_nil.
Qed.

(** The first byte of a printed number sends [scan_value] to [scan_number]. *)
Lemma format_int_head z t n d :
  scan_value (S n) d (format_int z +:+ t) = ('(x, r) ← scan_number (format_int z +:+ t); Some (NNum x, r)).
Proof.
  assert (exists c r, format_int z = String c r
            /\ (c = "-"%char \/ exists v, digit_value c = Some v)) as (c & r & E & Hc).
  { unfold format_int. destruct z as [|p|p].
    - exists "0"%char, "". split; [done|]. right. by exists 0.
    - change (pretty (Z.pos p)) with (pretty (N.pos p)).
      pose proof (parse_nonempty_pretty p) as H. destruct (pretty (N.pos p)) as [|c r]; [done|].
      exists c, r. split; [done|]. cbn in H. destruct (digit_value c) as [v|]; [|done].
      right. by exists v.
    - exists "-"%char, (pretty (N.pos p)). split; [done|by left]. }
  rewrite E, string_app_cons. cbn [scan_value].
  destruct Hc as [->|[v Hv]]; [done|].
  destruct c as [[] [] [] [] [] [] [] []]; first [discriminate Hv|reflexivity].
Qed.

(** ** Objects *)

(** The printed [v] is read as [n] where [depth] more brackets may be opened. *)
Definition scans (depth : Z) (v : jval) (n : jnode) : Prop :=
  forall t, stops t = true ->
    skip_space (json_value v +:+ t) = json_value v +:+ t
    /\ forall fuel, (String.length (json_value v) < fuel)%nat ->
         scan_value fuel depth (json_value v +:+ t) = Some (n, t).

Lemma json_string_app s t :
  json_string s +:+ t
  = String quote_char (escape_fuel (String.length s) s +:+ String quote_char t).
Proof. unfold json_string. rewrite string_app_cons, string_app_assoc. done. Qed.

Lemma scans_string d s : scans d (JStr s) (NStr (coerce_utf8 s)).
Proof.
  intros t Ht. cbn [json_value]. rewrite json_string_app. split; [done|].
  intros [|fuel] Hf; [lia|]. cbn [scan_value].
  rewrite Ascii.eqb_refl. cbn iota. by rewrite scan_string_escape.
Qed.

Lemma scans_int d z : scans d (JInt z) (NNum (format_int z)).
Proof.
  intros t Ht. cbn [json_value].
  assert (exists c r, format_int z = String c r /\ is_space c = false) as (c & r & E & Hc).
  { destruct (format_int z) as [|c r] eqn:E; [by pose proof (format_int_nonempty z); rewrite E in *|].
    exists c, r. split; [done|]. destruct (is_space c) eqn:Es; [|done].
    pose proof (format_int_head z "," 0 d) as H. rewrite E, string_app_cons in H.
    pose proof (scan_number_format z "," eq_refl) as Hn. rewrite E, string_app_cons in Hn.
    destruct c as [[] [] [] [] [] [] [] []]; first [discriminate Es|discriminate Hn]. }
  split; [rewrite E, string_app_cons; cbn [skip_space]; by rewrite Hc|].
  intros [|fuel] Hf; [lia|].
  by rewrite format_int_head, scan_number_format.
Qed.

Definition read_member (kv : string * jval) (n : jnode) : member :=
  (coerce_utf8 (fst kv), (n, json_value (snd kv))).

Definition members_text (l : list (string * jval)) : string :=
  String.concat "," (map json_member l).

Lemma json_member_app k v t :
  json_member (k, v) +:+ t
  = String quote_char (escape_fuel (String.length k) k
      +:+ String quote_char (":" +:+ (json_value v +:+ t))).
Proof. unfold json_member. cbn [fst snd]. by rewrite string_app_assoc, json_string_app, string_app_assoc. Qed.

(** One member and what follows it. *)
Lemma scan_member d k v n t fuel :
  scans d v n -> stops t = true ->
  (String.length (json_member (k, v) +:+ t) <= S fuel)%nat ->
  scan_members (S fuel) d (json_member (k, v) +:+ t)
  = match strip_prefix "," (skip_space t) with
    | Some s => '(ms, r) ← scan_members fuel d (skip_space s); Some (read_member (k, v) n :: ms, r)
    | None => r ← strip_prefix "}" (skip_space t); Some ([read_member (k, v) n], r)
    end.
Proof.
  intros Hv Ht Hf. destruct (Hv t Ht) as [Hsp Hscan]. rewrite json_member_app in *.
  cbn [scan_members]. change (strip_prefix (String quote_char "") (String quote_char ?s)) with (Some s).
  cbn [mbind option_bind]. rewrite scan_string_escape. cbn [mbind option_bind].
  change (skip_space (":" +:+ ?s)) with (":" +:+ s). rewrite strip_prefix_app. cbn [mbind option_bind].
  rewrite Hsp, Hscan; cycle 1.
  { string_length. }
  cbn [mbind option_bind]. by rewrite text_before_app.
Qed.

Lemma scan_members_text d l ns t fuel :
  l <> [] -> Forall2 (fun kv n => scans d (snd kv) n) l ns ->
  (String.length (members_text l +:+ String "}" t) <= fuel)%nat ->
  scan_members fuel d (members_text l +:+ String "}" t) = Some (zip_with read_member l ns, t).
Proof.
  intros Hne Hall. revert fuel Hne.
  induction Hall as [|[k v] n l ns Hv Hl IH]; intros fuel Hne Hf; [done|].
  destruct fuel as [|fuel].
  { string_length. }
  unfold members_text in *. destruct l as [|kv l].
  { cbn [map String.concat] in *. rewrite (scan_member d k v n) by done.
    inversion Hl; subst. done. }
  change (String.concat "," (map json_member ((k, v) :: kv :: l)))
    with (json_member (k, v) +:+ ("," +:+ String.concat "," (map json_member (kv :: l)))) in *.
  rewrite !string_app_assoc in *. rewrite (scan_member d k v n) by done.
  change (skip_space ("," +:+ ?s)) with ("," +:+ s). rewrite strip_prefix_app.
  assert (skip_space (String.concat "," (map json_member (kv :: l)) +:+ String "}" t)
          = String.concat "," (map json_member (kv :: l)) +:+ String "}" t) as ->.
  { cbn [map]. destruct kv as [k' v'].
    destruct l; cbn [map String.concat]; rewrite ?string_app_assoc, json_member_app; done. }
  rewrite IH; [done|done|]. string_length.
Qed.

Lemma json_marshal_text fields t :
  json_marshal fields +:+ t
  = String "{" (members_text (merge_sort key_le (map_to_list fields)) +:+ String "}" t).
Proof. unfold json_marshal. by rewrite string_app_assoc, string_app_cons, string_nil_app, string_app_assoc. Qed.

(** A text read in the fuel of all that follows is read in its own length's. *)
Lemma scans_enough d v n :
  (forall t, stops t = true ->
     skip_space (json_value v +:+ t) = json_value v +:+ t
     /\ exists fuel, scan_value fuel d (json_value v +:+ t) = Some (n, t)) ->
  scans d v n.
Proof.
  intros H t Ht. destruct (H t Ht) as [Hs [f Hv]]. split; [done|]. intros fuel Hf.
  apply (proj1 (scan_enough f) fuel d _ _ _ Hv). rewrite length_string_app. lia.
Qed.

(** An object, its members in order. *)
Lemma scan_object d l ns t fuel :
  0 < d -> Forall2 (fun kv n => scans (d - 1) (snd kv) n) l ns ->
  (String.length (String "{" (members_text l +:+ String "}" t)) <= fuel)%nat ->
  scan_value fuel d (String "{" (members_text l +:+ String "}" t))
  = Some (NObj (zip_with read_member l ns), t).
Proof.
  intros Hd Hall Hf. destruct fuel as [|fuel]; [cbn in Hf; lia|]. cbn [scan_value].
  change (Ascii.eqb "{" quote_char) with false. change (Ascii.eqb "{" "{") with true. cbn iota.
  rewrite (proj2 (Z.leb_gt d 0)) by lia.
  destruct (decide (l = [])) as [E|E].
  { rewrite E in *. inversion Hall; subst. done. }
  assert (exists r, members_text l +:+ String "}" t = String quote_char r) as [r Er].
  { destruct l as [|[k v] l']; [done|]. unfold members_text. 
    destruct l'; cbn [map String.concat]; rewrite ?string_app_assoc, json_member_app; by eexists. }
  replace (skip_space (members_text l +:+ String "}" t)) with (members_text l +:+ String "}" t)
    by (by rewrite Er).
  replace (strip_prefix "}" (members_text l +:+ String "}" t)) with (@None string)
    by (by rewrite Er).
  rewrite (scan_members_text (d - 1) l ns); [done|done|done|]. string_length.
Qed.

(** The object of a map: its members in key order. *)
Lemma scan_marshal d fields ns t fuel :
  0 < d -> 
  Forall2 (fun kv n => scans (d - 1) (snd kv) n) (merge_sort key_le (map_to_list fields)) ns ->
  (String.length (json_marshal fields +:+ t) <= fuel)%nat ->
  scan_value fuel d (json_marshal fields +:+ t)
  = Some (NObj (zip_with read_member (merge_sort key_le (map_to_list fields)) ns), t).
Proof. rewrite json_marshal_text. apply scan_object. Qed.

(** ** Structs *)

Section decoding.
Context {A : Type}.
Implicit Types (fields : list (Field A)) (a : A).

Lemma decode_known fields k name dec v text ms a a' :
  find_field k fields = Some (name, dec) -> dec v text a = Some a' ->
  decode_members fields ((k, (v, text)) :: ms) a = decode_members fields ms a'.
Proof. intros Hf Hd. cbn [decode_members]. by rewrite Hf; cbn [snd]; rewrite Hd. Qed.

Lemma int_field_format lo hi (set : Z -> A -> A) z text a :
  min_int64 <= lo -> hi <= max_int64 -> lo <= z <= hi ->
  int_field lo hi set (NNum (format_int z)) text a = Some (set z a).
Proof.
  intros Hlo Hhi Hz. cbn [int_field]. rewrite parse_int64_format by (apply in_int64_spec; lia).
  cbn [mbind option_bind]. by rewrite !(proj2 (Z.leb_le _ _)) by lia.
Qed.

Lemma uint64_field_format (set : Z -> A -> A) z text a :
  0 <= z <= max_uint64 -> uint64_field set (NNum (format_int z)) text a = Some (set z a).
Proof. intros Hz. cbn [uint64_field]. by rewrite parse_uint64_format. Qed.

(** A marshalled map is decoded member by member. *)
Lemma unmarshal_marshal fields zero (m : gmap string jval) l ns a :
  merge_sort key_le (map_to_list m) = l ->
  Forall2 (fun kv n => scans (maxNestingDepth - 1) (snd kv) n) l ns ->
  decode_members fields (zip_with read_member l ns) zero = Some a ->
  unmarshal_struct fields zero (json_marshal m) = Some a.
Proof.
  intros El Hall Hd. unfold unmarshal_struct, parse_json.
  pose proof (json_marshal_text m "") as Ht. rewrite string_app_nil in Ht.
  replace (skip_space (json_marshal m)) with (json_marshal m +:+ "")
    by (rewrite string_app_nil, Ht; done).
  rewrite (scan_marshal maxNestingDepth m ns "") by (first [done|by rewrite El|lia]).
  rewrite El. cbn [mbind option_bind skip_space str_empty]. exact Hd.
Qed.
End decoding.

(** Decodes the known members of a list whose keys are literals. *)
Ltac decode_all :=
  repeat (erewrite decode_known;
          [|reflexivity
           |first [reflexivity
                  |apply int_field_format; [done|done|]
                  |apply uint64_field_format]; try done]);
  try reflexivity.

(** Evaluates the keys that are literals. *)
Ltac literal_keys :=
  unfold read_member; cbn [fst snd];
  repeat match goal with
  | |- context [coerce_utf8 (String ?c ?s)] =>
      let v := eval vm_compute in (coerce_utf8 (String c s)) in
      change (coerce_utf8 (String c s)) with v
  end.

(** *** The momentum *)

Definition momentum_in_range (mo : Momentum) : Prop :=
  0 <= mom_Height mo <= max_uint64 /\ min_int64 <= mom_Timestamp mo <= max_int64
  /\ min_int64 <= mom_TxCount mo <= max_int64.

(** The wire form of a row after its strings went through JSON. *)
Definition coerced_momentum (d : dto.Momentum) : dto.Momentum :=
  dto.mkMomentum (dto.mom_Height d) (coerce_utf8 (dto.mom_Hash d)) (dto.mom_Timestamp d)
    (dto.mom_TxCount d) (coerce_utf8 (dto.mom_Producer d)) (coerce_utf8 (dto.mom_ProducerOwner d))
    (coerce_utf8 (dto.mom_ProducerName d)).

Lemma sorted_momentum_fields (v1 v2 v3 v4 v5 v6 v7 : jval) :
  merge_sort key_le (map_to_list (M := gmap string jval)
    (<["height" := v1]> (<["hash" := v2]> (<["timestamp" := v3]> (<["tx_count" := v4]>
    (<["producer" := v5]> (<["producer_owner" := v6]> (<["producer_name" := v7]> ∅))))))))
  = [("hash", v2); ("height", v1); ("producer", v5); ("producer_name", v7);
     ("producer_owner", v6); ("timestamp", v3); ("tx_count", v4)].
Proof. vm_compute. reflexivity. Qed.

Lemma decode_momentum_payload mo :
  momentum_in_range mo ->
  decode_momentum (momentum_payload mo) = Some (coerced_momentum (dto.FromMomentum mo)).
Proof.
  intros (Hh & Ht & Hc). unfold decode_momentum, UnmarshalJSON, momentum_payload.
  eapply unmarshal_marshal; [apply sorted_momentum_fields| |].
  - repeat (constructor; [first [apply scans_string|apply scans_int]|]). constructor.
  - unfold zip_with. literal_keys. decode_all.
Qed.

(** *** The account block *)

(** The optional members of a block's payload, in the order of the code. *)
Definition opt_insert (k : string) (v : option jval) (m : gmap string jval) : gmap string jval :=
  match v with Some v => <[k := v]> m | None => m end.

Definition opt_field (k : string) (v : option jval) : list (string * jval) :=
  match v with Some v => [(k, v)] | None => [] end.

Definition core_fields (v1 v2 v3 v4 v5 v6 v7 v8 v9 v10 v11 : jval) : gmap string jval :=
  <["hash" := v1]> (<["momentum_hash" := v2]> (<["momentum_timestamp" := v3]>
  (<["momentum_height" := v4]> (<["block_type" := v5]> (<["height" := v6]>
  (<["address" := v7]> (<["to_address" := v8]> (<["amount" := v9]>
  (<["token_standard" := v10]> (<["paired_account_block" := v11]> ∅)))))))))).

Definition all_fields (data method input : option jval) (core : gmap string jval)
  : gmap string jval :=
  opt_insert "input" input (opt_insert "method" method (opt_insert "data" data core)).

Lemma sorted_block_fields v1 v2 v3 v4 v5 v6 v7 v8 v9 v10 v11 data method input :
  merge_sort key_le (map_to_list
    (all_fields data method input (core_fields v1 v2 v3 v4 v5 v6 v7 v8 v9 v10 v11)))
  = ([("address", v7); ("amount", v9); ("block_type", v5)] ++ opt_field "data" data
     ++ [("hash", v1); ("height", v6)] ++ opt_field "input" input ++ opt_field "method" method
     ++ [("momentum_hash", v2); ("momentum_height", v4); ("momentum_timestamp", v3);
         ("paired_account_block", v11); ("to_address", v8); ("token_standard", v10)])%list.
Proof. destruct data, method, input; vm_compute; reflexivity. Qed.

Definition row_core (ab : AccountBlock) : gmap string jval :=
  core_fields (JStr (ab_Hash ab)) (JStr (ab_MomentumHash ab)) (JInt (ab_MomentumTimestamp ab))
    (JInt (ab_MomentumHeight ab)) (JInt (ab_BlockType ab)) (JInt (ab_Height ab))
    (JStr (ab_Address ab)) (JStr (ab_ToAddress ab)) (JStr (format_int (ab_Amount ab)))
    (JStr (ab_TokenStandard ab)) (JStr (ab_PairedAccountBlock ab)).

(** A string the payload has only when it is not empty. *)
Definition text_field (s : string) : option jval := if str_empty s then None else Some (JStr s).

Definition inputs_of (txData : option TxData) : option (gmap string string) :=
  match txData with
  | Some d => if bool_decide (tx_Inputs d = ∅) then None else Some (tx_Inputs d)
  | None => None
  end.

(** The fields kept of a payload. *)
Definition payload_fields (keep_data keep_input : bool) (ab : AccountBlock)
    (txData : option TxData) : gmap string jval :=
  all_fields (if keep_data then text_field (ab_Data ab) else None)
    (text_field (AccountBlockRepository.method_text txData))
    (if keep_input then JRaw ∘ json_marshal_strings <$> inputs_of txData else None)
    (row_core ab).

Lemma block_fields_all ab txData : block_fields ab txData = payload_fields true true ab txData.
Proof.
  unfold block_fields, payload_fields, all_fields, text_field, inputs_of.
  destruct (str_empty (ab_Data ab)), (str_empty (AccountBlockRepository.method_text txData)),
    txData as [d|]; try done; by case_bool_decide.
Qed.

Lemma delete_input ab txData :
  delete "input" (payload_fields true true ab txData) = payload_fields true false ab txData.
Proof.
  unfold payload_fields, all_fields.
  set (base := opt_insert "method" _ _).
  assert (base !! "input" = None) as Hb.
  { unfold base, text_field. by destruct (str_empty (ab_Data ab)), (str_empty _). }
  cbn [opt_insert]. destruct (inputs_of txData); cbn [fmap option_fmap option_map opt_insert];
    rewrite ?delete_insert_eq; by apply delete_id.
Qed.

Lemma delete_data ab txData :
  delete "data" (payload_fields true false ab txData) = payload_fields false false ab txData.
Proof.
  unfold payload_fields, all_fields. cbn [opt_insert].
  destruct (text_field (AccountBlockRepository.method_text txData)) as [v|]; cbn [opt_insert].
  - rewrite delete_insert_ne by done. f_equal.
    destruct (text_field (ab_Data ab)); cbn [opt_insert]; rewrite ?delete_insert_eq; by apply delete_id.
  - destruct (text_field (ab_Data ab)); cbn [opt_insert]; rewrite ?delete_insert_eq; by apply delete_id.
Qed.

(** What a block's fields hold of a row once decoded. *)
Definition frame_of (keep_data keep_input : bool) (ab : AccountBlock) (txData : option TxData)
  : dto.AccountBlock :=
  dto.mkAccountBlock (coerce_utf8 (ab_Hash ab)) (coerce_utf8 (ab_MomentumHash ab))
    (ab_MomentumTimestamp ab) (ab_MomentumHeight ab) (ab_BlockType ab) (ab_Height ab)
    (coerce_utf8 (ab_Address ab)) (coerce_utf8 (ab_ToAddress ab))
    (coerce_utf8 (format_int (ab_Amount ab))) (coerce_utf8 (ab_TokenStandard ab))
    (if keep_data then coerce_utf8 (ab_Data ab) else "")
    (coerce_utf8 (AccountBlockRepository.method_text txData))
    (if keep_input then default "" (json_marshal_strings <$> inputs_of txData) else "")
    (coerce_utf8 (ab_PairedAccountBlock ab)) "".

Definition block_in_range (ab : AccountBlock) : Prop :=
  min_int64 <= ab_MomentumTimestamp ab <= max_int64
  /\ min_int64 <= ab_MomentumHeight ab <= max_int64
  /\ min_int16 <= ab_BlockType ab <= max_int16 /\ min_int64 <= ab_Height ab <= max_int64.

(** The members of a [map[string]string] scan as strings. *)
Lemma scans_inputs (m : gmap string string) :
  exists n, forall d, 0 < d -> scans d (JRaw (json_marshal_strings m)) n.
Proof.
  unfold json_marshal_strings.
  set (l := merge_sort key_le (map_to_list (JStr <$> m))).
  assert (exists ns, forall d, Forall2 (fun kv n => scans d (snd kv) n) l ns)
    as [ns Hns].
  { assert (Forall (fun kv : string * jval => exists s, snd kv = JStr s) l) as Hl.
    { apply Forall_forall. intros [k v] Hin. unfold l in Hin.
      rewrite merge_sort_Permutation in Hin. apply elem_of_map_to_list in Hin.
      rewrite lookup_fmap in Hin. destruct (m !! k) as [s|]; [|done].
      injection Hin as <-. by exists s. }
    clearbody l. induction Hl as [|[k v] l [s Hs] _ [ns IH]]; [by exists []|].
    cbn in Hs. subst v. exists (NStr (coerce_utf8 s) :: ns). intros d. constructor; [apply scans_string|apply IH]. }
  eexists. intros d Hd. apply scans_enough. intros t Ht. cbn [json_value]. split.
  - by rewrite json_marshal_text.
  - eexists. by apply scan_marshal; [|apply Hns|].
Qed.

(** The decoding of one member of a block payload. *)
Lemma decode_block_payload keep_data keep_input ab txData :
  block_in_range ab ->
  decode_block (json_marshal (payload_fields keep_data keep_input ab txData))
  = Some (frame_of keep_data keep_input ab txData).
Proof.
  intros (H1 & H2 & H3 & H4). unfold decode_block, UnmarshalJSON, payload_fields, frame_of.
  set (data := if keep_data then text_field (ab_Data ab) else None).
  set (input := if keep_input then _ else None).
  set (method := text_field _).
  assert (exists ns, Forall2 (fun kv n => scans (maxNestingDepth - 1) (snd kv) n)
            (opt_field "input" input) ns) as [ni Hni].
  { unfold input. destruct keep_input; [|by exists []].
    destruct (inputs_of txData) as [m|]; [|by exists []].
    destruct (scans_inputs m) as [n Hn]. exists [n]. constructor; [by apply Hn|constructor]. }
  assert ((if keep_data then coerce_utf8 (ab_Data ab) else "")
          = match data with Some (JStr s) => coerce_utf8 s | _ => "" end) as ->.
  { unfold data, text_field. destruct keep_data; [|done]. by destruct (ab_Data ab). }
  assert (coerce_utf8 (AccountBlockRepository.method_text txData)
          = match method with Some (JStr s) => coerce_utf8 s | _ => "" end) as ->.
  { unfold method, text_field. by destruct (AccountBlockRepository.method_text txData). }
  assert ((if keep_input then default "" (json_marshal_strings <$> inputs_of txData) else "")
          = match input with Some v => json_value v | _ => "" end) as ->.
  { unfold input. destruct keep_input; [|done]. by destruct (inputs_of txData). }
  assert (data = None \/ exists s, data = Some (JStr s)) as Hdata.
  { unfold data, text_field. destruct keep_data, (str_empty (ab_Data ab)); eauto. }
  assert (method = None \/ exists s, method = Some (JStr s)) as Hmethod.
  { unfold method, text_field. destruct (str_empty _); eauto. }
  clearbody data method input.
  unfold row_core.
  destruct Hdata as [->|[d ->]], Hmethod as [->|[w ->]], input as [i|];
    cbn [opt_field] in Hni; inversion Hni; subst;
    (eapply unmarshal_marshal;
     [apply sorted_block_fields
     |cbn [opt_field app];
      repeat first [eassumption|apply Forall2_cons_2|apply scans_string|apply scans_int
                   |apply Forall2_nil_2]
     |cbn [opt_field app zip_with]; literal_keys; decode_all]).
Qed.

(** ** From the batch to the hub *)

(** What [queueAccountBlockNotify] keeps: everything if it fits, else no [input], else no
    [data] either. *)
Definition keeps_input (ab : AccountBlock) (txData : option TxData) : bool :=
  negb (too_long (json_marshal (block_fields ab txData))).

Definition keeps_data (ab : AccountBlock) (txData : option TxData) : bool :=
  keeps_input ab txData
  || negb (too_long (json_marshal (delete "input" (block_fields ab txData)))).

(** The event a block's notification becomes at the hub. *)
Definition block_frame (ab : AccountBlock) (txData : option TxData) : dto.AccountBlock :=
  frame_of (keeps_data ab txData) (keeps_input ab txData) ab txData.

Lemma decode_sent_block ab txData p :
  block_in_range ab -> queueAccountBlockNotify ab txData = Ok [SNotify "account_block_new" p] ->
  decode_block p = Some (block_frame ab txData).
Proof.
  intros Hr. unfold queueAccountBlockNotify, block_frame, keeps_data, keeps_input.
  rewrite <- (decode_block_payload _ _ ab txData Hr), block_fields_all, !delete_input.
  destruct (too_long (json_marshal (payload_fields true true ab txData))) eqn:E0.
  - destruct (too_long (json_marshal (payload_fields true false ab txData))) eqn:E1.
    + rewrite delete_data.
      destruct (too_long (json_marshal (payload_fields false false ab txData))); [done|].
      by intros [= <-].
    + rewrite E1. by intros [= <-].
  - rewrite E0, E0. by intros [= <-].
Qed.

Lemma block_row_in_range m c : block_in_range (block_row m c).
Proof.
  unfold block_in_range, block_row. cbn.
  assert (forall z, min_int64 <= int64 z <= max_int64) as H64
    by (intros z; apply in_int64_spec, int64_range).
  split; [apply H64|]. split; [apply H64|]. split; [|apply H64].
  unfold int16, min_int16, max_int16. pose proof (wrap_signed_range 32768 (nb_BlockType (cb_Block c))).
  lia.
Qed.

(** Notifications that differ are not folded. *)
Lemma fold_add_note_distinct l acc :
  NoDup (acc ++ l)%list -> fold_left add_note l acc = (acc ++ l)%list.
Proof.
  revert acc. induction l as [|n l IH]; intros acc Hn; [by rewrite app_nil_r|].
  cbn [fold_left]. unfold add_note at 2.
  assert (n ∉ acc) as Hin.
  { intros H. apply NoDup_app in Hn as (_ & Hd & _). apply (Hd n H). by left. }
  rewrite decide_False by done. replace (acc ++ n :: l)%list with ((acc ++ [n]) ++ l)%list in *
    by by rewrite <- app_assoc.
  by apply IH.
Qed.

Lemma decoded_payloads env m blocks ps :
  Forall2 (block_payload env m) blocks ps ->
  map decode_block ps = map (fun c => Some (block_frame (block_row m c) (block_call env c))) blocks.
Proof.
  induction 1 as [|c p blocks ps Hp _ IH]; [done|]. cbn [map]. f_equal; [|done].
  apply decode_sent_block; [apply block_row_in_range|exact Hp].
Qed.

Lemma nodup_payloads env m blocks ps :
  Forall2 (block_payload env m) blocks ps ->
  NoDup (map (fun c => coerce_utf8 (nb_Hash (cb_Block c))) blocks) -> NoDup ps.
Proof.
  intros Hps Hn. pose proof (decoded_payloads env m blocks ps Hps) as Hd.
  apply (NoDup_fmap_1 (fun p => dto.ab_Hash <$> decode_block p)).
  change (NoDup (map (fun p => dto.ab_Hash <$> decode_block p) ps)).
  rewrite <- (map_map decode_block (fmap dto.ab_Hash)), Hd, map_map.
  rewrite <- (map_map (fun c => coerce_utf8 (nb_Hash (cb_Block c))) Some).
  by apply (NoDup_fmap_2 Some).
Qed.

Lemma heard_own {A} ch (decode : string -> option A) ps :
  heard ch decode (map (pair ch) ps) = map decode ps.
Proof.
  unfold heard. induction ps as [|p ps IH]; [done|]. cbn [map List.filter fst].
  rewrite String.eqb_refl. cbn [map snd]. by rewrite IH.
Qed.

Lemma heard_none {A} ch (decode : string -> option A) notes :
  (forall n, n ∈ notes -> n.1 <> ch) -> heard ch decode notes = [].
Proof.
  intros Hne. unfold heard. induction notes as [|n l IH]; [done|]. cbn [List.filter].
  rewrite (proj2 (String.eqb_neq _ _)) by (apply Hne, list_elem_of_here).
  apply IH. intros n' Hn'. by apply Hne, list_elem_of_further.
Qed.

Lemma heard_other {A} ch ch' (decode : string -> option A) ps :
  ch' <> ch -> heard ch decode (map (pair ch') ps) = [].
Proof. intros Hne. apply heard_none. by intros n (p & -> & _)%list_elem_of_fmap. Qed.

Lemma heard_app {A} ch (decode : string -> option A) l1 l2 :
  heard ch decode (l1 ++ l2) = (heard ch decode l1 ++ heard ch decode l2)%list.
Proof. unfold heard. by rewrite List.filter_app, map_app. Qed.

(** The row of a momentum fits the wire type. *)
Lemma momentum_row_in_range env m :
  0 <= cm_Height m <= max_uint64 -> Z.of_nat (length (cm_Content m)) <= max_int64 ->
  momentum_in_range (momentum_row env m).
Proof.
  intros Hh Hc. unfold momentum_in_range, momentum_row.
  destruct (getPillarInfoForProducer _ _ _). cbn.
  split; [done|]. split; [apply in_int64_spec, int64_range|]. unfold min_int64. lia.
Qed.

(** What the momentum hub hears of a commit, whatever its blocks. *)
Lemma momentum_heard env m :
  out_err (processMomentum env m) = None ->
  0 <= cm_Height m <= max_uint64 -> Z.of_nat (length (cm_Content m)) <= max_int64 ->
  heard momentum_channel decode_momentum (out_notes (processMomentum env m))
  = [Some (coerced_momentum (dto.FromMomentum (momentum_row env m)))].
Proof.
  intros (ps & st & Hps & Hx & _ & ->)%processMomentum_parts Hh Hc. cbn [out_notes].
  rewrite (exec_from_notes _ _ _ _ _ Hx), (notes_momentum _ _ _ Hps). cbn [tx_notes].
  rewrite fold_momentum_last, heard_app by done. rewrite heard_none; cycle 1.
  { intros n [H|(p & -> & _)%list_elem_of_fmap]%fold_add_note_elem; [|done].
    by apply not_elem_of_nil in H. }
  rewrite app_nil_l. set (row := momentum_row env m).
  change [("momentum_new", momentum_payload row)]
    with (map (pair "momentum_new") [momentum_payload row]).
  rewrite heard_own. cbn [map]. by rewrite decode_momentum_payload by (by apply momentum_row_in_range).
Qed.

(** An event carries a stored row: the columns of the chain are the row's, strings as UTF-8,
    but for the data, which a payload may have no room for. *)
Definition carries (e : dto.AccountBlock) (row : AccountBlock) : Prop :=
  dto.ab_Hash e = coerce_utf8 (ab_Hash row)
  /\ dto.ab_MomentumHash e = coerce_utf8 (ab_MomentumHash row)
  /\ dto.ab_MomentumTimestamp e = ab_MomentumTimestamp row
  /\ dto.ab_MomentumHeight e = ab_MomentumHeight row
  /\ dto.ab_BlockType e = ab_BlockType row /\ dto.ab_Height e = ab_Height row
  /\ dto.ab_Address e = coerce_utf8 (ab_Address row)
  /\ dto.ab_ToAddress e = coerce_utf8 (ab_ToAddress row)
  /\ dto.ab_Amount e = coerce_utf8 (format_int (ab_Amount row))
  /\ dto.ab_TokenStandard e = coerce_utf8 (ab_TokenStandard row)
  /\ (dto.ab_Data e = coerce_utf8 (ab_Data row) \/ dto.ab_Data e = "").

Lemma block_frame_carries m c txData row :
  stored_as m c row -> carries (block_frame (block_row m c) txData) row.
Proof.
  unfold stored_as, carries, block_frame, frame_of. intros E.
  rewrite (f_equal ab_Hash E : ab_Hash row = _), (f_equal ab_MomentumHash E : ab_MomentumHash row = _),
    (f_equal ab_MomentumTimestamp E : ab_MomentumTimestamp row = _),
    (f_equal ab_MomentumHeight E : ab_MomentumHeight row = _),
    (f_equal ab_BlockType E : ab_BlockType row = _), (f_equal ab_Height E : ab_Height row = _),
    (f_equal ab_Address E : ab_Address row = _), (f_equal ab_ToAddress E : ab_ToAddress row = _),
    (f_equal ab_Amount E : ab_Amount row = _), (f_equal ab_TokenStandard E : ab_TokenStandard row = _),
    (f_equal ab_Data E : ab_Data row = _).
  split_and!; try reflexivity. destruct (keeps_data _ _); [by left|by right].
Qed.

(** Blocks that differ as UTF-8 have different hashes. *)
Lemma utf8_distinct env m :
  NoDup (map (fun c => coerce_utf8 (nb_Hash (cb_Block c))) (fetched env m)) ->
  NoDup (fetched_hashes env m).
Proof.
  unfold fetched_hashes.
  rewrite <- (map_map (fun c => nb_Hash (cb_Block c)) coerce_utf8). apply NoDup_fmap_1.
Qed.

(** What the block hub hears of a commit. *)
Lemma blocks_heard env m :
  out_err (processMomentum env m) = None ->
  NoDup (map (fun c => coerce_utf8 (nb_Hash (cb_Block c))) (fetched env m)) ->
  heard block_channel decode_block (out_notes (processMomentum env m))
  = map (fun c => Some (block_frame (block_row m c) (block_call env c))) (fetched env m).
Proof.
  intros Ho Hn. apply processMomentum_parts in Ho as (ps & st & Hps & Hx & _ & ->). cbn [out_notes].
  rewrite (exec_from_notes _ _ _ _ _ Hx), (notes_momentum _ _ _ Hps). cbn [tx_notes].
  rewrite fold_momentum_last by done.
  rewrite fold_add_note_distinct; cycle 1.
  { apply (NoDup_fmap_2 (pair "account_block_new")). by eapply nodup_payloads. }
  rewrite app_nil_l, heard_app. unfold block_channel. rewrite heard_own.
  rewrite (heard_none _ _ [_]) by (by intros n ->%list_elem_of_singleton).
  rewrite app_nil_r. by apply decoded_payloads.
Qed.

(** C18. A committed momentum reaches the streams as the rows it stored: after a successful
    call of [processMomentum] on a momentum whose blocks' hashes are distinct, the API's hubs
    decode every notification, the blocks' in the order of the momentum and each once, then
    the momentum's. For a height that had no row, the momentum's event is the wire form of
    the row now stored there; a block that was not stored has its row now, and its event
    carries the row's columns of the chain, strings as UTF-8, its data unless the payload had
    no room. The decoded call is the one of this call, and [descendant_of] is missing; where
    a row was stored before, or is paired later, event and row can differ. *)
Theorem processMomentum_heard env m :
  out_err (processMomentum env m) = None ->
  0 <= cm_Height m <= max_uint64 -> Z.of_nat (length (cm_Content m)) <= max_int64 ->
  NoDup (map (fun c => coerce_utf8 (nb_Hash (cb_Block c))) (fetched env m)) ->
  let before := pl_db (env_pool env) in
  let after := out_db (processMomentum env m) in
  let block_events := heard block_channel decode_block (out_notes (processMomentum env m)) in
  block_events
  = map (fun c => Some (block_frame (block_row m c) (block_call env c))) (fetched env m)
  /\ Forall2 (fun c e => ~ has_block (nb_Hash (cb_Block c)) before ->
       exists frame row, e = Some frame
         /\ db_account_blocks after !! nb_Hash (cb_Block c) = Some row /\ carries frame row)
       (fetched env m) block_events
  /\ heard momentum_channel decode_momentum (out_notes (processMomentum env m))
     = [Some (coerced_momentum (dto.FromMomentum (momentum_row env m)))]
  /\ db_momentums after !! cm_Height m
     = Some (default (momentum_row env m) (db_momentums before !! cm_Height m)).
Proof.
  intros Ho Hh Hc Hn. cbv zeta. rewrite (blocks_heard env m Ho Hn).
  split_and!; [done| |by apply momentum_heard|by apply momentum_height_row].
  apply Forall2_fmap_r, Forall_Forall2_diag, Forall_forall. intros c Hin Hnew.
  destruct (momentum_new_block env m c Ho (utf8_distinct env m Hn) Hin Hnew) as (row & Hrow & Hst).
  eexists _, row. split_and!; [reflexivity|exact Hrow|by apply block_frame_carries].
Qed.

Lemma processMomentum_heard_witness :
  let env := toy_env empty_db [transfer] in
  let m := toy_momentum 5 [transfer] in
  let after := out_db (processMomentum env m) in
  map (fmap dto.ab_Amount) (heard block_channel decode_block (out_notes (processMomentum env m)))
  = [Some "10"]
  /\ (ab_Amount <$> db_account_blocks after !! "tx1" = Some 10)
  /\ map (fmap dto.mom_Height)
       (heard momentum_channel decode_momentum (out_notes (processMomentum env m))) = [Some 5]
  /\ mom_Height <$> db_momentums after !! 5 = Some 5.
Proof.
  intros env m after.
  destruct (processMomentum_heard env m) as (Hb & _ & Hm & Hrow);
    [vm_compute; reflexivity|vm_compute; split; discriminate|vm_compute; discriminate| |].
  - vm_compute. apply NoDup_singleton.
  - rewrite Hb, Hm. change (db_momentums after !! 5) with (db_momentums after !! cm_Height m).
    unfold after. rewrite Hrow. split_and!; vm_compute; reflexivity.
Defined.

(** A live frame against the row a replay reads: the same wire form, but for [input] and the
    [data] a payload had no room for. *)
Theorem block_frame_inserted ab txData t t' :
  forallb valid_utf8 [ab_Hash ab; ab_MomentumHash ab; ab_Address ab; ab_ToAddress ab;
    format_int (ab_Amount ab); ab_TokenStandard ab; ab_Data ab;
    AccountBlockRepository.method_text txData; ab_PairedAccountBlock ab] = true ->
  t !! ab_Hash ab = None -> AccountBlockRepository.Insert ab txData t = Ok t' ->
  exists row, t' !! ab_Hash ab = Some row
    /\ block_frame ab txData
       = (dto.FromAccountBlock row)
           <| dto.ab_Data := if keeps_data ab txData then ab_Data ab else "" |>
           <| dto.ab_Input := if keeps_input ab txData
                              then default "" (json_marshal_strings <$> inputs_of txData)
                              else "" |>.
Proof.
  intros Hv Hn. unfold AccountBlockRepository.Insert. intros Hi.
  apply insert_update_Ok in Hi as [[_ ->]|(old & ? & Hold & _)]; [|congruence].
  cbn [forallb] in Hv.
  repeat match type of Hv with (_ && _ = true) => apply andb_true_iff in Hv as [?%coerce_valid Hv] end.
  eexists. split; [apply lookup_insert_eq|].
  unfold block_frame, frame_of.
  repeat match goal with H : coerce_utf8 _ = _ |- _ => rewrite H; clear H end.
  by destruct ab.
Qed.

Lemma block_frame_inserted_witness :
  exists row,
    (match AccountBlockRepository.Insert (block_row (toy_momentum 5 [transfer]) transfer) None ∅ with
     | Ok t => t !! "tx1" | Err _ => None end) = Some row
    /\ dto.ab_Hash (block_frame (block_row (toy_momentum 5 [transfer]) transfer) None)
       = ab_Hash row.
Proof.
  destruct (AccountBlockRepository.Insert (block_row (toy_momentum 5 [transfer]) transfer) None ∅)
    as [t|e] eqn:E; [|discriminate E].
  destruct (block_frame_inserted (block_row (toy_momentum 5 [transfer]) transfer) None ∅ t)
    as (row & Hr & Hf); [vm_compute; reflexivity|reflexivity|exact E|].
  exists row. split; [exact Hr|]. rewrite Hf. reflexivity.
Defined.
