(* ===== verification/Startup.v ===== *)
(** How the programs put the components together: internal/database (the pool and the
    migrations), the constructors of internal/indexer, cmd/indexer's startup and main, and
    cmd/backfill. The steps before the long-running part either build its inputs or end the
    process ([logger.Fatal], [os.Exit]), which is an [Err] here. *)

From S2P Require Import Prelude.
From S2P Require Import Models.
From S2P Require Import Retry.
From S2P Require Import NodePool.
From S2P Require Import Watchdog.
From S2P Require Import Webhooks.
From S2P Require Import CachedData.
From S2P Require Import Sync.
From S2P Require Import Indexer.
From S2P Require Import Config.
From S2P Require Import Durations.
#[local] Open Scope string_scope.
#[local] Open Scope Z_scope.

(** ** internal/database *)

Module database.

(** The fields of a pgxpool configuration the code sets; durations in nanoseconds. *)
Record PoolConfig : Type := mkPoolConfig {
  pc_ConnString : string;
  pc_MaxConns : Z;
  pc_MinConns : Z;
  pc_MaxConnLifetime : Z;
  pc_MaxConnIdleTime : Z;
  pc_HealthCheckPeriod : Z
}.

#[export] Instance PoolConfig_eta : Eta PoolConfig := fun r =>
  mkPoolConfig (pc_ConnString r) (pc_MaxConns r) (pc_MinConns r) (pc_MaxConnLifetime r)
    (pc_MaxConnIdleTime r) (pc_HealthCheckPeriod r).

(** github.com/jackc/pgx/v5/pgxpool: parsing a connection string, building a pool from a
    configuration, and a ping. *)
Class PgxPool : Type := {
  ParseConfig : string -> result PoolConfig;
  NewWithConfig : PoolConfig -> option error;
  Ping : PoolConfig -> option error
}.

(** What happened to the pool a call built. *)
Inductive PoolEvent : Type := PoolOpened (cfg : PoolConfig) | PoolClosed.

Section pool.
Context {PG : PgxPool}.

Definition pool_settings (cfg : config.DatabaseConfig) (pc : PoolConfig) : PoolConfig :=
  pc <| pc_MaxConns := int32 (config.dc_PoolSize cfg) |> <| pc_MinConns := 2 |>
     <| pc_MaxConnLifetime := Hour |> <| pc_MaxConnIdleTime := 30 * Minute |>
     <| pc_HealthCheckPeriod := Minute |>.

(** [NewPool]: the pool's configuration, and what was opened and closed on the way. *)
Definition NewPool (cfg : config.DatabaseConfig) : result PoolConfig * list PoolEvent :=
  match ParseConfig (config.ConnectionString cfg) with
  | Err e => (Err (EWrap "failed to parse connection string" e), [])
  | Ok pc =>
      let pc := pool_settings cfg pc in
      match NewWithConfig pc with
      | Some e => (Err (EWrap "failed to create connection pool" e), [])
      | None =>
          match Ping pc with
          | Some e => (Err (EWrap "failed to ping database" e), [PoolOpened pc; PoolClosed])
          | None => (Ok pc, [PoolOpened pc])
          end
      end
  end.

(** [HealthCheck]; [pings] answers a ping under a timeout of the given nanoseconds. *)
Definition HealthCheck (pings : Z -> option error) : option error := pings (5 * Second).
End pool.

(** The errors of golang-migrate the code tells apart. *)
Inductive MigrateErr : Type := ErrNoChange | ErrNilVersion | MigrateOther (e : error).

Definition migrate_error (e : MigrateErr) : error :=
  match e with
  | ErrNoChange => EMsg "no change"
  | ErrNilVersion => EMsg "no migration"
  | MigrateOther e => e
  end.

(** github.com/golang-migrate/migrate: the driver over the pool, the instance for a source,
    applying what is pending, and the version with its dirty flag. *)
Class Migrate : Type := {
  WithInstance : option error;
  NewWithDatabaseInstance : string -> option error;
  Up : option MigrateErr;
  Version : (Z * bool) + MigrateErr
}.

Definition RunMigrations {MG : Migrate} (migrationsPath : string) : option error :=
  match WithInstance with
  | Some e => Some (EWrap "failed to create postgres driver" e)
  | None =>
      match NewWithDatabaseInstance ("file://" +:+ migrationsPath) with
      | Some e => Some (EWrap "failed to create migrate instance" e)
      | None =>
          match Up with
          | None | Some ErrNoChange =>
              match Version with
              | inl _ | inr ErrNilVersion => None
              | inr e => Some (EWrap "failed to get migration version" (migrate_error e))
              end
          | Some e => Some (EWrap "failed to run migrations" (migrate_error e))
          end
      end
  end.
End database.

(** ** Constructors of internal/indexer *)

(** [CronConfig], in nanoseconds. *)
Record CronConfig : Type := mkCronConfig {
  VotingActivityInterval : Z;
  TokenHoldersInterval : Z
}.

(** An attached dispatcher with its endpoints, timeout and retries. *)
Record Attached : Type := mkAttached {
  at_Endpoints : list Endpoint;
  at_Timeout : Z;
  at_MaxRetries : Z;
  at_Dispatcher : Dispatcher
}.

(** The fields of [Indexer] its constructors set: the client it was built with, the
    intervals, and for an indexer with a node pool the watchdog's state and configuration. *)
Record Indexer : Type := mkIndexer {
  in_client : string;
  in_cron : CronConfig;
  in_watch : option WState;
  in_watchdogCfg : WatchdogConfigForIndexer;
  in_webhooks : option Attached
}.

#[export] Instance Indexer_eta : Eta Indexer := fun r =>
  mkIndexer (in_client r) (in_cron r) (in_watch r) (in_watchdogCfg r) (in_webhooks r).

Definition no_watchdog : WatchdogConfigForIndexer := mkWatchdogConfig false 0 0 0 0 0 0.

Definition NewIndexerWithCron (client : string) (cron : CronConfig) : Indexer :=
  mkIndexer client cron None no_watchdog None.

Definition NewIndexer (client : string) : Indexer := NewIndexerWithCron client (mkCronConfig 0 0).

Definition NewIndexerWithNodes (nodePool : NodePool) (client : string) (cron : CronConfig)
    (watchdog : WatchdogConfigForIndexer) : Indexer :=
  (NewIndexerWithCron client cron)
    <| in_watch := Some (mkWState (newSyncState (Len nodePool)) nodePool client false None) |>
    <| in_watchdogCfg := watchdog |>.

(** A second call keeps the first dispatcher. *)
Definition AttachWebhooks (endpoints : list Endpoint) (timeout maxRetries : Z) (i : Indexer)
  : Indexer :=
  match in_webhooks i with
  | Some _ => i
  | None => i <| in_webhooks := Some (mkAttached endpoints timeout maxRetries
                                        (dispatcher_step AStart New)) |>
  end.

(** The tickers of [Run]'s background loops, by name; a ticker of an interval that is not
    positive is a panic of its goroutine, which ends the process. *)
Definition loop_interval (interval : Z) : Z := if interval <=? 0 then 10 * Minute else interval.

Definition run_tickers (i : Indexer) : list (string * Z) :=
  ([("bridge sync", 1 * Minute); ("cached data sync", 5 * Minute);
    ("voting activity", loop_interval (VotingActivityInterval (in_cron i)));
    ("token holders", loop_interval (TokenHoldersInterval (in_cron i)));
    ("stat snapshots", Hour)]
   ++ match in_watch i with
      | Some _ => if wc_Enabled (in_watchdogCfg i)
                  then [("watchdog", wc_Interval (in_watchdogCfg i))] else []
      | None => []
      end)%list.

Definition ticker_panics (t : string * Z) : bool := snd t <=? 0.

(** ** cmd/indexer *)

Definition toIndexerNodes (l : list config.NodeEntry) : list NodeEntry :=
  map (fun n => mkNodeEntry (config.ne_URL n) (config.ne_Label n) (config.ne_ProbeURL n)) l.

Definition toWebhookEndpoints (l : list config.WebhookEndpoint) : list Endpoint :=
  map (fun e => mkEndpoint (config.we_URL e) (config.we_Secret e) (config.we_Events e)) l.

Definition watchdog_config (w : config.WatchdogConfig) : WatchdogConfigForIndexer :=
  mkWatchdogConfig (config.wd_Enabled w) (config.wd_Interval w) (config.wd_StallThreshold w)
    (config.wd_IndexerDriftThreshold w) (config.wd_NodeDriftThreshold w)
    (config.wd_UnhealthyStreak w) (config.wd_FailbackStreak w).

(** What the process meets before [Run]. [en_dial k url] is the k-th [rpc_client.NewRpcClient];
    the primary's is number 0, a fallback's the fallback's index. *)
Record Environment : Type := mkEnvironment {
  en_config : result config.Config;
  en_level : string -> option string;
  en_getenv : string -> string;
  en_dial : Z -> string -> result unit;
  en_net : Net;
  en_ctx : Ctx;
  en_now : Z
}.

(** What [main] hands to the long-running part. *)
Record Started : Type := mkStarted {
  sd_indexer : Indexer;
  sd_health_port : option Z;
  sd_backfill : bool
}.

Section startup.
Context {PG : database.PgxPool} {MG : database.Migrate} (en : Environment).

Definition migrations_path : string :=
  let p := en_getenv en "MIGRATIONS_PATH" in if str_empty p then "migrations" else p.

(** The walk down the fallbacks from [idx], [n] of them left: the first that answers a probe
    and can be dialed. *)
Fixpoint try_fallbacks (n : nat) (idx : Z) (w : WState) : option WState :=
  match n with
  | O => None
  | S n' =>
      let '(res, p') := Probe (en_net en) idx (w_pool w) in
      let w1 := w <| w_pool := p' |> in
      match res with
      | Err _ => try_fallbacks n' (idx + 1) w1
      | Ok _ =>
          match StartupSwap (en_dial en idx) (en_now en) idx w1 with
          | Err _ => try_fallbacks n' (idx + 1) w1
          | Ok w2 => Some w2
          end
      end
  end.

(** The synchronous startup probe: the primary with retries, then the fallbacks. *)
Definition startup_probe (w : WState) : result WState :=
  let r := ProbeWithRetry (en_net en) (en_ctx en) 0 5 (1 * Second) (w_pool w) in
  let w1 := w <| w_pool := run_state r |> in
  match run_result r with
  | Ok _ => Ok w1
  | Err _ =>
      match try_fallbacks (Z.to_nat (Len (w_pool w) - 1)) 1 w1 with
      | Some w2 => Ok w2
      | None => Err (EMsg "all nodes failed startup probe")
      end
  end.

(** The probe of an indexer whose watchdog is enabled. *)
Definition probed (cfg : config.WatchdogConfig) (i : Indexer) : result Indexer :=
  match in_watch i with
  | Some w => if config.wd_Enabled cfg
              then w' ← startup_probe w; Ok (i <| in_watch := Some w' |>) else Ok i
  | None => Ok i
  end.

(** [main] up to the health server. *)
Definition startup : result Started :=
  cfg ← wrap_err "failed to load configuration" (en_config en);
  _ ← wrap_err "failed to initialize logger"
        (config.BuildLogger (en_level en) (config.cf_Logging cfg));
  match config.ic_Nodes (config.cf_Indexer cfg) with
  | [] => Err (EMsg "no nodes configured (set NODE_URL_WS or indexer.nodes)")
  | primary :: _ =>
      let primaryURL := config.ne_URL primary in
      _ ← wrap_err "failed to connect to database" (fst (database.NewPool (config.cf_Database cfg)));
      _ ← (match database.RunMigrations migrations_path with
           | Some e => Err (EWrap "failed to run migrations" e)
           | None => Ok tt
           end);
      _ ← wrap_err "failed to connect to primary node" (en_dial en 0 primaryURL);
      voting ← wrap_err "invalid cron.voting_activity_interval"
                 (ParseCronInterval (config.cc_VotingActivityInterval (config.cf_Cron cfg))
                    (10 * Minute));
      holders ← wrap_err "invalid cron.token_holders_interval"
                  (ParseCronInterval (config.cc_TokenHoldersInterval (config.cf_Cron cfg))
                     (10 * Minute));
      let watchdog := config.ic_Watchdog (config.cf_Indexer cfg) in
      let i := NewIndexerWithNodes
                 (NewNodePool (toIndexerNodes (config.ic_Nodes (config.cf_Indexer cfg))))
                 primaryURL (mkCronConfig voting holders) (watchdog_config watchdog) in
      let wh := config.cf_Webhooks cfg in
      let i := if config.wh_Enabled wh
               then AttachWebhooks (toWebhookEndpoints (config.wh_Endpoints wh))
                      (int64 (config.wh_TimeoutSeconds wh * Second)) (config.wh_MaxRetries wh) i
               else i in
      i ← probed watchdog i;
      let health := config.ic_Health (config.cf_Indexer cfg) in
      Ok (mkStarted i (if config.hc_Enabled health then Some (config.hc_Port health) else None)
            (config.cf_BackfillOnStartup cfg))
  end.
End startup.

(** ** main, once started

    The backfill, whose failure is only logged, then [Run]. What the two meet is theirs: the
    node's answers and failures of the backfill, the feed and the sessions of [Run].
    [canceled_after] is whether the context is canceled when [Run] returns. *)

Inductive Exit : Type :=
| StoppedGracefully
| Finished
| Failed (e : error).

Record Workload : Type := mkWorkload {
  wl_world : World;
  wl_backfill_fetch : Z -> result (list Chain.ChainMomentum);
  wl_backfill_direct : Z -> option error;
  wl_backfill_canceled : Z -> bool;
  wl_backfill_query : option error;
  wl_feed : Feed;
  wl_fuel : nat;
  wl_sessions : list Session;
  wl_canceled_after : bool
}.

(** How the process ends after [Run]'s answer; no answer while it is still running. *)
Definition exit_of (canceled : bool) (res : option (result unit)) : option Exit :=
  match res with
  | None => None
  | Some (Ok _) => Some Finished
  | Some (Err e) => Some (if canceled then StoppedGracefully else Failed e)
  end.

Definition after_start (sd : Started) (wl : Workload) (s : IndexerSt)
  : option Exit * SyncSt IndexerSt :=
  let s1 := if sd_backfill sd
            then snd (Backfill (wl_world wl) (wl_backfill_fetch wl) (wl_backfill_direct wl)
                        (wl_backfill_canceled wl) (wl_backfill_query wl) s)
            else s in
  let '(res, st) := Run (H := indexer_store (wl_world wl)) (wl_feed wl) (wl_fuel wl)
                      (wl_sessions wl) (mkSyncSt s1 0 0) in
  (exit_of (wl_canceled_after wl) res, st).

Definition main {PG : database.PgxPool} {MG : database.Migrate} (en : Environment) (wl : Workload)
    (s : IndexerSt) : option Exit * SyncSt IndexerSt :=
  match startup en with
  | Err e => (Some (Failed e), mkSyncSt s 0 0)
  | Ok sd => after_start sd wl s
  end.

(** ** cmd/backfill

    The cached data is loaded before the backfill; its failure is only logged. *)

Definition backfill_main {PG : database.PgxPool} (en : Environment) (wl : Workload) (s : IndexerSt)
  : Exit * IndexerSt :=
  let fatal ctx e := (Failed (EWrap ctx e), s) in
  match en_config en with
  | Err e => fatal "failed to load configuration" e
  | Ok cfg =>
      match config.BuildLogger (en_level en) (config.cf_Logging cfg) with
      | Err e => fatal "failed to initialize logger" e
      | Ok _ =>
          match fst (database.NewPool (config.cf_Database cfg)) with
          | Err e => fatal "failed to connect to database" e
          | Ok _ =>
              match en_dial en 0 (config.nc_WebSocketURL (config.cf_Node cfg)) with
              | Err e => fatal "failed to connect to node" e
              | Ok _ =>
                  let '(res, s') := Backfill (wl_world wl) (wl_backfill_fetch wl)
                                      (wl_backfill_direct wl) (wl_backfill_canceled wl)
                                      (wl_backfill_query wl) (refresh (wl_world wl) 0 s) in
                  (match res with
                   | Ok _ => Finished
                   | Err e => if wl_canceled_after wl then StoppedGracefully
                              else Failed (EWrap "backfill failed" e)
                   end, s')
              end
          end
      end
  end.
