(* ===== verification/StartupTheorems.v ===== *)
(** The startup of the indexer: on which node it begins and why, what stops it, and which of
    the tickers it starts can end the process; the pool and the migrations. *)

From S2P Require Import Prelude.
From S2P Require Import Models.
From S2P Require Import Retry.
From S2P Require Import NodePool.
From S2P Require Import Watchdog.
From S2P Require Import WatchdogTheorems.
From S2P Require Import Webhooks.
From S2P Require Import Config.
From S2P Require Import Durations.
From S2P Require Import Startup.
#[local] Open Scope string_scope.
#[local] Open Scope Z_scope.

(** ** Retried operations *)

(** Whatever the context does: a run relates its state to the one it started from by any
    preorder the operation respects, and a success is the answer of some call. *)
Lemma retry_loop_inv {S A} ctx label cfg (fn : S -> result A * S) (R : S -> S -> Prop)
    `{!PreOrder R} left attempt delay s waits :
  (forall s, R s (fn s).2) ->
  let run := retry_loop ctx label cfg fn left attempt delay s waits in
  R s (run_state run)
  /\ forall a, run_result run = Ok a ->
       exists q, R s q /\ fn q = (Ok a, run_state run).
Proof.
  intros Hfn. revert attempt delay s waits.
  induction left as [|left IH]; intros attempt delay s waits; cbn [retry_loop];
    (destruct (ctx_err ctx attempt); [by split|]);
    pose proof (Hfn s) as Hs; destruct (fn s) as [[a|e] s'] eqn:E; cbn in *;
    try (split; [done|]; intros a' [= <-]; by exists s); try by split.
  destruct (ctx_done ctx attempt); [by split|].
  destruct (IH (Datatypes.S attempt) (next_delay cfg delay) s' (waits ++ [delay])%list) as [H1 H2].
  split; [by etrans|]. intros a Ha. destruct (H2 a Ha) as (q & Hq & Hf). exists q.
  split; [by etrans|done].
Qed.

(** ** The node the indexer starts on *)

Section start.
Context {PG : database.PgxPool} {MG : database.Migrate} (en : Environment).

(** A probe of the node, on a pool of the same nodes, succeeded. *)
Definition answered (p : NodePool) (idx : Z) : Prop :=
  exists q r q', pool_le p q /\ Probe (en_net en) idx q = (Ok r, q').

(** The walk passed the node over: a probe of it failed, or its client was not built. *)
Definition passed_over (p : NodePool) (idx : Z) : Prop :=
  (exists q e q', pool_le p q /\ Probe (en_net en) idx q = (Err e, q'))
  \/ exists e, en_dial en idx (ne_URL (Entry p idx)) = Err e.

Lemma Entry_le p q idx : pool_le p q -> Entry q idx = Entry p idx.
Proof. intros [He _]. unfold Entry. by rewrite He. Qed.

Lemma StartupSwap_Ok factory now idx w w' :
  StartupSwap factory now idx w = Ok w' <->
  factory (ne_URL (Entry (w_pool w) idx)) = Ok tt
  /\ w' = w <| w_client := ne_URL (Entry (w_pool w) idx) |> <| w_restart := true |>
            <| w_sync := (w_sync w) <| activeIdx := idx |> <| failedOverAt := Some now |> |>.
Proof.
  unfold StartupSwap, swapActiveClient.
  destruct (factory _) as [[]|e]; cbn; split; try done.
  - intros [= <-]. by destruct w.
  - intros [_ ->]. by destruct w.
  - by intros [? _].
Qed.

Lemma try_fallbacks_spec n idx w w' :
  0 <= idx -> try_fallbacks en n idx w = Some w' ->
  exists i, idx <= i < idx + Z.of_nat n
    /\ pool_le (w_pool w) (w_pool w') /\ answered (w_pool w) i
    /\ (forall j, idx <= j < i -> passed_over (w_pool w) j)
    /\ w_client w' = ne_URL (Entry (w_pool w') i)
    /\ w_sync w' = (w_sync w) <| activeIdx := i |> <| failedOverAt := Some (en_now en) |>.
Proof.
  revert idx w. induction n as [|n IH]; intros idx w H0; [done|]. cbn [try_fallbacks].
  pose proof (Probe_le (en_net en) idx (w_pool w)) as Hle.
  destruct (Probe (en_net en) idx (w_pool w)) as [res p'] eqn:E. cbn [snd] in Hle.
  set (w1 := w <| w_pool := p' |>).
  assert (Hskip : passed_over (w_pool w) idx -> try_fallbacks en n (idx + 1) w1 = Some w' ->
    exists i, idx <= i < idx + Z.of_nat (S n)
      /\ pool_le (w_pool w) (w_pool w') /\ answered (w_pool w) i
      /\ (forall j, idx <= j < i -> passed_over (w_pool w) j)
      /\ w_client w' = ne_URL (Entry (w_pool w') i)
      /\ w_sync w' = (w_sync w) <| activeIdx := i |> <| failedOverAt := Some (en_now en) |>).
  { intros Hp Ht. apply IH in Ht as (i & Hi & Hw & Ha & Hj & Hc & Hs); [|lia].
    change (w_pool w1) with p' in *. change (w_sync w1) with (w_sync w) in *.
    exists i. split; [lia|]. split; [by etrans|]. split.
    { destruct Ha as (q & r & q' & Hq & HP). exists q, r, q'. split; [by etrans|done]. }
    split; [|by split]. intros j Hjr. destruct (Z.eq_dec j idx) as [->|Hne]; [done|].
    destruct (Hj j ltac:(lia)) as [(q & e & q' & Hq & HP)|Hd].
    - left. exists q, e, q'. split; [by etrans|done].
    - right. by rewrite (Entry_le _ _ j Hle) in Hd. }
  destruct res as [r|e]; cycle 1.
  { apply Hskip. left. by exists (w_pool w), e, p'. }
  destruct (StartupSwap _ _ _ _) as [w2|e] eqn:Es.
  - intros [= <-]. apply StartupSwap_Ok in Es as [_ ->]. exists idx. cbn.
    split; [lia|]. split; [done|]. split; [by exists (w_pool w), r, p'|].
    split; [|by split]. intros j Hj. lia.
  - apply Hskip. right. unfold StartupSwap, swapActiveClient in Es.
    change (w_pool w1) with p' in Es. rewrite (Entry_le _ _ idx Hle) in Es.
    destruct (en_dial en idx _) as [u|e']; [done|]. by exists e'.
Qed.

(** The state before the probe. *)
Lemma fresh_start p : 0 < Len p -> watch_ok (mkWState (newSyncState (Len p)) p (ne_URL (Entry p 0)) false None).
Proof. intros H. split; simpl; [lia|done|done|done]. Qed.

(** The retried probe of the primary on a fresh pool. *)
Definition primary_probe (p : NodePool) : Run NodePool ProbeResult :=
  ProbeWithRetry (en_net en) (en_ctx en) 0 5 (1 * Second) p.

(** What the node the indexer starts on satisfies. *)
Record chosen (p : NodePool) (w : WState) : Prop := mkChosen {
  ch_watch : watch_ok w;
  ch_entries : np_entries (w_pool w) = np_entries p;
  ch_answered : answered p (activeIdx (w_sync w));
  ch_primary : 0 < activeIdx (w_sync w) -> exists e, run_result (primary_probe p) = Err e;
  ch_passed : forall j, 0 < j < activeIdx (w_sync w) -> passed_over p j
}.

Lemma passed_over_le p q j : pool_le p q -> passed_over q j -> passed_over p j.
Proof.
  intros Hle [(q1 & e & q' & Hq & HP)|Hd].
  - left. exists q1, e, q'. split; [by etrans|done].
  - right. by rewrite (Entry_le _ _ j Hle) in Hd.
Qed.

Lemma startup_probe_spec p w' :
  0 < Len p ->
  startup_probe en (mkWState (newSyncState (Len p)) p (ne_URL (Entry p 0)) false None) = Ok w' ->
  chosen p w'.
Proof.
  intros Hp. unfold startup_probe. cbn [w_pool]. fold (primary_probe p).
  destruct (retry_loop_inv (en_ctx en) ("startup probe node " +:+ format_int 0)
              (mkRetryConfig 5 (1 * Second) (10 * Second)) (Probe (en_net en) 0) pool_le 4 1
              (1 * Second) p []) as [Hle Hok]; [intros q; apply Probe_le|].
  change (retry_loop _ _ _ _ _ _ _ _ _) with (primary_probe p) in *.
  destruct (run_result (primary_probe p)) as [r|e] eqn:Er.
  { intros [= <-]. split; cbn; try lia.
    - by apply (watch_ok_same _ _ (fresh_start p Hp)).
    - by destruct Hle.
    - destruct (Hok r eq_refl) as (q & Hq & HP). by exists q, r, (run_state (primary_probe p)). }
  assert (exists e, run_result (primary_probe p) = Err e) as Hprimary by by exists e.
  generalize dependent (run_state (primary_probe p)). intros p1 Hle _.
  destruct (try_fallbacks _ _ _ _) as [w2|] eqn:Et; [|done]. intros [= <-].
  apply try_fallbacks_spec in Et as (i & Hi & Hw & Ha & Hj & Hc & Hs); [|lia].
  cbn in Hw, Ha, Hj, Hs. assert (pool_le p (w_pool w2)) as Hpw by by etrans.
  split; rewrite ?Hs; cbn.
  - split; rewrite ?Hs; cbn; [|exact Hc|done|lia].
    rewrite (pool_le_Len _ _ Hpw). unfold Len in *. lia.
  - by destruct Hpw.
  - destruct Ha as (q & r & q' & Hq & HP). exists q, r, q'. split; [etrans; [exact Hle|exact Hq]|done].
  - intros _. exact Hprimary.
  - intros j Hjr. apply (passed_over_le _ _ _ Hle), Hj. lia.
Qed.
End start.

(** ** Startup *)

Section results.
Context {PG : database.PgxPool} {MG : database.Migrate} (en : Environment).

Definition configured_pool (cfg : config.Config) : NodePool :=
  NewNodePool (toIndexerNodes (config.ic_Nodes (config.cf_Indexer cfg))).

Definition start_watch (p : NodePool) : WState :=
  mkWState (newSyncState (Len p)) p (ne_URL (Entry p 0)) false None.

(** What has to hold before the probe. *)
Record preconditions (cfg : config.Config) (voting holders : Z) : Prop := mkPre {
  pr_config : en_config en = Ok cfg;
  pr_logger : is_ok (config.BuildLogger (en_level en) (config.cf_Logging cfg)) = true;
  pr_nodes : config.ic_Nodes (config.cf_Indexer cfg) <> [];
  pr_pool : is_ok (fst (database.NewPool (config.cf_Database cfg))) = true;
  pr_migrated : database.RunMigrations (migrations_path en) = None;
  pr_dial : en_dial en 0 (ne_URL (Entry (configured_pool cfg) 0)) = Ok tt;
  pr_voting : ParseCronInterval (config.cc_VotingActivityInterval (config.cf_Cron cfg))
                (10 * Minute) = Ok voting;
  pr_holders : ParseCronInterval (config.cc_TokenHoldersInterval (config.cf_Cron cfg))
                 (10 * Minute) = Ok holders
}.

(** The watchdog's state after the probe. *)
Definition probed_watch (cfg : config.Config) : result WState :=
  if config.wd_Enabled (config.ic_Watchdog (config.cf_Indexer cfg))
  then startup_probe en (start_watch (configured_pool cfg))
  else Ok (start_watch (configured_pool cfg)).

(** What [startup] builds around it. *)
Definition started (cfg : config.Config) (voting holders : Z) (w : WState) : Started :=
  let p := configured_pool cfg in
  let wh := config.cf_Webhooks cfg in
  let health := config.ic_Health (config.cf_Indexer cfg) in
  mkStarted
    (mkIndexer (ne_URL (Entry p 0)) (mkCronConfig voting holders) (Some w)
       (watchdog_config (config.ic_Watchdog (config.cf_Indexer cfg)))
       (if config.wh_Enabled wh
        then Some (mkAttached (toWebhookEndpoints (config.wh_Endpoints wh))
                     (int64 (config.wh_TimeoutSeconds wh * Second)) (config.wh_MaxRetries wh)
                     (dispatcher_step AStart New))
        else None))
    (if config.hc_Enabled health then Some (config.hc_Port health) else None)
    (config.cf_BackfillOnStartup cfg).

Lemma startup_Ok sd :
  startup en = Ok sd <->
  exists cfg voting holders w,
    preconditions cfg voting holders /\ probed_watch cfg = Ok w /\ sd = started cfg voting holders w.
Proof.
  unfold startup. split.
  - intros (cfg & Hcfg%wrap_err_Ok & H)%bind_Ok. apply bind_Ok in H as (lg & Hlg%wrap_err_Ok & H).
    destruct (config.ic_Nodes (config.cf_Indexer cfg)) as [|primary rest] eqn:En; [done|].
    apply bind_Ok in H as (pc & Hpc%wrap_err_Ok & H).
    apply bind_Ok in H as (u & Hm & H).
    assert (database.RunMigrations (migrations_path en) = None) as Hmig
      by (by destruct (database.RunMigrations _)). clear Hm.
    apply bind_Ok in H as ([] & Hd%wrap_err_Ok & H).
    apply bind_Ok in H as (voting & Hv%wrap_err_Ok & H).
    apply bind_Ok in H as (holders & Hh%wrap_err_Ok & H).
    apply bind_Ok in H as (i & Hi & [= <-]).
    assert (ne_URL (Entry (configured_pool cfg) 0) = config.ne_URL primary) as Eu
      by (unfold configured_pool, Entry; by rewrite En).
    unfold probed in Hi. 
    assert (exists w, probed_watch cfg = Ok w
              /\ i = sd_indexer (started cfg voting holders w)) as (w & Hw & ->).
    { unfold probed_watch, start_watch, started. rewrite Eu. unfold configured_pool. rewrite En.
      unfold NewIndexerWithNodes, AttachWebhooks in Hi.
      destruct (config.wh_Enabled (config.cf_Webhooks cfg)); cbn in Hi |- *;
        (destruct (config.wd_Enabled _);
         [apply bind_Ok in Hi as (w & Hw & [= <-]); by exists w|injection Hi as <-; by eexists]). }
    exists cfg, voting, holders, w. split; [|by split].
    split; try done; [by rewrite Hlg|by rewrite En|by rewrite Hpc|by rewrite Eu].
  - intros (cfg & voting & holders & w & [H1 H2 H3 H4 H5 H6 H7 H8] & Hw & ->).
    rewrite H1. cbn [wrap_err mbind result_bind].
    destruct (config.BuildLogger _ _); [|done]. cbn [wrap_err mbind result_bind].
    unfold probed_watch, start_watch, started in *. unfold configured_pool in *.
    destruct (config.ic_Nodes (config.cf_Indexer cfg)) as [|primary rest] eqn:En; [done|].
    destruct (fst (database.NewPool _)); [|done]. cbn [wrap_err mbind result_bind].
    rewrite H5. cbn [mbind result_bind].
    change (ne_URL (Entry _ 0)) with (config.ne_URL primary) in *.
    rewrite H6. cbn [wrap_err mbind result_bind]. rewrite H7. cbn [wrap_err mbind result_bind].
    rewrite H8. cbn [wrap_err mbind result_bind].
    unfold probed, NewIndexerWithNodes, AttachWebhooks.
    destruct (config.wh_Enabled (config.cf_Webhooks cfg)); cbn in Hw |- *;
      (destruct (config.wd_Enabled _); [rewrite Hw|injection Hw as <-]; reflexivity).
Qed.

Lemma configured_Len cfg voting holders : preconditions cfg voting holders -> 0 < Len (configured_pool cfg).
Proof.
  intros [_ _ H _ _ _ _ _]. unfold configured_pool, Len, toIndexerNodes. cbn.
  destruct (config.ic_Nodes _); [done|]. cbn. lia.
Qed.

Lemma run_ticks_ok cCfg rCfg ts w : watch_ok w -> watch_ok (run_ticks cCfg rCfg ts w).
Proof.
  unfold run_ticks. revert w. induction ts as [|t ts IH]; intros w Hok; [done|].
  cbn [fold_left]. apply IH. by destruct (tick_spec t cCfg rCfg w Hok).
Qed.

(** C6. An indexer that starts is connected and safe. If [main] gets past its startup, the
    configuration loaded, the database is connected and migrated, and the indexer's client
    is connected to a configured node, the active one. With the watchdog enabled that node
    has just answered a probe; it is the primary unless the retried probes of the primary
    failed, and every fallback before it failed its probe or could not be dialed. Without a
    watchdog it is the primary. From there on, whatever the nodes do, the watchdog keeps the
    active node a configured one that the client is connected to. *)
Theorem startup_safe sd :
  startup en = Ok sd ->
  exists cfg w, en_config en = Ok cfg /\ in_watch (sd_indexer sd) = Some w
    /\ is_ok (fst (database.NewPool (config.cf_Database cfg))) = true
    /\ database.RunMigrations (migrations_path en) = None
    /\ (config.wd_Enabled (config.ic_Watchdog (config.cf_Indexer cfg)) = true ->
        chosen en (configured_pool cfg) w)
    /\ (config.wd_Enabled (config.ic_Watchdog (config.cf_Indexer cfg)) = false ->
        activeIdx (w_sync w) = 0 /\ w_pool w = configured_pool cfg)
    /\ forall cCfg rCfg ts, watch_ok (run_ticks cCfg rCfg ts w).
Proof.
  intros (cfg & voting & holders & w & Hpre & Hw & ->)%startup_Ok.
  pose proof (configured_Len _ _ _ Hpre) as Hlen. destruct Hpre as [H1 _ _ H4 H5 _ _ _].
  exists cfg, w. split; [done|]. split; [done|]. split; [done|]. split; [done|].
  unfold probed_watch in Hw. destruct (config.wd_Enabled _).
  - apply startup_probe_spec in Hw; [|done]. split; [done|]. split; [done|].
    intros. apply run_ticks_ok. by destruct Hw.
  - injection Hw as <-. split; [done|]. split; [done|].
    intros. by apply run_ticks_ok, fresh_start.
Qed.

(** The node answers every probe of a pool with these nodes. *)
Definition always_answers (p : NodePool) (k : Z) : Prop :=
  forall q, np_entries q = np_entries p -> exists r q', Probe (en_net en) k q = (Ok r, q').

Lemma try_fallbacks_reaches p k n idx w :
  always_answers p k -> en_dial en k (ne_URL (Entry p k)) = Ok tt ->
  np_entries (w_pool w) = np_entries p -> idx <= k < idx + Z.of_nat n ->
  exists w', try_fallbacks en n idx w = Some w'.
Proof.
  intros Ha Hd. revert idx w. induction n as [|n IH]; intros idx w Hw Hk; [lia|].
  cbn [try_fallbacks].
  pose proof (Probe_le (en_net en) idx (w_pool w)) as [He _].
  destruct (Z.eq_dec idx k) as [->|Hne].
  - destruct (Ha (w_pool w) Hw) as (r & q' & E). rewrite E in *. cbn [snd] in He.
    destruct (StartupSwap _ _ _ _) as [w2|e] eqn:Es; [by exists w2|].
    unfold StartupSwap, swapActiveClient in Es. cbn [w_pool update_field] in Es.
    change (w_pool (w <| w_pool := q' |>)) with q' in Es.
    assert (Entry q' k = Entry p k) as Ee by (unfold Entry; by rewrite He, Hw).
    rewrite Ee, Hd in Es. done.
  - destruct (Probe (en_net en) idx (w_pool w)) as [[r|e] q'] eqn:E; cbn [snd] in He;
      [destruct (StartupSwap _ _ _ _) as [w2|e] eqn:Es; [by exists w2|]|];
      (apply IH; [change (np_entries q' = np_entries p); congruence|lia]).
Qed.

(** One usable node is enough: if what comes before the probe succeeds, then a node that
    answers every probe and can be dialed, wherever it is in the list, gets the indexer
    started (for the primary, unless the shutdown signal came first). *)
Theorem startup_reaches cfg voting holders k :
  preconditions cfg voting holders ->
  0 <= k < Len (configured_pool cfg) -> always_answers (configured_pool cfg) k ->
  en_dial en k (ne_URL (Entry (configured_pool cfg) k)) = Ok tt ->
  (k = 0 -> ctx_err (en_ctx en) 1 = false) ->
  exists sd, startup en = Ok sd.
Proof.
  intros Hpre Hk Ha Hd Hctx.
  assert (exists w, probed_watch cfg = Ok w) as [w Hw].
  { unfold probed_watch. destruct (config.wd_Enabled _); [|by eexists].
    unfold startup_probe. set (run := ProbeWithRetry _ _ _ _ _ _).
    destruct (run_result run) as [r|e] eqn:Er; [by eexists|].
    destruct (Z.eq_dec k 0) as [->|Hne].
    { exfalso. unfold run, ProbeWithRetry, withRetryConfig in Er.
      change (Z.to_nat _ - 1)%nat with 4%nat in Er. cbn [retry_loop] in Er.
      rewrite Hctx in Er by done.
      destruct (Ha (w_pool (start_watch (configured_pool cfg))) eq_refl) as (r & q' & E).
      by rewrite E in Er. }
    destruct (retry_loop_inv (en_ctx en) ("startup probe node " +:+ format_int 0)
              (mkRetryConfig 5 (1 * Second) (10 * Second)) (Probe (en_net en) 0) pool_le 4 1
              (1 * Second) (configured_pool cfg) []) as [[He _] _]; [intros q; apply Probe_le|].
    change (retry_loop _ _ _ _ _ _ _ _ _) with run in He.
    set (w1 := update_field w_pool _ _).
    destruct (try_fallbacks_reaches (configured_pool cfg) k
                (Z.to_nat (Len (w_pool (start_watch (configured_pool cfg))) - 1)) 1 w1)
      as [w2 ->]; [done|done|exact He|cbn; lia|]. by eexists. }
  eexists. apply startup_Ok. by exists cfg, voting, holders, w.
Qed.

(** The fallbacks are no help against a primary that cannot be dialed: the client of the
    primary is built before any probe, and its failure ends the process. *)
Theorem startup_needs_primary cfg primary rest e :
  en_config en = Ok cfg -> config.ic_Nodes (config.cf_Indexer cfg) = primary :: rest ->
  en_dial en 0 (config.ne_URL primary) = Err e ->
  exists e', startup en = Err e'.
Proof.
  intros Hcfg En Hd. destruct (startup en) as [sd|e'] eqn:E; [|by exists e']. exfalso.
  apply startup_Ok in E as (cfg' & v & h & w & [H1 _ _ _ _ H6 _ _] & _).
  rewrite Hcfg in H1. injection H1 as <-. unfold configured_pool in H6. rewrite En in H6.
  change (ne_URL (Entry _ 0)) with (config.ne_URL primary) in H6. congruence.
Qed.

(** ** Tickers *)

(** Whatever the configuration says, the intervals of the refreshes and the cron jobs are
    positive, so their tickers never panic; the watchdog's is the configured one, so an
    enabled watchdog with an interval that is not positive ends the process. *)
Theorem run_tickers_spec sd :
  startup en = Ok sd ->
  exists cfg, en_config en = Ok cfg
  /\ let w := config.ic_Watchdog (config.cf_Indexer cfg) in
     List.filter ticker_panics (run_tickers (sd_indexer sd))
     = if config.wd_Enabled w && (config.wd_Interval w <=? 0)
       then [("watchdog", config.wd_Interval w)] else [].
Proof.
  intros (cfg & v & h & w & [H1 _ _ _ _ _ _ _] & _ & ->)%startup_Ok. exists cfg.
  split; [done|]. cbv zeta. unfold run_tickers, started. cbn [sd_indexer in_watch in_watchdogCfg in_cron
    VotingActivityInterval TokenHoldersInterval].
  assert (forall n z, ticker_panics (n, loop_interval z) = false) as Hl.
  { intros n z. unfold ticker_panics, loop_interval. cbn [snd].
    destruct (z <=? 0) eqn:E; [reflexivity|exact E]. }
  rewrite List.filter_app. cbn [List.filter]. rewrite !Hl.
  change (ticker_panics ("bridge sync", 1 * Minute)) with false.
  change (ticker_panics ("cached data sync", 5 * Minute)) with false.
  change (ticker_panics ("stat snapshots", Hour)) with false. cbn [app].
  unfold watchdog_config. cbn [wc_Enabled wc_Interval].
  destruct (config.wd_Enabled _); [|done]. cbn [List.filter andb]. unfold ticker_panics.
  cbn [snd]. by destruct (config.wd_Interval _ <=? 0).
Qed.
End results.

(** ** The database package *)

(** No pool outlives a failed [NewPool]: what it opened it closed, and a pool it answers is
    open with the configured size and answered a ping. *)
Theorem NewPool_spec {PG : database.PgxPool} cfg :
  match database.NewPool cfg with
  | (Ok pc, events) => events = [database.PoolOpened pc] /\ database.Ping pc = None
      /\ database.pc_MaxConns pc = int32 (config.dc_PoolSize cfg)
      /\ database.pc_MinConns pc = 2
  | (Err _, events) => events = [] \/ exists pc, events = [database.PoolOpened pc; database.PoolClosed]
  end.
Proof.
  unfold database.NewPool. destruct (database.ParseConfig _) as [pc|e]; [|by left].
  destruct (database.NewWithConfig _); [by left|].
  destruct (database.Ping _) eqn:E; [right; by eexists|]. split; [done|]. split; [done|].
  by destruct pc.
Qed.

(** Migrating is idempotent as far as the caller sees: nothing to change and no version yet
    are successes, every other answer of the library is a failure. *)
Theorem RunMigrations_spec {MG : database.Migrate} path :
  database.RunMigrations path = None
  <-> database.WithInstance = None
      /\ database.NewWithDatabaseInstance ("file://" +:+ path) = None
      /\ (database.Up = None \/ database.Up = Some database.ErrNoChange)
      /\ ((exists v, database.Version = inl v) \/ database.Version = inr database.ErrNilVersion).
Proof.
  unfold database.RunMigrations.
  destruct database.WithInstance; [by split; [|intros [? _]]|].
  destruct (database.NewWithDatabaseInstance _); [by split; [|intros (_ & ? & _)]|].
  destruct database.Up as [[| |e]|];
    try (by split; [|intros (_ & _ & [?|?] & _)]);
    (destruct database.Version as [v|[| |e']];
     split; try done; eauto 8; intros (_ & _ & _ & [[? ?]|?]); done).
Qed.

(** ** Attached webhooks *)

(** A second [AttachWebhooks] changes nothing: the dispatcher that runs is kept. *)
Theorem AttachWebhooks_once eps t r eps' t' r' i :
  AttachWebhooks eps' t' r' (AttachWebhooks eps t r i) = AttachWebhooks eps t r i.
Proof. unfold AttachWebhooks. by destruct (in_webhooks i) eqn:E; [rewrite E|]. Qed.

(** ** Instances *)

#[local] Instance toy_pgx : database.PgxPool := {|
  database.ParseConfig s := Ok (database.mkPoolConfig s 4 0 0 0 0);
  database.NewWithConfig _ := None;
  database.Ping _ := None
|}.

#[local] Instance toy_migrate : database.Migrate := {|
  database.WithInstance := None;
  database.NewWithDatabaseInstance _ := None;
  database.Up := Some database.ErrNoChange;
  database.Version := inl (13, false)
|}.

(** Two nodes, the watchdog enabled, its interval in nanoseconds. *)
Definition toy_config (interval : Z) : config.Config :=
  config.mkConfig (config.mkNodeConfig "wss://a")
    (config.mkDatabaseConfig "db" 5432 "nom" "u" "p" 10) (config.mkLoggingConfig "info" "json")
    (config.mkCronConfig "5m" "") (config.mkAPIConfig 8080 9090 "" "" 0)
    (config.mkMCPConfig 8081 9091 "" "" 0)
    (config.mkIndexerConfig
       [config.mkNodeEntry "wss://a" "a" "http://a:35997"; config.mkNodeEntry "wss://b" "b" "http://b:35997"]
       (config.mkWatchdogConfig true interval 0 0 0 2 2) (config.mkHealthConfig true 8082))
    (config.mkWebhooksConfig true [] 5 3) true.

Definition toy_environment (interval : Z) (dial : Z -> string -> result unit) (net : Net) : Environment :=
  mkEnvironment (Ok (toy_config interval)) Some (fun _ => "") dial net live_ctx 1000.

Definition all_dial : Z -> string -> result unit := fun _ _ => Ok tt.

(** The primary does not answer: the indexer starts on the fallback. *)
Lemma startup_toy :
  match startup (toy_environment (30 * Second) all_dial primary_down) with
  | Ok sd => match in_watch (sd_indexer sd) with
             | Some w => (activeIdx (w_sync w), w_client w,
                          VotingActivityInterval (in_cron (sd_indexer sd)))
                         = (1, "wss://b", 5 * Minute)
             | None => False
             end
  | Err _ => False
  end.
Proof. vm_compute. reflexivity. Qed.

Lemma startup_safe_witness :
  exists sd w, startup (toy_environment (30 * Second) all_dial primary_down) = Ok sd
    /\ in_watch (sd_indexer sd) = Some w /\ w_client w = "wss://b"
    /\ chosen (toy_environment (30 * Second) all_dial primary_down)
         (configured_pool (toy_config (30 * Second))) w.
Proof.
  pose proof startup_toy as Ht.
  destruct (startup (toy_environment (30 * Second) all_dial primary_down)) as [sd|e] eqn:E;
    [|done].
  destruct (startup_safe (toy_environment (30 * Second) all_dial primary_down) sd E)
    as (cfg & w & [= <-] & Hw & _ & _ & Hc & _).
  rewrite Hw in Ht. injection Ht as _ Hcl _.
  exists sd, w. split; [done|]. split; [done|]. split; [exact Hcl|]. by apply Hc.
Defined.

Lemma startup_reaches_witness :
  exists sd, startup (toy_environment (30 * Second) all_dial primary_down) = Ok sd.
Proof.
  apply (startup_reaches (toy_environment (30 * Second) all_dial primary_down)
           (toy_config (30 * Second)) (5 * Minute) (10 * Minute) 1).
  - split; try reflexivity. discriminate.
  - vm_compute. split; [discriminate|reflexivity].
  - intros [es gs n] Hq. cbn in Hq. subst es. unfold Probe. cbn.
    unfold genesisFor. cbn. destruct (gs !! 1) as [h|]; by eexists _, _.
  - reflexivity.
  - done.
Defined.

(** The fallback would answer, but the primary cannot be dialed. *)
Lemma startup_needs_primary_witness :
  exists e', startup (toy_environment (30 * Second)
                        (fun k _ => if k =? 0 then Err (EMsg "refused") else Ok tt) primary_down)
             = Err e'.
Proof.
  by eapply (startup_needs_primary (toy_environment (30 * Second)
              (fun k _ => if k =? 0 then Err (EMsg "refused") else Ok tt) primary_down)
              (toy_config (30 * Second))).
Defined.

(** An enabled watchdog with no interval: the process starts, and its ticker panics. *)
Lemma run_tickers_spec_witness :
  exists sd, startup (toy_environment 0 all_dial primary_down) = Ok sd
    /\ List.filter ticker_panics (run_tickers (sd_indexer sd)) = [("watchdog", 0)].
Proof.
  destruct (startup (toy_environment 0 all_dial primary_down)) as [sd|e] eqn:E;
    [|vm_compute in E; discriminate E].
  destruct (run_tickers_spec (toy_environment 0 all_dial primary_down) sd E)
    as (cfg & [= <-] & H).
  exists sd. split; [done|exact H].
Defined.
