(* ===== verification/Loops.v ===== *)
(** The background loops of [Run] (internal/indexer/indexer.go, cron.go, watchdog.go) as the
    bodies their tickers fire, and what they can do to the tables while momentums are
    committed: each is a sequence of reads and single statements, none of which writes a
    table of the ledger, with the other sessions' commits between any two.

    A [select] takes a tick or the end of the context; a loop is the list of what its select
    took, the end being the end of the list. *)

From S2P Require Import Prelude.
From S2P Require Import Models.
From S2P Require Import Chain.
From S2P Require Import RepoLedger.
From S2P Require Import RepoContracts.
From S2P Require Import RepoBridge.
From S2P Require Import Database.
From S2P Require Import ExecFacts.
From S2P Require Import Decoder.
From S2P Require Import Embedded.
From S2P Require Import Processor.
From S2P Require Import ProcessorShape.
From S2P Require Import LedgerFacts.
From S2P Require Import LedgerProps.
From S2P Require Import Samples.
From S2P Require Import DelegationTheorems.
From S2P Require Import CachedData.
From S2P Require Import BridgeSync.
From S2P Require Import Cron.
From S2P Require Import Watchdog.
#[local] Open Scope string_scope.
#[local] Open Scope Z_scope.

(** ** The cron loop *)

Inductive CronTick : Type := TickVoting | TickHolders | TickStats.

(** What one job meets: its calls, the context, the pillar snapshot, and the day. *)
Record CronInputs : Type := mkCronInputs {
  ci_calls : nat -> Call;
  ci_canceled : nat -> bool;
  ci_pillars : list Pillar;
  ci_date : string;
  ci_lo : Z;
  ci_session_lo : Z
}.

Definition cron_job (tick : CronTick) (ci : CronInputs) (db : Db) : Db :=
  match tick with
  | TickVoting => runVotingActivity (ci_calls ci) (ci_canceled ci) (ci_pillars ci) db
  | TickHolders => runTokenHolderCounts (ci_calls ci) (ci_canceled ci) db
  | TickStats => runStatSnapshots (ci_calls ci) (ci_canceled ci) (ci_date ci) (ci_lo ci)
                   (ci_session_lo ci) (ci_pillars ci) db
  end.

(** [runCronLoop]: every job once, then what the three tickers fire. *)
Definition runCronLoop (first : CronTick -> CronInputs) (ticks : list (CronTick * CronInputs))
    (db : Db) : Db :=
  let job db '(tick, ci) := cron_job tick ci db in
  fold_left job ticks
    (fold_left job (map (fun t => (t, first t)) [TickVoting; TickHolders; TickStats]) db).

(** ** The refresh loops *)

(** The body at every tick. After a body that does not end no tick is taken; the state is
    then the one it started from. *)
Fixpoint at_ticks {T S : Type} (body : T -> S -> option S) (ticks : list T) (s : S) : S :=
  match ticks with
  | [] => s
  | t :: ticks' => match body t s with Some s' => at_ticks body ticks' s' | None => s end
  end.

(** What one refresh of the cached data meets. *)
Record CacheInputs : Type := mkCacheInputs {
  ca_sdk : Sdk;
  ca_api : CacheApi;
  ca_calls : nat -> nat -> Call;
  ca_now : Z;
  ca_fuel : nat
}.

(** [None] when the paging does not end in [ca_fuel] pages. *)
Definition cache_refresh (ci : CacheInputs) (s : IndexerSt) : option IndexerSt :=
  '(_, s') ← updateCachedData (ca_sdk ci) (ca_api ci) (ca_calls ci) (ca_now ci) (ca_fuel ci) s;
  Some s'.

(** [runCachedDataSyncLoop]: at once, then at every tick; a failure is logged. *)
Definition runCachedDataSyncLoop (first : CacheInputs) (ticks : list CacheInputs) (s : IndexerSt)
  : IndexerSt := at_ticks cache_refresh (first :: ticks) s.

Record BridgeInputs : Type := mkBridgeInputs {
  br_now : Z;
  br_wrap_stop : Call;
  br_unwrap_stop : Call;
  br_api : BridgeApi;
  br_calls : nat -> nat -> Call;
  br_fuel : nat
}.

Definition bridge_refresh (bi : BridgeInputs) (db : Db) : option Db :=
  syncBridgeData (br_now bi) (br_wrap_stop bi) (br_unwrap_stop bi) (br_api bi) (br_calls bi)
    (br_fuel bi) db.

(** [runBridgeSyncLoop]. *)
Definition runBridgeSyncLoop (first : BridgeInputs) (ticks : list BridgeInputs) (db : Db) : Db :=
  at_ticks bridge_refresh (first :: ticks) db.

(** [runSyncWatchdogLoop]: the configurations it builds, and a tick per firing. *)
Definition runSyncWatchdogLoop (cfg : WatchdogConfigForIndexer) (ticks : list Tick) (w : WState)
  : WState :=
  let classifyCfg := mkClassifyConfig (wc_StallThreshold cfg) (wc_IndexerDriftThreshold cfg)
                       (wc_NodeDriftThreshold cfg) in
  let reactCfg := mkReactConfig (wc_UnhealthyStreak cfg) (wc_FailbackStreak cfg) in
  fold_left (fun w t => runWatchdogTick t classifyCfg reactCfg w) ticks w.

(** ** What the loops do to the ledger *)

(** The tables only the momentum processor (and the backfill) writes. *)
Definition ledger (db : Db) :=
  (db_momentums db, db_accounts db, db_account_blocks db, db_balances db, db_token_mints db,
   db_token_burns db, db_pillar_updates db, db_stakes db, db_htlcs db, db_swap_retrievals db,
   db_fusions db, db_votes db, db_reward_transactions db, db_cumulative_rewards db,
   db_delegations db).

Definition same_ledger (db db' : Db) : Prop := ledger db' = ledger db.

#[export] Instance same_ledger_preorder : PreOrder same_ledger.
Proof. split; [done|]. intros a b c H1 H2. unfold same_ledger in *. by rewrite H2. Qed.

(** A statement that leaves the ledger tables as they are. *)
Definition spares (op : Db -> result Db) : Prop := forall d d', op d = Ok d' -> same_ledger d d'.

Lemma on_table_spares {T} (f : Db -> T) (X : Setter f) (op : T -> result T) :
  (forall g d, ledger (update_field f g d) = ledger d) -> spares (on_table f op).
Proof. intros Hf d d' (t & _ & ->)%on_table_Ok. apply Hf. Qed.

Create HintDb spares.
#[export] Hint Extern 1 (spares _) =>
  (apply on_table_spares; intros; reflexivity) : spares.

Lemma Forall_map_spares {A} (f : A -> Db -> result Db) l :
  (forall x, spares (f x)) -> Forall spares (map f l).
Proof. intros H. induction l; by constructor. Qed.

(** *** Between the other sessions

    What the other sessions do between two calls of a loop is some relation of the tables;
    so is what the loop does, since its own statements leave the ledger tables alone. *)
Section between.
Variable R : Db -> Db -> Prop.
Context `{!PreOrder R}.
Hypothesis Hspare : forall d d', same_ledger d d' -> R d d'.

(** The other sessions' commits before the call. *)
Definition others_do (c : Call) : Prop := forall db, R db (cl_others c db).
Definition all_do (calls : nat -> Call) : Prop := forall k, others_do (calls k).

Lemma exec_call_R c op db : others_do c -> spares op -> R db (exec_call c op db).2.
Proof.
  intros Hc Hop. unfold exec_call. specialize (Hc db). destruct (cl_err c); [done|].
  destruct (op (cl_others c db)) as [d|e] eqn:E; [|done].
  etrans; [exact Hc|]. apply Hspare. by apply Hop.
Qed.

Lemma run_writes_R calls k ops db :
  all_do calls -> Forall spares ops -> R db (run_writes calls k ops db).
Proof.
  intros Hc Hops. revert k db. induction Hops as [|op ops Hop _ IH]; intros k db;
    cbn [run_writes]; [done|].
  etrans; [by apply exec_call_R|apply IH].
Qed.

(** *** The jobs *)

Definition does {A} (m : job A) : Prop := forall w, R w.2 (m w).2.2.

Section job_steps.
Variables (calls : nat -> Call) (canceled : nat -> bool).
Hypothesis Hcalls : all_do calls.

Lemma done_R {A} (a : A) : does (done_job a).
Proof. by intros w. Qed.

Lemma ask_R {A} (read : Db -> result A) : does (ask calls read).
Proof.
  intros [k db]. unfold ask. pose proof (Hcalls k db) as H. destruct (cl_err (calls k)); [done|].
  by destruct (read _).
Qed.

Lemma tell_R op : spares op -> does (tell calls op).
Proof.
  intros Hop [k db]. unfold tell. pose proof (exec_call_R (calls k) op db (Hcalls k) Hop) as H.
  by destruct (exec_call (calls k) op db).
Qed.

Lemma bind_R {A B} (m : job A) (k : A -> job B) :
  does m -> (forall a, does (k a)) -> does (job_bind m k).
Proof.
  intros Hm Hk w. unfold job_bind. specialize (Hm w). destruct (m w) as [[a|] w']; [|done].
  etrans; [exact Hm|apply (Hk a w')].
Qed.

Lemma for_each_R {A} (xs : list A) body w :
  (forall x, does (body x)) -> R w.2 (for_each canceled xs body w).2.
Proof.
  intros Hb. revert w. induction xs as [|x xs IH]; intros w; cbn [for_each]; [done|].
  destruct (canceled w.1); [done|]. etrans; [apply (Hb x w)|apply IH].
Qed.

(** A read that decides what follows. *)
Lemma after_ask_R {A} (read : Db -> result A) w (k : A -> nat * Db -> nat * Db) :
  (forall a w', R w'.2 (k a w').2) ->
  R w.2 (match ask calls read w with (None, w') => w' | (Some a, w') => k a w' end).2.
Proof.
  intros Hk. pose proof (ask_R read w) as Ha. destruct (ask calls read w) as [[a|] w'].
  - etrans; [exact Ha|apply Hk].
  - exact Ha.
Qed.

#[local] Ltac job_R :=
  repeat first [apply bind_R; [|intros ?] | apply ask_R | apply done_R
               | apply tell_R; auto with spares | case_match].

Lemma voting_activity_R p : does (voting_activity_of calls p).
Proof. unfold voting_activity_of. job_R. Qed.

Lemma holder_count_R t : does (holder_count_of calls t).
Proof. unfold holder_count_of. job_R. Qed.

Lemma network_stats_R date lo hi : does (snapshotNetworkStats calls date lo hi).
Proof. unfold snapshotNetworkStats. job_R. Qed.

Lemma token_stat_R date lo hi t : does (token_stat_of calls date lo hi t).
Proof. unfold token_stat_of. job_R. Qed.

Lemma pillar_stat_R date p : does (pillar_stat_of calls date p).
Proof.
  intros w. unfold pillar_stat_of.
  match goal with |- context [ask calls ?read w] =>
    pose proof (ask_R read w) as Ha; destruct (ask calls read w) as [n w'] end.
  etrans; [exact Ha|]. by apply tell_R; auto with spares.
Qed.

Lemma upsert_bridge_R stats w : R w.2 (upsert_bridge_stats calls stats w).2.
Proof.
  revert w. induction stats as [|s stats IH]; intros w; cbn [upsert_bridge_stats]; [done|].
  etrans; [|apply IH]. by apply tell_R; auto with spares.
Qed.

Lemma holders_R db : R db (runTokenHolderCounts calls canceled db).
Proof.
  unfold runTokenHolderCounts.
  pose proof (ask_R (fun db => Ok (TokenRepository.GetAll (db_tokens db))) (0%nat, db)) as Ha.
  destruct (ask _ _ (0%nat, db)) as [[ts|] [k db']]; [|exact Ha]. etrans; [exact Ha|].
  apply (for_each_R _ _ (k, db')). intros. apply holder_count_R.
Qed.

Lemma stats_R date lo session_lo pillars db :
  R db (runStatSnapshots calls canceled date lo session_lo pillars db).
Proof.
  unfold runStatSnapshots.
  etrans; [apply (network_stats_R date lo (lo + 86400) (0%nat, db))|].
  etrans; [|unfold snapshotBridgeStats; apply after_ask_R; intros; apply after_ask_R; intros;
            apply upsert_bridge_R].
  etrans; [|apply for_each_R; intros; apply pillar_stat_R].
  unfold snapshotTokenStats. apply after_ask_R. intros. apply for_each_R. intros.
  apply token_stat_R.
Qed.
End job_steps.

Lemma cron_job_R tick ci db : all_do (ci_calls ci) -> R db (cron_job tick ci db).
Proof.
  intros Hc. destruct tick; cbn [cron_job]; [|by apply holders_R|by apply stats_R].
  apply (for_each_R _ _ _ (0%nat, db)). intros. by apply voting_activity_R.
Qed.

Lemma runCronLoop_R first ticks db :
  (forall t, all_do (ci_calls (first t))) -> Forall (fun tc => all_do (ci_calls tc.2)) ticks ->
  R db (runCronLoop first ticks db).
Proof.
  intros Hf Ht.
  assert (forall l db, Forall (fun tc => all_do (ci_calls tc.2)) l ->
            R db (fold_left (fun db '(tick, ci) => cron_job tick ci db) l db)) as H.
  { intros l d Hl. revert d. induction Hl as [|[t ci] l Hci _ IH]; intros d; cbn [fold_left];
      [done|]. etrans; [by apply cron_job_R|apply IH]. }
  unfold runCronLoop. etrans; [apply H|by apply H]. apply Forall_map, Forall_true. intros t.
  apply Hf.
Qed.

(** *** The refreshes *)

Lemma updatePillarCache_R api calls s :
  all_do calls -> R (ix_db s) (ix_db (updatePillarCache api calls s).2).
Proof.
  intros Hc. unfold updatePillarCache. destruct (PillarGetAll api 0 200); [|done].
  cbn [snd ix_db]. apply run_writes_R; [done|]. apply Forall_map_spares. auto with spares.
Qed.

Lemma project_writes_spare sdk p : Forall spares (project_writes sdk p).
Proof.
  unfold project_writes. constructor; [auto with spares|].
  induction (pji_Phases p) as [|[[ph|] v] l IH]; cbn; [constructor| |exact IH].
  constructor; [auto with spares|exact IH].
Qed.

Lemma swap_writes_spare now assets : Forall spares (swap_writes now assets).
Proof.
  unfold swap_writes. induction assets as [|[k [[z q]|]] l IH]; cbn; [constructor| |exact IH].
  constructor; [auto with spares|exact IH].
Qed.

Lemma cache_refresh_R ci s s' :
  (forall i, all_do (ca_calls ci i)) -> cache_refresh ci s = Some s' -> R (ix_db s) (ix_db s').
Proof.
  intros Hc. unfold cache_refresh, updateCachedData.
  pose proof (updatePillarCache_R (ca_api ci) (ca_calls ci 0%nat) s (Hc 0%nat)) as Hp.
  destruct (updatePillarCache _ _ s) as [[u|e] s1]; cbn [snd] in Hp; cbn [mbind option_bind].
  2: { by intros [= <-]. }
  destruct (paged _ (SentinelGetAllActive _) 10 0) as [sentinels|]; [|done].
  destruct (paged _ (AcceleratorGetAll _) 10 0) as [projects|]; [|done].
  cbn [mbind option_bind]. intros [= <-].
  change (ix_db (update_field ix_db (fun _ => ?d) s1)) with d.
  assert (Forall spares (projects ≫= project_writes (ca_sdk ci))) as Hw.
  { apply Forall_bind, Forall_true. intros. apply project_writes_spare. }
  etrans; [exact Hp|].
  set (sw := map _ sentinels).
  assert (Forall spares sw) as Hsw.
  { apply Forall_map_spares. intros x. auto with spares. }
  pose proof (run_writes_R _ 0 _ (ix_db s1) (Hc 1%nat) Hsw) as H1.
  pose proof (run_writes_R _ 0 _ (run_writes (ca_calls ci 1%nat) 0 sw (ix_db s1)) (Hc 2%nat) Hw)
    as H2.
  etrans; [exact H1|]. etrans; [exact H2|].
  unfold syncSwapAssets. destruct (SwapGetAssets (ca_api ci)); [|reflexivity].
  apply run_writes_R; [done|]. apply swap_writes_spare.
Qed.

Section bridge_steps.
Variables (calls : nat -> Call) (now : Z).
Hypothesis Hcalls : all_do calls.

Lemma try_write_R op w : spares op -> R w.2 (try_write calls op w).2.2.
Proof.
  intros Hop. destruct w as [k db]. unfold try_write.
  pose proof (exec_call_R (calls k) op db (Hcalls k) Hop) as H.
  by destruct (exec_call (calls k) op db).
Qed.

Lemma write_all_R ops w : Forall spares ops -> R w.2 (write_all calls ops w).2.
Proof.
  intros Hops. unfold write_all. revert w.
  induction Hops as [|op ops Hop _ IH]; intros w; cbn [fold_left]; [done|].
  etrans; [by apply (try_write_R op w)|apply IH].
Qed.

Lemma admin_step_R api w : R w.2 (admin_step calls now api w).2.
Proof.
  unfold admin_step. destruct (GetBridgeInfo api) as [[info|]|]; try done.
  apply try_write_R. auto with spares.
Qed.

Lemma security_step_R api w : R w.2 (security_step calls now api w).2.2.
Proof.
  unfold security_step. destruct (GetSecurityInfo api) as [[sec|]|]; try done. cbn [snd].
  etrans; [|apply try_write_R; auto with spares].
  etrans; [|apply write_all_R, Forall_map_spares; intros; unfold guardian_write; auto with spares].
  apply try_write_R. auto with spares.
Qed.

Lemma orchestrator_step_R api w : R w.2 (orchestrator_step calls now api w).2.
Proof.
  unfold orchestrator_step. destruct (GetOrchestratorInfo api) as [[o|]|]; try done.
  apply try_write_R. auto with spares.
Qed.

Lemma network_writes_R networks w : R w.2 (fold_left (network_write calls now) networks w).2.
Proof.
  revert w. induction networks as [|n networks IH]; intros w; cbn [fold_left]; [done|].
  etrans; [|apply IH]. unfold network_write.
  match goal with |- context [try_write calls ?op w] =>
    pose proof (try_write_R op w ltac:(auto with spares)) as H1;
    destruct (try_write calls op w) as [[] w1] end; [|exact H1].
  etrans; [exact H1|]. apply write_all_R, Forall_map_spares. auto with spares.
Qed.

Lemma challenge_writes_R soft admin tcs w :
  R w.2 (challenge_writes calls now soft admin tcs w).2.2.
Proof.
  revert w. induction tcs as [|tc tcs IH]; intros w; cbn [challenge_writes]; [done|].
  pose proof (try_write_R (challenge_write now soft admin tc) w
                ltac:(unfold challenge_write; auto with spares)) as H1.
  destruct (try_write _ _ w) as [ok w1]. specialize (IH w1).
  destruct (challenge_writes _ _ _ _ tcs w1) as [keep w2]. etrans; [exact H1|exact IH].
Qed.

Lemma challenge_step_R delays api w : R w.2 (challenge_step calls now delays api w).2.
Proof.
  unfold challenge_step. destruct (GetTimeChallengesInfo api) as [[tcs|]|]; try done.
  pose proof (challenge_writes_R delays.1 delays.2 tcs w) as Hc.
  destruct (challenge_writes _ _ _ _ _ w) as [keep w5].
  etrans; [exact Hc|]. apply try_write_R. auto with spares.
Qed.

Lemma updateBridgeConfig_R api fuel db db' :
  updateBridgeConfig now api calls fuel db = Some db' -> R db db'.
Proof.
  unfold updateBridgeConfig. destruct (paged _ _ _ _) as [networks|]; [|done].
  cbn [mbind option_bind].
  pose proof (security_step_R api (admin_step calls now api (0%nat, db))) as Hs.
  destruct (security_step _ _ _ _) as [delays w2]. intros [= <-]. cbn [snd] in Hs.
  etrans; [apply (admin_step_R api (0%nat, db))|]. etrans; [exact Hs|].
  etrans; [apply orchestrator_step_R|]. etrans; [apply network_writes_R|].
  apply challenge_step_R.
Qed.
End bridge_steps.

Lemma wraps_R stop api calls fuel db res db' :
  others_do stop -> all_do calls ->
  updateBridgeWrapRequests stop api calls fuel db = Some (res, db') -> R db db'.
Proof.
  intros Hs Hc. unfold updateBridgeWrapRequests. specialize (Hs db).
  destruct (cl_err stop); [by intros [= _ <-]|].
  destruct (paged_until _ _ _ _ _) as [[r ws]|]; [|done]. cbn [mbind option_bind].
  intros [= _ <-]. etrans; [exact Hs|]. apply run_writes_R; [done|].
  apply Forall_map_spares. intros w. unfold wrap_write. auto with spares.
Qed.

Lemma unwraps_R stop api calls fuel db res db' :
  others_do stop -> all_do calls ->
  updateBridgeUnwrapRequests stop api calls fuel db = Some (res, db') -> R db db'.
Proof.
  intros Hs Hc. unfold updateBridgeUnwrapRequests. specialize (Hs db).
  destruct (cl_err stop); [by intros [= _ <-]|].
  destruct (paged_until _ _ _ _ _) as [[r us]|]; [|done]. cbn [mbind option_bind].
  intros [= _ <-]. etrans; [exact Hs|]. apply run_writes_R; [done|].
  apply Forall_map_spares. intros u. unfold unwrap_write. auto with spares.
Qed.

(** The three kinds of calls of a bridge refresh. *)
Definition bridge_do (bi : BridgeInputs) : Prop :=
  others_do (br_wrap_stop bi) /\ others_do (br_unwrap_stop bi)
  /\ forall i, all_do (br_calls bi i).

Lemma bridge_refresh_R bi db db' :
  bridge_do bi -> bridge_refresh bi db = Some db' -> R db db'.
Proof.
  intros (Hw & Hu & Hc). unfold bridge_refresh, syncBridgeData.
  destruct (updateBridgeWrapRequests _ _ _ _ _) as [[r1 db1]|] eqn:E1; [|done].
  cbn [mbind option_bind]. apply wraps_R in E1; [|done..].
  destruct (updateBridgeUnwrapRequests _ _ _ _ _) as [[r2 db2]|] eqn:E2; [|done].
  cbn [mbind option_bind]. apply unwraps_R in E2; [|done..]. intros E3.
  apply updateBridgeConfig_R in E3; [|done]. etrans; [exact E1|]. by etrans.
Qed.

Lemma at_ticks_R {T S} (db_of : S -> Db) (body : T -> S -> option S) ticks s :
  Forall (fun t => forall s s', body t s = Some s' -> R (db_of s) (db_of s')) ticks ->
  R (db_of s) (db_of (at_ticks body ticks s)).
Proof.
  intros Ht. revert s. induction Ht as [|t ticks Hb _ IH]; intros s; cbn [at_ticks]; [done|].
  destruct (body t s) as [s'|] eqn:E; [|done]. etrans; [by eapply Hb|apply IH].
Qed.

Lemma runCachedDataSyncLoop_R first ticks s :
  Forall (fun ci => forall i, all_do (ca_calls ci i)) (first :: ticks) ->
  R (ix_db s) (ix_db (runCachedDataSyncLoop first ticks s)).
Proof.
  intros Ht. apply at_ticks_R. eapply Forall_impl; [exact Ht|]. intros ci Hci s1 s2.
  by apply cache_refresh_R.
Qed.

Lemma runBridgeSyncLoop_R first ticks db :
  Forall bridge_do (first :: ticks) -> R db (runBridgeSyncLoop first ticks db).
Proof.
  intros Ht. apply (at_ticks_R (fun d => d) bridge_refresh). eapply Forall_impl; [exact Ht|]. intros bi Hbi s1 s2.
  by apply bridge_refresh_R.
Qed.
End between.

(** ** Momentums among the loops *)

(** A momentum whose blocks, and the rewards they carry, are not stored yet. *)
Definition fresh_momentum (env : Env) (m : ChainMomentum) : Prop :=
  0 <= cm_Height m /\ NoDup (fetched_hashes env m)
  /\ forall h, h ∈ fetched_hashes env m ->
       ~ has_block h (pl_db (env_pool env)) /\ ~ has_reward h (pl_db (env_pool env)).

(** A step of the other sessions: the transaction of a momentum that is fresh when it comes,
    whatever it meets, or a change that leaves the ledger tables alone, as every statement of
    the other loops does. *)
Inductive world_step : Db -> Db -> Prop :=
| ws_momentum env m :
    fresh_momentum env m -> world_step (pl_db (env_pool env)) (out_db (processMomentum env m))
| ws_other db db' : same_ledger db db' -> world_step db db'.

Definition world_run : Db -> Db -> Prop := rtc world_step.

#[export] Instance world_run_preorder : PreOrder world_run.
Proof. unfold world_run. apply _. Qed.

(** What the ledger tables promise each other. *)
Record ledger_ok (db : Db) : Prop := mkLedgerOk {
  lo_heights : heights_ok (db_momentums db);
  lo_delegations : one_open db;
  lo_tx_count : forall a, a <> "" -> tx_count a db = blocks_touching a db;
  lo_rewards : forall k, cumulative_of k db = rewards_sum k db
}.

Lemma ledger_ok_same db d : ledger d = ledger db -> ledger_ok db -> ledger_ok d.
Proof.
  unfold ledger. intros [= E1 E2 E3 _ _ _ _ _ _ _ _ _ E4 E5 E6] [H1 H2 H3 H4]. split.
  - by rewrite E1.
  - intros a. unfold open_of. rewrite E6. apply H2.
  - intros a Ha. unfold tx_count, blocks_touching. rewrite E2, E3. by apply H3.
  - intros k. unfold cumulative_of, rewards_sum. rewrite E4, E5. apply H4.
Qed.

Lemma ledger_ok_momentum env m :
  fresh_momentum env m -> ledger_ok (pl_db (env_pool env)) ->
  ledger_ok (out_db (processMomentum env m)).
Proof.
  intros (Hh & Hnd & Hf) [H1 H2 H3 H4].
  destruct (out_err (processMomentum env m)) as [e|] eqn:Ee.
  { rewrite (processMomentum_Err _ _ _ Ee). by split. }
  split.
  - rewrite (momentum_momentums _ _ Ee). pose proof (momentum_height_in_range _ _ Ee) as Hr%in_int64_spec.
    intros h [->|Hin]%insert_nothing_is_Some; [lia|by apply H1].
  - by apply momentum_one_open.
  - intros a Ha. rewrite (momentum_tx_count _ _ _ Ha Ee).
    rewrite (momentum_touching_fresh a _ _ Hnd); [|intros h Hin; by apply Hf|exact Ee].
    rewrite (H3 a Ha). lia.
  - intros k. rewrite (momentum_cumulative _ _ _ Ee).
    rewrite (momentum_rewards_sum k _ _ Hnd); [|intros h Hin; by apply Hf|exact Ee].
    rewrite (H4 k). lia.
Qed.

Lemma momentum_grows env m :
  db_momentums (pl_db (env_pool env)) ⊆ db_momentums (out_db (processMomentum env m)).
Proof.
  apply map_subseteq_spec. intros h r Hr.
  apply (processMomentum_keeps (has_momentum h r)); [|exact Hr].
  intros s db db' Hh Hs. by eapply has_momentum_kept.
Qed.

(** What a run of the world leaves of the ledger. *)
Definition ledger_kept (db after : Db) : Prop :=
  ledger_ok after /\ db_momentums db ⊆ db_momentums after.

Lemma world_run_kept db after : world_run db after -> ledger_ok db -> ledger_kept db after.
Proof.
  induction 1 as [db|db db1 after Hs _ IH]; intros Hok; [by split|].
  assert (ledger_kept db db1) as [Hok1 Hsub].
  { destruct Hs as [env m Hf|db db1 Hl].
    - split; [by apply ledger_ok_momentum|apply momentum_grows].
    - split; [by apply (ledger_ok_same db)|]. unfold same_ledger, ledger in Hl.
      injection Hl as -> _. done. }
  destruct (IH Hok1) as [H1 H2]. split; [done|]. by etrans.
Qed.

Lemma world_run_spares d d' : same_ledger d d' -> world_run d d'.
Proof. intros H. by apply rtc_once, ws_other. Qed.

(** C4. The background loops cannot break the ledger. Before each call of the cron loop, the
    cached data loop and the bridge loop (every read and every statement is one) the other
    sessions may commit any run of momentum transactions, fresh when they come, and of
    changes that leave the ledger tables alone, and any call may fail. Whatever the ticks
    and the node's answers, the loop ends with a ledger that keeps its promises if it
    started from one - heights in range, at most one open delegation an address, each
    account's cached transaction count the number of its stored blocks, each running reward
    total the sum of its transactions - and with the stored momentums' rows as they were.
    When the other sessions leave the ledger tables alone, so has the loop: what one loop
    does is what the others assume of it. *)
Theorem ledger_under_interleaving :
  (forall first ticks db,
     (forall t, all_do world_run (ci_calls (first t))) ->
     Forall (fun tc => all_do world_run (ci_calls tc.2)) ticks ->
     ledger_ok db -> ledger_kept db (runCronLoop first ticks db))
  /\ (forall first ticks s,
     Forall (fun ci => forall i, all_do world_run (ca_calls ci i)) (first :: ticks) ->
     ledger_ok (ix_db s) -> ledger_kept (ix_db s) (ix_db (runCachedDataSyncLoop first ticks s)))
  /\ (forall first ticks db,
     Forall (bridge_do world_run) (first :: ticks) ->
     ledger_ok db -> ledger_kept db (runBridgeSyncLoop first ticks db))
  /\ (forall first ticks db,
     (forall t, all_do same_ledger (ci_calls (first t))) ->
     Forall (fun tc => all_do same_ledger (ci_calls tc.2)) ticks ->
     ledger (runCronLoop first ticks db) = ledger db)
  /\ (forall first ticks s,
     Forall (fun ci => forall i, all_do same_ledger (ca_calls ci i)) (first :: ticks) ->
     ledger (ix_db (runCachedDataSyncLoop first ticks s)) = ledger (ix_db s))
  /\ (forall first ticks db,
     Forall (bridge_do same_ledger) (first :: ticks) ->
     ledger (runBridgeSyncLoop first ticks db) = ledger db).
Proof.
  pose proof world_run_spares as Hw. split_and!.
  - intros first ticks db Hf Ht. apply world_run_kept. by apply (runCronLoop_R world_run).
  - intros first ticks s Ht. apply world_run_kept. by apply (runCachedDataSyncLoop_R world_run).
  - intros first ticks db Ht. apply world_run_kept. by apply (runBridgeSyncLoop_R world_run).
  - intros first ticks db Hf Ht. by apply (runCronLoop_R same_ledger).
  - intros first ticks s Ht. by apply (runCachedDataSyncLoop_R same_ledger).
  - intros first ticks db Ht. by apply (runBridgeSyncLoop_R same_ledger).
Qed.

(** A momentum committed between the first and the second call of every job, unless its
    block is there. *)
Definition commit_transfer (db : Db) : Db :=
  if decide (db_account_blocks db !! nb_Hash (cb_Block transfer) = None
             /\ db_reward_transactions db !! nb_Hash (cb_Block transfer) = None)
  then out_db (processMomentum (toy_env db [transfer]) (toy_momentum 5 [transfer]))
  else db.

Definition toy_call (k : nat) : Call :=
  match k with 1%nat => mkCall commit_transfer None | _ => alone None end.

Lemma commit_transfer_run db : world_run db (commit_transfer db).
Proof.
  unfold commit_transfer. case_decide as Hd; [|done].
  apply rtc_once, (ws_momentum (toy_env db [transfer])). destruct Hd as [Hb Hr].
  assert (fetched_hashes (toy_env db [transfer]) (toy_momentum 5 [transfer])
          = [nb_Hash (cb_Block transfer)]) as E by reflexivity.
  split; [by vm_compute|]. rewrite E. split; [apply NoDup_singleton|].
  intros h ->%list_elem_of_singleton. split.
  - intros [r H]. change (pl_db _) with db in H. by rewrite Hb in H.
  - intros [r H]. change (pl_db _) with db in H. by rewrite Hr in H.
Qed.

(** A momentum between two calls of the cron jobs. *)
Lemma ledger_under_interleaving_witness :
  let ci := mkCronInputs toy_call (fun _ => false) [] "2024-01-01" 0 0 in
  let after := runCronLoop (fun _ => ci) [(TickHolders, ci)] empty_db in
  tx_count "z1bob" after = 1 /\ ledger_ok after.
Proof.
  intros ci after. split; [vm_compute; reflexivity|].
  assert (all_do world_run toy_call) as Hc.
  { intros [|[|k]] db; [reflexivity|apply commit_transfer_run|reflexivity]. }
  refine (proj1 (proj1 ledger_under_interleaving (fun _ => ci) [(TickHolders, ci)] empty_db
                   (fun _ => Hc) _ _)); [by repeat constructor|].
  split.
  - intros h [r Hr]. discriminate Hr.
  - intros d. vm_compute. lia.
  - intros a _. reflexivity.
  - intros [[a r] z]. reflexivity.
Defined.
