(* ===== verification/Metrics.v ===== *)
(** internal/api/metrics and internal/mcp/metrics: what the middleware of the two servers
    observes of a request or a tool call, and the two recorders (the metrics' and the
    logger's) that stand between a handler and the connection.

    The collectors are Prometheus's: the model keeps the calls the code makes on them, each
    counter's [Inc] and each histogram's [Observe] with its labels and the time elapsed in
    nanoseconds. chi's route pattern of a request is a parameter.

    Theorems: what the metrics and the log say of a request, and what they do to it: the recorders
    pass a response through unchanged, every request that returns is observed once with the
    status its client got, every tool call once with its outcome. *)

From S2P Require Import Prelude.
From S2P Require Import Json.
From S2P Require Import Queries.
From S2P Require Import Text.
From S2P Require Import Httpx.
From S2P Require Import Auth.
From S2P Require Import Middleware.
From S2P Require Import Handlers.
From S2P Require Import Router.
From S2P Require Import Mcp.
From S2P Require Import ApiSamples.
From S2P Require Import RouterTheorems.
#[local] Open Scope string_scope.
#[local] Open Scope Z_scope.

(** ** net/http: writing a response *)

(** The calls a handler makes on its [http.ResponseWriter]. *)
Inductive WriterOp : Type :=
| WriteHeader (code : Z)
| Write (b : string).

(** What a connection has been sent: informational status lines, the status, the body. *)
Record Sent : Type := mkSent {
  sn_Informational : list Z;
  sn_Status : option Z;
  sn_Body : string
}.

Definition nothing_sent : Sent := mkSent [] None "".

(** A status of 1xx other than 101 does not end the header. *)
Definition is_informational (code : Z) : bool := (100 <=? code) && (code <=? 199) && negb (code =? 101).

Definition body_allowed (status : Z) : bool :=
  negb (((100 <=? status) && (status <=? 199)) || (status =? 204) || (status =? 304)).

(** [response.WriteHeader]: a second header is dropped; a code out of range panics. *)
Definition send_header (code : Z) (s : Sent) : result Sent :=
  match sn_Status s with
  | Some _ => Ok s
  | None =>
      if (code <? 100) || (999 <? code) then Err (EMsg "invalid WriteHeader code")
      else if is_informational code
           then Ok (mkSent (sn_Informational s ++ [code])%list None (sn_Body s))
           else Ok (mkSent (sn_Informational s) (Some code) (sn_Body s))
  end.

(** [response.Write] sends the header of a 200 first when there is none. *)
Definition writer_step (s : Sent) (op : WriterOp) : result Sent :=
  match op with
  | WriteHeader code => send_header code s
  | Write b =>
      s ← send_header 200 s;
      if body_allowed (default 200 (sn_Status s))
      then Ok (mkSent (sn_Informational s) (sn_Status s) (sn_Body s +:+ b)) else Ok s
  end.

(** The calls of a handler in order, up to a panic. *)
Definition run_ops {S} (step : S -> WriterOp -> result S) (ops : list WriterOp) (s : S) : result S :=
  fold_left (fun acc op => s ← acc; step s op) ops (Ok s).

(** What the client gets when the handler returns: a response nobody gave a status is a 200. *)
Definition final_status (s : Sent) : Z := default 200 (sn_Status s).

(** ** The recorders *)

Module apimetrics.

Record statusRecorder : Type := mkRecorder {
  ResponseWriter : Sent;
  status : Z;
  wroteHeader : bool
}.

Definition recorder_step (s : statusRecorder) (op : WriterOp) : result statusRecorder :=
  match op with
  | WriteHeader code =>
      if wroteHeader s then Ok s
      else w ← writer_step (ResponseWriter s) (WriteHeader code); Ok (mkRecorder w code true)
  | Write b => w ← writer_step (ResponseWriter s) (Write b); Ok (mkRecorder w (status s) true)
  end.

Definition new_recorder (w : Sent) : statusRecorder := mkRecorder w 200 false.

Definition route_label (pattern : string) : string := if str_empty pattern then "other" else pattern.

(** [Middleware] around a handler that makes the calls [ops] and then returns or panics:
    what was sent, and the observation, which a panic unwinds past. *)
Definition Middleware (method pattern : string) (elapsed : Z) (ops : list WriterOp)
    (panic : option error) (w : Sent) (m : collectors.Metrics) : result Sent * collectors.Metrics :=
  match run_ops recorder_step ops (new_recorder w), panic with
  | Err e, _ => (Err e, m)
  | Ok _, Some e => (Err e, m)
  | Ok sr, None =>
      (Ok (ResponseWriter sr),
       collectors.observe
         (collectors.mkLabels method (route_label pattern) (format_int (status sr))) elapsed m)
  end.

(** The calls with which a handler of the API writes its response: [WriteJSON] and
    [WriteProblem] send the header, then the encoded body. *)
Definition response_ops (encode : Body -> string) (rs : Response) : list WriterOp :=
  [WriteHeader (rs_Status rs); Write (encode (rs_Body rs))].

(** [Middleware] around a handler of the router. [pattern] is the route pattern chi leaves in
    the request's routing context. *)
Definition around (encode : Body -> string) (pattern : Request -> string) (elapsed : Z)
    (next : Handler) : Handler := fun cx r c n =>
  let sv := next cx r c n in
  match sv_Result sv with
  | Err _ => sv
  | Ok rs =>
      let '(sent, m) := Middleware (rq_Method r) (pattern r) elapsed (response_ops encode rs) None
                          nothing_sent (sv_Metrics sv) in
      mkServed (sent ← sent; Ok rs) (sv_Subject sv) (sv_Next sv) m
  end.

(** cmd/api gives the router this middleware. *)
Definition with_metrics (encode : Body -> string) (pattern : Request -> string) (elapsed : Z)
    (d : Deps) : Deps :=
  mkDeps (dp_Signer d) (dp_Version d) (dp_CORSAllowedOrigins d) (dp_RateLimitPerMinute d)
    (Some (around encode pattern elapsed))
    (dp_Readyz d) (dp_MomentumsStream d) (dp_TransactionsStream d).
End apimetrics.

(** middleware/logger.go's recorder keeps the last status asked for and counts the bytes. *)
Module logrecorder.

Record statusRecorder : Type := mkRecorder {
  ResponseWriter : Sent;
  status : Z;
  bytes : Z
}.

Definition recorder_step (s : statusRecorder) (op : WriterOp) : result statusRecorder :=
  match op with
  | WriteHeader code =>
      w ← writer_step (ResponseWriter s) (WriteHeader code); Ok (mkRecorder w code (bytes s))
  | Write b =>
      let st := if status s =? 0 then 200 else status s in
      w ← writer_step (ResponseWriter s) (Write b);
      Ok (mkRecorder w st
            (bytes s + (Z.of_nat (String.length (sn_Body w))
                        - Z.of_nat (String.length (sn_Body (ResponseWriter s))))))
  end.

Definition new_recorder (w : Sent) : statusRecorder := mkRecorder w 0 0.
End logrecorder.

(** ** internal/mcp/metrics *)

Module mcpmetrics.

Definition methodCallTool : string := "tools/call".

(** An [mcp.Request]: nil, a tool call (the pointer, its [Params], the name), or another. *)
Inductive Request : Type :=
| RequestNil
| ServerRequestCallTool (r : option (option string))
| OtherRequest.

(** An [mcp.Result]: nil, a tool's result with its [IsError] flag (a nil pointer has none),
    or another. *)
Inductive Result : Type :=
| ResultNil
| CallToolResult (r : option bool)
| OtherResult.

Definition MethodHandler : Type := string -> Request -> Result * option error.

(** The calls on [callTotal] and [callDur], by tool and status. *)
Record Metrics : Type := mkMetrics {
  callTotal : list (string * string);
  callDur : list ((string * string) * Z)
}.

Definition New : Metrics := mkMetrics [] [].

Definition toolName (req : Request) : string :=
  match req with
  | ServerRequestCallTool (Some (Some name)) => if str_empty name then "unknown" else name
  | _ => "unknown"
  end.

Definition classify (res : Result) (err : option error) : string :=
  match err with
  | Some _ => "error"
  | None => match res with CallToolResult (Some true) => "error" | _ => "ok" end
  end.

Definition Middleware (next : MethodHandler) (elapsed : Z) (method : string) (req : Request)
    (m : Metrics) : (Result * option error) * Metrics :=
  if negb (String.eqb method methodCallTool) then (next method req, m)
  else
    let tool := toolName req in
    let '(res, err) := next method req in
    let l := (tool, classify res err) in
    ((res, err), mkMetrics (callTotal m ++ [l])%list (callDur m ++ [(l, elapsed)])%list).

(** A session: the messages with the time each took. *)
Fixpoint serve (next : MethodHandler) (msgs : list (string * Request * Z)) (m : Metrics) : Metrics :=
  match msgs with
  | [] => m
  | (method, req, elapsed) :: msgs' =>
      serve next msgs' (snd (Middleware next elapsed method req m))
  end.
End mcpmetrics.

(** ** Running a handler's calls *)

Lemma run_ops_nil {S} (step : S -> WriterOp -> result S) s : run_ops step [] s = Ok s.
Proof. done. Qed.

Lemma run_ops_err {S} (step : S -> WriterOp -> result S) ops e :
  fold_left (fun acc op => s ← acc; step s op) ops (Err e) = Err e.
Proof. by induction ops. Qed.

Lemma run_ops_cons {S} (step : S -> WriterOp -> result S) op ops s :
  run_ops step (op :: ops) s = (s' ← step s op; run_ops step ops s').
Proof.
  unfold run_ops. cbn [fold_left]. change (s0 ← Ok s; step s0 op) with (step s op).
  destruct (step s op) as [s'|e]; [done|]. apply run_ops_err.
Qed.

(** A recorder that follows the connection step by step follows it to the end. *)
Lemma run_ops_simulation {S} (step : S -> WriterOp -> result S) (view : Sent -> S) (ok : WriterOp -> Prop) :
  (forall w op, ok op -> step (view w) op = (w' ← writer_step w op; Ok (view w'))) ->
  forall ops w, Forall ok ops ->
    run_ops step ops (view w) = (w' ← run_ops writer_step ops w; Ok (view w')).
Proof.
  intros Hstep ops. induction ops as [|op ops IH]; intros w Hok; [done|].
  inversion Hok as [|? ? H1 H2]; subst. rewrite !run_ops_cons, Hstep by done.
  destruct (writer_step w op) as [w'|e]; [|done]. by apply IH.
Qed.

(** ** The metrics recorder *)

(** A call that does not send an informational status. *)
Definition final_call (op : WriterOp) : Prop :=
  match op with WriteHeader code => is_informational code = false | Write _ => True end.

(** What the recorder is when the connection is at [w]. *)
Definition recorder_of (w : Sent) : apimetrics.statusRecorder :=
  apimetrics.mkRecorder w (final_status w) (bool_decide (is_Some (sn_Status w))).

Lemma send_header_sent code w w' :
  send_header code w = Ok w' -> is_informational code = false ->
  w' = mkSent (sn_Informational w) (Some (default code (sn_Status w))) (sn_Body w).
Proof.
  unfold send_header. destruct w as [i [st|] b]; cbn [sn_Status sn_Informational sn_Body default];
    [by intros [= <-]|].
  destruct (_ || _); [done|]. intros H Hi. rewrite Hi in H. by injection H as <-.
Qed.

Lemma send_header_final i b code :
  100 <= code <= 999 -> is_informational code = false ->
  send_header code (mkSent i None b) = Ok (mkSent i (Some code) b).
Proof.
  intros Hc Hi. unfold send_header. cbn [sn_Status sn_Informational sn_Body]. rewrite Hi.
  by replace ((code <? 100) || (999 <? code)) with false by lia.
Qed.

Lemma recorder_step_of w op :
  final_call op ->
  apimetrics.recorder_step (recorder_of w) op = (w' ← writer_step w op; Ok (recorder_of w')).
Proof.
  destruct op as [code|b]; intros Hop; cbn [apimetrics.recorder_step recorder_of
    apimetrics.wroteHeader apimetrics.ResponseWriter apimetrics.status writer_step].
  - destruct w as [i [st|] bd]; cbn [sn_Status]; [done|]. rewrite bool_decide_eq_false_2 by by intros [].
    destruct (send_header code _) as [w'|e] eqn:E; [|done].
    apply send_header_sent in E; [|exact Hop]. by subst.
  - destruct w as [i [st|] bd].
    + cbn. by destruct (body_allowed st).
    + reflexivity.
Qed.

(** The middleware does not change what the client gets, and the status it counts is the one
    the client got, for a handler that sends no informational response: the first header
    wins, later ones are dropped, and a body without a header is a 200. *)
Theorem recorder_transparent ops :
  Forall final_call ops ->
  run_ops apimetrics.recorder_step ops (apimetrics.new_recorder nothing_sent)
  = (w ← run_ops writer_step ops nothing_sent; Ok (recorder_of w)).
Proof.
  intros Hops. change (apimetrics.new_recorder nothing_sent) with (recorder_of nothing_sent).
  exact (run_ops_simulation _ recorder_of final_call recorder_step_of ops nothing_sent Hops).
Qed.

(** A 404 with a body, and a superfluous header after it. *)
Lemma recorder_transparent_witness :
  let ops := [WriteHeader 404; Write "not found"; WriteHeader 500] in
  Forall final_call ops
  /\ run_ops apimetrics.recorder_step ops (apimetrics.new_recorder nothing_sent)
     = Ok (apimetrics.mkRecorder (mkSent [] (Some 404) "not found") 404 true).
Proof.
  intros ops. assert (Forall final_call ops) as H by (repeat constructor).
  split; [exact H|]. rewrite (recorder_transparent ops H). reflexivity.
Defined.

(** An informational response is taken for the final one: the status that follows is
    dropped, so that the client gets a 200 where the handler answered an error, and the
    observation carries the informational status. *)
Theorem informational_swallows code b :
  500 <= code <= 599 ->
  run_ops writer_step [WriteHeader 103; WriteHeader code; Write b] nothing_sent
  = Ok (mkSent [103] (Some code) b)
  /\ run_ops apimetrics.recorder_step [WriteHeader 103; WriteHeader code; Write b]
       (apimetrics.new_recorder nothing_sent)
     = Ok (apimetrics.mkRecorder (mkSent [103] (Some 200) b) 103 true).
Proof.
  intros Hc. split; [|done]. rewrite run_ops_cons. cbn [writer_step].
  change (send_header 103 nothing_sent) with (Ok (mkSent [103] None "")).
  cbn [mbind result_bind]. rewrite run_ops_cons. cbn [writer_step].
  rewrite send_header_final by (try lia; unfold is_informational; lia).
  cbn [mbind result_bind]. rewrite run_ops_cons.
  cbn [writer_step send_header sn_Status mbind result_bind default].
  assert (body_allowed code = true) as Hb by (unfold body_allowed; lia). cbn. by rewrite Hb.
Qed.

Lemma informational_swallows_witness :
  500 <= 503 <= 599
  /\ run_ops apimetrics.recorder_step [WriteHeader 103; WriteHeader 503; Write "x"]
       (apimetrics.new_recorder nothing_sent)
     = Ok (apimetrics.mkRecorder (mkSent [103] (Some 200) "x") 103 true).
Proof. split; [lia|]. refine (proj2 (informational_swallows 503 "x" _)). lia. Defined.

(** ** The logger's recorder *)

(** The number of bytes logged is the length of the body sent, and the client's response is
    the handler's, whatever the handler does. *)
Theorem log_bytes ops sr :
  run_ops logrecorder.recorder_step ops (logrecorder.new_recorder nothing_sent) = Ok sr ->
  run_ops writer_step ops nothing_sent = Ok (logrecorder.ResponseWriter sr)
  /\ logrecorder.bytes sr = Z.of_nat (String.length (sn_Body (logrecorder.ResponseWriter sr))).
Proof.
  assert (forall ops s, logrecorder.bytes s
            = Z.of_nat (String.length (sn_Body (logrecorder.ResponseWriter s))) ->
          run_ops logrecorder.recorder_step ops s = Ok sr ->
          run_ops writer_step ops (logrecorder.ResponseWriter s) = Ok (logrecorder.ResponseWriter sr)
          /\ logrecorder.bytes sr
             = Z.of_nat (String.length (sn_Body (logrecorder.ResponseWriter sr)))) as H.
  { intros l. induction l as [|op l IH]; intros s Hs; [by intros [= <-]|].
    rewrite !run_ops_cons. destruct op as [code|b]; cbn [logrecorder.recorder_step];
      (destruct (writer_step _ _) as [w|e] eqn:E; [|done]); cbn [mbind result_bind]; apply IH;
      cbn [logrecorder.bytes logrecorder.ResponseWriter].
    - rewrite Hs. cbn [writer_step] in E. unfold send_header in E.
      destruct (sn_Status _); [by injection E as <-|].
      destruct (_ || _); [done|]. by destruct (is_informational _); injection E as <-.
    - rewrite Hs. lia. }
  by apply (H ops (logrecorder.new_recorder nothing_sent)).
Qed.

Lemma log_bytes_witness :
  let ops := [WriteHeader 200; Write "ab"; Write "c"] in
  logrecorder.bytes (logrecorder.mkRecorder (mkSent [] (Some 200) "abc") 200 3) = 3
  /\ run_ops writer_step ops nothing_sent = Ok (mkSent [] (Some 200) "abc").
Proof.
  intros ops. split; [reflexivity|].
  apply (log_bytes ops (logrecorder.mkRecorder (mkSent [] (Some 200) "abc") 200 3)).
  reflexivity.
Defined.

(** The logged status is the last one asked for, not the one sent: a header after the first
    is dropped by the connection and still logged, and a handler that writes nothing, whose
    client gets a 200, is logged with status 0. *)
Theorem log_status_last a b :
  200 <= a <= 999 ->
  run_ops logrecorder.recorder_step [WriteHeader a; WriteHeader b]
    (logrecorder.new_recorder nothing_sent)
  = Ok (logrecorder.mkRecorder (mkSent [] (Some a) "") b 0)
  /\ run_ops logrecorder.recorder_step [] (logrecorder.new_recorder nothing_sent)
     = Ok (logrecorder.mkRecorder nothing_sent 0 0)
  /\ final_status nothing_sent = 200.
Proof.
  intros Ha. split; [|done]. rewrite run_ops_cons. cbn [logrecorder.recorder_step writer_step].
  change (logrecorder.ResponseWriter _) with (mkSent [] None "") at 1.
  rewrite send_header_final by (try lia; unfold is_informational; lia). reflexivity.
Qed.

Lemma log_status_last_witness :
  200 <= 200 <= 999
  /\ run_ops logrecorder.recorder_step [WriteHeader 200; WriteHeader 500]
       (logrecorder.new_recorder nothing_sent)
     = Ok (logrecorder.mkRecorder (mkSent [] (Some 200) "") 500 0).
Proof. split; [lia|]. refine (proj1 (log_status_last 200 500 _)). lia. Defined.

(** ** The API's requests *)

Section api.
Context {JL : JwtLib} {HR : HttpRate} {CO : Cors} {CH : Chi}.

(** A status a handler ends its header with. *)
Definition final_code (code : Z) : Prop := 100 <= code <= 999 /\ is_informational code = false.

Lemma response_sent encode rs :
  final_code (rs_Status rs) ->
  exists w, run_ops apimetrics.recorder_step (apimetrics.response_ops encode rs)
              (apimetrics.new_recorder nothing_sent)
            = Ok (apimetrics.mkRecorder w (rs_Status rs) true)
            /\ final_status w = rs_Status rs.
Proof.
  intros [Hc Hi]. rewrite recorder_transparent by (repeat constructor; exact Hi).
  unfold apimetrics.response_ops. rewrite run_ops_cons. cbn [writer_step nothing_sent].
  unfold nothing_sent. rewrite send_header_final by done. cbn [mbind result_bind].
  rewrite run_ops_cons. cbn [writer_step send_header sn_Status mbind result_bind default].
  destruct (body_allowed (rs_Status rs)) eqn:Hb; cbn; rewrite ?Hb; eexists; by split.
Qed.

Lemma around_ok encode pattern elapsed next cx r c n rs :
  sv_Result (next cx r c n) = Ok rs -> final_code (rs_Status rs) ->
  apimetrics.around encode pattern elapsed next cx r c n
  = let sv := next cx r c n in
    mkServed (Ok rs) (sv_Subject sv) (sv_Next sv)
      (collectors.observe
         (collectors.mkLabels (rq_Method r) (apimetrics.route_label (pattern r))
            (format_int (rs_Status rs))) elapsed (sv_Metrics sv)).
Proof.
  intros Hrs Hc. unfold apimetrics.around, apimetrics.Middleware. rewrite Hrs.
  destruct (response_sent encode rs Hc) as (w & -> & _). reflexivity.
Qed.

Lemma around_panic encode pattern elapsed next cx r c n e :
  sv_Result (next cx r c n) = Err e ->
  apimetrics.around encode pattern elapsed next cx r c n = next cx r c n.
Proof. intros He. unfold apimetrics.around. by rewrite He. Qed.

(** The middleware leaves the statements and the answers alone. *)
Lemma metrics_transparent encode pattern elapsed :
  transparent (apimetrics.around encode pattern elapsed).
Proof.
  intros h cx r c n. split.
  - unfold apimetrics.around. destruct (sv_Result _); [|done]. by destruct (apimetrics.Middleware _ _ _ _ _ _ _).
  - intros rs Hrs Hc. rewrite (around_ok _ _ _ h cx r c n rs Hrs); [done|].
    split; [lia|]. unfold is_informational. lia.
Qed.

(** C23. What cmd/api counts is what its clients get. In the stack the router builds, for a
    request that CORS lets through, a handler that answers a final status has the response
    and the statements it would have without metrics, and is observed exactly once, with the
    request's method, the route's pattern ("other" when chi left none) and that status, the
    one the log line carries; a request whose handler panics, which the recovery outside the
    metrics answers with a 500 and logs as one, is not observed at all; and neither is a
    request that CORS answers itself, as metrics are the last middleware and not, as a comment
    has it, applied before any other. *)
Theorem requests_observed encode pattern elapsed d now fresh r c n :
  let plain := routes (top_routes d now) (mkCtx (request_id fresh r) None) r c n in
  let '(sv, line) := Router.New (apimetrics.with_metrics encode pattern elapsed d) now fresh r c n in
  (lets_through (CORS (dp_CORSAllowedOrigins d)) r ->
   (forall rs, sv_Result plain = Ok rs -> final_code (rs_Status rs) ->
      sv_Result sv = Ok rs /\ sv_Subject sv = sv_Subject plain /\ sv_Next sv = sv_Next plain
      /\ option_map lg_Status line = Some (rs_Status rs)
      /\ sv_Metrics sv
         = collectors.observe
             (collectors.mkLabels (rq_Method r) (apimetrics.route_label (pattern r))
                (format_int (rs_Status rs))) elapsed (sv_Metrics plain))
   /\ (forall e, sv_Result plain = Err e ->
        sv_Metrics sv = sv_Metrics plain
        /\ (exists p, sv_Result sv = Ok p /\ rs_Status p = 500)
        /\ option_map lg_Status line = Some 500))
  /\ (forall rs, (forall h cx, CORS (dp_CORSAllowedOrigins d) h cx r c n = answer rs cx r c n) ->
       sv_Metrics sv = collectors.New /\ option_map lg_Status line = Some (rs_Status rs)).
Proof.
  intros plain. unfold Router.New, RequestID, Logger, Recover.
  cbn [apimetrics.with_metrics dp_CORSAllowedOrigins dp_Metrics].
  change (cx_Claims background) with (@None Claims).
  set (cx := mkCtx (request_id fresh r) None) in *.
  change (top_routes (apimetrics.with_metrics encode pattern elapsed d) now)
    with (top_routes d now).
  split; [|intros rs Ha; by rewrite !Ha].
  intros Hl. rewrite Hl. split.
  - intros rs Hrs Hc. rewrite (around_ok encode pattern elapsed _ cx r c n rs Hrs Hc). done.
  - intros e He. rewrite (around_panic encode pattern elapsed _ cx r c n e He).
    fold plain. rewrite He. cbn. by split; [|split; [eexists|]].
Qed.
End api.

(** A request for [/healthz] where an origin is allowed. *)
Lemma requests_observed_witness :
  let r := get_with "/healthz" "" in
  let labels := collectors.mkLabels "GET" "/healthz" "200" in
  sv_Metrics (Router.New (apimetrics.with_metrics (fun _ => "{}") rq_Path 1000 guarded_deps) 0
                "id" r api_conn 0%nat).1
  = collectors.mkMetrics [labels] [(labels, 1000)].
Proof.
  intros r labels.
  pose proof (requests_observed (fun _ => "{}") rq_Path 1000 guarded_deps 0 "id" r api_conn 0%nat) as H.
  cbv zeta in H. destruct (Router.New _ _ _ _ _ _) as [sv line].
  destruct H as [H _]. destruct H as [H _]; [by intros h cx c n|].
  specialize (H (WriteJSON 200 (PObject [("status", MStr "ok")])) eq_refl).
  destruct H as (_ & _ & _ & _ & H); [split; [cbn; lia|reflexivity]|]. cbn [fst]. rewrite H.
  reflexivity.
Defined.

(** A request whose handler panics: the client gets a 500, the log has it, the metrics not. *)
Example panic_not_observed :
  let d := mkDeps (mkSigner toy_secret) "" [] 60 None (fun _ _ n => (Err (EMsg "boom"), n))
             (answer ready) (answer ready) in
  let '(sv, line) :=
    Router.New (apimetrics.with_metrics (fun _ => "{}") rq_Path 1000 d) 0 "id"
      (get_with "/readyz" "") api_conn 0%nat in
  option_map rs_Status (match sv_Result sv with Ok rs => Some rs | Err _ => None end) = Some 500
  /\ option_map lg_Status line = Some 500 /\ sv_Metrics sv = collectors.New.
Proof. vm_compute. repeat split. Qed.

(** ** The tool calls of the MCP server *)

(** The labels of a message, if it is a tool call. *)
Definition call_label (next : mcpmetrics.MethodHandler) (msg : string * mcpmetrics.Request * Z)
  : option (string * string) :=
  let '(method, req, _) := msg in
  if String.eqb method "tools/call"
  then Some (mcpmetrics.toolName req, mcpmetrics.classify (next method req).1 (next method req).2)
  else None.

Lemma middleware_step next method req elapsed m :
  (mcpmetrics.Middleware next elapsed method req m).1 = next method req
  /\ mcpmetrics.callTotal (mcpmetrics.Middleware next elapsed method req m).2
     = (mcpmetrics.callTotal m ++ option_list (call_label next (method, req, elapsed)))%list
  /\ mcpmetrics.callDur (mcpmetrics.Middleware next elapsed method req m).2
     = (mcpmetrics.callDur m
        ++ map (fun l => (l, elapsed)) (option_list (call_label next (method, req, elapsed))))%list.
Proof.
  unfold mcpmetrics.Middleware, mcpmetrics.methodCallTool, call_label.
  destruct (String.eqb method "tools/call"); cbn [negb].
  - by destruct (next method req) as [res err].
  - cbn. by rewrite !app_nil_r.
Qed.

(** Each tool call of the MCP server is counted once, under the name it asked for and
    how it ended: the middleware hands every message to the next handler unchanged and
    answers what that answers; over any sequence of messages the counter's increments are,
    in order, one for each [tools/call], labelled with the tool's name ("unknown" when the
    call has none) and "error" when the handler failed or the tool reported an error, "ok"
    otherwise, the histogram has the same labels, and other methods leave both untouched. *)
Theorem tool_calls_observed next msgs m :
  (forall method req elapsed, (mcpmetrics.Middleware next elapsed method req m).1 = next method req)
  /\ mcpmetrics.callTotal (mcpmetrics.serve next msgs m)
     = (mcpmetrics.callTotal m ++ omap (call_label next) msgs)%list
  /\ map fst (mcpmetrics.callDur (mcpmetrics.serve next msgs m))
     = (map fst (mcpmetrics.callDur m) ++ omap (call_label next) msgs)%list
  /\ Forall (fun l => fst l <> "" /\ (snd l = "ok" \/ snd l = "error")) (omap (call_label next) msgs).
Proof.
  split; [intros method req elapsed; exact (proj1 (middleware_step next method req elapsed m))|].
  assert (forall l m,
    mcpmetrics.callTotal (mcpmetrics.serve next l m)
      = (mcpmetrics.callTotal m ++ omap (call_label next) l)%list
    /\ map fst (mcpmetrics.callDur (mcpmetrics.serve next l m))
      = (map fst (mcpmetrics.callDur m) ++ omap (call_label next) l)%list) as H.
  { intros l. induction l as [|[[method req] elapsed] l IH]; intros m0; [by rewrite !app_nil_r|].
    destruct (middleware_step next method req elapsed m0) as (_ & H2 & H3).
    cbn [mcpmetrics.serve]. destruct (IH (mcpmetrics.Middleware next elapsed method req m0).2)
      as [-> ->]. rewrite H2, H3, map_app, map_map, map_id. cbn [omap list_omap].
    destruct (call_label next (method, req, elapsed)); cbn [option_list app];
      by rewrite <- !app_assoc. }
  split; [apply H|]. split; [apply H|].
  apply Forall_forall. intros [tool status] Hin%list_elem_of_omap.
  destruct Hin as ([[method req] elapsed] & _ & Hl). unfold call_label in Hl.
  destruct (String.eqb method "tools/call"); [|done]. injection Hl as <- <-. cbn [fst snd]. split.
  - unfold mcpmetrics.toolName. destruct req as [|[[name|]|]|]; try done.
    by destruct name.
  - unfold mcpmetrics.classify. destruct (next method req) as [[| [[]|] |] [e|]]; cbn; tauto.
Qed.

(** The tool label is the client's: a call of a name no tool is registered under makes a
    series of its own, whatever the handler answers it, so the labels are not bounded by the
    tools. *)
Theorem unregistered_tool_is_a_label next name elapsed m :
  name <> "" -> name ∉ mcp.registered_tools ->
  exists status,
    mcpmetrics.callTotal
      (mcpmetrics.Middleware next elapsed "tools/call"
         (mcpmetrics.ServerRequestCallTool (Some (Some name))) m).2
    = (mcpmetrics.callTotal m ++ [(name, status)])%list.
Proof.
  intros Hn _. destruct (middleware_step next "tools/call"
    (mcpmetrics.ServerRequestCallTool (Some (Some name))) elapsed m) as (_ & -> & _).
  cbn [call_label String.eqb option_list]. unfold mcpmetrics.toolName.
  destruct name; [done|]. by eexists.
Qed.

Lemma unregistered_tool_is_a_label_witness :
  exists status,
    mcpmetrics.callTotal
      (mcpmetrics.Middleware (fun _ _ => (mcpmetrics.ResultNil, Some (EMsg "unknown tool"))) 5
         "tools/call" (mcpmetrics.ServerRequestCallTool (Some (Some "drop_table")))
         mcpmetrics.New).2
    = [("drop_table", status)].
Proof.
  apply (unregistered_tool_is_a_label (fun _ _ => (mcpmetrics.ResultNil, Some (EMsg "unknown tool")))
           "drop_table" 5 mcpmetrics.New); [discriminate|].
  intros H. repeat (inversion H as [|? ? ? H0]; subst; clear H; rename H0 into H).
Defined.
