(* ===== verification/Processes.v ===== *)
(** cmd/api and cmd/mcp: what the two read services are built from, their listeners, and how
    they end. A step before the listeners start that fails ends the process; afterwards the
    process waits for a signal or for a listener to fail. *)

From S2P Require Import Prelude.
From S2P Require Import Queries.
From S2P Require Import Text.
From S2P Require Import Httpx.
From S2P Require Import Auth.
From S2P Require Import Middleware.
From S2P Require Import Router.
From S2P Require Import Mcp.
From S2P Require Import Retry.
From S2P Require Import Config.
From S2P Require Import Durations.
From S2P Require Import Wire.
From S2P Require Import Servers.
From S2P Require Import Metrics.
From S2P Require Import Startup.
From S2P Require Import ApiSamples.
#[local] Open Scope string_scope.
#[local] Open Scope Z_scope.

(** An [http.Server]: its address and its timeouts in nanoseconds, zero when none is set. *)
Record HttpServer : Type := mkHttpServer {
  hs_Addr : string;
  hs_ReadHeaderTimeout : Z;
  hs_ReadTimeout : Z;
  hs_WriteTimeout : Z;
  hs_IdleTimeout : Z
}.

Definition port_addr (port : Z) : string := ":" +:+ format_int port.

Definition metrics_server (port : Z) : HttpServer :=
  mkHttpServer (port_addr port) (5 * Second) 0 0 0.

(** ** cmd/api *)

Record ApiProcess : Type := mkApiProcess {
  ap_deps : Deps;
  ap_server : HttpServer;
  ap_metrics : HttpServer;
  ap_hubs : list string
}.

Section api.
Context {PG : database.PgxPool}.

(** [version] is the linked one; the readiness probe and the streams are over the pool and
    the hubs the process builds. [pass] is its metrics middleware. *)
Definition api_startup (en : Environment) (version : string) (pass : Handler -> Handler)
    (ready : Request -> Q Response) (momentums transactions : Handler) : result ApiProcess :=
  cfg ← wrap_err "failed to load configuration" (en_config en);
  let api := config.cf_API cfg in
  if str_empty (config.ac_JWTSecret api)
  then Err (EMsg "error: api.jwt_secret (env API_JWT_SECRET) is required")
  else
    _ ← wrap_err "failed to initialize logger"
          (config.BuildLogger (en_level en) (config.cf_Logging cfg));
    signer ← wrap_err "failed to initialize JWT signer" (NewSigner (config.ac_JWTSecret api));
    _ ← wrap_err "failed to connect to database" (fst (database.NewPool (config.cf_Database cfg)));
    Ok (mkApiProcess
          (mkDeps signer version (config.APIConfig_CORSAllowedOriginsList api)
             (config.ac_RateLimitPerMinute api) (Some pass) ready momentums transactions)
          (mkHttpServer (port_addr (config.ac_Port api)) (10 * Second) (30 * Second) (30 * Second)
             (2 * Minute))
          (metrics_server (config.ac_MetricsPort api))
          [momentum_channel; block_channel]).
End api.

(** ** cmd/mcp *)

Record McpProcess : Type := mkMcpProcess {
  mp_setup : McpServer.Setup;
  mp_server : HttpServer;
  mp_metrics : HttpServer
}.

Section mcp.
Context {PG : database.PgxPool}.

(** No write timeout: a streaming response can hold the connection open. *)
Definition mcp_startup (en : Environment) (version : string) (ready : McpServer.MHandler)
  : result McpProcess :=
  cfg ← wrap_err "failed to load configuration" (en_config en);
  let mc := config.cf_MCP cfg in
  let key := config.EffectiveJWTSecret mc (config.ac_JWTSecret (config.cf_API cfg)) in
  if str_empty key
  then Err (EMsg "error: mcp.jwt_secret (env MCP_JWT_SECRET) or api.jwt_secret (env API_JWT_SECRET) is required")
  else
    _ ← wrap_err "failed to initialize logger"
          (config.BuildLogger (en_level en) (config.cf_Logging cfg));
    _ ← wrap_err "failed to connect to database" (fst (database.NewPool (config.cf_Database cfg)));
    signer ← wrap_err "failed to initialize JWT signer" (NewSigner key);
    Ok (mkMcpProcess
          (McpServer.mkSetup signer version (config.mc_RateLimitPerMinute mc)
             (config.MCPConfig_CORSAllowedOriginsList mc) ready)
          (mkHttpServer (port_addr (config.mc_Port mc)) (10 * Second) (30 * Second) 0 (2 * Minute))
          (metrics_server (config.mc_MetricsPort mc))).
End mcp.

(** ** Until the end *)

(** What happens while a service runs: the signal, a listener that stops ([None] is
    [http.ErrServerClosed]), a hub whose [Run] returns. *)
Inductive ProcessEvent : Type :=
| SignalReceived
| ServerStopped (name : string) (err : option error)
| HubExited (channel : string) (err : option error).

(** The [select] over the context and [errCh]: a listener's failure is fatal, a hub's is only
    logged. No answer: the process is still running. *)
Fixpoint wait_for_end (events : list ProcessEvent) : option Exit :=
  match events with
  | [] => None
  | SignalReceived :: _ => Some StoppedGracefully
  | ServerStopped name (Some e) :: _ => Some (Failed (EWrap name e))
  | ServerStopped _ None :: events' | HubExited _ _ :: events' => wait_for_end events'
  end.

Definition api_main {PG : database.PgxPool} (en : Environment) (version : string)
    (pass : Handler -> Handler) (ready : Request -> Q Response) (momentums transactions : Handler)
    (events : list ProcessEvent) : option Exit :=
  match api_startup en version pass ready momentums transactions with
  | Err e => Some (Failed e)
  | Ok _ => wait_for_end events
  end.

Definition mcp_main {PG : database.PgxPool} (en : Environment) (version : string)
    (ready : McpServer.MHandler) (events : list ProcessEvent) : option Exit :=
  match mcp_startup en version ready with
  | Err e => Some (Failed e)
  | Ok _ => wait_for_end events
  end.

(** ** What holds of them *)

(** A hub that ends, for whatever reason, does not end the service, and a listener that was
    closed does not either: only a signal or a failed listener does. *)
Theorem hub_failures_survived (events : list ProcessEvent) :
  wait_for_end events
  = wait_for_end (List.filter (fun ev => match ev with HubExited _ _ => false | _ => true end) events)
  /\ (wait_for_end events = None <->
      Forall (fun ev => match ev with
                        | SignalReceived | ServerStopped _ (Some _) => False
                        | _ => True
                        end) events).
Proof.
  induction events as [|ev events [IH1 IH2]]; [by split; [|split]|].
  destruct ev as [|name [e|]|channel err]; cbn [wait_for_end List.filter].
  - split; [done|]. split; [done|]. by intros [[] _]%Forall_cons_1.
  - split; [done|]. split; [done|]. by intros [[] _]%Forall_cons_1.
  - split; [exact IH1|]. rewrite IH2. split; [by constructor|]. by intros [_ H]%Forall_cons_1.
  - split; [exact IH1|]. rewrite IH2. split; [by constructor|]. by intros [_ H]%Forall_cons_1.
Qed.

Section tokens.
Context {PG : database.PgxPool} {JL : JwtLib}.

Lemma NewSigner_Ok s sg : NewSigner s = Ok sg -> s <> "" /\ sg = mkSigner s.
Proof.
  unfold NewSigner. destruct (str_empty s) eqn:E; [done|]. intros [= <-]. split; [|done].
  by intros ->.
Qed.

Lemma api_startup_signer en version pass ready ms ts ap :
  api_startup en version pass ready ms ts = Ok ap ->
  exists cfg, en_config en = Ok cfg
    /\ config.ac_JWTSecret (config.cf_API cfg) <> ""
    /\ dp_Signer (ap_deps ap) = mkSigner (config.ac_JWTSecret (config.cf_API cfg)).
Proof.
  unfold api_startup. intros (cfg & Hc%wrap_err_Ok & H)%bind_Ok. exists cfg. split; [done|].
  destruct (str_empty _); [done|]. apply bind_Ok in H as (? & _ & H).
  apply bind_Ok in H as (sg & [Hne ->]%wrap_err_Ok%NewSigner_Ok & H).
  by apply bind_Ok in H as (? & _ & [= <-]).
Qed.

Lemma mcp_startup_signer en version ready mp :
  mcp_startup en version ready = Ok mp ->
  exists cfg, en_config en = Ok cfg
    /\ config.EffectiveJWTSecret (config.cf_MCP cfg) (config.ac_JWTSecret (config.cf_API cfg)) <> ""
    /\ McpServer.su_Signer (mp_setup mp)
       = mkSigner (config.EffectiveJWTSecret (config.cf_MCP cfg)
                     (config.ac_JWTSecret (config.cf_API cfg))).
Proof.
  unfold mcp_startup. intros (cfg & Hc%wrap_err_Ok & H)%bind_Ok. exists cfg. split; [done|].
  destruct (str_empty _); [done|]. apply bind_Ok in H as (? & _ & H).
  apply bind_Ok in H as (? & _ & H).
  by apply bind_Ok in H as (sg & [Hne ->]%wrap_err_Ok%NewSigner_Ok & [= <-]).
Qed.

(** A well-formed header is read the same by the two services. *)
Lemma bearer_same r tok :
  bearerToken r = (tok, true, true) -> mcp.bearerToken r = (tok, true, true).
Proof.
  unfold bearerToken, mcp.bearerToken. destruct (str_empty (header_get r "Authorization")); [done|].
  by destruct (_ || _).
Qed.

(** C13. One token for both services. When the API and the MCP server start from the same
    configuration and the MCP server has no secret of its own, a token the API's key issued,
    sent as a bearer token, is accepted by both until it expires and carries the same claims
    to the handlers of both; with a secret of its own the MCP server accepts only what is
    signed by that one; and neither starts with an empty key. *)
Theorem services_share_tokens {signed} {JW : JwtLaws signed} en en' v v' pass ready ready' ms ts
    cfg ap mp :
  en_config en = Ok cfg -> en_config en' = Ok cfg ->
  api_startup en v pass ready ms ts = Ok ap -> mcp_startup en' v' ready' = Ok mp ->
  let mcp_secret := config.mc_JWTSecret (config.cf_MCP cfg) in
  (mcp_secret = "" ->
   forall now sub ttl scopes tok r now',
     Issue (dp_Signer (ap_deps ap)) now sub ttl scopes = Ok tok ->
     bearerToken r = (tok, true, true) -> NewNumericDate now' < NewNumericDate (now + ttl) ->
     exists claims, cl_Subject claims = sub
       /\ (forall next cx c n,
             sv_Result (AuthMiddleware now' (dp_Signer (ap_deps ap)) next cx r c n)
             = sv_Result (next (Middleware.mkCtx (cx_RequestID cx) (Some claims)) r c n))
       /\ mcp.authenticate (McpServer.su_Signer (mp_setup mp)) now' r = inl claims)
  /\ (mcp_secret <> "" ->
      forall r now' claims,
        mcp.authenticate (McpServer.su_Signer (mp_setup mp)) now' r = inl claims ->
        exists tok, signed tok "HS256" claims mcp_secret)
  /\ secret (dp_Signer (ap_deps ap)) <> "" /\ secret (McpServer.su_Signer (mp_setup mp)) <> "".
Proof.
  intros Hc Hc' Ha Hm mcp_secret.
  apply api_startup_signer in Ha as (cfg1 & Hc1 & Hne & Hs). rewrite Hc in Hc1. injection Hc1 as <-.
  apply mcp_startup_signer in Hm as (cfg2 & Hc2 & Hne' & Hs'). rewrite Hc' in Hc2. injection Hc2 as <-.
  rewrite Hs, Hs'. unfold config.EffectiveJWTSecret in *. fold mcp_secret in Hne' |- *. split.
  - intros Hmt. rewrite Hmt. cbn [str_empty negb].
    intros now sub ttl scopes tok r now' Hi Hb Hn.
    pose proof (Issue_verifies _ _ _ _ _ _ now' Hi Hn) as Hv.
    exists (mkClaims sub (NewNumericDate now) (NewNumericDate (now + ttl)) (join " " scopes)).
    split; [|split].
    + reflexivity.
    + intros next cx c n. unfold AuthMiddleware. rewrite Hb. cbn [negb]. by rewrite Hv.
    + unfold mcp.authenticate. rewrite (bearer_same _ _ Hb). cbn [negb]. by rewrite Hv.
  - split; [|by split].
    intros Hmt r now' claims Hau. unfold mcp.authenticate in Hau.
    destruct (mcp.bearerToken r) as [[tok found] ok].
    destruct found; [|done]. destruct ok; [|done]. cbn [negb] in Hau.
    destruct (Verify _ now' tok) as [c|e] eqn:Hv; [|done]. injection Hau as ->.
    exists tok. destruct (str_empty mcp_secret) eqn:E; [by destruct mcp_secret|].
    cbn [negb] in Hv. exact (Verify_signed _ _ _ _ Hv).
Qed.
End tokens.

(** ** Instances *)

#[local] Instance serving_pgx : database.PgxPool := {|
  database.ParseConfig s := Ok (database.mkPoolConfig s 4 0 0 0 0);
  database.NewWithConfig _ := None;
  database.Ping _ := None
|}.

(** A configuration with the API's secret alone. *)
Definition serving_config : config.Config :=
  config.mkConfig (config.mkNodeConfig "wss://a")
    (config.mkDatabaseConfig "db" 5432 "nom" "u" "p" 10) (config.mkLoggingConfig "info" "json")
    (config.mkCronConfig "" "") (config.mkAPIConfig 8080 9090 toy_secret "" 60)
    (config.mkMCPConfig 8081 9091 "" "" 60)
    (config.mkIndexerConfig [] (config.mkWatchdogConfig false 0 0 0 0 2 2)
       (config.mkHealthConfig false 0)) (config.mkWebhooksConfig false [] 5 3) false.

Definition serving_environment : Environment :=
  mkEnvironment (Ok serving_config) Some (fun _ => "") (fun _ _ => Ok tt)
    (NodePool.mkNet (fun _ _ => Err (EMsg "down")) (fun _ _ _ _ => Err (EMsg "down"))) live_ctx 0.

(** A token of the API's, presented to the MCP server. *)
Lemma services_share_tokens_witness :
  mcp.authenticate (mkSigner toy_secret) 2000000000000 (get_with "/mcp" toy_token) = inl toy_claims.
Proof.
  destruct (api_startup serving_environment "1.0" (fun h => h) (fun _ => mret Router.ready)
              (answer Router.ready) (answer Router.ready)) as [ap|e] eqn:Ea; [|discriminate Ea].
  destruct (mcp_startup serving_environment "1.0" McpServer.Healthz) as [mp|e] eqn:Em;
    [|discriminate Em].
  destruct (services_share_tokens (signed := toy_signed) serving_environment serving_environment
              "1.0" "1.0" (fun h => h) (fun _ => mret Router.ready) McpServer.Healthz
              (answer Router.ready) (answer Router.ready) serving_config ap mp
              eq_refl eq_refl Ea Em) as [H _].
  injection Ea as <-. injection Em as <-.
  destruct (H eq_refl 1000000000000 "alice" 3600000000000 ["read"; "stream"] toy_token
              (get_with "/mcp" toy_token) 2000000000000 eq_refl eq_refl eq_refl)
    as (claims & Hs & _ & Ha).
  cbn [mp_setup McpServer.su_Signer] in Ha. vm_compute in Ha. injection Ha as <-.
  vm_compute. reflexivity.
Defined.
