(* ===== verification/HubDelivery.v ===== *)
(** What a subscriber of the stream hub is delivered: for any interleaving, the events
    dispatched between its registration and its removal, in order, but for those its full
    channel lost, which are counted. *)

From S2P Require Import Prelude.
From S2P Require Import StreamHub.
From S2P Require Import StreamTheorems.
From S2P Require Import Models.
From S2P Require Import Chain.
From S2P Require Import Database.
From S2P Require Import Embedded.
From S2P Require Import Processor.
From S2P Require Import LedgerProps.
From S2P Require Import Samples.
From S2P Require Import Dto.
From S2P Require Import Wire.
From S2P Require Import WireTheorems.
#[local] Open Scope string_scope.
#[local] Open Scope Z_scope.

Section delivery.
Context {T : Type}.
Variable cfg : HubConfig.
Implicit Types (h : Hub T) (id : nat).

(** ** The history of a run *)

(** The event an action fans out. *)
Definition step_event (a : HubAction T) h : list T :=
  match a, h_run h with ARunNotify (Some ev), RunListening => [ev] | _, _ => [] end.

(** What it offers to one subscriber, and what that subscriber's handler receives. *)
Definition step_offered id (a : HubAction T) h : list T :=
  if decide (id ∈ h_subs h) then step_event a h else [].

Definition channel_of id h : list T :=
  match h_objects h !! id with Some s => sub_ch s | None => [] end.

Definition lagged_of id h : Z :=
  match h_objects h !! id with Some s => sub_lagged s | None => 0 end.

Definition step_taken id (a : HubAction T) h : list T :=
  match a with
  | ARecv id' => if decide (id' = id) then take 1 (channel_of id h) else []
  | _ => []
  end.

(** Along a run, one of these histories. *)
Fixpoint along {B} (step : HubAction T -> Hub T -> list B) (acts : list (HubAction T)) h : list B :=
  match acts with
  | [] => []
  | a :: acts' =>
      (step a h ++ match hub_step cfg a h with Some h' => along step acts' h' | None => [] end)%list
  end.

Definition dispatched := along step_event.
Definition offered id := along (step_offered id).
Definition taken id := along (step_taken id).

(** ** One action *)

(** The channel and the counter of a subscriber, before and after: [off] was offered, [tk]
    taken, [kept] what of [off] went into the channel. *)
Definition delivers id h h' (off tk : list T) : Prop :=
  exists kept, kept `sublist_of` off
    /\ (channel_of id h ++ kept = tk ++ channel_of id h')%list
    /\ lagged_of id h' = lagged_of id h + Z.of_nat (length off - length kept)%nat.

Lemma delivers_same id h h' :
  channel_of id h' = channel_of id h -> lagged_of id h' = lagged_of id h ->
  delivers id h h' [] [].
Proof. intros Hc Hl. exists []. rewrite Hc, Hl, app_nil_r. cbn. split; [constructor|]. split; [done|lia]. Qed.

Lemma delivers_trans id h h1 h2 o1 o2 t1 t2 :
  delivers id h h1 o1 t1 -> delivers id h1 h2 o2 t2 ->
  delivers id h h2 (o1 ++ o2) (t1 ++ t2).
Proof.
  intros (k1 & S1 & C1 & L1) (k2 & S2 & C2 & L2). exists (k1 ++ k2)%list. split_and!.
  - by apply sublist_app.
  - by rewrite app_assoc, C1, <- !app_assoc, C2.
  - rewrite L2, L1, !length_app. apply sublist_length in S1, S2. lia.
Qed.

(** A loop that keeps every subscriber's channel and counter. *)
Lemma for_subs_keeps f h h' id :
  for_subs f h = Some h' ->
  (forall s s', f s = Some s' -> sub_ch s' = sub_ch s /\ sub_lagged s' = sub_lagged s) ->
  channel_of id h' = channel_of id h /\ lagged_of id h' = lagged_of id h.
Proof.
  unfold for_subs. case_decide as Hall; [|done]. intros [= <-] Hf.
  unfold channel_of, lagged_of. simpl. rewrite map_lookup_imap.
  destruct (h_objects h !! id) as [s|] eqn:E; cbn; [|done].
  case_decide; [|done]. specialize (Hall id s E). cbn in Hall. rewrite decide_True in Hall by done.
  destruct (f s) as [s'|] eqn:Ef; [|done]. exact (Hf s s' Ef).
Qed.

Lemma closeAllSubs_keeps h h' id :
  closeAllSubs h = Some h' ->
  channel_of id h' = channel_of id h /\ lagged_of id h' = lagged_of id h.
Proof.
  unfold closeAllSubs. intros (h1 & H1 & [= <-])%bind_Some.
  apply (for_subs_keeps close_one h h1 id H1). intros s s'.
  unfold close_one, close_channel. destruct (sub_closed s); [by intros [= <-]|].
  simpl. destruct (sub_ch_closed s); [done|]. by intros [= <-].
Qed.

Lemma set_object_keeps h id' s s' id :
  h_objects h !! id' = Some s -> sub_ch s' = sub_ch s -> sub_lagged s' = sub_lagged s ->
  channel_of id (set_object id' s' h) = channel_of id h
  /\ lagged_of id (set_object id' s' h) = lagged_of id h.
Proof.
  intros Hs Hc Hl. unfold channel_of, lagged_of. simpl. destruct (decide (id = id')) as [->|].
  - by rewrite lookup_insert_eq, Hs.
  - by rewrite lookup_insert_ne.
Qed.

Lemma dispatch_delivers ev h h' id :
  hub_ok cfg h -> dispatch cfg ev h = Some h' ->
  delivers id h h' (if decide (id ∈ h_subs h) then [ev] else []) [].
Proof.
  intros Hok. unfold dispatch, for_subs. case_decide as Hall; [|done]. intros [= <-].
  unfold delivers, channel_of, lagged_of. simpl. rewrite map_lookup_imap.
  case_decide as Hin.
  - destruct (ok_subs cfg h Hok id Hin) as [s Hs]. rewrite Hs. simpl.
    specialize (Hall id s Hs). simpl in Hall. rewrite decide_True in Hall by done.
    destruct (send_one cfg ev s) as [s'|] eqn:E; [|done]. unfold send_one in E.
    destruct (_ <? _); (destruct (sub_ch_closed s); [done|]); injection E as <-; simpl.
    + exists [ev]. simpl. split; [done|]. split; [done|lia].
    + exists []. rewrite app_nil_r. simpl. split; [repeat constructor|]. split; [done|lia].
  - exists []. simpl. rewrite app_nil_r. split; [done|].
    destruct (h_objects h !! id) as [s|]; simpl; split; (done || lia).
Qed.

Lemma step_delivers a h h' id :
  hub_ok cfg h -> hub_step cfg a h = Some h' ->
  delivers id h h' (step_offered id a h) (step_taken id a h).
Proof.
  intros Hok. unfold step_offered, step_event, step_taken.
  assert (forall (P : Prop) `{!Decision P}, (if decide P then [] else []) = [] :> list T) as Hnil
    by (intros P ?; by case_decide).
  destruct a as [subject|id'|id'|id'|id'| | |ev|canceled returning| | | |]; cbn [hub_step];
    rewrite ?Hnil.
  - intros [= <-]. unfold Subscribe. destruct (negb _); [by apply delivers_same|].
    destruct (_ && _); [by apply delivers_same|]. apply delivers_same;
      unfold channel_of, lagged_of; simpl; (destruct (decide (id = h_next h)) as [->|];
      [rewrite lookup_insert_eq|by rewrite lookup_insert_ne]);
      (destruct (h_objects h !! h_next h) eqn:E; [|done]);
      assert (h_next h < h_next h)%nat by (apply (ok_fresh cfg h Hok); by eexists); lia.
  - destruct (h_objects h !! id') as [s|] eqn:Es; intros [= <-]; cycle 1.
    { unfold channel_of at 1. destruct (decide (id' = id)) as [->|]; [rewrite Es|];
        by apply delivers_same. }
    destruct (decide (id' = id)) as [->|Hne].
    + exists []. unfold channel_of, lagged_of. simpl. rewrite lookup_insert_eq, Es. simpl.
      split; [done|]. rewrite app_nil_r. split; [|lia]. by destruct (sub_ch s).
    + apply delivers_same; unfold channel_of, lagged_of; simpl; by rewrite lookup_insert_ne.
  - destruct (h_objects h !! id') as [s|] eqn:Es; [|intros [= <-]; by apply delivers_same].
    destruct (sub_closed s); intros [= <-]; [by apply delivers_same|].
    apply delivers_same; by eapply set_object_keeps.
  - destruct (h_objects h !! id') as [s|] eqn:Es; [|intros [= <-]; by apply delivers_same].
    destruct (sub_phase s); intros [= <-]; try by apply delivers_same.
    assert (h_objects (unsubscribe id' s h) !! id' = Some s) as Eu
      by (unfold unsubscribe; by case_decide).
    apply delivers_same; (etrans; [by eapply (set_object_keeps (unsubscribe id' s h))|]);
      unfold unsubscribe; by case_decide.
  - destruct (h_objects h !! id') as [s|] eqn:Es; [|intros [= <-]; by apply delivers_same].
    destruct (sub_phase s); try (intros [= <-]; by apply delivers_same).
    intros (s' & Hs & [= <-])%bind_Some. unfold close_channel in Hs.
    destruct (sub_ch_closed s); [done|]. injection Hs as <-.
    apply delivers_same; by eapply set_object_keeps.
  - destruct (h_run h); intros [= <-]; by apply delivers_same.
  - destruct (h_run h); intros [= <-]; by apply delivers_same.
  - destruct (h_run h), ev; rewrite ?Hnil; try (intros [= <-]; by apply delivers_same).
    by apply dispatch_delivers.
  - destruct (h_run h); intros [= <-]; try by apply delivers_same.
    destruct canceled; by apply delivers_same.
  - destruct (h_run h) as [| |returning| | |]; try (intros [= <-]; by apply delivers_same).
    intros (h1 & [Hc Hl]%(closeAllSubs_keeps _ _ id) & [= <-])%bind_Some.
    destruct returning; by apply delivers_same.
  - destruct (h_run h); intros [= <-]; by apply delivers_same.
  - destruct (h_run h); intros [= <-]; by apply delivers_same.
  - destruct (h_run h); try (intros [= <-]; by apply delivers_same).
    intros (h1 & [Hc Hl]%(closeAllSubs_keeps _ _ id) & [= <-])%bind_Some. by apply delivers_same.
Qed.

(** Who is registered after an action: a subscriber that was, or the one it created. *)
Lemma step_subs a h h' id :
  hub_step cfg a h = Some h' -> id ∈ h_subs h' ->
  id ∈ h_subs h \/ (id = h_next h /\ h_next h' = S id).
Proof.
  assert (forall f d d', for_subs f d = Some d' -> h_subs d' = h_subs (T := T) d) as Hf.
  { intros f d d'. unfold for_subs. case_decide; [|done]. by intros [= <-]. }
  destruct a as [subject|id'|id'|id'|id'| | |ev|canceled returning| | | |]; cbn [hub_step].
  - intros [= <-]. unfold Subscribe. destruct (negb _); [by left|]. destruct (_ && _); [by left|].
    simpl. intros [->%elem_of_singleton|Hin]%elem_of_union; [by right|by left].
  - destruct (h_objects h !! id'); intros [= <-]; by left.
  - destruct (h_objects h !! id') as [s|]; [|intros [= <-]; by left].
    destruct (sub_closed s); intros [= <-]; by left.
  - destruct (h_objects h !! id') as [s|]; [|intros [= <-]; by left].
    destruct (sub_phase s); intros [= <-]; try by left.
    unfold unsubscribe. case_decide; simpl; [|by left]. intros [? _]%elem_of_difference. by left.
  - destruct (h_objects h !! id') as [s|]; [|intros [= <-]; by left].
    destruct (sub_phase s); try (intros [= <-]; by left).
    intros (s' & _ & [= <-])%bind_Some. by left.
  - destruct (h_run h); intros [= <-]; by left.
  - destruct (h_run h); intros [= <-]; by left.
  - destruct (h_run h), ev; try (intros [= <-]; by left). unfold dispatch.
    intros ->%Hf. by left.
  - destruct (h_run h); intros [= <-]; try by left. destruct canceled; by left.
  - destruct (h_run h) as [| |returning| | |]; try (intros [= <-]; by left).
    intros (h1 & H1 & [= <-])%bind_Some. unfold closeAllSubs in H1.
    apply bind_Some in H1 as (h2 & _ & [= <-]). destruct returning; simpl; set_solver.
  - destruct (h_run h); intros [= <-]; by left.
  - destruct (h_run h); intros [= <-]; by left.
  - destruct (h_run h); try (intros [= <-]; by left).
    intros (h1 & H1 & [= <-])%bind_Some. unfold closeAllSubs in H1.
    apply bind_Some in H1 as (h2 & _ & [= <-]). simpl; set_solver.
Qed.

(** Ids are not given twice. *)
Lemma step_next a h h' : hub_step cfg a h = Some h' -> (h_next h <= h_next h')%nat.
Proof.
  assert (forall f d d', for_subs f d = Some d' -> h_next d' = h_next (T := T) d) as Hf.
  { intros f d d'. unfold for_subs. case_decide; [|done]. by intros [= <-]. }
  assert (forall d d', closeAllSubs d = Some d' -> h_next d' = h_next (T := T) d) as Hc.
  { intros d d'. unfold closeAllSubs. intros (d1 & H1%Hf & [= <-])%bind_Some. exact H1. }
  destruct a; cbn [hub_step]; intros Hs;
    repeat match type of Hs with
    | context [match ?x with _ => _ end] => destruct x eqn:?
    end; try (injection Hs as <-); try (simpl; lia);
    try (apply bind_Some in Hs as (h1 & H1 & [= <-])); simpl.
  all: try (apply Hc in H1; rewrite H1; lia).
  all: try lia.
  - unfold Subscribe. destruct (negb _); [simpl; lia|]. destruct (_ && _); simpl; lia.
  - unfold unsubscribe. case_decide; simpl; lia.
  - unfold dispatch in Hs. apply Hf in Hs. lia.
Qed.

(** ** Runs *)

Lemma run_delivers acts h h' id :
  hub_ok cfg h -> hub_run cfg acts h = Some h' ->
  delivers id h h' (offered id acts h) (taken id acts h).
Proof.
  revert h. induction acts as [|a acts IH]; intros h Hok Hr; cbn [hub_run] in Hr.
  { injection Hr as <-. by apply delivers_same. }
  apply bind_Some in Hr as (h1 & Hs & Hr). unfold offered, taken in *. cbn [along]. rewrite Hs.
  eapply delivers_trans; [by apply (step_delivers a)|].
  apply IH; [|exact Hr]. destruct (hub_step_ok cfg a h Hok) as (h2 & Hs2 & Hok2).
  rewrite Hs in Hs2. by injection Hs2 as ->.
Qed.

Lemma run_subs acts h h' id :
  hub_run cfg acts h = Some h' -> id ∈ h_subs h' -> id ∈ h_subs h \/ (h_next h <= id)%nat.
Proof.
  revert h. induction acts as [|a acts IH]; intros h Hr Hin; cbn [hub_run] in Hr.
  { injection Hr as ->. by left. }
  apply bind_Some in Hr as (h1 & Hs & Hr). pose proof (step_next a h h1 Hs).
  destruct (IH h1 Hr Hin) as [Hin1|?]; [|right; lia].
  destruct (step_subs a h h1 id Hs Hin1) as [?|[-> _]]; [by left|by right].
Qed.

(** A subscriber that was created and is not registered is offered nothing any more. *)
Lemma removed_offered acts h id :
  id ∉ h_subs h -> (id < h_next h)%nat -> offered id acts h = [].
Proof.
  revert h. induction acts as [|a acts IH]; intros h Hni Hlt; [done|].
  unfold offered in *. cbn [along]. 
  change (step_offered id a h) with (if decide (id ∈ h_subs h) then step_event a h else []).
  rewrite decide_False by done.
  destruct (hub_step cfg a h) as [h1|] eqn:Hs; [|done]. cbn [app].
  pose proof (step_next a h h1 Hs). apply IH; [|lia].
  intros Hin. destruct (step_subs a h h1 id Hs Hin) as [?|[-> ?]]; [done|lia].
Qed.

(** What a subscriber is offered is one stretch of what the hub dispatched: from its
    registration on, and up to the end while it stays registered. *)
Lemma offered_stretch acts h h' id :
  hub_ok cfg h -> hub_run cfg acts h = Some h' ->
  exists before after, dispatched acts h = (before ++ offered id acts h ++ after)%list
    /\ (id ∈ h_subs h -> before = []) /\ (id ∈ h_subs h' -> after = []).
Proof.
  revert h. induction acts as [|a acts IH]; intros h Hok Hr; cbn [hub_run] in Hr.
  { exists [], []. done. }
  apply bind_Some in Hr as (h1 & Hs & Hr).
  assert (hub_ok cfg h1) as Hok1.
  { destruct (hub_step_ok cfg a h Hok) as (h2 & Hs2 & Hok2). rewrite Hs in Hs2.
    by injection Hs2 as ->. }
  destruct (IH h1 Hok1 Hr) as (b & f & Hd & Hb & Hf).
  unfold dispatched, offered in *. cbn [along]. rewrite Hs, Hd.
  change (step_offered id a h) with (if decide (id ∈ h_subs h) then step_event a h else []).
  case_decide as Hin.
  - destruct (decide (id ∈ h_subs h1)) as [Hin1|Hni1].
    + rewrite (Hb Hin1). exists [], f. rewrite <- !app_assoc. done.
    + assert (id < h_next h1)%nat as Hlt.
      { apply Nat.lt_le_trans with (h_next h); [|by apply step_next in Hs].
        apply (ok_fresh cfg h Hok). by apply (ok_subs cfg h Hok). }
      pose proof (removed_offered acts h1 id Hni1 Hlt) as Ho. unfold offered in Ho.
      rewrite Ho. exists [], (b ++ f)%list. rewrite app_nil_r, !app_nil_l. split; [done|].
      split; [done|]. intros Hin'. rewrite (Hf Hin').
      destruct (run_subs acts h1 h' id Hr Hin') as [?|?]; [done|lia].
  - exists (step_event a h ++ b)%list, f. rewrite <- !app_assoc. split; [done|]. by split.
Qed.
(** A history of two runs in a row. *)
Lemma along_app {B} (step : HubAction T -> Hub T -> list B) acts acts' h h' :
  hub_run cfg acts h = Some h' ->
  along step (acts ++ acts') h = (along step acts h ++ along step acts' h')%list.
Proof.
  revert h. induction acts as [|a acts IH]; intros h; cbn [hub_run]; [by intros [= ->]|].
  intros (h1 & Hs & Hr)%bind_Some. cbn [along app]. rewrite Hs. by rewrite (IH h1 Hr), app_assoc.
Qed.

(** ** The registration *)

Lemma for_subs_objects f h h' id :
  for_subs f h = Some h' -> is_Some (h_objects h' !! id) -> is_Some (h_objects h !! id).
Proof.
  unfold for_subs. case_decide; [|done]. intros [= <-]. simpl. rewrite map_lookup_imap.
  destruct (h_objects h !! id); [by eexists|]. by intros [? ?].
Qed.

Lemma closeAllSubs_objects h h' id :
  closeAllSubs h = Some h' -> is_Some (h_objects h' !! id) -> is_Some (h_objects h !! id).
Proof.
  unfold closeAllSubs. intros (h1 & H1 & [= <-])%bind_Some. exact (for_subs_objects close_one h h1 id H1).
Qed.

Lemma set_object_objects id' s s' h id :
  h_objects h !! id' = Some s -> is_Some (h_objects (set_object id' s' h) !! id) ->
  is_Some (h_objects h !! id).
Proof.
  intros Hs. simpl. destruct (decide (id = id')) as [->|]; [by eexists|].
  by rewrite lookup_insert_ne.
Qed.

(** Only a [Subscribe] makes a subscriber, and registers it. *)
Lemma step_objects a h h' id :
  hub_step cfg a h = Some h' -> is_Some (h_objects h' !! id) ->
  is_Some (h_objects h !! id)
  \/ exists subject, a = ASubscribe subject /\ Subscribe cfg subject h = (Subscribed id, h').
Proof.
  destruct a as [subject|id'|id'|id'|id'| | |ev|canceled returning| | | |]; cbn [hub_step].
  - intros [= <-] Hi. destruct (Subscribe cfg subject h) as [res h1] eqn:Es. cbn [snd] in *.
    pose proof Es as Esub. unfold Subscribe in Es. destruct (negb _); [left; injection Es as <- <-; exact Hi|].
    destruct (_ && _); [left; injection Es as <- <-; exact Hi|]. injection Es as <- <-.
    destruct (decide (id = h_next h)) as [->|]; [right; exists subject; split; [done|exact Esub]|left].
    simpl in Hi. by rewrite lookup_insert_ne in Hi.
  - destruct (h_objects h !! id') eqn:E; intros [= <-]; [|by left].
    intros Hi. left. exact (set_object_objects _ _ _ _ _ E Hi).
  - destruct (h_objects h !! id') as [s|] eqn:E; [|intros [= <-]; by left].
    destruct (sub_closed s); intros [= <-]; [by left|].
    intros Hi. left. exact (set_object_objects _ _ _ _ _ E Hi).
  - destruct (h_objects h !! id') as [s|] eqn:E; [|intros [= <-]; by left].
    destruct (sub_phase s); intros [= <-]; try by left. intros Hi. left.
    assert (h_objects (unsubscribe id' s h) = h_objects h) as Eu by (unfold unsubscribe; by case_decide).
    rewrite <- Eu. eapply (set_object_objects id' s); [by rewrite Eu|exact Hi].
  - destruct (h_objects h !! id') as [s|] eqn:E; [|intros [= <-]; by left].
    destruct (sub_phase s); try (intros [= <-]; by left).
    intros (s' & _ & [= <-])%bind_Some Hi. left. exact (set_object_objects _ _ _ _ _ E Hi).
  - destruct (h_run h); intros [= <-]; by left.
  - destruct (h_run h); intros [= <-]; by left.
  - destruct (h_run h), ev; try (intros [= <-]; by left). unfold dispatch.
    intros H Hi. left. exact (for_subs_objects _ _ _ _ H Hi).
  - destruct (h_run h); intros [= <-]; try by left. destruct canceled; by left.
  - destruct (h_run h) as [| |returning| | |]; try (intros [= <-]; by left).
    intros (h1 & H1 & [= <-])%bind_Some Hi. left. apply (closeAllSubs_objects _ _ _ H1).
    by destruct returning.
  - destruct (h_run h); intros [= <-]; by left.
  - destruct (h_run h); intros [= <-]; by left.
  - destruct (h_run h); try (intros [= <-]; by left).
    intros (h1 & H1 & [= <-])%bind_Some Hi. left. exact (closeAllSubs_objects _ _ _ H1 Hi).
Qed.

Lemma step_ok_next a h h' : hub_ok cfg h -> hub_step cfg a h = Some h' -> hub_ok cfg h'.
Proof.
  intros Hok Hs. destruct (hub_step_ok cfg a h Hok) as (h2 & Hs2 & Hok2). rewrite Hs in Hs2.
  by injection Hs2 as ->.
Qed.

(** A subscriber that there is was made by one [Subscribe] of the run, and is offered nothing
    before it. *)
Lemma registration acts h h' id :
  hub_ok cfg h -> hub_run cfg acts h = Some h' ->
  h_objects h !! id = None -> is_Some (h_objects h' !! id) ->
  exists acts0 subject acts1 h0 h1,
    acts = (acts0 ++ ASubscribe subject :: acts1)%list
    /\ hub_run cfg acts0 h = Some h0 /\ Subscribe cfg subject h0 = (Subscribed id, h1)
    /\ hub_run cfg acts1 h1 = Some h' /\ hub_ok cfg h1 /\ offered id acts h = offered id acts1 h1.
Proof.
  revert h. induction acts as [|a acts IH]; intros h Hok Hr Hn Hi; cbn [hub_run] in Hr.
  { injection Hr as <-. rewrite Hn in Hi. by destruct Hi. }
  apply bind_Some in Hr as (h2 & Hs & Hr). pose proof (step_ok_next a h h2 Hok Hs) as Hok2.
  assert (offered id (a :: acts) h = offered id acts h2) as Ho.
  { unfold offered. cbn [along]. rewrite Hs. unfold step_offered at 1.
    rewrite decide_False; [done|]. intros Hin%(ok_subs cfg h Hok). rewrite Hn in Hin. by destruct Hin. }
  destruct (h_objects h2 !! id) as [s|] eqn:E2.
  - destruct (step_objects a h h2 id Hs ltac:(by eexists)) as [[? Hx]|(subject & -> & Esub)];
      [by rewrite Hn in Hx|].
    exists [], subject, acts, h, h2. by split_and!.
  - destruct (IH h2 Hok2 Hr E2 Hi) as (acts0 & subject & acts1 & h0 & h1 & -> & R0 & S1 & R1 & K1 & O1).
    exists (a :: acts0), subject, acts1, h0, h1. split_and!; try done; [|by rewrite Ho].
    cbn [hub_run]. by rewrite Hs.
Qed.

(** Registered before every action of a list. *)
Fixpoint registered_along id (acts : list (HubAction T)) h : Prop :=
  match acts with
  | [] => True
  | a :: acts' =>
      id ∈ h_subs h
      /\ match hub_step cfg a h with Some h' => registered_along id acts' h' | None => True end
  end.

(** A registered subscriber stays so for a while, in which it is offered all that is
    dispatched; and nothing is offered to it after that. *)
Lemma registered_while acts h h' id :
  hub_ok cfg h -> hub_run cfg acts h = Some h' -> (id < h_next h)%nat ->
  exists acts1 acts2 h2,
    acts = (acts1 ++ acts2)%list /\ hub_run cfg acts1 h = Some h2
    /\ registered_along id acts1 h /\ (acts2 = [] \/ id ∉ h_subs h2)
    /\ (id ∈ h_subs h' -> acts2 = [])
    /\ offered id acts h = dispatched acts1 h.
Proof.
  revert h. induction acts as [|a acts IH]; intros h Hok Hr Hlt; cbn [hub_run] in Hr.
  { injection Hr as <-. exists [], [], h. by split_and!; try left. }
  destruct (decide (id ∈ h_subs h)) as [Hin|Hni].
  - apply bind_Some in Hr as (h1 & Hs & Hr). pose proof (step_next a h h1 Hs) as Hle.
    destruct (IH h1 (step_ok_next a h h1 Hok Hs) Hr) as (acts1 & acts2 & h2 & -> & R1 & G & D & E & O);
      [lia|].
    exists (a :: acts1), acts2, h2. split_and!; try done; cbn [hub_run registered_along].
    + by rewrite Hs.
    + rewrite Hs. by split.
    + unfold offered, dispatched in *. cbn [along app]. rewrite Hs, O. unfold step_offered.
      by rewrite decide_True.
  - exists [], (a :: acts), h. split_and!; try done; [by right| |by apply removed_offered].
    intros Hin'. destruct (run_subs (a :: acts) h h' id) as [?|?]; [exact Hr|done|done|lia].
Qed.
End delivery.

Lemma sublist_full {A} (l k : list A) :
  l `sublist_of` k -> (length k <= length l)%nat -> l = k.
Proof.
  induction 1 as [|x l k H IH|x l k H IH]; cbn; intros Hl; [done| |].
  - f_equal. apply IH. lia.
  - apply sublist_length in H. lia.
Qed.

(** What one subscriber object has received of what it was offered. *)
Lemma received_offered {T} cfg (acts : list (HubAction T)) h id s :
  hub_run cfg acts New = Some h -> h_objects h !! id = Some s ->
  let received := (taken cfg id acts New ++ sub_ch s)%list in
  received `sublist_of` offered cfg id acts New
  /\ sub_lagged s = Z.of_nat (length (offered cfg id acts New)) - Z.of_nat (length received)
  /\ (sub_lagged s = 0 -> received = offered cfg id acts New).
Proof.
  intros Hr Hs received. pose proof (New_ok (T := T) cfg) as Hok.
  destruct (run_delivers cfg acts New h id Hok Hr) as (kept & Hk & Hc & Hl).
  assert (received = kept) as Hrk.
  { unfold received. unfold channel_of in Hc. rewrite Hs in Hc. symmetry. exact Hc. }
  unfold lagged_of in Hl. rewrite Hs in Hl. change (sub_lagged s = 0 + Z.of_nat
    (length (offered cfg id acts New) - length kept)%nat) in Hl.
  pose proof (sublist_length _ _ Hk) as Hlen. rewrite Hrk.
  split; [done|]. split; [lia|]. intros H0. apply sublist_full; [done|lia].
Qed.

(** C22. Delivery by the stream hub, under any interleaving of subscriptions, receives, closes,
    notifications, connection losses and shutdown. A subscriber was registered by one
    [Subscribe] of the run, and stayed so over the actions after it up to its removal, or to
    the end of the run; what its handler has received, followed by what its channel still
    holds, is in order a part of exactly the events the hub dispatched in that stretch of the
    run; the events that are missing are as many as its lagged counter says, so a subscriber
    that never lagged has every one of them, each once. *)
Theorem hub_delivers {T} clientBuf perSub (acts : list (HubAction T)) h id s :
  let cfg := NewConfig clientBuf perSub in
  hub_run cfg acts New = Some h -> h_objects h !! id = Some s ->
  let received := (taken cfg id acts New ++ sub_ch s)%list in
  exists acts0 subject acts1 acts2 h0 h1 h2,
    acts = (acts0 ++ ASubscribe subject :: acts1 ++ acts2)%list
    /\ hub_run cfg acts0 New = Some h0 /\ Subscribe cfg subject h0 = (Subscribed id, h1)
    /\ hub_run cfg acts1 h1 = Some h2
    /\ registered_along cfg id acts1 h1 /\ (acts2 = [] \/ id ∉ h_subs h2)
    /\ (id ∈ h_subs h -> acts2 = [])
    /\ let stretch := dispatched cfg acts1 h1 in
       received `sublist_of` stretch
       /\ sub_lagged s = Z.of_nat (length stretch) - Z.of_nat (length received)
       /\ (sub_lagged s = 0 -> received = stretch).
Proof.
  intros cfg Hr Hs received.
  destruct (registration cfg acts New h id (New_ok cfg) Hr) as (acts0 & subject & rest & h0 & h1 & -> & R0 & S1 & R1 & K1 & O1);
    [done|by eexists|].
  assert (id < h_next h1)%nat as Hlt.
  { unfold Subscribe in S1. destruct (negb _); [done|]. destruct (_ && _); [done|].
    injection S1 as <- <-. simpl. lia. }
  destruct (registered_while cfg rest h1 h id K1 R1 Hlt) as (acts1 & acts2 & h2 & -> & R2 & G & D & E & O2).
  exists acts0, subject, acts1, acts2, h0, h1, h2. do 7 (split; [done|]). cbv zeta.
  rewrite <- O2, <- O1. exact (received_offered cfg _ h id s Hr Hs).
Qed.

(** A subscriber that takes one of two events. *)
Lemma hub_delivers_witness :
  let acts := [ARunListen; ARunNotify (Some 0); ASubscribe "alice"; ARunNotify (Some 1);
               ARunNotify None; ARecv 0; ARunNotify (Some 2)] in
  let cfg := NewConfig 0 0 in
  match hub_run cfg acts New with
  | Some h => match h_objects h !! 0%nat with
              | Some s => (taken cfg 0 acts New ++ sub_ch s)%list = [1; 2]
                          /\ sub_lagged s = 0 /\ exists acts1 h1 subject h0,
                               Subscribe cfg subject h0 = (Subscribed 0%nat, h1)
                               /\ dispatched cfg acts1 h1 = [1; 2]
              | None => False
              end
  | None => False
  end.
Proof.
  cbv zeta. destruct (hub_run _ _ New) as [h|] eqn:Eh; [|vm_compute in Eh; discriminate Eh].
  destruct (h_objects h !! 0%nat) as [s|] eqn:Es.
  - destruct (hub_delivers 0 0 _ h 0%nat s Eh Es)
      as (acts0 & subject & acts1 & acts2 & h0 & h1 & h2 & _ & _ & Hsub & _ & _ & _ & _ & _ & _ & Hall).
    vm_compute in Eh. injection Eh as <-. vm_compute in Es. injection Es as <-.
    specialize (Hall eq_refl). split; [vm_compute; reflexivity|]. split; [reflexivity|].
    exists acts1, h1, subject, h0. split; [exact Hsub|]. rewrite <- Hall. vm_compute. reflexivity.
  - vm_compute in Eh. injection Eh as <-. vm_compute in Es. discriminate Es.
Defined.

(** ** From commits to a subscriber *)

(** What the LISTEN loop makes of the notifications it takes while it listens. *)
Definition notified {T} (cfg : HubConfig) : list (HubAction T) -> Hub T -> list (option T) :=
  along cfg (fun a h => match a, h_run h with ARunNotify ev, RunListening => [ev] | _, _ => [] end).

Lemma dispatched_notified {T} cfg acts (h : Hub T) :
  dispatched cfg acts h = omap id (notified cfg acts h).
Proof.
  revert h. induction acts as [|a acts IH]; intros h; [done|].
  unfold dispatched, notified in *. cbn [along]. rewrite omap_app. f_equal.
  - unfold step_event. destruct a; try done. by destruct (h_run h), ev.
  - destruct (hub_step cfg a h); [apply IH|done].
Qed.

(** A subscriber that is registered and never lagged has a suffix of what was dispatched. *)
Lemma delivered_suffix {T} cfg (acts : list (HubAction T)) h id s :
  hub_run cfg acts New = Some h -> h_objects h !! id = Some s -> id ∈ h_subs h ->
  sub_lagged s = 0 ->
  exists before, dispatched cfg acts New = (before ++ taken cfg id acts New ++ sub_ch s)%list.
Proof.
  intros Hr Hs Hin Hl. destruct (received_offered cfg acts h id s Hr Hs) as (_ & _ & H0).
  destruct (offered_stretch cfg acts New h id (New_ok cfg) Hr) as (b & f & Hd & _ & Hf).
  exists b. by rewrite Hd, (Hf Hin), app_nil_r, (H0 Hl).
Qed.

(** A commit that succeeded, of a momentum the chain can hold. *)
Definition committed (c : Env * ChainMomentum) : Prop :=
  out_err (processMomentum c.1 c.2) = None /\ 0 <= cm_Height c.2 <= max_uint64
  /\ Z.of_nat (length (cm_Content c.2)) <= max_int64.

(** The wire form of the row a commit stored. *)
Definition committed_frame (c : Env * ChainMomentum) : dto.Momentum :=
  coerced_momentum (dto.FromMomentum (momentum_row c.1 c.2)).

Lemma commits_heard commits :
  Forall committed commits ->
  heard momentum_channel decode_momentum
    (concat (map (fun c => out_notes (processMomentum c.1 c.2)) commits))
  = map (fun c => Some (committed_frame c)) commits.
Proof.
  induction 1 as [|c commits (H1 & H2 & H3) _ IH]; [done|]. cbn [map concat].
  by rewrite heard_app, IH, momentum_heard.
Qed.

Lemma committed_frame_height c : dto.mom_Height (committed_frame c) = cm_Height c.2.
Proof. unfold committed_frame. cbn. apply momentum_row_height. Qed.

Lemma omap_frames commits :
  omap id (map (fun c => Some (committed_frame c)) commits) = map committed_frame commits.
Proof. induction commits as [|c commits IH]; [done|]. cbn. by rewrite IH. Qed.

(** From the indexer's commits to a stream. When the momentum hub takes the
    notifications of a sequence of commits, a subscriber that is still registered and never
    lagged has received, or holds in its channel, the wire forms of the rows of the last
    commits, all of those from its registration on, in order and with the momentums'
    heights; nothing it gets was not committed. *)
Theorem commits_reach_subscriber clientBuf perSub acts h id s commits :
  let cfg := NewConfig clientBuf perSub in
  Forall committed commits ->
  hub_run cfg acts New = Some h -> h_objects h !! id = Some s ->
  notified cfg acts New
  = heard momentum_channel decode_momentum
      (concat (map (fun c => out_notes (processMomentum c.1 c.2)) commits)) ->
  id ∈ h_subs h -> sub_lagged s = 0 ->
  exists missed got,
    commits = (missed ++ got)%list
    /\ (taken cfg id acts New ++ sub_ch s)%list = map committed_frame got
    /\ map dto.mom_Height (taken cfg id acts New ++ sub_ch s)
       = map (fun c => cm_Height c.2) got.
Proof.
  intros cfg Hc Hr Hs Hn Hin Hl. rewrite (commits_heard _ Hc) in Hn.
  destruct (delivered_suffix cfg acts h id s Hr Hs Hin Hl) as (b & Hd).
  rewrite dispatched_notified, Hn, omap_frames in Hd.
  apply List.map_eq_app in Hd as (missed & got & -> & _ & Hg).
  exists missed, got. split; [done|]. split; [by rewrite Hg|].
  rewrite <- Hg, map_map. apply map_ext. exact committed_frame_height.
Qed.

(** One commit with a subscriber waiting. *)
Lemma commits_reach_subscriber_witness :
  let c := (toy_env empty_db [transfer], toy_momentum 5 [transfer]) in
  let acts := [ARunListen; ASubscribe "alice"; ARunNotify (Some (committed_frame c))] in
  exists h s, hub_run (NewConfig 0 0) acts New = Some h /\ h_objects h !! 0%nat = Some s
    /\ exists missed got, [c] = (missed ++ got)%list
       /\ map dto.mom_Height (taken (NewConfig 0 0) 0 acts New ++ sub_ch s)
          = map (fun c => cm_Height c.2) got.
Proof.
  intros c acts.
  assert (committed c) as Hc by (split; [vm_compute; reflexivity|split; vm_compute; [split|]; discriminate]).
  destruct (hub_run (NewConfig 0 0) acts New) as [h|] eqn:Eh; [|vm_compute in Eh; discriminate Eh].
  destruct (h_objects h !! 0%nat) as [s|] eqn:Es; cycle 1.
  { vm_compute in Eh. injection Eh as <-. vm_compute in Es. discriminate Es. }
  exists h, s. split; [reflexivity|]. split; [exact Es|].
  destruct (commits_reach_subscriber 0 0 acts h 0%nat s [c] (Forall_cons_2 _ _ _ Hc (Forall_nil_2 _))
              Eh Es) as (missed & got & H1 & _ & H3).
  - vm_compute. reflexivity.
  - vm_compute in Eh. injection Eh as <-. set_solver.
  - vm_compute in Eh. injection Eh as <-. vm_compute in Es. injection Es as <-. reflexivity.
  - exists missed, got. split; [exact H1|exact H3].
Defined.
