(* ===== verification/LookupReads.v ===== *)
(** The reads of internal/repository that fetch single rows back and that nothing in the
    program calls (yet): what they answer of what the write methods stored. *)

From S2P Require Import Prelude.
From S2P Require Import Models.
From S2P Require Import RepoLedger.
From S2P Require Import RepoContracts.
From S2P Require Import RepoBridge.
From S2P Require Import Database.
From S2P Require Import Queries.
#[local] Open Scope string_scope.
#[local] Open Scope Z_scope.

(** ** pillar.go, pillar_update.go *)

Module PillarLookups.
(** Several pillars may share a withdraw address; one of their rows is answered. *)
Definition GetSpawnTimestamp (withdrawAddress : string) : Q Z :=
  statement (fun v =>
    pil_SpawnTimestamp <$>
      query_row (List.filter (fun p => String.eqb (pil_WithdrawAddress p) withdrawAddress)
                   (rows_of v (db_pillars (vw_db v))))).

Definition GetRevokeTimestamp (ownerAddress : string) : Q Z :=
  statement (fun v => pil_RevokeTimestamp <$> lookup_row ownerAddress (db_pillars (vw_db v))).

Definition GetAll : Q (list Pillar) :=
  statement (fun v => Ok (List.filter (fun p => negb (pil_IsRevoked p))
                            (rows_of v (db_pillars (vw_db v))))).

(** [ORDER BY id DESC LIMIT 1] over the updates, which are kept in id order. *)
Definition owner_at (withdrawAddress : string) (height : Z) (t : list PillarUpdate)
  : result string :=
  pu_OwnerAddress <$>
    query_row (List.filter (fun u => String.eqb (pu_WithdrawAddress u) withdrawAddress
                                     && (pu_MomentumHeight u <=? height)) (rev t)).

Definition GetOwnerAddressAtHeight (withdrawAddress : string) (height : Z) : Q string :=
  statement (fun v => owner_at withdrawAddress height (db_pillar_updates (vw_db v))).
End PillarLookups.

(** ** balance.go: the timestamp is not among the columns read. *)

Module BalanceLookups.
Definition GetByAddressAndToken (address tokenStandard : string) : Q Balance :=
  statement (fun v =>
    b ← lookup_row (address, tokenStandard) (db_balances (vw_db v));
    Ok (b <| bal_LastUpdatedTimestamp := 0 |>)).
End BalanceLookups.

(** ** bridge.go *)

Module BridgeLookups.
Definition GetWrapRequestByID (id : string) : Q WrapTokenRequest :=
  statement (fun v => lookup_row id (db_wraps (vw_db v))).

Definition GetUnwrapRequestByTxHash (txHash : string) (logIndex : Z) : Q UnwrapTokenRequest :=
  statement (fun v => lookup_row (txHash, logIndex) (db_unwraps (vw_db v))).
End BridgeLookups.

(** ** account_block.go *)

Module BlockLookups.
(** The map [GetRewardDetails] answers. *)
Record RewardDetails : Type := mkRewardDetails {
  rd_rewardAmount : Z;
  rd_source : string;
  rd_tokenStandard : string
}.

(** The mint a receive descends from, itself a descendant of a reward's collection. *)
Definition mints_for (rewardContracts : list string) (blocks : list AccountBlock)
    (t1 : AccountBlock) : list AccountBlock :=
  List.filter
    (fun t2 => String.eqb (ab_PairedAccountBlock t2) (ab_DescendantOf t1)
               && String.eqb (ab_Method t2) "Mint"
               && existsb (String.eqb (ab_Address t2)) rewardContracts
               && existsb (fun t3 => String.eqb (ab_PairedAccountBlock t3) (ab_DescendantOf t2)
                                     && String.eqb (ab_Method t3) "CollectReward") blocks)
    blocks.

Definition GetRewardDetails (receiveBlockHash : string) (rewardContracts : list string)
  : Q RewardDetails :=
  statement (fun v =>
    t1 ← lookup_row receiveBlockHash (db_account_blocks (vw_db v));
    if String.eqb (ab_TokenStandard t1) ZnnTokenStandard
       || String.eqb (ab_TokenStandard t1) QsrTokenStandard
    then t2 ← query_row (mints_for rewardContracts (rows_of v (db_account_blocks (vw_db v))) t1);
         Ok (mkRewardDetails (ab_Amount t1) (ab_Address t2) (ab_TokenStandard t1))
    else Err ENoRows).
End BlockLookups.

(** ** Reading back *)

(** The answer of a read on a connection that holds. *)
Definition reads {A} (q : Q A) (db : Db) : result A :=
  fst (q (steady (mkView db scan_id (fun _ _ => true) 0)) 0%nat).

(** What was written is read back: a balance after its upsert, whatever was there; a pillar's
    revocation, which also takes it out of [GetAll]; the owner a pillar update recorded, from
    its height on until the next update of the withdraw address; wrap and unwrap requests. *)
Theorem lookups_read_back db :
  (forall b t, BalanceRepository.Upsert b (db_balances db) = Ok t ->
     (forall v, db_balances db !! (bal_Address b, bal_TokenStandard b) = Some v ->
        bal_Address v = bal_Address b /\ bal_TokenStandard v = bal_TokenStandard b) ->
     reads (BalanceLookups.GetByAddressAndToken (bal_Address b) (bal_TokenStandard b))
       (db <| db_balances := t |>) = Ok (b <| bal_LastUpdatedTimestamp := 0 |>))
  /\ (forall owner name ts t, PillarRepository.SetAsRevoked owner name ts (db_pillars db) = Ok t ->
        reads (PillarLookups.GetRevokeTimestamp owner) (db <| db_pillars := t |>) = Ok ts
        /\ exists p, t !! owner = Some p /\ pil_IsRevoked p = true)
  /\ (forall u t height, PillarUpdateRepository.Insert u (db_pillar_updates db) = Ok t ->
        (pu_MomentumHeight u <= height ->
         reads (PillarLookups.GetOwnerAddressAtHeight (pu_WithdrawAddress u) height)
           (db <| db_pillar_updates := t |>) = Ok (pu_OwnerAddress u))
        /\ (height < pu_MomentumHeight u ->
            forall w, reads (PillarLookups.GetOwnerAddressAtHeight w height)
                        (db <| db_pillar_updates := t |>)
                      = reads (PillarLookups.GetOwnerAddressAtHeight w height) db)).
Proof.
  destruct db. split; [|split].
  - intros b t [[E ->]|(v & v' & E & [= <-] & ->)]%insert_update_Ok Hkey; unfold reads; cbn;
      unfold lookup_row; rewrite lookup_insert_eq; [done|].
    destruct (Hkey v E) as [H1 H2]. destruct v, b. cbn in *. by subst.
  - intros owner name ts t [[E ->]|(v & v' & E & [= <-] & ->)]%insert_update_Ok; unfold reads; cbn;
      unfold lookup_row; rewrite lookup_insert_eq; (split; [done|]); by eexists.
  - intros u t height [= <-]. unfold reads, PillarLookups.GetOwnerAddressAtHeight.
    cbn [statement steady fst cn_fault cn_view vw_db]. unfold PillarLookups.owner_at.
    cbn. rewrite rev_app_distr. cbn [rev app List.filter]. split.
    + intros Hh. by rewrite String.eqb_refl, (proj2 (Z.leb_le _ _) Hh).
    + intros Hh w. by rewrite (proj2 (Z.leb_gt _ _) Hh), andb_false_r.
Qed.
