(* ===== verification/LiveSystem.v ===== *)
(** The indexer, the database and the API's momentum hub as one system: a momentum processed
    changes the tables and, on its commit, notifies the LISTEN connection of the hub; the
    hub's loop takes the notifications in order and fans them out; other writers and the
    hub's own actions interleave. And what a client of the momentums stream gets of it. *)

From S2P Require Import Prelude.
From S2P Require Import Models.
From S2P Require Import Chain.
From S2P Require Import RepoLedger.
From S2P Require Import Database.
From S2P Require Import Embedded.
From S2P Require Import Processor.
From S2P Require Import ProcessorShape.
From S2P Require Import LedgerFacts.
From S2P Require Import LedgerProps.
From S2P Require Import Samples.
From S2P Require Import ApiSamples.
From S2P Require Import Queries.
From S2P Require Import ListQueries.
From S2P Require Import QueryFacts.
From S2P Require Import Dto.
From S2P Require Import StreamHub.
From S2P Require Import StreamTheorems.
From S2P Require Import Streams.
From S2P Require Import StreamsTheorems.
From S2P Require Import Wire.
From S2P Require Import WireTheorems.
From S2P Require Import HubDelivery.
#[local] Open Scope string_scope.
#[local] Open Scope Z_scope.

(** ** The system *)

(** The committed tables, the notifications the hub's connection holds (as the hub's hook
    decodes them), and the hub. *)
Record Sys : Type := mkSys {
  sys_db : Db;
  sys_queue : list (option dto.Momentum);
  sys_hub : Hub dto.Momentum
}.

Definition latest (db : Db) : Z := MomentumRepository.GetLatestHeight (db_momentums db).

Definition listening {T} (h : Hub T) : bool :=
  match h_run h with RunListening => true | _ => false end.

(** What a commit leaves with the hub's connection: nothing when no connection listens. *)
Definition queued (env : Env) (m : ChainMomentum) (h : Hub dto.Momentum)
  : list (option dto.Momentum) :=
  if listening h then heard momentum_channel decode_momentum (out_notes (processMomentum env m))
  else [].

(** Momentums are stored under their heights, within BIGINT. *)
Record table_ok (db : Db) : Prop := mkTableOk {
  tok_own : own_heights (db_momentums db);
  tok_range : heights_ok (db_momentums db)
}.

(** One step, with the hub actions it takes: the indexer processes a momentum, whatever comes
    of it, at a height it has or the next one; another writer (the cron jobs, the cached
    data, a backfill) keeps the stored momentums and adds none above them; the hub takes the
    connection's next notification; or the hub or a subscriber does anything else, a
    connection's notifications being lost with it. *)
Inductive sys_step (cfg : HubConfig) : Sys -> list (HubAction dto.Momentum) -> Sys -> Prop :=
| step_process env m q h :
    1 <= cm_Height m <= latest (pl_db (env_pool env)) + 1 ->
    Z.of_nat (length (cm_Content m)) <= max_int64 ->
    sys_step cfg (mkSys (pl_db (env_pool env)) q h) []
      (mkSys (out_db (processMomentum env m)) (q ++ queued env m h) h)
| step_write db db' q h :
    db_momentums db ⊆ db_momentums db' -> table_ok db' -> latest db' = latest db ->
    sys_step cfg (mkSys db q h) [] (mkSys db' q h)
| step_notify db ev q h h' :
    listening h = true -> hub_step cfg (ARunNotify ev) h = Some h' ->
    sys_step cfg (mkSys db (ev :: q) h) [ARunNotify ev] (mkSys db q h')
| step_hub db q a h h' :
    (forall ev, a <> ARunNotify ev) -> hub_step cfg a h = Some h' ->
    sys_step cfg (mkSys db q h) [a] (mkSys db (if listening h && listening h' then q else []) h').

(** Any number of steps, with the hub's actions in order. *)
Inductive sys_runs (cfg : HubConfig) : Sys -> list (HubAction dto.Momentum) -> Sys -> Prop :=
| runs_refl s : sys_runs cfg s [] s
| runs_step s acts s1 acts' s' :
    sys_step cfg s acts s1 -> sys_runs cfg s1 acts' s' -> sys_runs cfg s (acts ++ acts') s'.

(** ** Lists of heights without a jump *)

(** No element is more than one above the greatest before it, [h] to begin with. *)
Fixpoint gapless (h : Z) (l : list Z) : Prop :=
  match l with [] => True | x :: l' => x <= h + 1 /\ gapless (Z.max h x) l' end.

Definition top (h : Z) (l : list Z) : Z := fold_left Z.max l h.

Lemma gapless_app h l1 l2 : gapless h (l1 ++ l2) <-> gapless h l1 /\ gapless (top h l1) l2.
Proof.
  revert h. induction l1 as [|x l1 IH]; intros h; cbn; [tauto|]. rewrite IH. unfold top. tauto.
Qed.

Lemma top_app h l1 l2 : top h (l1 ++ l2) = top (top h l1) l2.
Proof. apply fold_left_app. Qed.

Lemma gapless_weaken h h' l : gapless h l -> h <= h' -> gapless h' l.
Proof.
  revert h h'. induction l as [|x l IH]; intros h h'; [done|]. intros [H1 H2] Hle. cbn.
  split; [lia|]. apply (IH (Z.max h x)); [done|lia].
Qed.

Lemma top_ge h l : h <= top h l.
Proof. revert h. induction l as [|x l IH]; intros h; cbn; [lia|]. specialize (IH (Z.max h x)).
  unfold top in *. lia.
Qed.

Lemma top_mono h h' l : h <= h' -> top h' l = Z.max h' (top h l).
Proof.
  unfold top. revert h h'. induction l as [|x l IH]; intros h h' Hle; cbn; [lia|].
  rewrite (IH (Z.max h x) (Z.max h' x)) by lia. pose proof (top_ge (Z.max h x) l).
  unfold top in *. lia.
Qed.

(** What is known already. *)
Lemma below_gapless h l : Forall (fun x => x <= h) l -> gapless h l /\ top h l = h.
Proof.
  induction 1 as [|x l Hx _ [IH1 IH2]]; [done|]. cbn. rewrite Z.max_l by done.
  split; [split; [lia|done]|exact IH2].
Qed.

(** The live loop on a connection that holds, when nothing it receives jumps: the heights
    above its watermark, each once. *)
Lemma runLive_gapless n evs last :
  forallb holds evs = true -> gapless last (heights (received evs)) ->
  exists frames, runLive writes_work n evs last = (frames, SOpen)
    /\ frames `sublist_of` received evs
    /\ heights frames = seqZ (last + 1) (top last (heights (received evs)) - last).
Proof.
  revert n last. induction evs as [|e evs IH]; intros n last He Hg.
  { exists []. split; [done|]. split; [done|]. cbn. by rewrite Z.sub_diag. }
  cbn [forallb] in He. apply andb_true_iff in He as [He Hes].
  destruct e as [|m lagged| |failed]; cbn [holds] in He; try done.
  - apply Z.eqb_eq in He as ->.
    change (received (LRecv m 0 :: evs)) with (m :: received evs) in *.
    destruct Hg as [Hm Hg]. change (map _ (received evs)) with (heights (received evs)) in Hg.
    change (heights (m :: received evs)) with (dto.mom_Height m :: heights (received evs)).
    cbn [runLive writes_work]. change (0 <? 0) with false. cbv iota.
    change (top last (dto.mom_Height m :: heights (received evs)))
      with (top (Z.max last (dto.mom_Height m)) (heights (received evs))).
    destruct (Z.leb_spec (dto.mom_Height m) last) as [Hle|Hlt].
    + rewrite Z.max_l in * by lia. destruct (IH n last Hes Hg) as (fs & E & Hs & Hh).
      exists fs. split; [done|]. split; [by apply sublist_cons|done].
    + rewrite Z.max_r in * by lia. assert (dto.mom_Height m = last + 1) as Em by lia.
      destruct (IH (S n) (dto.mom_Height m) Hes Hg) as (fs & E & Hs & Hh).
      exists (m :: fs). rewrite E. split; [done|]. split; [by apply sublist_skip|].
      cbn [heights map]. fold (heights fs). rewrite Hh, Em.
      pose proof (top_ge (last + 1) (heights (received evs))).
      rewrite (seqZ_cons (last + 1)) by lia. f_equal. f_equal; lia.
  - destruct failed; [done|]. by apply (IH n last).
Qed.

(** ** The tables *)

Lemma latest_nonneg db : table_ok db -> 0 <= latest db <= max_int64.
Proof.
  intros [_ Hr]. unfold latest. destruct (decide (db_momentums db = ∅)) as [->|Hne].
  - change (MomentumRepository.GetLatestHeight ∅) with 0. unfold max_int64. lia.
  - by apply Hr, GetLatestHeight_spec.
Qed.

Lemma latest_max db h :
  table_ok db -> is_Some (db_momentums db !! h) -> h <= latest db.
Proof.
  intros [_ Hr] Hh. apply GetLatestHeight_spec; [done| |done].
  intros E. rewrite E, lookup_empty in Hh. by destruct Hh.
Qed.

Lemma stored_grows db db' h :
  db_momentums db ⊆ db_momentums db' -> is_Some (db_momentums db !! h) ->
  is_Some (db_momentums db' !! h).
Proof. intros Hsub [m Hm]. exists m. by eapply lookup_weaken. Qed.

(** A processed momentum: a failure changes nothing and notifies nothing; a success makes the
    momentum's height the latest if it is the next, and the hub hears of it. *)
Lemma process_table env m :
  let db := pl_db (env_pool env) in
  let db' := out_db (processMomentum env m) in
  table_ok db -> 1 <= cm_Height m -> Z.of_nat (length (cm_Content m)) <= max_int64 ->
  table_ok db' /\ db_momentums db ⊆ db_momentums db'
  /\ ((heard momentum_channel decode_momentum (out_notes (processMomentum env m)) = []
       /\ db' = db)
      \/ exists x, heard momentum_channel decode_momentum (out_notes (processMomentum env m))
                   = [Some x]
          /\ dto.mom_Height x = cm_Height m /\ is_Some (db_momentums db' !! cm_Height m)
          /\ latest db' = Z.max (latest db) (cm_Height m)).
Proof.
  intros db db' Hok Hh Hc. subst db db'. destruct (out_err (processMomentum env m)) as [e|] eqn:Ee.
  - rewrite (processMomentum_Err _ _ _ Ee). cbn. split; [done|]. split; [done|].
    by left.
  - pose proof (momentum_height_in_range _ _ Ee) as Hr%in_int64_spec.
    pose proof (momentum_momentums _ _ Ee) as Et.
    split; [split|split].
    + rewrite Et. intros k r. rewrite insert_nothing_lookup. case_decide as Ek; cycle 1.
      { by apply (tok_own _ Hok). }
      subst k. destruct (_ !! cm_Height m) as [r'|] eqn:El; intros [= <-].
      * by apply (tok_own _ Hok).
      * split; [apply momentum_row_height|done].
    + rewrite Et. intros h [->|Hs]%insert_nothing_is_Some; [lia|by apply (tok_range _ Hok)].
    + rewrite Et. apply map_subseteq_spec. intros k r Hk. rewrite insert_nothing_lookup.
      case_decide; [subst; by rewrite Hk|done].
    + rewrite (momentum_heard env m Ee ltac:(unfold max_int64, max_uint64 in *; lia) Hc).
      right. eexists. split; [reflexivity|]. split; [apply momentum_row_height|].
      split; [by destruct (momentum_stored _ _ Ee)|].
      unfold latest. rewrite Et. apply GetLatestHeight_insert; [by apply Hok|lia].
Qed.

(** ** The invariants *)

(** The events of the pending notifications. *)
Definition pending (q : list (option dto.Momentum)) : list dto.Momentum := omap id q.

Lemma pending_app q q' : pending (q ++ q') = (pending q ++ pending q')%list.
Proof. apply omap_app. Qed.

Lemma pending_cons ev q : pending (ev :: q) = (default [] ((fun m => [m]) <$> ev) ++ pending q)%list.
Proof. by destruct ev. Qed.

Section invariants.
Variable cfg : HubConfig.
Implicit Types (s : Sys) (h : Hub dto.Momentum) (id : nat).

(** While [Run] waits to connect nobody is subscribed and nobody can be. *)
Definition idle_ok h : Prop :=
  match h_run h with
  | RunConnecting => Running h = false /\ h_subs h = ∅
  | RunClosing false => Running h = false
  | _ => True
  end.

Lemma for_subs_frame f h h' :
  for_subs f h = Some h' ->
  h_run h' = h_run h /\ h_state h' = h_state h /\ h_subs h' = h_subs h.
Proof. unfold for_subs. case_decide; [|done]. by intros [= <-]. Qed.

Lemma closeAllSubs_frame h h' :
  closeAllSubs h = Some h' ->
  h_run h' = h_run h /\ h_state h' = h_state h /\ h_subs h' = ∅.
Proof.
  unfold closeAllSubs. intros (h1 & (H1 & H2 & _)%for_subs_frame & [= <-])%bind_Some. done.
Qed.

(** Actions of subscribers and handlers leave [Run] and the state alone. *)
Lemma idle_same h h' :
  idle_ok h -> h_run h' = h_run h -> h_state h' = h_state h ->
  (Running h = false -> h_subs h' ⊆ h_subs h) -> idle_ok h'.
Proof.
  intros Hi Hr Hs Hsub. unfold idle_ok, Running in *. rewrite Hr, Hs.
  destruct (h_run h) as [| |[]| | |]; try done. destruct Hi as [H1 H2]. split; [done|].
  specialize (Hsub H1). set_solver.
Qed.

Lemma hub_step_idle a h h' : idle_ok h -> hub_step cfg a h = Some h' -> idle_ok h'.
Proof.
  intros Hi.
  destruct a as [subject|id'|id'|id'|id'| | |ev|canceled returning| | | |]; cbn [hub_step].
  - intros [= <-]. unfold Subscribe. destruct (Running h) eqn:Er; cbn [negb]; [|done].
    destruct (_ && _); [done|]. apply (idle_same h); cbn; [done..|]. by rewrite Er.
  - destruct (h_objects h !! id'); intros [= <-]; by apply (idle_same h).
  - destruct (h_objects h !! id') as [o|]; [destruct (sub_closed o)|]; intros [= <-];
      by apply (idle_same h).
  - destruct (h_objects h !! id') as [o|]; [destruct (sub_phase o)|]; intros [= <-];
      try done. apply (idle_same h); [done|..]; unfold unsubscribe; case_decide; cbn; set_solver.
  - destruct (h_objects h !! id') as [o|]; [|by intros [= <-]].
    destruct (sub_phase o); intros Hs; try (by injection Hs as <-).
    apply bind_Some in Hs as (o' & _ & [= <-]). by apply (idle_same h).
  - destruct (h_run h) eqn:Er; intros [= <-]; done.
  - destruct (h_run h) eqn:Er; intros [= <-]; done.
  - destruct (h_run h), ev; try (by intros [= <-]). unfold dispatch.
    intros (H1 & H2 & H3)%for_subs_frame. apply (idle_same h); [done..|]. by rewrite H3.
  - destruct (h_run h); intros [= <-]; try done. unfold idle_ok. destruct canceled; [done|].
    cbn. by destruct returning.
  - destruct (h_run h) as [| |returning| | |] eqn:Er; try (by intros [= <-]).
    intros (h1 & (H1 & H2 & H3)%closeAllSubs_frame & [= <-])%bind_Some.
    destruct returning; [done|]. unfold idle_ok, Running in *. rewrite Er in Hi. simpl.
    by rewrite H2, H3.
  - destruct (h_run h) eqn:Er; intros [= <-]; done.
  - destruct (h_run h); intros [= <-]; done.
  - destruct (h_run h); try (by intros [= <-]).
    by intros (h1 & _ & [= <-])%bind_Some.
Qed.

(** A pending notification announces a momentum that is stored. *)
Definition announced (db : Db) (ev : option dto.Momentum) : Prop :=
  exists m, ev = Some m /\ dto.mom_Height m <= latest db.

Record sys_ok s : Prop := mkSysOk {
  so_table : table_ok (sys_db s);
  so_hub : hub_ok cfg (sys_hub s);
  so_idle : idle_ok (sys_hub s);
  so_queue : Forall (announced (sys_db s)) (sys_queue s);
  so_silent : listening (sys_hub s) = false -> sys_queue s = []
}.

(** The start: a hub that has not connected. *)
Lemma New_sys_ok db : table_ok db -> sys_ok (mkSys db [] New).
Proof. intros Ht. split; [done|apply New_ok|by split|constructor|done]. Qed.

Lemma queued_spec env m h :
  let db := pl_db (env_pool env) in
  let db' := out_db (processMomentum env m) in
  table_ok db -> 1 <= cm_Height m <= latest db + 1 ->
  Z.of_nat (length (cm_Content m)) <= max_int64 ->
  table_ok db' /\ db_momentums db ⊆ db_momentums db' /\ latest db <= latest db'
  /\ (forall x, latest db < x <= latest db' -> is_Some (db_momentums db' !! x))
  /\ Forall (announced db') (queued env m h)
  /\ gapless (latest db) (heights (pending (queued env m h)))
  /\ top (latest db) (heights (pending (queued env m h))) <= latest db'
  /\ (listening h = true ->
      top (latest db) (heights (pending (queued env m h))) = latest db').
Proof.
  intros db db' Hok Hh Hc. unfold queued.
  destruct (process_table env m Hok ltac:(lia) Hc) as (Hok' & Hsub & Hn).
  fold db db' in Hok', Hsub, Hn. destruct Hn as [[-> E]|(x & -> & Ex & Hst & Hl)].
  - rewrite E. destruct (listening h); cbn; split_and!; try (done || lia || constructor).
  - assert (forall y, latest db < y <= latest db' -> is_Some (db_momentums db' !! y)).
    { intros y Hy. by assert (y = cm_Height m) as -> by lia. }
    destruct (listening h); cbn; rewrite ?Ex; split_and!; try (done || lia || constructor).
    + exists x. split; [done|lia].
    + constructor.
Qed.

Lemma announced_weaken db db' q :
  Forall (announced db) q -> latest db <= latest db' -> Forall (announced db') q.
Proof. intros Hq Hl. eapply Forall_impl; [exact Hq|]. intros ev (m & -> & Hm). exists m. split; [done|lia]. Qed.

Lemma step_ok s acts s' : sys_ok s -> sys_step cfg s acts s' -> sys_ok s'.
Proof.
  intros [Ht Hh Hi Hq Hs] Hstep.
  destruct Hstep as [env m q h Hm Hc|db db' q h Hsub Ht' Hl|db ev q h h' Hlis Hst|db q a h h' Hn Hst];
    cbn [sys_db sys_queue sys_hub] in *.
  - destruct (queued_spec env m h Ht Hm Hc) as (H1 & _ & H3 & _ & H5 & _). split; cbn; try done.
    + apply Forall_app. split; [by eapply announced_weaken|done].
    + intros E. unfold queued. by rewrite E, (Hs E).
  - split; cbn; try done. eapply announced_weaken; [done|lia].
  - destruct (hub_step_ok cfg (ARunNotify ev) h Hh) as (h2 & Hst2 & Hok2).
    rewrite Hst in Hst2. injection Hst2 as <-. split; cbn; try done.
    + by apply (hub_step_idle (ARunNotify ev) h).
    + by apply Forall_cons in Hq as [_ ?].
    + intros E. exfalso. revert E Hst. cbn [hub_step]. unfold listening in *.
      destruct (h_run h) eqn:Er; try done. destruct ev; [|intros E [= <-]; by rewrite Er in E].
      unfold dispatch. intros E (H1 & _)%for_subs_frame. by rewrite H1, Er in E.
  - destruct (hub_step_ok cfg a h Hh) as (h2 & Hst2 & Hok2).
    rewrite Hst in Hst2. injection Hst2 as <-. split; cbn; try done.
    + by apply (hub_step_idle a h).
    + destruct (_ && _); [done|constructor].
    + intros ->. by rewrite andb_false_r.
Qed.

Lemma runs_ok s acts s' : sys_ok s -> sys_runs cfg s acts s' -> sys_ok s'.
Proof. intros Hok H. induction H; [done|]. by eauto using step_ok. Qed.

(** The stored heights from [from] on have no hole, and stay so. *)
Definition full_from (from : Z) (db : Db) : Prop :=
  forall x, from <= x <= latest db -> is_Some (db_momentums db !! x).

Lemma step_full from s acts s' :
  sys_ok s -> sys_step cfg s acts s' -> full_from from (sys_db s) ->
  full_from from (sys_db s') /\ latest (sys_db s) <= latest (sys_db s').
Proof.
  intros [Ht _ _ _ _] Hstep Hf.
  destruct Hstep as [env m q h Hm Hc|db db' q h Hsub Ht' Hl|db ev q h h' Hlis Hst|db q a h h' Hn Hst];
    cbn [sys_db] in *; [| |done..].
  - destruct (queued_spec env m h Ht Hm Hc) as (_ & H2 & H3 & H4 & _). split; [|done].
    intros x Hx. destruct (Z.le_gt_cases x (latest (pl_db (env_pool env)))).
    + eapply stored_grows; [exact H2|]. apply Hf. lia.
    + apply H4. lia.
  - split; [|lia]. intros x Hx. eapply stored_grows; [exact Hsub|]. apply Hf. lia.
Qed.

Lemma runs_full from s acts s' :
  sys_ok s -> sys_runs cfg s acts s' -> full_from from (sys_db s) ->
  full_from from (sys_db s') /\ latest (sys_db s) <= latest (sys_db s').
Proof.
  intros Hok H. induction H as [s|s acts s1 acts' s' Hstep _ IH]; intros Hf; [split; [done|lia]|].
  destruct (step_full from s acts s1 Hok Hstep Hf) as [Hf1 H1].
  destruct (IH (step_ok _ _ _ Hok Hstep) Hf1) as [Hf2 H2]. split; [done|lia].
Qed.

(** What a subscriber that has taken [g] since it registered, at the latest height [L], has
    and will get of the commits made so far: while it is registered and has not lagged, no
    height is missing, up to the latest while the hub listens. *)
Record watched (L : Z) (id : nat) (g : list dto.Momentum) s : Prop := mkWatched {
  wt_old : (id < h_next (sys_hub s))%nat;
  wt_lag : 0 <= lagged_of id (sys_hub s);
  wt_heights : id ∈ h_subs (sys_hub s) -> lagged_of id (sys_hub s) = 0 ->
    let l := heights (g ++ channel_of id (sys_hub s) ++ pending (sys_queue s)) in
    gapless L l /\ top L l <= latest (sys_db s)
    /\ (listening (sys_hub s) = true -> top L l = latest (sys_db s))
}.

(** A hub action, for a subscriber that is registered and has not lagged after it. *)
Lemma watch_action a h h' id :
  hub_ok cfg h -> hub_step cfg a h = Some h' -> 0 <= lagged_of id h -> (id < h_next h)%nat ->
  (id < h_next h')%nat /\ 0 <= lagged_of id h'
  /\ (id ∈ h_subs h' -> lagged_of id h' = 0 ->
      id ∈ h_subs h /\ lagged_of id h = 0
      /\ (step_taken id a h ++ channel_of id h' = channel_of id h ++ step_event a h)%list).
Proof.
  intros Hok Hst Hlag Hold. pose proof (step_next cfg a h h' Hst).
  destruct (step_delivers cfg a h h' id Hok Hst) as (kept & Hk & Hc & Hl).
  pose proof (sublist_length _ _ Hk) as Hlen.
  split; [lia|]. split; [lia|]. intros Hin' H0.
  assert (id ∈ h_subs h) as Hin by (destruct (step_subs cfg a h h' id Hst Hin') as [?|[-> _]]; [done|lia]).
  split; [done|]. split; [lia|]. rewrite <- Hc. f_equal.
  rewrite (sublist_full _ _ Hk) by lia. unfold step_offered. by rewrite decide_True.
Qed.

Lemma step_event_none a h : (forall ev, a <> ARunNotify ev) -> step_event a h = [].
Proof. intros Hn. destruct a; try done. by destruct (Hn ev). Qed.

Lemma step_event_notify ev h :
  listening h = true -> step_event (ARunNotify ev) h = default [] ((fun m => [m]) <$> ev).
Proof. unfold listening, step_event. by destruct (h_run h), ev. Qed.

(** Only from waiting to connect does [Run] come to listen. *)
Lemma run_phase a h h' :
  hub_step cfg a h = Some h' -> match h_run h with RunConnecting | RunListening => False | _ => True end ->
  match h_run h' with RunListening => true | _ => false end = false.
Proof.
  intros Hst.
  destruct a as [subject|id'|id'|id'|id'| | |ev|canceled returning| | | |]; cbn [hub_step] in Hst.
  1: { injection Hst as <-. unfold Subscribe. destruct (negb _); [simpl; by destruct (h_run h)|].
       destruct (_ && _); simpl; by destruct (h_run h). }
  1-4: destruct (h_objects h !! id') as [o|]; [|injection Hst as <-; by destruct (h_run h)].
  - injection Hst as <-. simpl. by destruct (h_run h).
  - destruct (sub_closed o); injection Hst as <-; simpl; by destruct (h_run h).
  - destruct (sub_phase o); injection Hst as <-; unfold unsubscribe; try case_decide; simpl;
      by destruct (h_run h).
  - destruct (sub_phase o); try (apply bind_Some in Hst as (o' & _ & Hst));
      injection Hst as <-; simpl; by destruct (h_run h).
  - destruct (h_run h) eqn:E; injection Hst as <-; simpl; rewrite ?E; by intros [].
  - destruct (h_run h) eqn:E; injection Hst as <-; simpl; rewrite ?E; by intros [].
  - destruct (h_run h) eqn:E; try done; destruct ev; injection Hst as <-; rewrite E; by intros [].
  - destruct (h_run h) eqn:E; injection Hst as <-; simpl; rewrite ?E; by intros [].
  - destruct (h_run h) as [| |[]| | |] eqn:E; try (apply bind_Some in Hst as (h1 & _ & Hst));
      injection Hst as <-; simpl; rewrite ?E; by intros [].
  - destruct (h_run h) eqn:E; injection Hst as <-; simpl; rewrite ?E; by intros [].
  - destruct (h_run h) eqn:E; injection Hst as <-; simpl; rewrite ?E; by intros [].
  - destruct (h_run h) eqn:E; try (apply bind_Some in Hst as (h1 & _ & Hst));
      injection Hst as <-; simpl; rewrite ?E; by intros [].
Qed.

(** While the hub connects nobody is registered, so one that is stays so over a stretch in
    which the hub's connection is one and the same. *)
Lemma listens_again a h h' id :
  idle_ok h -> hub_step cfg a h = Some h' -> listening h = false -> listening h' = true ->
  id ∉ h_subs h.
Proof.
  intros Hi Hst H1 H2.
  assert (h_run h = RunConnecting) as Er.
  { unfold listening in *. destruct (h_run h) eqn:Er; try done; exfalso; revert H2;
      by rewrite (run_phase a h h' Hst) by (by rewrite Er). }
  unfold idle_ok in Hi. rewrite Er in Hi. destruct Hi as [_ ->]. apply not_elem_of_empty.
Qed.

Lemma taken_one id a h h' :
  hub_step cfg a h = Some h' -> taken cfg id [a] h = step_taken id a h.
Proof. intros Hst. unfold taken. cbn [along]. by rewrite Hst, app_nil_r. Qed.

Lemma step_watched L id g s acts s' :
  sys_ok s -> sys_step cfg s acts s' -> watched L id g s ->
  watched L id (g ++ taken cfg id acts (sys_hub s)) s'.
Proof.
  intros [Ht Hh Hi Hq Hs] Hstep [Hold Hlag Hw].
  destruct Hstep as [env m q h Hm Hc|db db' q h Hsub Ht' Hl|db ev q h h' Hlis Hst|db q a h h' Hn Hst];
    cbn [sys_db sys_queue sys_hub] in *.
  - destruct (queued_spec env m h Ht Hm Hc) as (_ & _ & Hle & _ & _ & Hg & Hb & Ht').
    change (taken cfg id [] h) with (@nil dto.Momentum). rewrite app_nil_r.
    split; cbn [sys_db sys_queue sys_hub]; [done..|]. intros Hin H0. destruct (Hw Hin H0) as (G & B & T). clear Hw.
    rewrite pending_app, !app_assoc, heights_app, <- app_assoc, gapless_app, top_app.
    unfold queued in *. destruct (listening h) eqn:El.
    + rewrite (T eq_refl). rewrite (Ht' eq_refl). split; [done|]. split; [lia|done].
    + cbn. split; [done|]. split; [lia|done].
  - change (taken cfg id [] h) with (@nil dto.Momentum). rewrite app_nil_r.
    split; cbn [sys_db sys_queue sys_hub]; [done..|]. by rewrite Hl.
  - destruct (watch_action _ _ _ id Hh Hst Hlag Hold) as (H1 & H2 & H3).
    split; cbn [sys_db sys_queue sys_hub]; [done..|]. intros Hin' H0'. destruct (H3 Hin' H0') as (Hin & H0 & E).
    destruct (Hw Hin H0) as (G & B & T). specialize (T Hlis).
    rewrite (taken_one id _ _ _ Hst), <- app_assoc, (app_assoc (step_taken _ _ _)), E.
    rewrite (step_event_notify ev h Hlis), <- app_assoc, <- pending_cons. done.
  - destruct (watch_action _ _ _ id Hh Hst Hlag Hold) as (H1 & H2 & H3).
    split; cbn [sys_db sys_queue sys_hub]; [done..|]. intros Hin' H0'. destruct (H3 Hin' H0') as (Hin & H0 & E).
    destruct (Hw Hin H0) as (G & B & T).
    rewrite (taken_one id _ _ _ Hst), <- app_assoc, (app_assoc (step_taken _ _ _)), E.
    rewrite (step_event_none a h Hn), app_nil_r.
    rewrite app_assoc, heights_app, gapless_app, top_app in *. destruct G as [G1 G2].
    destruct (listening h) eqn:El, (listening h') eqn:El'; cbn [andb]; [by auto| | |];
      (split; [done|]); (split; [etrans; [apply top_ge|exact B]|]); try done.
    by destruct (listens_again a h h' id Hi Hst El El').
Qed.

Lemma taken_app id acts acts' h h' :
  hub_run cfg acts h = Some h' ->
  taken cfg id (acts ++ acts') h = (taken cfg id acts h ++ taken cfg id acts' h')%list.
Proof. apply along_app. Qed.

Lemma hub_run_app acts acts' h h' :
  hub_run cfg acts h = Some h' -> hub_run cfg (acts ++ acts') h = hub_run cfg acts' h'.
Proof.
  revert h. induction acts as [|a acts IH]; intros h; cbn [hub_run app].
  { by intros [= ->]. }
  intros (h1 & -> & Hr)%bind_Some. cbn. by apply IH.
Qed.

Lemma step_hub_run s acts s' :
  sys_step cfg s acts s' -> hub_run cfg acts (sys_hub s) = Some (sys_hub s').
Proof.
  intros []; cbn [sys_hub hub_run]; [done..| |].
  - by rewrite H0.
  - by rewrite H0.
Qed.

Lemma runs_hub_run s acts s' :
  sys_runs cfg s acts s' -> hub_run cfg acts (sys_hub s) = Some (sys_hub s').
Proof.
  induction 1 as [s|s acts s1 acts' s' Hstep _ IH]; [done|].
  rewrite (hub_run_app _ _ _ _ (step_hub_run _ _ _ Hstep)). exact IH.
Qed.

Lemma runs_watched L id g s acts s' :
  sys_ok s -> sys_runs cfg s acts s' -> watched L id g s ->
  watched L id (g ++ taken cfg id acts (sys_hub s)) s'.
Proof.
  intros Hok H. revert g Hok. induction H as [s|s acts s1 acts' s' Hstep _ IH]; intros g Hok Hw.
  { change (taken cfg id [] (sys_hub s)) with (@nil dto.Momentum). by rewrite app_nil_r. }
  rewrite (taken_app id acts acts' _ (sys_hub s1)) by (by apply step_hub_run). rewrite app_assoc.
  apply IH; [by eapply step_ok|]. by apply step_watched.
Qed.

(** A subscriber that has just registered: all that is pending is stored. *)
Lemma new_watched subject id db q h h' :
  sys_ok (mkSys db q h) -> Subscribe cfg subject h = (Subscribed id, h') ->
  watched (latest db) id [] (mkSys db (if listening h && listening h' then q else []) h').
Proof.
  intros [_ Hh _ Hq Hs]. unfold Subscribe. destruct (negb _); [done|].
  destruct (_ && _); [done|]. intros [= <- <-]. cbn in *.
  split; simpl; [lia|..].
  - unfold lagged_of. simpl. by rewrite lookup_insert_eq.
  - intros _ _. unfold channel_of, listening. simpl. rewrite lookup_insert_eq. cbn [app sub_ch].
    fold (listening h). rewrite andb_diag.
    assert (Forall (fun x => x <= latest db) (heights (pending (if listening h then q else [])))) as Ha.
    { destruct (listening h); [|constructor]. clear Hs. induction Hq as [|ev q (m & -> & Hm) _ IH];
        [constructor|]. cbn. by constructor. }
    destruct (below_gapless _ _ Ha) as [G T]. rewrite T. split; [done|]. split; [lia|done].
Qed.

Lemma Subscribe_listening subject id h h' :
  Subscribe cfg subject h = (Subscribed id, h') -> listening h' = listening h.
Proof.
  unfold Subscribe. destruct (negb _); [done|]. destruct (_ && _); [done|]. by intros [= _ <-].
Qed.

Lemma subscribed_step subject id s h' :
  sys_ok s -> Subscribe cfg subject (sys_hub s) = (Subscribed id, h') ->
  let s' := mkSys (sys_db s) (sys_queue s) h' in
  sys_step cfg s [ASubscribe subject] s' /\ watched (latest (sys_db s)) id [] s'.
Proof.
  destruct s as [db q h]. cbn [sys_db sys_queue sys_hub]. intros Hok Hsub.
  pose proof (new_watched subject id db q h h' Hok Hsub) as Hw.
  assert ((if listening h && listening h' then q else []) = q) as E.
  { rewrite (Subscribe_listening subject id h h' Hsub). destruct (listening h) eqn:El; [done|].
    symmetry. exact (so_silent _ Hok El). }
  rewrite E in Hw. split; [|exact Hw].
  rewrite <- E at 2. apply step_hub; [done|]. cbn [hub_step]. by rewrite Hsub.
Qed.
End invariants.

(** ** A client of the stream *)

(** The two statements of a replay see the tables of these states. *)
Record replay_reads (c : Conn) (n : nat) (s s' : Sys) : Prop := mkReplayReads {
  rr_tip_runs : cn_fault c n = None;
  rr_range_runs : cn_fault c (S n) = None;
  rr_tip_sees : db_momentums (vw_db (cn_view c n)) = db_momentums (sys_db s);
  rr_range_sees : db_momentums (vw_db (cn_view c (S n))) = db_momentums (sys_db s')
}.

(** A replay against an empty table. *)
Lemma replay_empty c n :
  cn_fault c n = None -> db_momentums (vw_db (cn_view c n)) = ∅ ->
  exists n', replay writes_work 1 c n = (Ok ([], Some 0), n').
Proof.
  intros F0 He. unfold replay, replay_scan, attempt, MomentumQueries.GetLatest.
  rewrite statement_view by done. rewrite He.
  assert (rows_of (cn_view c n) (∅ : MomentumRepository.table) = []) as ->.
  { apply elem_of_nil_inv. intros m [k Hk]%elem_of_rows_of. by rewrite lookup_empty in Hk. }
  by eexists.
Qed.

(** A replay from a height with no hole above it, whatever is stored. *)
Lemma replay_full c n from s s' :
  replay_reads c n s s' -> table_ok (sys_db s) -> table_ok (sys_db s') ->
  full_from from (sys_db s') -> latest (sys_db s) <= latest (sys_db s') ->
  1 <= from <= latest (sys_db s) + 1 -> latest (sys_db s) - from + 1 <= streamReplayMaxRows ->
  exists frames n', replay writes_work from c n = (Ok (frames, Some (latest (sys_db s))), n')
    /\ heights frames = seqZ from (latest (sys_db s) - from + 1).
Proof.
  intros [F0 F1 V0 V1] O0 O1 Hf Hle Hfrom Hcap. pose proof (latest_nonneg _ O0) as Hl.
  destruct (decide (db_momentums (sys_db s) = ∅)) as [He|Hne].
  - assert (latest (sys_db s) = 0) as El by (unfold latest; by rewrite He). rewrite El in *.
    assert (from = 1) as -> by lia. destruct (replay_empty c n F0) as (n' & E); [by rewrite V0|].
    exists [], n'. by split.
  - assert (MomentumRepository.max_height (db_momentums (vw_db (cn_view c n)))
            = Some (latest (sys_db s))) as Hmax.
    { rewrite V0. unfold latest, MomentumRepository.GetLatestHeight.
      pose proof (max_height_spec (db_momentums (sys_db s))) as Hs.
      destruct (MomentumRepository.max_height _) as [h|]; [|done]. destruct Hs as [Hin _].
      pose proof (tok_range _ O0 h Hin) as Hr. unfold uint64, max_int64 in *.
      by rewrite Z.mod_small by lia. }
    destruct (replay_complete c n from (latest (sys_db s))) as (rows & n' & E & Hh & _); try done.
    + rewrite V0. apply O0.
    + rewrite V1. apply O1.
    + lia.
    + intros x Hx. rewrite V1. apply Hf. lia.
    + exists (map dto.FromMomentum rows), n'. split; [done|]. by rewrite heights_from.
Qed.

(** C9. From the indexer to a client of the momentums stream, end to end. Take any run of the
    system from a database without a hole above [from] in which no height is skipped: every
    momentum processed is at most one above the latest stored, with repeats and failures (a
    subscription session that goes on after a failed height leaves such runs:
    [run_never_looks_back]), other writers, and the hub connecting, listening, losing its
    connection and fanning out, in any interleaving. Let a client subscribe at some point,
    then read the tip, then the range (the first at least [from] - 1 and within 10000 of
    it), and let its live loop hold, its subscriber still being registered and never having
    lagged. Then the frames written are exactly the heights [from], [from] + 1, ... without
    a hole and without a repeat, up to a height between the tip it read and the latest
    stored; and when the hub listens and nothing is pending, up to the latest stored. *)
Theorem client_misses_nothing clientBuf perSub db0 tr0 s1 subject id h1 tr1 s2 tr2 s3 tr3 s4 o
    c n from evs :
  let cfg := NewConfig clientBuf perSub in
  table_ok db0 -> full_from from db0 ->
  sys_runs cfg (mkSys db0 [] New) tr0 s1 ->
  Subscribe cfg subject (sys_hub s1) = (Subscribed id, h1) ->
  sys_runs cfg (mkSys (sys_db s1) (sys_queue s1) h1) tr1 s2 ->
  sys_runs cfg s2 tr2 s3 -> sys_runs cfg s3 tr3 s4 ->
  replay_reads c n s2 s3 ->
  1 <= from <= latest (sys_db s2) + 1 ->
  latest (sys_db s2) - from + 1 <= streamReplayMaxRows ->
  forallb holds evs = true -> received evs = taken cfg id (tr1 ++ tr2 ++ tr3) h1 ->
  id ∈ h_subs (sys_hub s4) -> h_objects (sys_hub s4) !! id = Some o -> sub_lagged o = 0 ->
  exists frames n' upto,
    serve_momentums writes_work evs from c n = (Ok (frames, SOpen), n')
    /\ heights frames = seqZ from (upto - from + 1)
    /\ latest (sys_db s2) <= upto <= latest (sys_db s4)
    /\ (listening (sys_hub s4) = true -> sys_queue s4 = [] -> sub_ch o = [] ->
        upto = latest (sys_db s4)).
Proof.
  intros cfg Hdb0 Hf0 R0 Hsub R1 R2 R3 Hreads Hfrom Hcap Hev Hrecv Hin Ho Hlag.
  pose proof (New_sys_ok cfg db0 Hdb0) as K0. pose proof (runs_ok cfg _ _ _ K0 R0) as K1.
  destruct (runs_full cfg from _ _ _ K0 R0 Hf0) as [Hf1 L1].
  set (s1' := mkSys (sys_db s1) (sys_queue s1) h1) in *.
  destruct (subscribed_step cfg subject id s1 h1 K1 Hsub) as [Hst1 W1].
  fold s1' in Hst1, W1. pose proof (step_ok cfg _ _ _ K1 Hst1) as K1'.
  pose proof (runs_ok cfg _ _ _ K1' R1) as K2. pose proof (runs_ok cfg _ _ _ K2 R2) as K3.
  pose proof (runs_ok cfg _ _ _ K3 R3) as K4.
  destruct (runs_full cfg from _ _ _ K1' R1 Hf1) as [Hf2 L2].
  destruct (runs_full cfg from _ _ _ K2 R2 Hf2) as [Hf3 L3].
  destruct (runs_full cfg from _ _ _ K3 R3 Hf3) as [Hf4 L4].
  pose proof (runs_watched cfg _ _ _ _ _ _ K1' R1 W1) as W2.
  pose proof (runs_watched cfg _ _ _ _ _ _ K2 R2 W2) as W3.
  pose proof (runs_watched cfg _ _ _ _ _ _ K3 R3 W3) as [_ _ W4]. clear W1 W2 W3.
  rewrite (taken_app cfg id tr1 _ _ _ (runs_hub_run cfg _ _ _ R1)) in Hrecv.
  rewrite (taken_app cfg id tr2 _ _ _ (runs_hub_run cfg _ _ _ R2)) in Hrecv.
  rewrite app_nil_l, <- (app_assoc (taken cfg id tr1 _)), <- Hrecv in W4.
  unfold lagged_of, channel_of in W4. rewrite Ho in W4.
  destruct (W4 Hin Hlag) as (G & B & T). clear W4.
  destruct (replay_full c n from s2 s3 Hreads) as (rows & n' & Er & Hh);
    [by apply K2|by apply K3|done|done|done|done|].
  rewrite heights_app in G, B, T. apply gapless_app in G as [G _].
  rewrite top_app in B, T. pose proof (top_ge (top (latest (sys_db s1)) (heights (received evs)))
    (heights (sub_ch o ++ pending (sys_queue s4)))) as Hge.
  cbn [sys_db] in L2. change (sys_db s1') with (sys_db s1) in L2.
  destruct (runLive_gapless (length rows) evs (latest (sys_db s2)) Hev) as (fs & El & _ & Hfs);
    [by apply (gapless_weaken (latest (sys_db s1)))|].
  pose proof (top_mono (latest (sys_db s1)) (latest (sys_db s2)) (heights (received evs)) L2) as Em.
  set (upto := top (latest (sys_db s2)) (heights (received evs))) in *.
  exists (rows ++ fs)%list, n', upto. split; [|split; [|split]].
  - unfold serve_momentums, mbind, Q_bind. rewrite (proj2 (Z.ltb_lt 0 from)) by lia.
    rewrite Er. cbn [mret Q_ret]. by rewrite El.
  - rewrite heights_app, Hh, Hfs.
    replace (upto - from + 1) with ((latest (sys_db s2) - from + 1) + (upto - latest (sys_db s2)))
      by lia.
    rewrite (seqZ_app from (latest (sys_db s2) - from + 1)) by lia. do 2 f_equal. lia.
  - lia.
  - intros Hli Hq Hch. specialize (T Hli). rewrite Hq, Hch in T. cbn in T. lia.
Qed.

(** A run: the hub listens, momentum 1 is committed, a client subscribes while its notification
    is pending and reads the tables, momentum 2 is committed, and both are received. *)
Definition run_cfg : HubConfig := NewConfig 0 0.
Definition stepped (a : HubAction dto.Momentum) (h : Hub dto.Momentum) : Hub dto.Momentum :=
  default h (hub_step run_cfg a h).

Definition env_1 : Env := toy_env empty_db [].
Definition db_1 : Db := out_db (processMomentum env_1 (toy_momentum 1 [])).
Definition env_2 : Env := toy_env db_1 [].
Definition db_2 : Db := out_db (processMomentum env_2 (toy_momentum 2 [])).

Definition hub_1 : Hub dto.Momentum := stepped ARunListen New.
Definition hub_2 : Hub dto.Momentum := (Subscribe run_cfg "alice" hub_1).2.
Definition queue_1 : list (option dto.Momentum) := queued env_1 (toy_momentum 1 []) hub_1.
Definition queue_2 : list (option dto.Momentum) := queued env_2 (toy_momentum 2 []) hub_2.
Definition event_1 : option dto.Momentum := default None (head queue_1).
Definition event_2 : option dto.Momentum := default None (head queue_2).
Definition hub_3 : Hub dto.Momentum := stepped (ARunNotify event_2) (stepped (ARunNotify event_1) hub_2).
Definition hub_4 : Hub dto.Momentum := stepped (ARecv 0) (stepped (ARecv 0) hub_3).

Definition last_acts : list (HubAction dto.Momentum) :=
  [ARunNotify event_1; ARunNotify event_2; ARecv 0; ARecv 0].

Lemma run_before : sys_runs run_cfg (mkSys empty_db [] New) [ARunListen] (mkSys db_1 queue_1 hub_1).
Proof.
  apply (runs_step _ _ [ARunListen] (mkSys empty_db [] hub_1) []);
    [apply (step_hub run_cfg empty_db [] ARunListen New hub_1); [done|reflexivity]|].
  apply (runs_step _ _ [] (mkSys db_1 queue_1 hub_1) []); [|apply runs_refl].
  apply (step_process run_cfg env_1 (toy_momentum 1 []) [] hub_1);
    [vm_compute; split; discriminate|vm_compute; discriminate].
Qed.

Lemma run_after : sys_runs run_cfg (mkSys db_1 queue_1 hub_2) last_acts (mkSys db_2 [] hub_4).
Proof.
  apply (runs_step _ _ [] (mkSys db_2 [event_1; event_2] hub_2) last_acts).
  { apply (step_process run_cfg env_2 (toy_momentum 2 []) queue_1 hub_2);
      [vm_compute; split; discriminate|vm_compute; discriminate]. }
  apply (runs_step _ _ [ARunNotify event_1] (mkSys db_2 [event_2] (stepped (ARunNotify event_1) hub_2))
           (tail last_acts)); [by apply step_notify|].
  apply (runs_step _ _ [ARunNotify event_2] (mkSys db_2 [] hub_3) (tail (tail last_acts)));
    [by apply step_notify|].
  apply (runs_step _ _ [ARecv 0] (mkSys db_2 [] (stepped (ARecv 0) hub_3)) [ARecv 0]);
    [by apply (step_hub run_cfg db_2 [] (ARecv 0) hub_3 (stepped (ARecv 0) hub_3))|].
  apply (runs_step _ _ [ARecv 0] (mkSys db_2 [] hub_4) []); [|apply runs_refl].
  by apply (step_hub run_cfg db_2 [] (ARecv 0) (stepped (ARecv 0) hub_3) hub_4).
Qed.

Lemma client_misses_nothing_witness :
  let evs := live (taken run_cfg 0 last_acts hub_2) in
  exists frames n',
    serve_momentums writes_work evs 1 (steady (mkView db_1 scan_rev shorter 1)) 0%nat
    = (Ok (frames, SOpen), n')
    /\ heights frames = [1; 2].
Proof.
  intros evs.
  assert (table_ok empty_db) as T0.
  { split; [intros k m Hk; discriminate Hk|intros k [m Hk]; discriminate Hk]. }
  assert (full_from 1 empty_db) as F0 by (intros x Hx; change (1 <= x <= 0) in Hx; lia).
  destruct (h_objects hub_4 !! 0%nat) as [o|] eqn:Eo; [|vm_compute in Eo; discriminate Eo].
  destruct (client_misses_nothing 0 0 empty_db [ARunListen] _ "alice" 0 hub_2 [] _ [] _ last_acts _ o
              (steady (mkView db_1 scan_rev shorter 1)) 0 1 evs T0 F0 run_before eq_refl
              (runs_refl _ _) (runs_refl _ _) run_after) as (fs & n' & upto & E & Hh & _ & Hu).
  - split; reflexivity.
  - vm_compute. split; discriminate.
  - vm_compute. discriminate.
  - vm_compute. reflexivity.
  - vm_compute. reflexivity.
  - vm_compute. reflexivity.
  - exact Eo.
  - vm_compute in Eo. injection Eo as <-. reflexivity.
  - exists fs, n'. split; [exact E|]. rewrite Hh, Hu.
    + vm_compute. reflexivity.
    + vm_compute. reflexivity.
    + reflexivity.
    + vm_compute in Eo. injection Eo as <-. reflexivity.
Defined.
