(* ===== verification/Marshal.v ===== *)
(** What the API writes: [json.Marshal] of the values the handlers answer and of the streams'
    frames, with the field tags of internal/api/dto and internal/api/httpx.

    encoding/json is modelled on the tree of values it visits ([gval]): struct fields in the
    order of their declaration, a map's members in key order, strings escaped as by default,
    and a [json.RawMessage] compacted. The text of a float (strconv's shortest decimal) is a
    parameter. *)

From Stdlib Require Import Floats.SpecFloat.
From S2P Require Import Prelude.
From S2P Require Import Json.
From S2P Require Import Text.
From S2P Require Import Dto.
From S2P Require Import Httpx.
From S2P Require Import Wire.
#[local] Open Scope string_scope.
#[local] Open Scope Z_scope.

(** ** Values *)

Inductive gval : Type :=
| GNull
| GBool (b : bool)
| GInt (z : Z)
| GFloat (f : spec_float)
| GStr (s : string)
| GRaw (text : string)
| GArr (l : list gval)
| GObj (ms : list (string * gval)).

(** [compact] of a [json.RawMessage]: white space outside the literals goes, and what the
    encoder escapes in strings is escaped here too. [inside] says whether the text is in a
    literal; the fuel is the length, every step taking a byte at least. *)
Fixpoint compact_fuel (fuel : nat) (inside : bool) (s : string) : string :=
  match fuel, s with
  | O, _ | _, EmptyString => ""
  | S fuel', String c s' =>
      if inside then
        if Ascii.eqb c backslash then
          match s' with
          | EmptyString => String c ""
          | String e s'' => String c (String e (compact_fuel fuel' true s''))
          end
        else if Ascii.eqb c quote_char then String c (compact_fuel fuel' false s')
        else match strip_prefix (bytes_of [226; 128; 168]%nat) s,
                   strip_prefix (bytes_of [226; 128; 169]%nat) s with
             | Some r, _ => String backslash "u2028" +:+ compact_fuel fuel' true r
             | None, Some r => String backslash "u2029" +:+ compact_fuel fuel' true r
             | None, None =>
                 match nat_of_ascii c with
                 | 60 | 62 | 38 => u00 c +:+ compact_fuel fuel' true s'
                 | _ => String c (compact_fuel fuel' true s')
                 end%nat
             end
      else if is_space c then compact_fuel fuel' false s'
      else String c (compact_fuel fuel' (Ascii.eqb c quote_char) s')
  end.

Definition compact (s : string) : string := compact_fuel (String.length s) false s.

Section encoding.
(** [strconv.FormatFloat], as the encoder calls it. *)
Variable float_text : spec_float -> string.

(** The text of a value that encodes. *)
Fixpoint json_text (v : gval) : string :=
  match v with
  | GNull => "null"
  | GBool b => if b then "true" else "false"
  | GInt z => format_int z
  | GFloat f => float_text f
  | GStr s => json_string s
  | GRaw t => compact t
  | GArr l => "[" +:+ String.concat "," (map json_text l) +:+ "]"
  | GObj ms =>
      "{" +:+ String.concat "," (map (fun kv => json_string (fst kv) +:+ ":" +:+ json_text (snd kv)) ms)
      +:+ "}"
  end.

(** What cannot be encoded: a float that is not finite, raw text that is not JSON. *)
Fixpoint encodes (v : gval) : bool :=
  match v with
  | GFloat f => finite f
  | GRaw t => match parse_json t with Some _ => true | None => false end
  | GArr l => forallb encodes l
  | GObj ms => forallb (fun kv => encodes (snd kv)) ms
  | _ => true
  end.

(** [json.Marshal]; [None] is its error. *)
Definition Marshal (v : gval) : option string := if encodes v then Some (json_text v) else None.
End encoding.

(** ** Fields *)

Definition str (k s : string) : list (string * gval) := [(k, GStr s)].
Definition int (k : string) (z : Z) : list (string * gval) := [(k, GInt z)].
Definition bool_ (k : string) (b : bool) : list (string * gval) := [(k, GBool b)].

(** [omitempty] on a string, an integer, raw JSON and a pointer; a pointer without it. *)
Definition opt_str (k s : string) : list (string * gval) := if str_empty s then [] else str k s.
Definition opt_int (k : string) (z : Z) : list (string * gval) := if z =? 0 then [] else int k z.
Definition opt_raw (k s : string) : list (string * gval) :=
  if str_empty s then [] else [(k, GRaw s)].
Definition opt_ptr (k : string) (p : option Z) : list (string * gval) :=
  match p with Some z => int k z | None => [] end.
Definition ptr (k : string) (p : option Z) : list (string * gval) :=
  [(k, match p with Some z => GInt z | None => GNull end)].

(** A slice that was made, and one that stays nil while nothing is appended. *)
Definition made {A} (f : A -> gval) (l : list A) : gval := GArr (map f l).
Definition appended {A} (f : A -> gval) (l : list A) : gval :=
  match l with [] => GNull | _ => made f l end.

(** ** internal/api/dto *)

Definition account_json (a : dto.Account) : gval :=
  GObj (str "address" (dto.acc_Address a) ++ int "block_count" (dto.acc_BlockCount a)
    ++ opt_str "public_key" (dto.acc_PublicKey a) ++ opt_str "delegate" (dto.acc_Delegate a)
    ++ opt_int "delegation_start_timestamp" (dto.acc_DelegationStartTimestamp a)
    ++ str "genesis_znn_balance" (dto.acc_GenesisZnnBalance a)
    ++ str "genesis_qsr_balance" (dto.acc_GenesisQsrBalance a)
    ++ str "znn_sent" (dto.acc_ZnnSent a) ++ str "znn_received" (dto.acc_ZnnReceived a)
    ++ str "qsr_sent" (dto.acc_QsrSent a) ++ str "qsr_received" (dto.acc_QsrReceived a)
    ++ opt_ptr "first_active_at" (dto.acc_FirstActiveAt a)
    ++ opt_ptr "last_active_at" (dto.acc_LastActiveAt a)
    ++ ptr "first_seen" (dto.acc_FirstSeen a) ++ ptr "last_seen" (dto.acc_LastSeen a)
    ++ int "tx_count" (dto.acc_TxCount a)).

Definition block_json (b : dto.AccountBlock) : gval :=
  GObj (str "hash" (dto.ab_Hash b) ++ str "momentum_hash" (dto.ab_MomentumHash b)
    ++ int "momentum_timestamp" (dto.ab_MomentumTimestamp b)
    ++ int "momentum_height" (dto.ab_MomentumHeight b)
    ++ int "block_type" (dto.ab_BlockType b) ++ int "height" (dto.ab_Height b)
    ++ str "address" (dto.ab_Address b) ++ opt_str "to_address" (dto.ab_ToAddress b)
    ++ str "amount" (dto.ab_Amount b) ++ opt_str "token_standard" (dto.ab_TokenStandard b)
    ++ opt_str "data" (dto.ab_Data b) ++ opt_str "method" (dto.ab_Method b)
    ++ opt_raw "input" (dto.ab_Input b)
    ++ opt_str "paired_account_block" (dto.ab_PairedAccountBlock b)
    ++ opt_str "descendant_of" (dto.ab_DescendantOf b)).

Definition balance_json (b : dto.Balance) : gval :=
  GObj (str "address" (dto.bal_Address b) ++ str "token_standard" (dto.bal_TokenStandard b)
    ++ str "balance" (dto.bal_Balance b)
    ++ int "last_updated_timestamp" (dto.bal_LastUpdatedTimestamp b)).

Definition wrap_json (w : dto.WrapTokenRequest) : gval :=
  GObj (str "id" (dto.wrap_ID w) ++ int "network_class" (dto.wrap_NetworkClass w)
    ++ int "chain_id" (dto.wrap_ChainID w) ++ str "to_address" (dto.wrap_ToAddress w)
    ++ str "token_standard" (dto.wrap_TokenStandard w)
    ++ str "token_address" (dto.wrap_TokenAddress w)
    ++ str "amount" (dto.wrap_Amount w) ++ str "fee" (dto.wrap_Fee w)
    ++ opt_str "signature" (dto.wrap_Signature w)
    ++ int "creation_momentum_height" (dto.wrap_CreationMomentumHeight w)
    ++ int "confirmations_to_finality" (dto.wrap_ConfirmationsToFinality w)).

Definition unwrap_json (u : dto.UnwrapTokenRequest) : gval :=
  GObj (str "transaction_hash" (dto.unw_TransactionHash u) ++ int "log_index" (dto.unw_LogIndex u)
    ++ int "network_class" (dto.unw_NetworkClass u) ++ int "chain_id" (dto.unw_ChainID u)
    ++ str "to_address" (dto.unw_ToAddress u) ++ str "token_standard" (dto.unw_TokenStandard u)
    ++ str "token_address" (dto.unw_TokenAddress u) ++ str "amount" (dto.unw_Amount u)
    ++ opt_str "signature" (dto.unw_Signature u)
    ++ int "registration_momentum_height" (dto.unw_RegistrationMomentumHeight u)
    ++ bool_ "redeemed" (dto.unw_Redeemed u) ++ bool_ "revoked" (dto.unw_Revoked u)
    ++ int "redeemable_in" (dto.unw_RedeemableIn u)).

Definition fusion_json (f : dto.Fusion) : gval :=
  GObj (str "id" (dto.fus_ID f) ++ str "address" (dto.fus_Address f)
    ++ str "beneficiary" (dto.fus_Beneficiary f) ++ str "momentum_hash" (dto.fus_MomentumHash f)
    ++ int "momentum_timestamp" (dto.fus_MomentumTimestamp f)
    ++ int "momentum_height" (dto.fus_MomentumHeight f)
    ++ str "qsr_amount" (dto.fus_QsrAmount f)
    ++ int "expiration_height" (dto.fus_ExpirationHeight f)
    ++ bool_ "is_active" (dto.fus_IsActive f) ++ opt_str "cancel_id" (dto.fus_CancelID f)).

Definition momentum_json (m : dto.Momentum) : gval :=
  GObj (int "height" (dto.mom_Height m) ++ str "hash" (dto.mom_Hash m)
    ++ int "timestamp" (dto.mom_Timestamp m) ++ int "tx_count" (dto.mom_TxCount m)
    ++ str "producer" (dto.mom_Producer m) ++ opt_str "producer_owner" (dto.mom_ProducerOwner m)
    ++ opt_str "producer_name" (dto.mom_ProducerName m)).

Definition pagination_json (p : dto.Pagination) : gval :=
  GObj (int "page" (dto.pag_Page p) ++ int "page_size" (dto.pag_PageSize p)
    ++ int "total" (dto.pag_Total p)).

Definition page_json {A} (f : A -> gval) (p : dto.Page A) : gval :=
  GObj [("data", made f (dto.page_Data p)); ("pagination", pagination_json (dto.page_Pagination p))].

(** [map[string]interface{}{"data": rows}] *)
Definition data_json {A} (f : A -> gval) (l : list A) : gval := GObj [("data", made f l)].

Definition pillar_json (p : dto.Pillar) : gval :=
  GObj (str "owner_address" (dto.pil_OwnerAddress p)
    ++ str "producer_address" (dto.pil_ProducerAddress p)
    ++ str "withdraw_address" (dto.pil_WithdrawAddress p) ++ str "name" (dto.pil_Name p)
    ++ int "rank" (dto.pil_Rank p)
    ++ int "give_momentum_reward_percentage" (dto.pil_GiveMomentumRewardPercentage p)
    ++ int "give_delegate_reward_percentage" (dto.pil_GiveDelegateRewardPercentage p)
    ++ bool_ "is_revocable" (dto.pil_IsRevocable p) ++ int "revoke_cooldown" (dto.pil_RevokeCooldown p)
    ++ int "revoke_timestamp" (dto.pil_RevokeTimestamp p) ++ str "weight" (dto.pil_Weight p)
    ++ int "epoch_produced_momentums" (dto.pil_EpochProducedMomentums p)
    ++ int "epoch_expected_momentums" (dto.pil_EpochExpectedMomentums p)
    ++ str "slot_cost_qsr" (dto.pil_SlotCostQsr p)
    ++ int "spawn_timestamp" (dto.pil_SpawnTimestamp p)
    ++ [("voting_activity", GFloat (dto.pil_VotingActivity p))]
    ++ int "produced_momentum_count" (dto.pil_ProducedMomentumCount p)
    ++ bool_ "is_revoked" (dto.pil_IsRevoked p)).

Definition delegator_json (d : dto.PillarDelegator) : gval :=
  GObj (str "address" (dto.pd_Address d)
    ++ int "delegation_start_timestamp" (dto.pd_DelegationStartTimestamp d)).

Definition project_json (p : dto.Project) : gval :=
  GObj (str "id" (dto.prj_ID p) ++ str "voting_id" (dto.prj_VotingID p)
    ++ str "owner" (dto.prj_Owner p) ++ str "name" (dto.prj_Name p)
    ++ opt_str "description" (dto.prj_Description p) ++ opt_str "url" (dto.prj_URL p)
    ++ str "znn_funds_needed" (dto.prj_ZnnFundsNeeded p)
    ++ str "qsr_funds_needed" (dto.prj_QsrFundsNeeded p)
    ++ int "creation_timestamp" (dto.prj_CreationTimestamp p)
    ++ int "last_update_timestamp" (dto.prj_LastUpdateTimestamp p)
    ++ int "status" (dto.prj_Status p) ++ int "yes_votes" (dto.prj_YesVotes p)
    ++ int "no_votes" (dto.prj_NoVotes p) ++ int "total_votes" (dto.prj_TotalVotes p)).

Definition phase_json (p : dto.ProjectPhase) : gval :=
  GObj (str "id" (dto.ph_ID p) ++ str "project_id" (dto.ph_ProjectID p)
    ++ str "voting_id" (dto.ph_VotingID p) ++ str "name" (dto.ph_Name p)
    ++ opt_str "description" (dto.ph_Description p) ++ opt_str "url" (dto.ph_URL p)
    ++ str "znn_funds_needed" (dto.ph_ZnnFundsNeeded p)
    ++ str "qsr_funds_needed" (dto.ph_QsrFundsNeeded p)
    ++ int "creation_timestamp" (dto.ph_CreationTimestamp p)
    ++ int "accepted_timestamp" (dto.ph_AcceptedTimestamp p)
    ++ int "status" (dto.ph_Status p) ++ int "yes_votes" (dto.ph_YesVotes p)
    ++ int "no_votes" (dto.ph_NoVotes p) ++ int "total_votes" (dto.ph_TotalVotes p)).

Definition cumulative_json (c : dto.CumulativeReward) : gval :=
  GObj (str "address" (dto.cr_Address c) ++ str "reward_type" (dto.cr_RewardType c)
    ++ str "amount" (dto.cr_Amount c) ++ str "token_standard" (dto.cr_TokenStandard c)).

Definition reward_json (r : dto.RewardTransaction) : gval :=
  GObj (str "hash" (dto.rt_Hash r) ++ str "address" (dto.rt_Address r)
    ++ str "reward_type" (dto.rt_RewardType r)
    ++ int "momentum_timestamp" (dto.rt_MomentumTimestamp r)
    ++ int "momentum_height" (dto.rt_MomentumHeight r)
    ++ int "account_height" (dto.rt_AccountHeight r) ++ str "amount" (dto.rt_Amount r)
    ++ str "token_standard" (dto.rt_TokenStandard r)
    ++ opt_str "source_address" (dto.rt_SourceAddress r)).

Definition sentinel_json (s : dto.Sentinel) : gval :=
  GObj (str "owner" (dto.sen_Owner s)
    ++ int "registration_timestamp" (dto.sen_RegistrationTimestamp s)
    ++ bool_ "is_revocable" (dto.sen_IsRevocable s)
    ++ opt_str "revoke_cooldown" (dto.sen_RevokeCooldown s) ++ bool_ "active" (dto.sen_Active s)).

Definition stake_json (s : dto.Stake) : gval :=
  GObj (str "id" (dto.stk_ID s) ++ str "address" (dto.stk_Address s)
    ++ int "start_timestamp" (dto.stk_StartTimestamp s)
    ++ int "expiration_timestamp" (dto.stk_ExpirationTimestamp s)
    ++ str "znn_amount" (dto.stk_ZnnAmount s) ++ int "duration_in_sec" (dto.stk_DurationInSec s)
    ++ bool_ "is_active" (dto.stk_IsActive s) ++ opt_str "cancel_id" (dto.stk_CancelID s)).

Definition status_json (s : dto.Status) : gval :=
  GObj (int "latest_height" (dto.st_LatestHeight s) ++ int "latest_timestamp" (dto.st_LatestTimestamp s)
    ++ int "indexer_lag_seconds" (dto.st_IndexerLagSeconds s) ++ str "version" (dto.st_Version s)).

Definition token_json (t : dto.Token) : gval :=
  GObj (str "token_standard" (dto.tok_TokenStandard t) ++ str "name" (dto.tok_Name t)
    ++ str "symbol" (dto.tok_Symbol t) ++ opt_str "domain" (dto.tok_Domain t)
    ++ int "decimals" (dto.tok_Decimals t) ++ str "owner" (dto.tok_Owner t)
    ++ str "total_supply" (dto.tok_TotalSupply t) ++ str "max_supply" (dto.tok_MaxSupply t)
    ++ bool_ "is_burnable" (dto.tok_IsBurnable t) ++ bool_ "is_mintable" (dto.tok_IsMintable t)
    ++ bool_ "is_utility" (dto.tok_IsUtility t) ++ str "total_burned" (dto.tok_TotalBurned t)
    ++ int "last_update_timestamp" (dto.tok_LastUpdateTimestamp t)
    ++ int "holder_count" (dto.tok_HolderCount t)
    ++ int "transaction_count" (dto.tok_TransactionCount t)).

Definition vote_json (v : dto.Vote) : gval :=
  GObj (int "id" (dto.vote_ID v) ++ str "momentum_hash" (dto.vote_MomentumHash v)
    ++ int "momentum_timestamp" (dto.vote_MomentumTimestamp v)
    ++ int "momentum_height" (dto.vote_MomentumHeight v)
    ++ str "voter_address" (dto.vote_VoterAddress v) ++ str "project_id" (dto.vote_ProjectID v)
    ++ opt_str "phase_id" (dto.vote_PhaseID v) ++ str "voting_id" (dto.vote_VotingID v)
    ++ int "vote" (dto.vote_Vote v)).

(** The lists of a tally and of a report are appended to nil slices. *)
Definition tally_json (t : dto.ProposalVoteTally) : gval :=
  GObj (str "voting_id" (dto.tally_VotingID t) ++ int "yes_count" (dto.tally_YesCount t)
    ++ int "no_count" (dto.tally_NoCount t) ++ int "abstain_count" (dto.tally_AbstainCount t)
    ++ int "no_vote_count" (dto.tally_NoVoteCount t)
    ++ [("yes_pillars", appended GStr (dto.tally_YesPillars t));
        ("no_pillars", appended GStr (dto.tally_NoPillars t));
        ("abstain_pillars", appended GStr (dto.tally_AbstainPillars t));
        ("no_vote_pillars", appended GStr (dto.tally_NoVotePillars t))]).

Definition phase_tally_json (p : dto.PhaseVoteTally) : gval :=
  GObj (str "phase_id" (dto.pht_PhaseID p) ++ str "phase_name" (dto.pht_PhaseName p)
    ++ [("vote", tally_json (dto.pht_Vote p))]).

Definition report_json (r : dto.ProjectVotingReport) : gval :=
  GObj (str "project_id" (dto.pvr_ProjectID r) ++ str "project_name" (dto.pvr_ProjectName r)
    ++ int "active_pillar_count" (dto.pvr_ActivePillarCount r)
    ++ [("project", tally_json (dto.pvr_Project r));
        ("phases", appended phase_tally_json (dto.pvr_Phases r))]).

Definition vote_entry_json (e : dto.PillarVoteEntry) : gval :=
  GObj (str "project_id" (dto.pve_ProjectID e) ++ opt_str "project_name" (dto.pve_ProjectName e)
    ++ opt_str "phase_id" (dto.pve_PhaseID e) ++ opt_str "phase_name" (dto.pve_PhaseName e)
    ++ str "voting_id" (dto.pve_VotingID e) ++ str "vote" (dto.pve_Vote e)
    ++ int "momentum_height" (dto.pve_MomentumHeight e)
    ++ int "momentum_timestamp" (dto.pve_MomentumTimestamp e)).

Definition history_json (h : dto.PillarVotingHistory) : gval :=
  GObj (str "pillar_name" (dto.pvh_PillarName h) ++ str "pillar_owner" (dto.pvh_PillarOwner h)
    ++ int "total_votes" (dto.pvh_TotalVotes h) ++ int "yes_count" (dto.pvh_YesCount h)
    ++ int "no_count" (dto.pvh_NoCount h) ++ int "abstain_count" (dto.pvh_AbstainCount h)
    ++ [("votes", made vote_entry_json (dto.pvh_Votes h))]).

(** ** internal/api/httpx *)

Definition problem_json (p : Problem) : gval :=
  GObj (str "type" (pb_Type p) ++ str "title" (pb_Title p) ++ int "status" (pb_Status p)
    ++ opt_str "detail" (pb_Detail p) ++ opt_str "instance" (pb_Instance p)
    ++ opt_str "code" (pb_Code p)).

Definition member_json (m : Member) : gval :=
  match m with MStr s => GStr s | MInt z => GInt z end.

Definition field_le (a b : string * gval) : Prop := String.leb (fst a) (fst b) = true.
#[export] Instance field_le_dec : RelDecision field_le := fun a b => bool_eq_dec _ _.

Definition payload_json (p : Payload) : gval :=
  match p with
  | PObject fields => GObj (merge_sort field_le (map (fun kv => (fst kv, member_json (snd kv))) fields))
  | PStatus s => status_json s
  | PMomentum m => momentum_json m
  | PMomentums p => page_json momentum_json p
  | PAccount a => account_json a
  | PAccountBlock b => block_json b
  | PAccountBlocks p => page_json block_json p
  | PBalances l => data_json balance_json l
  | PHolders p => page_json balance_json p
  | PToken t => token_json t
  | PTokens p => page_json token_json p
  | PPillar p => pillar_json p
  | PPillars p => page_json pillar_json p
  | PDelegators p => page_json delegator_json p
  | PPillarVotes h => history_json h
  | PSentinels p => page_json sentinel_json p
  | PStakes p => page_json stake_json p
  | PFusions p => page_json fusion_json p
  | PCumulative l => data_json cumulative_json l
  | PRewards p => page_json reward_json p
  | PProject p => project_json p
  | PProjects p => page_json project_json p
  | PPhases l => data_json phase_json l
  | PVotes p => page_json vote_json p
  | PReport r => report_json r
  | PWraps p => page_json wrap_json p
  | PUnwraps p => page_json unwrap_json p
  end.

Definition body_json (b : Body) : gval :=
  match b with BJson p => payload_json p | BProblem p => problem_json p end.

(** [writeFrame] and [writeTxFrame]: the bytes of a frame, or the error that drops the
    connection. *)
Definition writeFrame (float_text : spec_float -> string) (m : dto.Momentum) : option string :=
  Marshal float_text (momentum_json m).

Definition writeTxFrame (float_text : spec_float -> string) (b : dto.AccountBlock) : option string :=
  Marshal float_text (block_json b).
