(* ===== verification/MarshalTheorems.v ===== *)
(** What the streams write can be read: the text of a value whose raw parts are JSON parses to
    its members in their order, and a frame of either stream, decoded with its type's tags, is
    the event it was made of. First, that compacting what [json.Marshal] wrote changes nothing: the decoded inputs the indexer sends with a block's notification are
    forwarded to the streams' clients as they are. *)

From Stdlib Require Import Floats.SpecFloat.
From S2P Require Import Prelude.
From S2P Require Import Models.
From S2P Require Import Json.
From S2P Require Import Text.
From S2P Require Import Dto.
From S2P Require Import Httpx.
From S2P Require Import Wire.
From S2P Require Import ScannerTheorems.
From S2P Require Import WireTheorems.
From S2P Require Import Marshal.
#[local] Open Scope string_scope.
#[local] Open Scope Z_scope.

#[local] Abbreviation len := String.length.

(** ** Compaction

    Fuel. *)

Lemma compact_enough f1 f2 inside s :
  (len s <= f1)%nat -> (len s <= f2)%nat -> compact_fuel f1 inside s = compact_fuel f2 inside s.
Proof.
  revert f2 inside s. induction f1 as [|f1 IH]; intros f2 inside [|c s] H1 H2; cbn in H1;
    [by destruct f2|lia|by destruct f2|].
  destruct f2 as [|f2]; cbn in H2; [lia|]. cbn [compact_fuel]. destruct inside.
  - destruct (Ascii.eqb c backslash).
    { destruct s as [|e s]; [done|]. cbn in H1, H2. by rewrite (IH f2 true s) by lia. }
    destruct (Ascii.eqb c quote_char); [by rewrite (IH f2 false s) by lia|].
    destruct (strip_prefix (bytes_of [226; 128; 168]%nat) (String c s)) as [r|] eqn:E1.
    { apply strip_prefix_len in E1. cbn in E1. by rewrite (IH f2 true r) by lia. }
    destruct (strip_prefix (bytes_of [226; 128; 169]%nat) (String c s)) as [r|] eqn:E2.
    { apply strip_prefix_len in E2. cbn in E2. by rewrite (IH f2 true r) by lia. }
    by rewrite (IH f2 true s) by lia.
  - destruct (is_space c); rewrite ?(IH f2 false s), ?(IH f2 (Ascii.eqb c quote_char) s) by lia; done.
Qed.

(** Compaction from inside or outside a literal, with fuel enough. *)
Definition compact_at (inside : bool) (s : string) : string := compact_fuel (len s) inside s.

Lemma compact_step fuel inside s :
  (len s <= fuel)%nat -> compact_fuel fuel inside s = compact_at inside s.
Proof. intros H. apply compact_enough; [done|lia]. Qed.

(** ** Literals *)

Definition code (c : ascii) (n : nat) : bool := Nat.eqb (nat_of_ascii c) n.

(** Text of a literal that compaction leaves: escapes, and bytes that are not escaped. *)
Fixpoint settled (e : string) : bool :=
  match e with
  | EmptyString => true
  | String c e' =>
      if Ascii.eqb c backslash then match e' with String _ e'' => settled e'' | EmptyString => false end
      else if Ascii.eqb c quote_char then false
      else if code c 60 || code c 62 || code c 38 then false
      else if code c 226 then
        match e' with
        | String b (String d _) => negb (code b 128 && (code d 168 || code d 169)) && settled e'
        | _ => false
        end
      else settled e'
  end.

Lemma strip_separator c b d t :
  code c 226 = true -> negb (code b 128 && (code d 168 || code d 169)) = true ->
  strip_prefix (bytes_of [226; 128; 168]%nat) (String c (String b (String d t))) = None
  /\ strip_prefix (bytes_of [226; 128; 169]%nat) (String c (String b (String d t))) = None.
Proof.
  intros Hc%Nat.eqb_eq Hbd. cbn [bytes_of fold_right strip_prefix].
  destruct (Ascii.eqb_spec (ascii_of_nat 128) b) as [<-|];
    [|by destruct (Ascii.eqb _ c)].
  destruct (Ascii.eqb_spec (ascii_of_nat 168) d) as [<-|]; [discriminate Hbd|].
  destruct (Ascii.eqb_spec (ascii_of_nat 169) d) as [<-|]; [discriminate Hbd|].
  by destruct (Ascii.eqb _ c).
Qed.

Lemma strip_other c t :
  code c 226 = false ->
  strip_prefix (bytes_of [226; 128; 168]%nat) (String c t) = None
  /\ strip_prefix (bytes_of [226; 128; 169]%nat) (String c t) = None.
Proof.
  intros Hc%Nat.eqb_neq. cbn [bytes_of fold_right strip_prefix].
  destruct (Ascii.eqb_spec (ascii_of_nat 226) c) as [<-|]; [by destruct Hc|done].
Qed.

Lemma plain_byte {B} c (x y : B) :
  code c 60 || code c 62 || code c 38 = false ->
  match nat_of_ascii c with 60 | 62 | 38 => x | _ => y end%nat = y.
Proof. destruct c as [[] [] [] [] [] [] [] []]; intros H; first [discriminate H|reflexivity]. Qed.

Lemma settled_compact e t fuel :
  settled e = true -> (len (e +:+ t) <= fuel)%nat ->
  compact_fuel fuel true (e +:+ t) = e +:+ compact_at true t.
Proof.
  remember (len e) as n eqn:En. revert e fuel En.
  induction (Nat.lt_wf_0 n) as [n _ IH]. intros e fuel -> He Hf.
  destruct e as [|c e]; [rewrite !string_nil_app in *; by apply compact_step|].
  rewrite !string_app_cons in *. destruct fuel as [|fuel]; [cbn in Hf; lia|]. cbn in Hf.
  cbn [compact_fuel]. cbn [settled] in He.
  destruct (Ascii.eqb c backslash).
  { destruct e as [|x e]; [done|]. rewrite string_app_cons in *. cbn in Hf.
    by rewrite (IH (len e)) by (cbn; lia || done). }
  destruct (Ascii.eqb c quote_char); [done|].
  destruct (code c 60 || code c 62 || code c 38) eqn:Ec; [done|].
  rewrite plain_byte by done.
  assert (strip_prefix (bytes_of [226; 128; 168]%nat) (String c (e +:+ t)) = None
          /\ strip_prefix (bytes_of [226; 128; 169]%nat) (String c (e +:+ t)) = None) as [-> ->].
  { destruct (code c 226) eqn:E2; [|by apply strip_other].
    destruct e as [|b [|d e]]; [done|done|]. apply andb_true_iff in He as [He _].
    rewrite !string_app_cons. by apply strip_separator. }
  rewrite (IH (len e)); [done|cbn; lia|done| |lia].
  destruct (code c 226); [|done]. destruct e as [|b [|d e]]; [done|done|].
  by apply andb_true_iff in He as [_ He].
Qed.

Lemma settled_app a b : settled a = true -> settled b = true -> settled (a +:+ b) = true.
Proof.
  remember (len a) as n eqn:En. revert a En. induction (Nat.lt_wf_0 n) as [n _ IH].
  intros a -> Ha Hb. destruct a as [|c a]; [done|]. rewrite string_app_cons. cbn [settled] in *.
  destruct (Ascii.eqb c backslash).
  { destruct a as [|x a]; [done|]. rewrite string_app_cons. apply (IH (len a)); [cbn; lia|done..]. }
  destruct (Ascii.eqb c quote_char); [done|].
  destruct (code c 60 || code c 62 || code c 38); [done|].
  destruct (code c 226); [|apply (IH (len a)); [cbn; lia|done..]].
  destruct a as [|x [|y a]]; [done|done|]. apply andb_true_iff in Ha as [H1 H2].
  specialize (IH (len (String x (String y a))) ltac:(cbn; lia) _ eq_refl H2 Hb).
  rewrite !string_app_cons in *. by rewrite H1, IH.
Qed.

(** The bytes of a sequence longer than one. *)
Lemma utf8_seq_bytes s a b r rest :
  utf8_seq s = Some (String a (String b r), rest) ->
  (194 <= nat_of_ascii a)%nat /\ (128 <= nat_of_ascii b <= 191)%nat
  /\ match r with
     | EmptyString => code a 226 = false
     | String c EmptyString => (128 <= nat_of_ascii c <= 191)%nat
     | String c (String d EmptyString) =>
         code a 226 = false /\ (128 <= nat_of_ascii c <= 191)%nat /\ (128 <= nat_of_ascii d <= 191)%nat
     | _ => False
     end.
Proof.
  destruct s as [|x s1]; [done|]. cbn [utf8_seq]. unfold code.
  destruct (in_range 0 127 x) eqn:E; [done|]. unfold in_range, cont, in_range.
  destruct s1 as [|y s2]; [done|]. destruct (_ && _) eqn:E2.
  { intros [= <- <- <- _]. rewrite ?andb_true_iff, ?Nat.leb_le in E2. rewrite Nat.eqb_neq. lia. }
  destruct s2 as [|c s3]; [done|]. destruct (_ || _ || _ || _) eqn:E3.
  { intros [= <- <- <- _]. repeat (rewrite ?orb_true_iff, ?andb_true_iff, ?Nat.leb_le in E3). lia. }
  destruct s3 as [|d s4]; [done|]. destruct (_ || _ || _) eqn:E4 in |- *; [|done].
  intros [= <- <- <- _]. repeat (rewrite ?orb_true_iff, ?andb_true_iff, ?Nat.leb_le in E4).
  rewrite Nat.eqb_neq. lia.
Qed.

Lemma settled_ascii a : in_range 0 127 a = true -> settled (escape_ascii a) = true.
Proof.
  destruct a as [[] [] [] [] [] [] [] []]; intros H;
    first [discriminate H|vm_compute; reflexivity].
Qed.

Lemma continuation_plain c :
  (128 <= nat_of_ascii c <= 191)%nat ->
  Ascii.eqb c backslash = false /\ Ascii.eqb c quote_char = false
  /\ code c 60 || code c 62 || code c 38 = false /\ code c 226 = false.
Proof.
  intros H. unfold code. repeat split; [by apply eqb_code_ne; (change (nat_of_ascii backslash) with 92%nat || change (nat_of_ascii quote_char) with 34%nat); lia..| |].
  - rewrite !orb_false_iff, !Nat.eqb_neq. lia.
  - rewrite Nat.eqb_neq. lia.
Qed.

Lemma lead_plain c :
  (194 <= nat_of_ascii c)%nat ->
  Ascii.eqb c backslash = false /\ Ascii.eqb c quote_char = false
  /\ code c 60 || code c 62 || code c 38 = false.
Proof.
  intros H. unfold code. repeat split; [by apply eqb_code_ne; (change (nat_of_ascii backslash) with 92%nat || change (nat_of_ascii quote_char) with 34%nat); lia..|].
  rewrite !orb_false_iff, !Nat.eqb_neq. lia.
Qed.

Lemma escape_rune_separator a b c :
  code a 226 && code b 128 && (code c 168 || code c 169) = true ->
  settled (escape_rune (String a (String b (String c "")))) = true.
Proof.
  rewrite !andb_true_iff, orb_true_iff. unfold code. rewrite !Nat.eqb_eq.
  intros [[H1 H2] H3]. unfold escape_rune. rewrite H1, H2. by destruct H3 as [->| ->].
Qed.

Lemma escape_rune_other a b c :
  code a 226 && code b 128 && (code c 168 || code c 169) = false ->
  escape_rune (String a (String b (String c ""))) = String a (String b (String c "")).
Proof.
  intros H. destruct (escape_rune_cases (String a (String b (String c "")))) as [E|[E|E]]; [done|..];
    injection E as -> -> ->; discriminate H.
Qed.

(** A sequence of two bytes or more, as the encoder writes it. *)
Lemma settled_rune s a b r rest :
  utf8_seq s = Some (String a (String b r), rest) ->
  settled (escape_rune (String a (String b r))) = true.
Proof.
  intros (Ha & Hb & Hr)%utf8_seq_bytes.
  destruct (lead_plain a Ha) as (A1 & A2 & A3), (continuation_plain b Hb) as (B1 & B2 & B3 & B4).
  destruct r as [|c [|d [|]]]; [| | |done].
  - cbn [escape_rune settled]. by rewrite A1, A2, A3, Hr, B1, B2, B3, B4.
  - destruct (continuation_plain c Hr) as (C1 & C2 & C3 & C4).
    destruct (code a 226 && code b 128 && (code c 168 || code c 169)) eqn:E;
      [by apply escape_rune_separator|].
    rewrite escape_rune_other by done. cbn [settled].
    rewrite A1, A2, A3, B1, B2, B3, B4, C1, C2, C3, C4.
    destruct (code a 226); [|done]. cbn [andb] in E. by rewrite E.
  - destruct Hr as (Ha2 & Hc & Hd).
    destruct (continuation_plain c Hc) as (C1 & C2 & C3 & C4),
      (continuation_plain d Hd) as (D1 & D2 & D3 & D4).
    cbn [escape_rune settled].
    by rewrite A1, A2, A3, Ha2, B1, B2, B3, B4, C1, C2, C3, C4, D1, D2, D3, D4.
Qed.

Lemma settled_escape fuel s : settled (escape_fuel fuel s) = true.
Proof.
  revert s. induction fuel as [|fuel IH]; intros [|c s]; [done..|]. cbn [escape_fuel].
  destruct (utf8_seq (String c s)) as [[r rest]|] eqn:E; [|by apply settled_app].
  destruct r as [|a [|b r]].
  - destruct (utf8_seq_app _ _ _ E) as (_ & Hr & _). cbn in Hr. lia.
  - apply settled_app; [|done]. apply settled_ascii. by destruct (utf8_seq_single _ _ _ E).
  - apply settled_app; [|done]. by apply settled_rune in E.
Qed.

(** A literal passes, and what follows it is compacted on its own. *)
Lemma compact_json_string s t :
  compact_at false (json_string s +:+ t) = json_string s +:+ compact_at false t.
Proof.
  unfold json_string. rewrite !string_app_cons, !string_app_assoc, !string_app_cons, !string_nil_app.
  unfold compact_at at 1. cbn [String.length compact_fuel]. change (is_space quote_char) with false.
  change (Ascii.eqb quote_char quote_char) with true. cbn iota.
  rewrite settled_compact by (done || apply settled_escape). unfold compact_at at 1.
  cbn [String.length compact_fuel]. change (Ascii.eqb quote_char backslash) with false.
  change (Ascii.eqb quote_char quote_char) with true. done.
Qed.

(** A byte outside a literal that is neither a space nor a quote. *)
Lemma compact_outside c t :
  is_space c = false -> Ascii.eqb c quote_char = false ->
  compact_at false (String c t) = String c (compact_at false t).
Proof. intros H1 H2. unfold compact_at at 1. cbn [String.length compact_fuel]. by rewrite H1, H2. Qed.

(** ** Objects of strings *)

Definition string_member (kv : string * jval) : Prop := exists s, snd kv = JStr s.

Lemma compact_member kv t :
  string_member kv -> compact_at false (json_member kv +:+ t) = json_member kv +:+ compact_at false t.
Proof.
  intros [s E]. unfold json_member. rewrite E. cbn [json_value]. rewrite !string_app_assoc.
  rewrite compact_json_string, !string_app_cons, !string_nil_app, compact_outside by done.
  by rewrite compact_json_string.
Qed.

Lemma compact_members l t :
  Forall string_member l ->
  compact_at false (members_text l +:+ t) = members_text l +:+ compact_at false t.
Proof.
  unfold members_text. induction 1 as [|kv l Hkv Hl IH]; [done|].
  destruct l as [|kv' l]; [by apply compact_member|].
  change (String.concat "," (map json_member (kv :: kv' :: l)))
    with (json_member kv +:+ ("," +:+ String.concat "," (map json_member (kv' :: l)))).
  rewrite !string_app_assoc, compact_member, !string_app_cons, !string_nil_app by done.
  rewrite compact_outside by done. by rewrite IH.
Qed.

(** What the indexer marshals for a block's inputs is compact already. *)
Lemma compact_marshal_strings m : compact (json_marshal_strings m) = json_marshal_strings m.
Proof.
  change (compact_at false (json_marshal_strings m) = json_marshal_strings m).
  unfold json_marshal_strings. rewrite <- (string_app_nil (json_marshal _)), json_marshal_text.
  rewrite compact_outside, compact_members, compact_outside by first [done|apply Forall_forall;
    intros [k v] Hin; rewrite merge_sort_Permutation in Hin; apply elem_of_map_to_list in Hin;
    rewrite lookup_fmap in Hin; destruct (m !! k) as [s|]; [injection Hin as <-; by exists s|done]].
  done.
Qed.

Create HintDb json.

(** ** Induction on values *)

Lemma gval_rect' (P : gval -> Prop) :
  P GNull -> (forall b, P (GBool b)) -> (forall z, P (GInt z)) -> (forall f, P (GFloat f)) ->
  (forall s, P (GStr s)) -> (forall t, P (GRaw t)) ->
  (forall l, Forall P l -> P (GArr l)) ->
  (forall ms, Forall (fun kv => P (snd kv)) ms -> P (GObj ms)) ->
  forall v, P v.
Proof.
  intros H1 H2 H3 H4 H5 H6 H7 H8. fix IH 1. intros [|b|z|f|s|t|l|ms]; [done|auto..| |].
  - apply H7. induction l as [|x l IHl]; constructor; [apply IH|exact IHl].
  - apply H8. induction ms as [|[k x] ms IHl]; constructor; [apply IH|exact IHl].
Qed.

Section reading.
Variable float_text : spec_float -> string.
Local Abbreviation text := (json_text float_text) (only parsing).

(** What a value reads back as; the elements of an array are not kept by a reader. *)
Fixpoint node_of (v : gval) : jnode :=
  match v with
  | GNull => NNull
  | GBool b => NBool b
  | GInt z => NNum (format_int z)
  | GFloat f => NNum (float_text f)
  | GStr s => NStr (coerce_utf8 s)
  | GRaw t => default NNull (parse_json (compact t))
  | GArr _ => NArr
  | GObj ms => NObj (map (fun kv => (coerce_utf8 (fst kv), (node_of (snd kv), text (snd kv)))) ms)
  end.

Definition member_of (kv : string * gval) : member :=
  (coerce_utf8 (fst kv), (node_of (snd kv), text (snd kv))).

(** The text is read where [d] more brackets may be opened. *)
Definition reads (d : Z) (t : string) (n : jnode) : Prop := scans d (JRaw t) n.

(** A value whose floats and raw parts read, and that is not too deep. *)
Fixpoint legible (d : Z) (v : gval) : Prop :=
  match v with
  | GFloat f => reads d (float_text f) (NNum (float_text f))
  | GRaw t => reads d (compact t) (default NNull (parse_json (compact t)))
  | GArr l => 0 < d /\ (fix all l := match l with
                                     | [] => True
                                     | x :: l' => legible (d - 1) x /\ all l'
                                     end) l
  | GObj ms => 0 < d /\ (fix all ms := match ms with
                                       | [] => True
                                       | (_, x) :: ms' => legible (d - 1) x /\ all ms'
                                       end) ms
  | _ => True
  end.

Lemma legible_arr d l : legible d (GArr l) <-> 0 < d /\ Forall (legible (d - 1)) l.
Proof.
  cbn. apply and_iff_compat_l. induction l as [|x l IH]; [by rewrite Forall_nil|].
  by rewrite Forall_cons, IH.
Qed.

Lemma legible_obj d ms :
  legible d (GObj ms) <-> 0 < d /\ Forall (fun kv => legible (d - 1) (snd kv)) ms.
Proof.
  cbn. apply and_iff_compat_l. induction ms as [|[k x] ms IH]; [by rewrite Forall_nil|].
  by rewrite Forall_cons, IH.
Qed.

(** ** Texts *)

Lemma reads_literal d c t n :
  (forall u fuel, stops u = true -> scan_value (S fuel) d (String c t +:+ u) = Some (n, u)) ->
  is_space c = false -> reads d (String c t) n.
Proof.
  intros Hs Hc u Hu. cbn [json_value]. split.
  - rewrite string_app_cons. cbn [skip_space]. by rewrite Hc.
  - intros [|fuel] Hf; [lia|]. by apply Hs.
Qed.

(** No value's text is empty or starts with a closing bracket. *)
Lemma reads_head d t n u : reads d t n -> strip_prefix "]" (t +:+ u) = None.
Proof.
  intros H. destruct (H "" eq_refl) as [_ Hs]. cbn [json_value] in Hs.
  specialize (Hs (S (String.length t)) ltac:(lia)). rewrite string_app_nil in Hs.
  destruct t as [|c t]; [discriminate Hs|]. rewrite string_app_cons. cbn [strip_prefix].
  destruct (Ascii.eqb_spec "]" c) as [<-|]; [discriminate Hs|done].
Qed.

Lemma concat_comma (t t' : string) ts :
  String.concat "," (t :: t' :: ts) = t +:+ ("," +:+ String.concat "," (t' :: ts)).
Proof. done. Qed.

(** The elements of an array. *)
Lemma scan_elements_text d ts ns u fuel :
  ts <> [] -> Forall2 (reads d) ts ns ->
  (String.length (String.concat "," ts) + 1 < fuel)%nat ->
  scan_elements fuel d (String.concat "," ts +:+ String "]" u) = Some u.
Proof.
  intros Hne Hall. revert fuel Hne.
  induction Hall as [|t n ts ns Ht Hl IH]; intros fuel Hne Hf; [done|].
  destruct fuel as [|fuel]; [lia|]. cbn [scan_elements].
  destruct ts as [|t' ts].
  - cbn [String.concat] in *. destruct (Ht (String "]" u) eq_refl) as [_ Hs].
    cbn [json_value] in Hs. rewrite Hs by lia. done.
  - rewrite concat_comma in *. rewrite !length_string_app in Hf.
    cbn [String.length] in Hf. rewrite !string_app_assoc.
    destruct (Ht ("," +:+ (String.concat "," (t' :: ts) +:+ String "]" u)) eq_refl) as [_ Hs].
    cbn [json_value] in Hs. rewrite Hs by lia. cbn [mbind option_bind].
    change (skip_space ("," +:+ ?s)) with ("," +:+ s). rewrite strip_prefix_app.
    inversion Hl as [|? n' ? ns' Ht' Hl']; subst.
    assert (skip_space (String.concat "," (t' :: ts) +:+ String "]" u)
            = String.concat "," (t' :: ts) +:+ String "]" u) as ->.
    { destruct ts as [|t'' ts]; [apply (Ht' (String "]" u) eq_refl)|].
      rewrite concat_comma, !string_app_assoc. by apply (Ht' ("," +:+ _) eq_refl). }
    apply IH; [done|]. lia.
Qed.

Lemma reads_array d ts ns :
  0 < d -> Forall2 (reads (d - 1)) ts ns -> reads d ("[" +:+ String.concat "," ts +:+ "]") NArr.
Proof.
  intros Hd Hall. apply scans_enough. intros u Hu. cbn [json_value].
  rewrite !string_app_assoc, !string_app_cons, !string_nil_app. split; [done|].
  exists (S (S (S (String.length (String.concat "," ts))))). cbn [scan_value].
  change (Ascii.eqb "[" quote_char) with false. change (Ascii.eqb "[" "{") with false.
  change (Ascii.eqb "[" "[") with true. cbn iota. rewrite (proj2 (Z.leb_gt d 0)) by lia.
  destruct ts as [|t ts]; [done|]. inversion Hall as [|? n ? ns' Ht Hl]; subst.
  assert (skip_space (String.concat "," (t :: ts) +:+ String "]" u)
          = String.concat "," (t :: ts) +:+ String "]" u
          /\ strip_prefix "]" (String.concat "," (t :: ts) +:+ String "]" u) = None) as [-> ->].
  { destruct ts as [|t' ts].
    - split; [apply (Ht (String "]" u) eq_refl)|]. by eapply reads_head.
    - rewrite concat_comma, !string_app_assoc.
      split; [by apply (Ht ("," +:+ _) eq_refl)|]. by eapply reads_head. }
  rewrite (scan_elements_text (d - 1) (t :: ts) (n :: ns')); [done|done|done|]. cbn [String.length]. lia.
Qed.

(** ** Values *)

Lemma reads_object d (l : list (string * gval)) (ns : list jnode) :
  0 < d -> Forall2 (fun kv n => reads (d - 1) (text (snd kv)) n) l ns ->
  reads d (text (GObj l)) (NObj (zip_with (fun kv n => (coerce_utf8 (fst kv), (n, text (snd kv)))) l ns)).
Proof.
  intros Hd Hall. apply scans_enough. intros u Hu. cbn [json_value json_text].
  set (l' := map (fun kv => (fst kv, JRaw (text (snd kv)))) l).
  assert (map (fun kv => json_string (fst kv) +:+ ":" +:+ text (snd kv)) l = map json_member l') as ->.
  { unfold l'. rewrite map_map. by apply map_ext. }
  fold (members_text l'). rewrite !string_app_assoc, !string_app_cons, !string_nil_app.
  split; [done|]. eexists. 
  rewrite (scan_object d l' ns u _ Hd); [|unfold l'; by apply Forall2_fmap_l|done].
  unfold l'. rewrite zip_with_fmap_l. done.
Qed.

(** Every legible value's text reads back as its node. *)
Lemma reads_text v d : legible d v -> reads d (text v) (node_of v).
Proof.
  revert d. induction v as [|b|z|f|s|t|l IH|ms IH] using gval_rect'; intros d Hv.
  - by apply reads_literal.
  - destruct b; by apply reads_literal.
  - apply (scans_int d z).
  - exact Hv.
  - apply (scans_string d s).
  - exact Hv.
  - apply legible_arr in Hv as [Hd Hl]. cbn [json_text node_of].
    apply (reads_array d _ (map node_of l) Hd). rewrite Forall_forall in IH, Hl.
    apply Forall2_fmap, Forall_Forall2_diag, Forall_forall. intros x Hx. by apply IH, Hl.
  - apply legible_obj in Hv as [Hd Hl]. cbn [node_of].
    replace (map (fun kv => (coerce_utf8 (fst kv), (node_of (snd kv), text (snd kv)))) ms)
      with (zip_with (fun kv n => (coerce_utf8 (fst kv), (n, text (snd kv)))) ms
              (map (fun kv => node_of (snd kv)) ms)).
    + apply reads_object; [done|]. rewrite Forall_forall in IH, Hl.
      apply Forall2_fmap_r, Forall_Forall2_diag, Forall_forall. intros [k x] Hx.
      cbn. apply (IH (k, x) Hx). by apply (Hl (k, x)).
    + clear. induction ms as [|kv ms IH]; [done|]. cbn [map zip_with]. by rewrite IH.
Qed.

(** A whole text. *)
Lemma parse_reads t n : reads maxNestingDepth t n -> parse_json t = Some n.
Proof.
  intros Ht. destruct (Ht "" eq_refl) as [Hsp Hs]. cbn [json_value] in Hsp, Hs.
  rewrite string_app_nil in Hsp, Hs. unfold parse_json. rewrite Hsp.
  rewrite Hs by lia. done.
Qed.

Lemma parse_text v : legible maxNestingDepth v -> parse_json (text v) = Some (node_of v).
Proof. intros Hv. by apply parse_reads, reads_text. Qed.
End reading.

(** ** The streams' values are legible *)

Section legible.
Variable float_text : spec_float -> string.

(** A block's input, compacted, is JSON at the depths a frame has it. *)
Definition input_reads (t : string) : Prop :=
  forall d, maxNestingDepth - 3 <= d -> reads d (compact t) (default NNull (parse_json (compact t))).

Definition fields_legible (d : Z) (ms : list (string * gval)) : Prop :=
  Forall (fun kv => legible float_text d (snd kv)) ms.

Lemma fields_app d ms ms' :
  fields_legible d ms -> fields_legible d ms' -> fields_legible d (ms ++ ms')%list.
Proof. intros H H'. by apply Forall_app. Qed.

Lemma fields_str d k s : fields_legible d (str k s).
Proof. by repeat constructor. Qed.
Lemma fields_int d k z : fields_legible d (int k z).
Proof. by repeat constructor. Qed.
Lemma fields_bool d k b : fields_legible d (bool_ k b).
Proof. by repeat constructor. Qed.
Lemma fields_opt_str d k s : fields_legible d (opt_str k s).
Proof. unfold opt_str. destruct (str_empty s); by repeat constructor. Qed.
Lemma fields_opt_int d k z : fields_legible d (opt_int k z).
Proof. unfold opt_int. destruct (z =? 0); by repeat constructor. Qed.
Lemma fields_opt_ptr d k p : fields_legible d (opt_ptr k p).
Proof. destruct p; by repeat constructor. Qed.
Lemma fields_ptr d k p : fields_legible d (ptr k p).
Proof. by destruct p; repeat constructor. Qed.
Lemma fields_one d k v : legible float_text d v -> fields_legible d [(k, v)].
Proof. by repeat constructor. Qed.
Lemma fields_cons d k v ms :
  legible float_text d v -> fields_legible d ms -> fields_legible d ((k, v) :: ms).
Proof. by constructor. Qed.

Lemma legible_fields d ms : 0 < d -> fields_legible (d - 1) ms -> legible float_text d (GObj ms).
Proof. intros. by apply legible_obj. Qed.

End legible.

#[export] Hint Resolve fields_app fields_str fields_int fields_bool fields_opt_str fields_opt_int
  fields_opt_ptr fields_ptr fields_one fields_cons : json.

(** Splits an object into its fields. *)
Ltac legible_object := apply legible_fields; [first [lia|done]|]; eauto 60 with json.

Section payloads.
Variable float_text : spec_float -> string.
Local Abbreviation legible := (legible float_text) (only parsing).

Lemma momentum_legible d m : 0 < d -> legible d (momentum_json m).
Proof. intros. legible_object. Qed.

Lemma block_legible d b :
  maxNestingDepth - 2 <= d -> (str_empty (dto.ab_Input b) = false -> input_reads (dto.ab_Input b)) ->
  legible d (block_json b).
Proof.
  intros Hd Hi. unfold maxNestingDepth in *. apply legible_fields; [lia|].
  assert (fields_legible float_text (d - 1) (opt_raw "input" (dto.ab_Input b))) as Hr.
  { unfold opt_raw. destruct (str_empty (dto.ab_Input b)); [constructor|].
    apply fields_one. apply Hi; [done|]. unfold maxNestingDepth. lia. }
  eauto 60 with json.
Qed.

End payloads.

(** *** What encodes *)

Lemma encodes_opt_str k s : forallb (fun kv => encodes (snd kv)) (opt_str k s) = true.
Proof. unfold opt_str. by destruct (str_empty s). Qed.

Lemma encodes_block b :
  (str_empty (dto.ab_Input b) = false -> is_Some (parse_json (dto.ab_Input b))) ->
  encodes (block_json b) = true.
Proof.
  intros Hi. cbn [block_json encodes]. rewrite !forallb_app, !encodes_opt_str.
  cbn [str int forallb snd encodes andb]. rewrite !andb_true_r. unfold opt_raw.
  destruct (str_empty (dto.ab_Input b)); [done|]. cbn [forallb snd encodes].
  by destruct (Hi eq_refl) as [n ->].
Qed.

(** ** Frames *)

Section frames.
Context {A : Type}.
Variable float_text : spec_float -> string.
Implicit Types (fields : list (Field A)) (a : A).

Definition members_of (ms : list (string * gval)) : list member := map (member_of float_text) ms.

Lemma decode_app fields ms ms' a :
  decode_members fields (ms ++ ms')%list a = a' ← decode_members fields ms a; decode_members fields ms' a'.
Proof.
  revert a. induction ms as [|[k [v t]] ms IH]; intros a; [done|]. cbn [app decode_members].
  destruct (find_field k fields) as [f|]; [|apply IH].
  destruct (snd f v t a) as [a'|]; [|done]. cbn [mbind option_bind]. apply IH.
Qed.

Lemma decode_str fields k set s a :
  coerce_utf8 k = k -> find_field k fields = Some (k, string_field set) ->
  decode_members fields (members_of (str k s)) a = Some (set (coerce_utf8 s) a).
Proof.
  intros Hk Hf. unfold members_of, str, member_of. cbn [map fst snd decode_members node_of].
  by rewrite Hk, Hf.
Qed.

Lemma decode_opt_str fields k set s a :
  coerce_utf8 k = k -> find_field k fields = Some (k, string_field set) -> set "" a = a ->
  decode_members fields (members_of (opt_str k s)) a = Some (set (coerce_utf8 s) a).
Proof.
  intros Hk Hf Hz. unfold opt_str. destruct s as [|c s]; [|by apply decode_str].
  change (coerce_utf8 "") with "". rewrite Hz. done.
Qed.

Lemma decode_int fields k lo hi set z a :
  coerce_utf8 k = k -> find_field k fields = Some (k, int_field lo hi set) ->
  min_int64 <= lo -> hi <= max_int64 -> lo <= z <= hi ->
  decode_members fields (members_of (int k z)) a = Some (set z a).
Proof.
  intros Hk Hf H1 H2 H3. unfold members_of, int, member_of.
  cbn [map fst snd decode_members node_of]. rewrite Hk, Hf. cbn [snd].
  by rewrite int_field_format.
Qed.

Lemma decode_uint64 fields k set z a :
  coerce_utf8 k = k -> find_field k fields = Some (k, uint64_field set) -> 0 <= z <= max_uint64 ->
  decode_members fields (members_of (int k z)) a = Some (set z a).
Proof.
  intros Hk Hf Hz. unfold members_of, int, member_of.
  cbn [map fst snd decode_members node_of]. rewrite Hk, Hf. cbn [snd].
  by rewrite uint64_field_format.
Qed.

Lemma decode_opt_raw fields k set s a :
  coerce_utf8 k = k -> find_field k fields = Some (k, raw_field set) -> set "" a = a ->
  decode_members fields (members_of (opt_raw k s)) a = Some (set (compact s) a).
Proof.
  intros Hk Hf Hz. unfold opt_raw, members_of, member_of.
  destruct s as [|c s]; cbn [str_empty map fst snd decode_members node_of json_text].
  { change (compact "") with "". by rewrite Hz. }
  by rewrite Hk, Hf.
Qed.

(** A struct's text, decoded. *)
Lemma unmarshal_text fields zero ms a :
  legible float_text maxNestingDepth (GObj ms) ->
  decode_members fields (members_of ms) zero = Some a ->
  unmarshal_struct fields zero (json_text float_text (GObj ms)) = Some a.
Proof. intros Hl Hd. unfold unmarshal_struct. by rewrite parse_text. Qed.
End frames.

(** Evaluates the record decoded so far. *)
Ltac settle_record :=
  match goal with
  | |- decode_members ?fields ?ms ?a = _ =>
      let a' := eval cbv [update_field dto.ab_Hash dto.ab_MomentumHash dto.ab_MomentumTimestamp
        dto.ab_MomentumHeight dto.ab_BlockType dto.ab_Height dto.ab_Address dto.ab_ToAddress
        dto.ab_Amount dto.ab_TokenStandard dto.ab_Data dto.ab_Method dto.ab_Input
        dto.ab_PairedAccountBlock dto.ab_DescendantOf dto.mom_Height dto.mom_Hash
        dto.mom_Timestamp dto.mom_TxCount dto.mom_Producer dto.mom_ProducerOwner
        dto.mom_ProducerName] in a in
      change (decode_members fields ms a) with (decode_members fields ms a')
  end.

(** The key of a field is its name, and the field is known. *)
Ltac known_field :=
  lazymatch goal with
  | |- coerce_utf8 _ = _ => vm_compute; reflexivity
  | |- _ => reflexivity
  end.

(** Decodes a struct field by field. *)
Ltac decode_fields :=
  unfold members_of; rewrite ?map_app;
  repeat match goal with
  | |- context [map (member_of ?ft)] => change (map (member_of ft)) with (members_of ft)
  end;
  repeat (rewrite decode_app;
    lazymatch goal with
    | |- mbind _ (decode_members _ (members_of _ (str _ _)) _) = _ => erewrite decode_str by known_field
    | |- mbind _ (decode_members _ (members_of _ (opt_str _ _)) _) = _ =>
        erewrite decode_opt_str by known_field
    | |- mbind _ (decode_members _ (members_of _ (opt_raw _ _)) _) = _ =>
        erewrite decode_opt_raw by known_field
    | |- mbind _ (decode_members _ (members_of _ (int _ _)) _) = _ =>
        first [erewrite decode_int by first [known_field|done]
              |erewrite decode_uint64 by first [known_field|done]]
    end;
    cbn [mbind option_bind]; settle_record).

Lemma frame_decodes float_text m :
  0 <= dto.mom_Height m <= max_uint64 -> min_int64 <= dto.mom_Timestamp m <= max_int64 ->
  min_int64 <= dto.mom_TxCount m <= max_int64 ->
  exists text, writeFrame float_text m = Some text /\ decode_momentum text = Some (coerced_momentum m).
Proof.
  intros H1 H2 H3. eexists. split.
  { unfold writeFrame, Marshal.
    assert (encodes (momentum_json m) = true) as ->; [|reflexivity].
    cbn. unfold opt_str. by destruct (str_empty _), (str_empty _). }
  unfold decode_momentum, UnmarshalJSON. apply unmarshal_text; [by apply momentum_legible|].
  decode_fields. erewrite decode_opt_str by known_field. reflexivity.
Qed.

(** The event after a trip through JSON, its [input] compacted. *)
Definition coerced_block (b : dto.AccountBlock) : dto.AccountBlock :=
  dto.mkAccountBlock (coerce_utf8 (dto.ab_Hash b)) (coerce_utf8 (dto.ab_MomentumHash b))
    (dto.ab_MomentumTimestamp b) (dto.ab_MomentumHeight b) (dto.ab_BlockType b) (dto.ab_Height b)
    (coerce_utf8 (dto.ab_Address b)) (coerce_utf8 (dto.ab_ToAddress b)) (coerce_utf8 (dto.ab_Amount b))
    (coerce_utf8 (dto.ab_TokenStandard b)) (coerce_utf8 (dto.ab_Data b))
    (coerce_utf8 (dto.ab_Method b)) (compact (dto.ab_Input b))
    (coerce_utf8 (dto.ab_PairedAccountBlock b)) (coerce_utf8 (dto.ab_DescendantOf b)).

Record block_dto_in_range (b : dto.AccountBlock) : Prop := mkBlockDtoInRange {
  bd_timestamp : min_int64 <= dto.ab_MomentumTimestamp b <= max_int64;
  bd_momentum : min_int64 <= dto.ab_MomentumHeight b <= max_int64;
  bd_type : min_int16 <= dto.ab_BlockType b <= max_int16;
  bd_height : min_int64 <= dto.ab_Height b <= max_int64
}.

Lemma tx_frame_decodes float_text b :
  block_dto_in_range b ->
  (str_empty (dto.ab_Input b) = false ->
   is_Some (parse_json (dto.ab_Input b)) /\ input_reads (dto.ab_Input b)) ->
  exists text, writeTxFrame float_text b = Some text /\ decode_block text = Some (coerced_block b).
Proof.
  intros [H1 H2 H3 H4] Hi. eexists. split.
  { unfold writeTxFrame, Marshal. rewrite encodes_block by (intros He; by apply Hi). reflexivity. }
  unfold decode_block, UnmarshalJSON.
  apply unmarshal_text; [apply block_legible; [done|]; intros He; by apply Hi|]. clear Hi.
  destruct b as [v1 v2 v3 v4 v5 v6 v7 v8 v9 v10 v11 v12 v13 v14 v15]. cbn in H1, H2, H3, H4.
  unfold coerced_block. cbn [dto.ab_Hash dto.ab_MomentumHash dto.ab_MomentumTimestamp
    dto.ab_MomentumHeight dto.ab_BlockType dto.ab_Height dto.ab_Address dto.ab_ToAddress
    dto.ab_Amount dto.ab_TokenStandard dto.ab_Data dto.ab_Method dto.ab_Input
    dto.ab_PairedAccountBlock dto.ab_DescendantOf].
  decode_fields. erewrite decode_opt_str by known_field. reflexivity.
Qed.

(** *** Events of the hub *)

Lemma coerced_twice m : coerced_momentum (coerced_momentum m) = coerced_momentum m.
Proof.
  unfold coerced_momentum. cbn [dto.mom_Height dto.mom_Hash dto.mom_Timestamp dto.mom_TxCount
    dto.mom_Producer dto.mom_ProducerOwner dto.mom_ProducerName]. by rewrite !coerce_idem.
Qed.

Lemma input_reads_strings m : input_reads (json_marshal_strings m).
Proof.
  intros d Hd. rewrite compact_marshal_strings. destruct (scans_inputs m) as [n Hn].
  rewrite (parse_reads _ n) by (by apply Hn). apply Hn. unfold maxNestingDepth in Hd. lia.
Qed.

Lemma parse_strings m : is_Some (parse_json (json_marshal_strings m)).
Proof. destruct (scans_inputs m) as [n Hn]. exists n. by apply parse_reads, Hn. Qed.

(** Nothing of a hub's block event changes on the way to a client. *)
Lemma coerced_block_frame ab txData :
  coerced_block (block_frame ab txData) = block_frame ab txData.
Proof.
  unfold coerced_block, block_frame, frame_of. cbn [dto.ab_Hash dto.ab_MomentumHash
    dto.ab_MomentumTimestamp dto.ab_MomentumHeight dto.ab_BlockType dto.ab_Height dto.ab_Address
    dto.ab_ToAddress dto.ab_Amount dto.ab_TokenStandard dto.ab_Data dto.ab_Method dto.ab_Input
    dto.ab_PairedAccountBlock dto.ab_DescendantOf]. rewrite !coerce_idem.
  assert (forall o, compact (default "" (json_marshal_strings <$> o))
                    = default "" (json_marshal_strings <$> o)) as Hin
    by (intros [m|]; [apply compact_marshal_strings|done]).
  by destruct (keeps_data ab txData), (keeps_input ab txData); rewrite ?coerce_idem, ?Hin.
Qed.

(** C20. The last leg of the streams: the frame a handler writes for an event of its hub is JSON,
    and a client that decodes it with the type's tags has the event itself,
    every field of it; a block's decoded inputs pass as the indexer marshalled them. *)
Theorem frames_read_back float_text :
  (forall m, 0 <= dto.mom_Height m <= max_uint64 -> min_int64 <= dto.mom_Timestamp m <= max_int64 ->
     min_int64 <= dto.mom_TxCount m <= max_int64 ->
     exists text, writeFrame float_text (coerced_momentum m) = Some text
       /\ decode_momentum text = Some (coerced_momentum m))
  /\ (forall ab txData, block_in_range ab ->
      exists text, writeTxFrame float_text (block_frame ab txData) = Some text
        /\ decode_block text = Some (block_frame ab txData)).
Proof.
  split.
  - intros m H1 H2 H3.
    destruct (frame_decodes float_text (coerced_momentum m) H1 H2 H3) as (text & -> & Hd).
    exists text. by rewrite Hd, coerced_twice.
  - intros ab txData (H1 & H2 & H3 & H4).
    destruct (tx_frame_decodes float_text (block_frame ab txData)) as (text & -> & Hd);
      [by constructor| |by exists text; rewrite Hd, coerced_block_frame].
    unfold block_frame, frame_of. cbn [dto.ab_Input].
    destruct (keeps_input ab txData); [|done]. destruct (inputs_of txData) as [m|]; [|done].
    intros _. split; [apply parse_strings|apply input_reads_strings].
Qed.

(** A float printer that knows one half and zero. *)
Definition half_text (f : spec_float) : string :=
  match f with S754_finite false _ _ => "0.5" | _ => "0" end.

Definition sample_momentum : dto.Momentum := dto.mkMomentum 5 "m5" 1700000000 1 "z1p" "" "pillar".

Lemma frames_read_back_witness :
  exists text, writeFrame half_text (coerced_momentum sample_momentum) = Some text
    /\ decode_momentum text = Some sample_momentum.
Proof.
  apply (proj1 (frames_read_back half_text) sample_momentum); vm_compute; split; discriminate.
Defined.
