(* ===== verification/Openapi.v ===== *)
(** docs/api/openapi.yaml: the schemas the document gives the API's responses, the operation
    each belongs to, and when a value the encoder visits conforms to a schema.

    Theorems: what the API answers is what the document says. Every route answers every
    request, a 200 with a value of its operation's schema, anything else with a problem. Two
    operations do not keep to their schemas: the voting report of a project writes [null] for
    its empty lists, and an account [null] for times it does not know. *)

From Stdlib Require Import Floats.SpecFloat.
From S2P Require Import Prelude.
From S2P Require Import Models.
From S2P Require Import RepoLedger.
From S2P Require Import Database.
From S2P Require Import Queries.
From S2P Require Import ListQueries.
From S2P Require Import VoteQueries.
From S2P Require Import Text.
From S2P Require Import Dto.
From S2P Require Import Httpx.
From S2P Require Import Handlers.
From S2P Require Import Router.
From S2P Require Import QueryFacts.
From S2P Require Import ApiSamples.
From S2P Require Import Wire.
From S2P Require Import WireTheorems.
From S2P Require Import Marshal.
#[local] Open Scope string_scope.
#[local] Open Scope Z_scope.

(** ** Schemas *)

(** What the document uses of JSON Schema. A format says nothing about a decoded value. The
    document is of version 3.1.0, whose schemas are those of JSON Schema 2020-12: there
    [nullable], which 3.0 had, is no keyword and leaves the type as it is. *)
Inductive schema : Type :=
| SString (enum : list string)
| SAmount
| SInteger (minimum : option Z)
| SNumber
| SBoolean
| SArray (items : schema)
| SStrings
| SObject (required : list string) (properties : list (string * schema)).

(** The pattern of an amount, an optional minus and at least one digit. *)
Definition amount_pattern (s : string) : bool :=
  let '(d, r) := take_digits (default s (strip_prefix "-" s)) in
  negb (str_empty d) && str_empty r.

Definition is_string (n : jnode) : bool := match n with NStr _ => true | _ => false end.

(** An object whose properties are strings, as text. *)
Definition strings_object (text : string) : bool :=
  match parse_json text with
  | Some (NObj ms) => forallb (fun m => is_string (fst (snd m))) ms
  | _ => false
  end.

Definition has_member (ms : list (string * gval)) (k : string) : bool :=
  existsb (fun kv => String.eqb (fst kv) k) ms.

(** Members a schema does not name are free, the default of the specification. *)
Fixpoint conforms (s : schema) (v : gval) {struct s} : bool :=
  match s, v with
  | SString enum, GStr x =>
      match enum with [] => true | _ => existsb (String.eqb x) enum end
  | SAmount, GStr x => amount_pattern x
  | SInteger minimum, GInt z => match minimum with Some lo => lo <=? z | None => true end
  | SNumber, GFloat _ | SNumber, GInt _ => true
  | SBoolean, GBool _ => true
  | SArray s', GArr l => forallb (conforms s') l
  | SStrings, GRaw text => strings_object text
  | SObject required properties, GObj ms =>
      forallb (has_member ms) required
      && forallb (fun ks : string * schema =>
                    let '(k, s') := ks in
                    forallb (fun kv => negb (String.eqb (fst kv) k) || conforms s' (snd kv)) ms)
           properties
  | _, _ => false
  end.

(** ** components/schemas *)

Module openapi.
Definition string_ : schema := SString [].
Definition integer_ : schema := SInteger None.

Definition Problem : schema :=
  SObject ["type"; "title"; "status"]
    [("type", string_); ("title", string_); ("status", integer_); ("detail", string_);
     ("instance", string_); ("code", string_)].

Definition Pagination : schema :=
  SObject ["page"; "page_size"; "total"]
    [("page", integer_); ("page_size", integer_); ("total", integer_)].

Definition page_of (s : schema) : schema :=
  SObject ["data"; "pagination"] [("data", SArray s); ("pagination", Pagination)].

Definition list_of (s : schema) : schema := SObject ["data"] [("data", SArray s)].

Definition Status : schema :=
  SObject ["latest_height"; "latest_timestamp"; "indexer_lag_seconds"; "version"]
    [("latest_height", SInteger (Some 0)); ("latest_timestamp", integer_);
     ("indexer_lag_seconds", integer_); ("version", string_)].

Definition Momentum : schema :=
  SObject ["height"; "hash"; "timestamp"; "tx_count"; "producer"]
    [("height", SInteger (Some 0)); ("hash", string_); ("timestamp", integer_);
     ("tx_count", integer_); ("producer", string_); ("producer_owner", string_);
     ("producer_name", string_)].

Definition Account : schema :=
  SObject ["address"; "block_count"; "genesis_znn_balance"; "genesis_qsr_balance"; "znn_sent";
           "znn_received"; "qsr_sent"; "qsr_received"; "first_seen"; "last_seen"; "tx_count"]
    [("address", string_); ("block_count", integer_); ("public_key", string_);
     ("delegate", string_); ("delegation_start_timestamp", integer_);
     ("genesis_znn_balance", SAmount); ("genesis_qsr_balance", SAmount); ("znn_sent", SAmount);
     ("znn_received", SAmount); ("qsr_sent", SAmount); ("qsr_received", SAmount);
     ("first_active_at", integer_); ("last_active_at", integer_);
     ("first_seen", integer_); ("last_seen", integer_); ("tx_count", integer_)].

Definition Balance : schema :=
  SObject ["address"; "token_standard"; "balance"; "last_updated_timestamp"]
    [("address", string_); ("token_standard", string_); ("balance", SAmount);
     ("last_updated_timestamp", integer_)].

Definition Token : schema :=
  SObject ["token_standard"; "name"; "symbol"; "decimals"; "owner"; "total_supply"; "max_supply";
           "is_burnable"; "is_mintable"; "is_utility"; "total_burned"; "last_update_timestamp";
           "holder_count"; "transaction_count"]
    [("token_standard", string_); ("name", string_); ("symbol", string_); ("domain", string_);
     ("decimals", integer_); ("owner", string_); ("total_supply", SAmount);
     ("max_supply", SAmount); ("is_burnable", SBoolean); ("is_mintable", SBoolean);
     ("is_utility", SBoolean); ("total_burned", SAmount); ("last_update_timestamp", integer_);
     ("holder_count", integer_); ("transaction_count", integer_)].

Definition AccountBlock : schema :=
  SObject ["hash"; "momentum_hash"; "momentum_timestamp"; "momentum_height"; "block_type";
           "height"; "address"; "amount"]
    [("hash", string_); ("momentum_hash", string_); ("momentum_timestamp", integer_);
     ("momentum_height", integer_); ("block_type", integer_); ("height", integer_);
     ("address", string_); ("to_address", string_); ("amount", SAmount);
     ("token_standard", string_); ("data", string_); ("method", string_); ("input", SStrings);
     ("paired_account_block", string_); ("descendant_of", string_)].

Definition Pillar : schema :=
  SObject ["owner_address"; "producer_address"; "withdraw_address"; "name"; "rank";
           "is_revocable"; "weight"; "slot_cost_qsr"; "is_revoked"]
    [("owner_address", string_); ("producer_address", string_); ("withdraw_address", string_);
     ("name", string_); ("rank", integer_); ("give_momentum_reward_percentage", integer_);
     ("give_delegate_reward_percentage", integer_); ("is_revocable", SBoolean);
     ("revoke_cooldown", integer_); ("revoke_timestamp", integer_); ("weight", SAmount);
     ("epoch_produced_momentums", integer_); ("epoch_expected_momentums", integer_);
     ("slot_cost_qsr", SAmount); ("spawn_timestamp", integer_); ("voting_activity", SNumber);
     ("produced_momentum_count", integer_); ("is_revoked", SBoolean)].

Definition PillarDelegator : schema :=
  SObject ["address"; "delegation_start_timestamp"]
    [("address", string_); ("delegation_start_timestamp", integer_)].

Definition Sentinel : schema :=
  SObject ["owner"; "registration_timestamp"; "is_revocable"; "active"]
    [("owner", string_); ("registration_timestamp", integer_); ("is_revocable", SBoolean);
     ("revoke_cooldown", string_); ("active", SBoolean)].

Definition Stake : schema :=
  SObject ["id"; "address"; "start_timestamp"; "expiration_timestamp"; "znn_amount";
           "duration_in_sec"; "is_active"]
    [("id", string_); ("address", string_); ("start_timestamp", integer_);
     ("expiration_timestamp", integer_); ("znn_amount", SAmount); ("duration_in_sec", integer_);
     ("is_active", SBoolean); ("cancel_id", string_)].

Definition Fusion : schema :=
  SObject ["id"; "address"; "beneficiary"; "momentum_hash"; "momentum_timestamp";
           "momentum_height"; "qsr_amount"; "expiration_height"; "is_active"]
    [("id", string_); ("address", string_); ("beneficiary", string_); ("momentum_hash", string_);
     ("momentum_timestamp", integer_); ("momentum_height", integer_); ("qsr_amount", SAmount);
     ("expiration_height", integer_); ("is_active", SBoolean); ("cancel_id", string_)].

Definition reward_type : schema :=
  SString ["Unknown"; "Stake"; "Delegation"; "Liquidity"; "Sentinel"; "Pillar"].

Definition CumulativeReward : schema :=
  SObject ["address"; "reward_type"; "amount"; "token_standard"]
    [("address", string_); ("reward_type", reward_type); ("amount", SAmount);
     ("token_standard", string_)].

Definition RewardTransaction : schema :=
  SObject ["hash"; "address"; "reward_type"; "momentum_timestamp"; "momentum_height";
           "account_height"; "amount"; "token_standard"]
    [("hash", string_); ("address", string_); ("reward_type", reward_type);
     ("momentum_timestamp", integer_); ("momentum_height", integer_);
     ("account_height", integer_); ("amount", SAmount); ("token_standard", string_);
     ("source_address", string_)].

Definition Project : schema :=
  SObject ["id"; "voting_id"; "owner"; "name"; "znn_funds_needed"; "qsr_funds_needed";
           "creation_timestamp"; "last_update_timestamp"; "status"; "yes_votes"; "no_votes";
           "total_votes"]
    [("id", string_); ("voting_id", string_); ("owner", string_); ("name", string_);
     ("description", string_); ("url", string_); ("znn_funds_needed", SAmount);
     ("qsr_funds_needed", SAmount); ("creation_timestamp", integer_);
     ("last_update_timestamp", integer_); ("status", integer_); ("yes_votes", integer_);
     ("no_votes", integer_); ("total_votes", integer_)].

Definition ProjectPhase : schema :=
  SObject ["id"; "project_id"; "voting_id"; "name"; "znn_funds_needed"; "qsr_funds_needed";
           "creation_timestamp"; "accepted_timestamp"; "status"; "yes_votes"; "no_votes";
           "total_votes"]
    [("id", string_); ("project_id", string_); ("voting_id", string_); ("name", string_);
     ("description", string_); ("url", string_); ("znn_funds_needed", SAmount);
     ("qsr_funds_needed", SAmount); ("creation_timestamp", integer_);
     ("accepted_timestamp", integer_); ("status", integer_); ("yes_votes", integer_);
     ("no_votes", integer_); ("total_votes", integer_)].

Definition Vote : schema :=
  SObject ["id"; "momentum_hash"; "momentum_timestamp"; "momentum_height"; "voter_address";
           "project_id"; "voting_id"; "vote"]
    [("id", integer_); ("momentum_hash", string_); ("momentum_timestamp", integer_);
     ("momentum_height", integer_); ("voter_address", string_); ("project_id", string_);
     ("phase_id", string_); ("voting_id", string_); ("vote", integer_)].

Definition ProposalVoteTally : schema :=
  SObject ["voting_id"; "yes_count"; "no_count"; "abstain_count"; "no_vote_count";
           "yes_pillars"; "no_pillars"; "abstain_pillars"; "no_vote_pillars"]
    [("voting_id", string_); ("yes_count", integer_); ("no_count", integer_);
     ("abstain_count", integer_); ("no_vote_count", integer_); ("yes_pillars", SArray string_);
     ("no_pillars", SArray string_); ("abstain_pillars", SArray string_);
     ("no_vote_pillars", SArray string_)].

Definition PhaseVoteTally : schema :=
  SObject ["phase_id"; "phase_name"; "vote"]
    [("phase_id", string_); ("phase_name", string_); ("vote", ProposalVoteTally)].

Definition ProjectVotingReport : schema :=
  SObject ["project_id"; "project_name"; "active_pillar_count"; "project"; "phases"]
    [("project_id", string_); ("project_name", string_); ("active_pillar_count", integer_);
     ("project", ProposalVoteTally); ("phases", SArray PhaseVoteTally)].

Definition PillarVoteEntry : schema :=
  SObject ["project_id"; "voting_id"; "vote"; "momentum_height"; "momentum_timestamp"]
    [("project_id", string_); ("project_name", string_); ("phase_id", string_);
     ("phase_name", string_); ("voting_id", string_);
     ("vote", SString ["yes"; "no"; "abstain"; "unknown"]); ("momentum_height", integer_);
     ("momentum_timestamp", integer_)].

Definition PillarVotingHistory : schema :=
  SObject ["pillar_name"; "pillar_owner"; "total_votes"; "yes_count"; "no_count";
           "abstain_count"; "votes"]
    [("pillar_name", string_); ("pillar_owner", string_); ("total_votes", integer_);
     ("yes_count", integer_); ("no_count", integer_); ("abstain_count", integer_);
     ("votes", SArray PillarVoteEntry)].

Definition WrapTokenRequest : schema :=
  SObject ["id"; "network_class"; "chain_id"; "to_address"; "token_standard"; "token_address";
           "amount"; "fee"; "creation_momentum_height"; "confirmations_to_finality"]
    [("id", string_); ("network_class", integer_); ("chain_id", integer_);
     ("to_address", string_); ("token_standard", string_); ("token_address", string_);
     ("amount", SAmount); ("fee", SAmount); ("signature", string_);
     ("creation_momentum_height", integer_); ("confirmations_to_finality", integer_)].

Definition UnwrapTokenRequest : schema :=
  SObject ["transaction_hash"; "log_index"; "network_class"; "chain_id"; "to_address";
           "token_standard"; "token_address"; "amount"; "registration_momentum_height";
           "redeemed"; "revoked"; "redeemable_in"]
    [("transaction_hash", string_); ("log_index", integer_); ("network_class", integer_);
     ("chain_id", integer_); ("to_address", string_); ("token_standard", string_);
     ("token_address", string_); ("amount", SAmount); ("signature", string_);
     ("registration_momentum_height", integer_); ("redeemed", SBoolean);
     ("revoked", SBoolean); ("redeemable_in", integer_)].

(** ** paths *)

(** The schema of the 200 response of each operation under [/api/v1] that is not a stream. *)
Definition operations : list (string * schema) :=
  [("/status", Status);
   ("/momentums", page_of Momentum);
   ("/momentums/latest", Momentum);
   ("/momentums/{height}", Momentum);
   ("/accounts/{address}", Account);
   ("/accounts/{address}/balances", list_of Balance);
   ("/accounts/{address}/transactions", page_of AccountBlock);
   ("/account_blocks", page_of AccountBlock);
   ("/account_blocks/{hash}", AccountBlock);
   ("/tokens", page_of Token);
   ("/tokens/{token_standard}", Token);
   ("/tokens/{token_standard}/holders", page_of Balance);
   ("/pillars", page_of Pillar);
   ("/pillars/{name}", Pillar);
   ("/pillars/{name}/delegators", page_of PillarDelegator);
   ("/pillars/{name}/voting-report", PillarVotingHistory);
   ("/sentinels", page_of Sentinel);
   ("/stakes", page_of Stake);
   ("/accounts/{address}/stakes", page_of Stake);
   ("/fusions", page_of Fusion);
   ("/accounts/{address}/fusions", page_of Fusion);
   ("/accounts/{address}/rewards", page_of RewardTransaction);
   ("/accounts/{address}/rewards/cumulative", list_of CumulativeReward);
   ("/projects", page_of Project);
   ("/projects/{id}", Project);
   ("/projects/{id}/phases", list_of ProjectPhase);
   ("/projects/{id}/votes", page_of Vote);
   ("/projects/{id}/voting-report", ProjectVotingReport);
   ("/bridge/wraps", page_of WrapTokenRequest);
   ("/bridge/unwraps", page_of UnwrapTokenRequest);
   ("/accounts/{address}/bridge/wraps", page_of WrapTokenRequest);
   ("/accounts/{address}/bridge/unwraps", page_of UnwrapTokenRequest)].
End openapi.

(** ** Objects, field by field *)

Definition fields_conform (properties : list (string * schema)) (ms : list (string * gval)) : bool :=
  forallb (fun ks : string * schema =>
             let '(k, s) := ks in
             forallb (fun kv => negb (String.eqb (fst kv) k) || conforms s (snd kv)) ms)
    properties.

Lemma conforms_object required properties ms :
  Forall (fun k => has_member ms k = true) required -> fields_conform properties ms = true ->
  conforms (SObject required properties) (GObj ms) = true.
Proof.
  intros H1 H2. cbn [conforms]. apply andb_true_iff. split; [|exact H2].
  apply forallb_forall. intros k Hk%list_elem_of_In. by eapply Forall_forall in H1.
Qed.

Lemma has_member_here ms ms' k : has_member ms k = true -> has_member (ms ++ ms')%list k = true.
Proof. unfold has_member. rewrite existsb_app. by intros ->. Qed.

Lemma has_member_later ms ms' k : has_member ms' k = true -> has_member (ms ++ ms')%list k = true.
Proof. unfold has_member. rewrite existsb_app. intros ->. apply orb_true_r. Qed.

Lemma props_join properties ms ms' :
  fields_conform properties ms = true -> fields_conform properties ms' = true ->
  fields_conform properties (ms ++ ms')%list = true.
Proof.
  unfold fields_conform. rewrite !forallb_forall. intros H H' [k s] Hin.
  rewrite forallb_app. by rewrite (H _ Hin), (H' _ Hin).
Qed.

Lemma fields_conform_nil properties : fields_conform properties [] = true.
Proof. by induction properties as [|[k s] ps IH]. Qed.

Lemma props_opt_str properties k s :
  fields_conform properties (str k s) = true -> fields_conform properties (opt_str k s) = true.
Proof. unfold opt_str. destruct (str_empty s); [intros _; apply fields_conform_nil|done]. Qed.

Lemma props_opt_int properties k z :
  fields_conform properties (int k z) = true -> fields_conform properties (opt_int k z) = true.
Proof. unfold opt_int. destruct (z =? 0); [intros _; apply fields_conform_nil|done]. Qed.

Lemma props_opt_ptr properties k p :
  (forall z, fields_conform properties (int k z) = true) ->
  fields_conform properties (opt_ptr k p) = true.
Proof. intros H. destruct p; [apply H|apply fields_conform_nil]. Qed.

Lemma props_ptr properties k z :
  fields_conform properties (int k z) = true -> fields_conform properties (ptr k (Some z)) = true.
Proof. done. Qed.

(** One member of the wrong type is enough. *)
Lemma breaks_schema required properties ms k s v :
  (k, s) ∈ properties -> (k, v) ∈ ms -> conforms s v = false ->
  conforms (SObject required properties) (GObj ms) = false.
Proof.
  intros Hp Hm Hv. cbn [conforms]. apply andb_false_iff. right.
  apply not_true_is_false. rewrite forallb_forall. intros H.
  specialize (H (k, s) ltac:(by apply list_elem_of_In)). cbn in H. rewrite forallb_forall in H.
  specialize (H (k, v) ltac:(by apply list_elem_of_In)). cbn in H.
  by rewrite String.eqb_refl, Hv in H.
Qed.

(** ** Amounts *)

Lemma amount_format z : amount_pattern (format_int z) = true.
Proof.
  assert (forall p, take_digits (pretty (N.pos p)) = (pretty (N.pos p), "")
                    /\ str_empty (pretty (N.pos p)) = false) as Hp.
  { intros p. unfold pretty, pretty_N. rewrite decide_False by done. split.
    - pose proof (take_digits_pretty (N.pos p) "" "" eq_refl) as H. by rewrite !string_app_nil in H.
    - destruct (pretty_head (N.pos p) "") as (c & r & -> & _); [lia|done]. }
  unfold amount_pattern, format_int. destruct z as [|p|p]; [done|..].
  - change (pretty (Z.pos p)) with (pretty (N.pos p)).
    pose proof (strip_minus_pretty p "") as H. rewrite string_app_nil in H. rewrite H. cbn [from_option].
    destruct (Hp p) as [-> ->]. done.
  - change (pretty (Z.neg p)) with ("-" +:+ pretty (N.pos p)). rewrite strip_prefix_app. cbn [from_option].
    change (id ?s) with s.
    destruct (Hp p) as [-> ->]. done.
Qed.

(** One field of an object. *)
Ltac conforming_field :=
  lazymatch goal with
  | |- fields_conform _ (_ ++ _)%list = true => apply props_join; conforming_field
  | |- fields_conform _ (opt_str _ _) = true => apply props_opt_str; conforming_field
  | |- fields_conform _ (opt_int _ _) = true => apply props_opt_int; conforming_field
  | |- fields_conform _ (opt_ptr _ _) = true => apply props_opt_ptr; intros ?; reflexivity
  | |- fields_conform _ (ptr _ (Some _)) = true => apply props_ptr; reflexivity
  | |- fields_conform _ (opt_raw _ _) = true => idtac
  | |- _ => cbn; rewrite ?amount_format; first [reflexivity|idtac]
  end.

(** A required member is one of the fields that are always written. *)
Ltac required_member :=
  lazymatch goal with
  | |- has_member (_ ++ _)%list _ = true =>
      first [apply has_member_here; reflexivity|apply has_member_later; required_member]
  | |- _ => reflexivity
  end.

(** Checks a value against an object's schema, one field at a time. *)
Ltac conforming :=
  apply conforms_object; [repeat constructor; required_member|conforming_field].

Lemma momentum_conforms x :
  0 <= mom_Height x -> conforms openapi.Momentum (momentum_json (dto.FromMomentum x)) = true.
Proof. intros H. conforming. cbn. by rewrite (proj2 (Z.leb_le _ _) H). Qed.

(** An account whose times in either role are known. *)
Definition times_known (a : dto.Account) : bool :=
  bool_decide (is_Some (dto.acc_FirstSeen a)) && bool_decide (is_Some (dto.acc_LastSeen a)).

(** An account keeps to its schema exactly when both are. *)
Lemma account_conforms a :
  amount_pattern (dto.acc_GenesisZnnBalance a) = true ->
  amount_pattern (dto.acc_GenesisQsrBalance a) = true ->
  amount_pattern (dto.acc_ZnnSent a) = true -> amount_pattern (dto.acc_ZnnReceived a) = true ->
  amount_pattern (dto.acc_QsrSent a) = true -> amount_pattern (dto.acc_QsrReceived a) = true ->
  conforms openapi.Account (account_json a) = times_known a.
Proof.
  intros H1 H2 H3 H4 H5 H6. unfold times_known, account_json.
  assert (forall k, (k, GNull) ∈ ptr k None) as Hnull by (intros k; by left).
  destruct (dto.acc_FirstSeen a) as [f|]; [destruct (dto.acc_LastSeen a) as [l|]|];
    [apply conforms_object; [repeat constructor; required_member|]| |].
  - conforming_field; by rewrite ?H1, ?H2, ?H3, ?H4, ?H5, ?H6.
  - refine (breaks_schema _ _ _ "last_seen" openapi.integer_ GNull _ _ eq_refl);
      [apply list_elem_of_In; cbn; tauto|]. rewrite !elem_of_app. pose proof (Hnull "last_seen"). tauto.
  - refine (breaks_schema _ _ _ "first_seen" openapi.integer_ GNull _ _ eq_refl);
      [apply list_elem_of_In; cbn; tauto|]. rewrite !elem_of_app. pose proof (Hnull "first_seen"). tauto.
Qed.

Lemma stored_account_conforms x :
  conforms openapi.Account (account_json (dto.FromAccount x)) = times_known (dto.FromAccount x).
Proof. apply account_conforms; apply amount_format. Qed.

(** The row an address gets first: [null] where an integer is promised. *)
Example unknown_times_are_null :
  let a := dto.FromAccount (AccountRepository.new_row "z1new" 1 "") in
  conforms openapi.Account (account_json a) = false
  /\ (exists ms, account_json a = GObj ms /\ ("first_seen", GNull) ∈ ms).
Proof.
  split; [vm_compute; reflexivity|]. eexists. split; [reflexivity|].
  apply list_elem_of_In. cbn. tauto.
Qed.

Lemma balance_conforms x : conforms openapi.Balance (balance_json (dto.FromBalance x)) = true.
Proof. conforming. Qed.

Lemma token_conforms x : conforms openapi.Token (token_json (dto.FromToken x)) = true.
Proof. conforming. Qed.

Lemma pillar_conforms x : conforms openapi.Pillar (pillar_json (dto.FromPillar x)) = true.
Proof. conforming. Qed.

Lemma delegator_conforms d : conforms openapi.PillarDelegator (delegator_json d) = true.
Proof. conforming. Qed.

Lemma sentinel_conforms x : conforms openapi.Sentinel (sentinel_json (dto.FromSentinel x)) = true.
Proof. conforming. Qed.

Lemma stake_conforms x : conforms openapi.Stake (stake_json (dto.FromStake x)) = true.
Proof. conforming. Qed.

Lemma fusion_conforms x : conforms openapi.Fusion (fusion_json (dto.FromFusion x)) = true.
Proof. conforming. Qed.

Lemma reward_type_conforms r : conforms openapi.reward_type (GStr (RewardType_String r)) = true.
Proof. by destruct r. Qed.

Lemma cumulative_conforms x :
  conforms openapi.CumulativeReward (cumulative_json (dto.FromCumulativeReward x)) = true.
Proof. conforming. all: by destruct (cr_RewardType x). Qed.

Lemma reward_conforms x :
  conforms openapi.RewardTransaction (reward_json (dto.FromRewardTransaction x)) = true.
Proof. conforming. all: by destruct (rt_RewardType x). Qed.

Lemma project_conforms x : conforms openapi.Project (project_json (dto.FromProject x)) = true.
Proof. conforming. Qed.

Lemma phase_conforms x : conforms openapi.ProjectPhase (phase_json (dto.FromProjectPhase x)) = true.
Proof. conforming. Qed.

Lemma vote_conforms x : conforms openapi.Vote (vote_json (dto.FromVote x)) = true.
Proof. conforming. Qed.

Lemma wrap_conforms x :
  conforms openapi.WrapTokenRequest (wrap_json (dto.FromWrapTokenRequest x)) = true.
Proof. conforming. Qed.

Lemma unwrap_conforms x :
  conforms openapi.UnwrapTokenRequest (unwrap_json (dto.FromUnwrapTokenRequest x)) = true.
Proof. conforming. Qed.

Lemma problem_conforms p : conforms openapi.Problem (problem_json p) = true.
Proof. conforming. Qed.

Lemma status_conforms h t lag version :
  0 <= h -> conforms openapi.Status (status_json (dto.mkStatus h t lag version)) = true.
Proof. intros H. conforming. cbn. by rewrite (proj2 (Z.leb_le _ _) H). Qed.

(** A stored input is an object of strings. *)
Definition input_ok (b : AccountBlock) : Prop :=
  str_empty (ab_Input b) = false -> strings_object (ab_Input b) = true.

Lemma block_conforms x :
  input_ok x -> conforms openapi.AccountBlock (block_json (dto.FromAccountBlock x)) = true.
Proof.
  intros H. conforming. unfold opt_raw. cbn [dto.ab_Input dto.FromAccountBlock].
  destruct (str_empty (ab_Input x)) eqn:E; [apply fields_conform_nil|].
  cbn. by rewrite (H E).
Qed.


(** *** Collections *)

Lemma made_conforms {A} s (f : A -> gval) l :
  Forall (fun x => conforms s (f x) = true) l -> conforms (SArray s) (made f l) = true.
Proof.
  intros H. cbn. apply forallb_forall. intros v (x & <- & Hx)%in_map_iff.
  eapply Forall_forall in H; [exact H|]. by apply list_elem_of_In.
Qed.

Lemma data_conforms {A} s (f : A -> gval) l :
  Forall (fun x => conforms s (f x) = true) l -> conforms (openapi.list_of s) (data_json f l) = true.
Proof. intros H%made_conforms. cbn in *. by rewrite H. Qed.

Lemma page_conforms {A} s (f : A -> gval) l p size total :
  Forall (fun x => conforms s (f x) = true) l ->
  conforms (openapi.page_of s) (page_json f (dto.NewPage l p size total)) = true.
Proof. intros H%made_conforms. cbn in *. by rewrite H. Qed.

(** *** Votes *)

Lemma entry_conforms e :
  (exists code, dto.pve_Vote e = dto.VoteCodeToString code) ->
  conforms openapi.PillarVoteEntry (vote_entry_json e) = true.
Proof.
  intros [code E]. conforming. cbn. rewrite E.
  destruct code as [|[[]|[]|]|]; reflexivity.
Qed.

Lemma fold_votes raws yes no abstain votes :
  Forall (fun e => exists code, dto.pve_Vote e = dto.VoteCodeToString code) votes ->
  Forall (fun e => exists code, dto.pve_Vote e = dto.VoteCodeToString code)
    (fold_left dto.add_vote raws (yes, no, abstain, votes)).2.
Proof.
  revert yes no abstain votes. induction raws as [|r raws IH]; intros yes no abstain votes H; [done|].
  cbn [fold_left dto.add_vote].
  assert (Forall (fun e => exists code, dto.pve_Vote e = dto.VoteCodeToString code)
    (votes ++ [dto.mkPillarVoteEntry (dto.rpv_ProjectID r) (dto.rpv_ProjectName r)
       (dto.rpv_PhaseID r) (dto.rpv_PhaseName r) (dto.rpv_VotingID r)
       (dto.VoteCodeToString (dto.rpv_Vote r)) (dto.rpv_MomentumHeight r)
       (dto.rpv_MomentumTimestamp r)])%list) as Hv.
  { apply Forall_app. split; [done|]. constructor; [by eexists|constructor]. }
  destruct (dto.rpv_Vote r) as [|[[]|[]|]|]; by apply IH.
Qed.

Lemma history_conforms name owner raws :
  conforms openapi.PillarVotingHistory (history_json (dto.FromPillarVotingHistory name owner raws))
  = true.
Proof.
  unfold dto.FromPillarVotingHistory.
  pose proof (fold_votes raws 0 0 0 [] (Forall_nil_2 _)) as H.
  destruct (fold_left dto.add_vote raws (0, 0, 0, [])) as [[[yes no] abstain] votes]. cbn [snd] in H.
  assert (conforms (SArray openapi.PillarVoteEntry) (made vote_entry_json votes) = true) as Hm.
  { apply made_conforms. apply (Forall_impl _ _ _ H). apply entry_conforms. }
  conforming. cbn in *. by rewrite Hm.
Qed.

(** What of a report keeps to its schema: lists that are not empty. *)
Definition full {A} (l : list A) : bool := match l with [] => false | _ => true end.

Definition tally_full (t : dto.ProposalVoteTally) : bool :=
  full (dto.tally_YesPillars t) && full (dto.tally_NoPillars t)
  && full (dto.tally_AbstainPillars t) && full (dto.tally_NoVotePillars t).

Definition report_full (r : dto.ProjectVotingReport) : bool :=
  tally_full (dto.pvr_Project r) && full (dto.pvr_Phases r)
  && forallb (fun p => tally_full (dto.pht_Vote p)) (dto.pvr_Phases r).

Lemma appended_conforms {A} s (f : A -> gval) l :
  conforms (SArray s) (appended f l) = full l && forallb (fun x => conforms s (f x)) l.
Proof.
  destruct l as [|x l]; [done|]. unfold appended, made. cbn [conforms full andb].
  generalize (x :: l). intros l'. induction l' as [|y l' IH]; [done|]. cbn. by rewrite IH.
Qed.

Lemma names_conform l : conforms (SArray openapi.string_) (appended GStr l) = full l.
Proof. rewrite appended_conforms. rewrite (proj2 (forallb_forall _ l)); [apply andb_true_r|done]. Qed.

Lemma tally_conforms t : conforms openapi.ProposalVoteTally (tally_json t) = tally_full t.
Proof.
  unfold tally_full. rewrite <- !names_conform. unfold tally_json.
  generalize (appended GStr (dto.tally_YesPillars t)) (appended GStr (dto.tally_NoPillars t))
    (appended GStr (dto.tally_AbstainPillars t)) (appended GStr (dto.tally_NoVotePillars t)).
  intros y n a w. cbn. by rewrite !andb_true_r, !andb_assoc.
Qed.

Lemma phase_tally_conforms p :
  conforms openapi.PhaseVoteTally (phase_tally_json p) = tally_full (dto.pht_Vote p).
Proof.
  rewrite <- tally_conforms. unfold phase_tally_json, openapi.PhaseVoteTally.
  generalize (tally_json (dto.pht_Vote p)) openapi.ProposalVoteTally. intros v s. cbn.
  by rewrite !andb_true_r.
Qed.

(** A report keeps to its schema exactly when none of its lists is empty. *)
Lemma report_conforms r :
  conforms openapi.ProjectVotingReport (report_json r) = report_full r.
Proof.
  unfold report_full. rewrite <- tally_conforms, <- andb_assoc.
  assert (full (dto.pvr_Phases r) && forallb (fun p => tally_full (dto.pht_Vote p)) (dto.pvr_Phases r)
          = conforms (SArray openapi.PhaseVoteTally) (appended phase_tally_json (dto.pvr_Phases r)))
    as ->.
  { rewrite appended_conforms. f_equal. induction (dto.pvr_Phases r) as [|p l IH]; [done|].
    cbn [forallb]. by rewrite phase_tally_conforms, IH. }
  unfold report_json, openapi.ProjectVotingReport.
  generalize (tally_json (dto.pvr_Project r)) (appended phase_tally_json (dto.pvr_Phases r))
    openapi.ProposalVoteTally (SArray openapi.PhaseVoteTally).
  intros v w s s'. cbn. by rewrite !andb_true_r.
Qed.

(** A project without phases, nobody having voted: [null] where arrays are promised. *)
Example empty_report_is_null :
  let r := dto.mkProjectVotingReport "p" "name" 1
             (dto.FromProposalTally (dto.mkRawProposalTally "v" ∅ ["alice"])) [] in
  conforms openapi.ProjectVotingReport (report_json r) = false
  /\ (exists ms, report_json r = GObj ms /\ ("phases", GNull) ∈ ms).
Proof.
  split; [vm_compute; reflexivity|]. eexists. split; [reflexivity|].
  apply list_elem_of_In. cbn. tauto.
Qed.

(** ** Queries and handlers *)

(** Every row the pool shows that a schema restricts beyond the types of the columns. *)
Definition rows_ok (c : Conn) : Prop :=
  forall k,
    (forall h m, db_momentums (vw_db (cn_view c k)) !! h = Some m -> 0 <= mom_Height m)
    /\ (forall hash b, db_account_blocks (vw_db (cn_view c k)) !! hash = Some b -> input_ok b).

(** What a query answers when it answers a value. *)
Definition yields {A} (c : Conn) (P : A -> Prop) (m : Q A) : Prop :=
  forall n a n', m c n = (Ok a, n') -> P a.

(** A query that always answers. *)
Definition always {A} (c : Conn) (P : A -> Prop) (m : Q A) : Prop :=
  forall n, exists a n', m c n = (Ok a, n') /\ P a.

(** A voting report with an empty list. *)
Definition empty_lists (s : schema) (v : Payload) : Prop :=
  s = openapi.ProjectVotingReport /\ exists r, v = PReport r /\ report_full r = false.

(** An account one of whose times in either role is unknown. *)
Definition unknown_times (s : schema) (v : Payload) : Prop :=
  s = openapi.Account /\ exists a, v = PAccount a /\ times_known a = false.

(** A value of the schema, but for those two. *)
Definition keeps_schema (s : schema) (v : Payload) : Prop :=
  conforms s (payload_json v) = true \/ empty_lists s v \/ unknown_times s v.

(** A 200 with such a value, or another status with a problem. *)
Definition served (s : schema) (r : Response) : Prop :=
  (rs_Status r = 200
   /\ exists v, rs_Body r = BJson v /\ keeps_schema s v)
  \/ (rs_Status r <> 200
      /\ exists p, rs_Body r = BProblem p /\ conforms openapi.Problem (problem_json p) = true).

Section served.
Context (c : Conn) (s : schema).
Local Abbreviation serving := (always c (served s)) (only parsing).

Lemma served_problem status code detail :
  status <> 200 -> served s (WriteProblem status code detail).
Proof. intros H. right. split; [exact H|]. eexists. split; [done|apply problem_conforms]. Qed.

Lemma served_json v :
  keeps_schema s v -> served s (WriteJSON 200 v).
Proof.
  intros H. unfold WriteJSON. destruct (marshals v); [|by apply served_problem].
  left. split; [done|]. by exists v.
Qed.

Lemma serving_ret r : served s r -> serving (mret r).
Proof. intros H n. by exists r, n. Qed.

Lemma serving_json v : conforms s (payload_json v) = true -> serving (ok_json v).
Proof. intros H. apply serving_ret, served_json. by left. Qed.

Lemma served_repo_error e : served s (writeRepoError e).
Proof. unfold writeRepoError. destruct (is_no_rows e); by apply served_problem. Qed.

Lemma serving_or_error {A} P (q : Q A) k :
  yields c P q -> (forall a, P a -> serving (k a)) -> serving (or_repo_error q k).
Proof.
  intros Hq Hk n. unfold or_repo_error, attempt. destruct (q c n) as [[a|e] n'] eqn:E.
  - by apply Hk, (Hq n a n').
  - eexists _, _. split; [reflexivity|]. apply served_repo_error.
Qed.

Lemma serving_param r name code detail k :
  (forall v, serving (k v)) -> serving (require_param r name code detail k).
Proof.
  intros H. unfold require_param. destruct (str_empty (URLParam r name)); [|apply H].
  by apply serving_ret, served_problem.
Qed.
End served.

(** A query nothing is known of. *)
Lemma yields_any {A} c (q : Q A) : yields c (fun _ => True) q.
Proof. done. Qed.

Lemma yields_statement {A} c P (f : View -> result A) :
  (forall k a, f (cn_view c k) = Ok a -> P a) -> yields c P (statement f).
Proof. intros H n a n'. unfold statement. destruct (cn_fault c n); [done|]. intros [= E _]. by eapply H. Qed.

Lemma yields_bind {A B} c P P' (m : Q A) (k : A -> Q B) :
  yields c P m -> (forall a, P a -> yields c P' (k a)) -> yields c P' (m ≫= k).
Proof.
  intros Hm Hk n b n'. unfold mbind, Q_bind. destruct (m c n) as [[a|e] n1] eqn:E; [|done].
  apply Hk. by eapply Hm.
Qed.

Lemma yields_ret {A} c (P : A -> Prop) a : P a -> yields c P (mret a).
Proof. intros H n a' n' [= <- _]. exact H. Qed.

Lemma yields_attempt {A B} c P P' (m : Q A) (ok : A -> Q B) err :
  yields c P m -> (forall a, P a -> yields c P' (ok a)) -> (forall e, yields c P' (err e)) ->
  yields c P' (attempt m ok err).
Proof.
  intros Hm Hk He n b n'. unfold attempt. destruct (m c n) as [[a|e] n1] eqn:E; [|apply He].
  apply Hk. by eapply Hm.
Qed.

Lemma yields_fail {A} c (P : A -> Prop) e : yields c P (fail e).
Proof. by intros n a n'. Qed.

Lemma yields_required {A} c (P : A -> Prop) arg msg m :
  yields c P m -> yields c P (required arg msg m).
Proof. unfold required. destruct (str_empty arg); [by intros _|done]. Qed.

(** Rows that satisfy [P] stay so in every page. *)
Lemma Forall_select_page {V} (P : V -> Prop) le opts (rows : list V) out :
  Forall P rows -> select_page le opts rows = Ok out -> Forall P out.
Proof.
  intros H. unfold select_page, limit_offset.
  destruct (Limit opts <? 0); [done|]. destruct (Offset opts <? 0); [done|]. intros [= <-].
  apply Forall_take, Forall_drop. by rewrite order_by_perm.
Qed.

Lemma Forall_filter_rows {V} (P : V -> Prop) f (l : list V) : Forall P l -> Forall P (List.filter f l).
Proof.
  intros H. apply Forall_forall. intros x Hx%list_elem_of_In. apply filter_In in Hx as [Hx _].
  apply list_elem_of_In in Hx. by eapply Forall_forall in H.
Qed.

Section rows.
Context (c : Conn) (Hc : rows_ok c).

Lemma momentum_rows k :
  Forall (fun m => 0 <= mom_Height m) (rows_of (cn_view c k) (db_momentums (vw_db (cn_view c k)))).
Proof.
  apply Forall_forall. intros m (h & Hm)%elem_of_rows_of. by eapply (proj1 (Hc k)).
Qed.

Lemma block_rows k :
  Forall input_ok (rows_of (cn_view c k) (db_account_blocks (vw_db (cn_view c k)))).
Proof.
  apply Forall_forall. intros b (h & Hb)%elem_of_rows_of. by eapply (proj2 (Hc k)).
Qed.

Lemma yields_momentums opts :
  yields c (fun out => Forall (fun m => 0 <= mom_Height m) out.1) (MomentumQueries.List opts).
Proof.
  eapply (yields_bind _ (Forall (fun m => 0 <= mom_Height m))).
  - apply yields_statement. intros k rows. apply Forall_select_page, momentum_rows.
  - intros rows H. eapply yields_bind; [apply yields_any|]. intros total _. by apply yields_ret.
Qed.

Lemma yields_latest : yields c (fun m => 0 <= mom_Height m) MomentumQueries.GetLatest.
Proof.
  apply yields_statement. intros k m. pose proof (momentum_rows k) as H.
  rewrite <- (order_by_perm (desc mom_Height)) in H.
  destruct (order_by (desc mom_Height) _) as [|x l]; [done|]. intros [= <-]. by inversion H.
Qed.

Lemma yields_by_height h : yields c (fun m => 0 <= mom_Height m) (MomentumQueries.GetByHeight h).
Proof.
  apply yields_statement. intros k m. destruct (in_int64 h); [|done]. cbn. unfold lookup_row.
  destruct (db_momentums (vw_db (cn_view c k)) !! h) as [x|] eqn:E; [|done]. intros [= <-].
  by eapply (proj1 (Hc k)).
Qed.

Lemma yields_block h : yields c input_ok (AccountBlockQueries.GetByHash h).
Proof.
  apply yields_statement. intros k b. unfold lookup_row.
  destruct (db_account_blocks (vw_db (cn_view c k)) !! h) as [x|] eqn:E; [|done]. intros [= <-].
  by eapply (proj2 (Hc k)).
Qed.

Lemma yields_blocks opts :
  yields c (fun out => Forall input_ok out.1) (AccountBlockQueries.List opts).
Proof.
  eapply (yields_bind _ (Forall input_ok)).
  - apply yields_statement. intros k rows. apply Forall_select_page, block_rows.
  - intros rows H. eapply yields_bind; [apply yields_any|]. intros total _. by apply yields_ret.
Qed.

Lemma yields_account_blocks addr opts :
  yields c (fun out => Forall input_ok out.1) (AccountBlockQueries.ListByAddress addr opts).
Proof.
  apply yields_required. eapply (yields_bind _ (Forall input_ok)).
  - apply yields_statement. intros k rows. apply Forall_select_page. unfold AccountBlockQueries.touching.
    apply Forall_filter_rows, block_rows.
  - intros rows H. eapply yields_attempt; [apply yields_any|intros; by apply yields_ret|].
    intros e. destruct (is_no_rows e); [by apply yields_ret|apply yields_fail].
Qed.
End rows.

(** ** Operations *)

Lemma serving_page {A B} c s (P : A -> Prop) p (q : Q (list A * Z)) (from : A -> B) wrap f :
  (forall pg, payload_json (wrap pg) = page_json f pg) ->
  yields c (fun out => Forall P out.1) q -> (forall x, P x -> conforms s (f (from x)) = true) ->
  always c (served (openapi.page_of s)) (respond_page p q (map from) wrap).
Proof.
  intros Hw Hq Hf. eapply serving_or_error; [exact Hq|]. intros [rows total] H. cbn [fst] in H.
  apply serving_json. rewrite Hw. apply page_conforms, Forall_map.
  by apply (Forall_impl _ _ _ H).
Qed.

(** A page whose rows conform whatever they are. *)
Lemma serving_any_page {A B} c s p (q : Q (list A * Z)) (from : A -> B) wrap f :
  (forall pg, payload_json (wrap pg) = page_json f pg) ->
  (forall x, conforms s (f (from x)) = true) ->
  always c (served (openapi.page_of s)) (respond_page p q (map from) wrap).
Proof.
  intros Hw Hf. eapply (serving_page c s (fun _ => True)); [exact Hw| |by intros x _].
  intros n [rows total] n' _. apply Forall_forall. by intros x _.
Qed.

(** One value, whatever it is. *)
Lemma serving_item {A} c s (q : Q A) (from : A -> Payload) :
  (forall x, conforms s (payload_json (from x)) = true) ->
  always c (served s) (or_repo_error q (fun x => ok_json (from x))).
Proof.
  intros H. eapply serving_or_error; [apply yields_any|]. intros x _. by apply serving_json.
Qed.

Lemma serving_list {A B} c s (q : Q (list A)) (from : A -> B) (f : B -> gval) wrap :
  (forall l, payload_json (wrap l) = data_json f l) -> (forall x, conforms s (f (from x)) = true) ->
  always c (served (openapi.list_of s))
    (or_repo_error q (fun rows => ok_json (wrap (map from rows)))).
Proof.
  intros Hw Hf. apply serving_item. intros rows. rewrite Hw.
  apply data_conforms, Forall_map, Forall_forall. intros x _. apply Hf.
Qed.

Lemma serving_status c version now r :
  rows_ok c -> always c (served openapi.Status) (Status version now r).
Proof.
  intros Hc n. unfold Status, attempt.
  destruct (MomentumQueries.GetLatest c n) as [[m|e] n'] eqn:E.
  - apply serving_json, status_conforms. by eapply yields_latest.
  - destruct (is_no_rows e); [by apply serving_json|apply serving_ret, served_repo_error].
Qed.

Lemma serving_report c r :
  always c (served openapi.ProjectVotingReport) (ProjectsVotingReport r).
Proof.
  apply serving_param. intros id. eapply serving_or_error; [apply yields_any|]. intros row _.
  apply serving_ret, served_json. unfold keeps_schema. cbn [payload_json]. rewrite report_conforms.
  destruct (report_full (projectVotingReportToDTO row)) eqn:E; [by left|]. right. left.
  split; [done|]. by eexists.
Qed.

Lemma serving_account c r : always c (served openapi.Account) (AccountsGet r).
Proof.
  apply serving_param. intros addr. eapply serving_or_error; [apply yields_any|]. intros a _.
  apply serving_ret, served_json. unfold keeps_schema. cbn [payload_json].
  rewrite stored_account_conforms. destruct (times_known (dto.FromAccount a)) eqn:E; [by left|].
  right. right. split; [done|]. by eexists.
Qed.

Create HintDb schemas.
#[local] Hint Resolve momentum_conforms balance_conforms token_conforms
  pillar_conforms delegator_conforms sentinel_conforms stake_conforms fusion_conforms
  cumulative_conforms reward_conforms project_conforms phase_conforms vote_conforms
  wrap_conforms unwrap_conforms block_conforms history_conforms : schemas.

(** A handler that reads one page, list or value whose rows need nothing. *)
Ltac serving_handler :=
  cbv beta delta [MomentumsList MomentumsLatest MomentumsGetByHeight AccountBlocksList
    AccountBlocksGet AccountBlocksByAddress AccountsBalances TokensList TokensGet
    TokensHolders PillarsList PillarsGetByName PillarsDelegators PillarsVotingHistory
    SentinelsList StakesList StakesByAddress FusionsList FusionsByAddress RewardsCumulative
    RewardsHistory ProjectsList ProjectsGet ProjectsPhases ProjectsVotes BridgeWraps
    BridgeUnwraps BridgeWrapsByAddress BridgeUnwrapsByAddress require_address require_token
    require_name require_id];
  try (apply serving_param; intros ?); cbv zeta;
  first [eapply serving_any_page; [intros pg; reflexivity|by auto with schemas]
        |eapply serving_list; [intros l; reflexivity|by auto with schemas]
        |apply serving_item; cbn [payload_json]; by auto with schemas].

Lemma serving_delegators c r :
  always c (served (openapi.page_of openapi.PillarDelegator)) (PillarsDelegators r).
Proof.
  apply serving_param. intros name. eapply serving_or_error; [apply yields_any|].
  intros pillar _. cbv zeta. eapply serving_any_page; [intros pg; reflexivity|by auto with schemas].
Qed.

Section handlers.
Context (c : Conn) (Hc : rows_ok c) (r : Request).

Lemma serving_momentums : always c (served (openapi.page_of openapi.Momentum)) (MomentumsList r).
Proof.
  eapply serving_page; [intros pg; reflexivity|by apply yields_momentums|].
  intros x. apply momentum_conforms.
Qed.

Lemma serving_latest : always c (served openapi.Momentum) (MomentumsLatest r).
Proof.
  eapply serving_or_error; [by apply yields_latest|]. intros m H.
  by apply serving_json, momentum_conforms.
Qed.

Lemma serving_by_height : always c (served openapi.Momentum) (MomentumsGetByHeight r).
Proof.
  unfold MomentumsGetByHeight. destruct (parse_uint64 _) as [h|];
    [|by apply serving_ret, served_problem].
  eapply serving_or_error; [by apply yields_by_height|]. intros m H.
  by apply serving_json, momentum_conforms.
Qed.

Lemma serving_blocks :
  always c (served (openapi.page_of openapi.AccountBlock)) (AccountBlocksList r).
Proof.
  eapply serving_page; [intros pg; reflexivity|by apply yields_blocks|].
  intros x. apply block_conforms.
Qed.

Lemma serving_account_blocks :
  always c (served (openapi.page_of openapi.AccountBlock)) (AccountBlocksByAddress r).
Proof.
  apply serving_param. intros addr. cbv zeta.
  eapply serving_page; [intros pg; reflexivity|by apply yields_account_blocks|].
  intros x. apply block_conforms.
Qed.

Lemma serving_block : always c (served openapi.AccountBlock) (AccountBlocksGet r).
Proof.
  apply serving_param. intros hash. eapply serving_or_error; [by apply yields_block|]. intros b H.
  by apply serving_json, block_conforms.
Qed.
End handlers.

(** C14. The API answers what its OpenAPI document promises: each route under [/api/v1] has an
    operation, and it answers every request, on any tables whose heights are not negative and
    whose inputs are objects of strings and whichever statement fails, a 200 whose body
    conforms to the operation's schema (the members it requires present, every member of its
    type, amounts decimal strings, enumerations within their values) or a problem that
    conforms to [Problem]. There are two exceptions: a project's voting report with an empty
    list of pillars or phases, and an account whose first or last appearance is unknown,
    which have [null] where the schema has an array and an integer. *)
Theorem operations_conform version now pattern h r c n :
  (pattern, h) ∈ api_routes version now -> rows_ok c ->
  exists s, assoc pattern openapi.operations = Some s
    /\ exists resp n', h r c n = (Ok resp, n') /\ served s resp.
Proof.
  intros Hin Hc.
  assert (Forall (fun route => exists s, assoc (fst route) openapi.operations = Some s
                    /\ always c (served s) (snd route r)) (api_routes version now)) as H.
  { repeat (apply Forall_cons_2; [eexists; split; [reflexivity|]; cbn [snd]|]); [..|constructor];
      first [by apply serving_status|by apply serving_momentums|by apply serving_latest
            |by apply serving_by_height|by apply serving_blocks|by apply serving_account_blocks
            |by apply serving_block|apply serving_delegators|apply serving_report|apply serving_account
            |serving_handler]. }
  apply (proj1 (Forall_forall _ _)) with (x := (pattern, h)) in H; [|done].
  destruct H as (s & Hs & Ha). exists s. split; [exact Hs|]. apply Ha.
Qed.

Lemma api_rows_ok : rows_ok api_conn.
Proof.
  intros k. split.
  - intros h m Hm. destruct (api_own_heights h m Hm). lia.
  - intros hash b Hb. apply elem_of_list_to_map_2 in Hb.
    repeat (apply elem_of_cons in Hb as [[= -> ->]|Hb]; [done|]). by apply elem_of_nil in Hb.
Qed.

Lemma operations_conform_witness :
  exists s, assoc "/account_blocks" openapi.operations = Some s
    /\ exists resp n', AccountBlocksList (get_with "/api/v1/account_blocks" "") api_conn 0%nat = (Ok resp, n')
         /\ served s resp /\ rs_Status resp = 200.
Proof.
  destruct (operations_conform "dev" 5000 "/account_blocks" AccountBlocksList
              (get_with "/api/v1/account_blocks" "") api_conn 0%nat) as (s & Hs & resp & n' & Hr & H);
    [apply list_elem_of_In; cbn; tauto|exact api_rows_ok|].
  exists s. split; [exact Hs|]. exists resp, n'. split; [exact Hr|]. split; [exact H|].
  vm_compute in Hr. injection Hr as <- _. reflexivity.
Defined.
