(* ===== verification/ToolRegistry.v ===== *)
(** internal/mcp/tools, the registration: the argument structs with their JSON names, each
    tool with its description, arguments and handler, in the order [Register] adds them, and
    the SDK's dispatch of a call by its name.

    The SDK infers a tool's input schema from its argument struct, refuses arguments that do
    not satisfy it, and otherwise decodes them as encoding/json does; it is the class
    [McpSdk], and what is used of it the class [McpSdkLaws]. It validates the arguments as
    Go's untyped JSON values, in which a number is a binary64, so nothing is asked of it for
    integers beyond 2^53. The descriptions of single
    arguments, which only the schema shows, are not modelled.

    Theorems: every tool is registered once, a call of its name with its arguments reaches its
    handler with them, and nothing else does ([calls_reach_tools]); four tools offer a [sort]
    that their handlers never read ([sort_unread]). *)

From Stdlib Require Import Floats.SpecFloat.
From S2P Require Import Prelude.
From S2P Require Import Json.
From S2P Require Import Text.
From S2P Require Import Httpx.
From S2P Require Import Mcp.
From S2P Require Import Wire.
From S2P Require Import WireTheorems.
From S2P Require Import Marshal.
From S2P Require Import MarshalTheorems.
#[local] Open Scope string_scope.
#[local] Open Scope Z_scope.

(** ** Arguments *)

(** The fields of all argument structs; a struct is a list of these. *)
Record Args : Type := mkArgs {
  ar_Height : Z;
  ar_Address : string;
  ar_Hash : string;
  ar_Name : string;
  ar_ID : string;
  ar_TokenStandard : string;
  ar_Page : Z;
  ar_PageSize : Z;
  ar_Sort : string;
  ar_IncludeRevoked : bool;
  ar_IncludeInactive : bool
}.

#[export] Instance Args_eta : Eta Args := fun r =>
  mkArgs (ar_Height r) (ar_Address r) (ar_Hash r) (ar_Name r) (ar_ID r) (ar_TokenStandard r)
    (ar_Page r) (ar_PageSize r) (ar_Sort r) (ar_IncludeRevoked r) (ar_IncludeInactive r).

Definition zero_args : Args := mkArgs 0 "" "" "" "" "" 0 0 "" false false.

Definition ar_page (a : Args) : mcp.pageParams := mcp.mkpageParams (ar_Page a) (ar_PageSize a).

(** A field of a struct by its Go type. *)
Inductive Kind : Type :=
| KString (get : Args -> string) (set : string -> Args -> Args)
| KInt (get : Args -> Z) (set : Z -> Args -> Args)
| KUint64 (get : Args -> Z) (set : Z -> Args -> Args)
| KBool (get : Args -> bool) (set : bool -> Args -> Args).

(** Its name and [omitempty] mark in the json tag. *)
Record Param : Type := mkParam {
  pa_Name : string;
  pa_omitempty : bool;
  pa_Kind : Kind
}.

Definition AddressParams : list Param :=
  [mkParam "address" false (KString ar_Address (fun s a => a <| ar_Address := s |>))].
Definition HashParams : list Param :=
  [mkParam "hash" false (KString ar_Hash (fun s a => a <| ar_Hash := s |>))].
Definition TokenStandardParams : list Param :=
  [mkParam "token_standard" false (KString ar_TokenStandard (fun s a => a <| ar_TokenStandard := s |>))].
Definition PillarNameParams : list Param :=
  [mkParam "name" false (KString ar_Name (fun s a => a <| ar_Name := s |>))].
Definition ProjectIDParams : list Param :=
  [mkParam "id" false (KString ar_ID (fun s a => a <| ar_ID := s |>))].
Definition GetMomentumByHeightParams : list Param :=
  [mkParam "height" false (KUint64 ar_Height (fun z a => a <| ar_Height := z |>))].
Definition GetStatusParams : list Param := [].

Definition page_params : list Param :=
  [mkParam "page" true (KInt ar_Page (fun z a => a <| ar_Page := z |>));
   mkParam "page_size" true (KInt ar_PageSize (fun z a => a <| ar_PageSize := z |>))].
Definition sort_param : list Param :=
  [mkParam "sort" true (KString ar_Sort (fun s a => a <| ar_Sort := s |>))].
Definition include_revoked : list Param :=
  [mkParam "include_revoked" true (KBool ar_IncludeRevoked (fun b a => a <| ar_IncludeRevoked := b |>))].
Definition include_inactive : list Param :=
  [mkParam "include_inactive" true
     (KBool ar_IncludeInactive (fun b a => a <| ar_IncludeInactive := b |>))].

Definition ListMomentumsParams : list Param := page_params ++ sort_param.
Definition ListAccountTransactionsParams : list Param := AddressParams ++ page_params ++ sort_param.
Definition TokenHoldersParams : list Param := TokenStandardParams ++ page_params.
Definition ListPillarsParams : list Param := page_params ++ include_revoked.
Definition ListPillarDelegatorsParams : list Param := PillarNameParams ++ page_params.
Definition ListSentinelsParams : list Param := page_params ++ include_inactive.
Definition ListStakesParams : list Param := page_params ++ include_inactive.
Definition ListAccountStakesParams : list Param := AddressParams ++ page_params ++ include_inactive.
Definition ListFusionsParams : list Param := page_params ++ include_inactive.
Definition ListAccountFusionsParams : list Param := AddressParams ++ page_params ++ include_inactive.
Definition ListAccountRewardsParams : list Param := AddressParams ++ page_params.
Definition ListProjectVotesParams : list Param := ProjectIDParams ++ page_params.
Definition ListAccountBridgeParams : list Param := AddressParams ++ page_params.

(** ** The tools *)

(** What a tool's handler runs: one of the calls, or the catalog. *)
Inductive ToolRun : Type :=
| Call (t : mcp.ToolCall)
| SchemaOverview.

Record Tool : Type := mkTool {
  tl_Name : string;
  tl_Description : string;
  tl_Params : list Param;
  tl_run : Args -> ToolRun
}.

Definition dq : string := String (ascii_of_nat 34) "".

Definition registerStatus : list Tool :=
  [mkTool "get_status"
     ("Return the indexer's current sync state — latest momentum height, its Unix "
      +:+ "timestamp, and indexer_lag_seconds (server clock minus latest momentum "
      +:+ "timestamp). Computed entirely from the database; does not contact the Zenon "
      +:+ "node. An indexer_lag_seconds value larger than ~30 indicates the indexer is "
      +:+ "falling behind the chain head. Returns latest_height=0 on an empty DB.")
     GetStatusParams (fun _ => Call mcp.TGetStatus)].

Definition registerSchemaOverview : list Tool :=
  [mkTool "get_schema_overview"
     ("Compact catalog of every Postgres table the indexer fills, with the MCP tools "
      +:+ "that read each one. Call this first when the user's question doesn't "
      +:+ "obviously map to a single tool — it grounds tool selection in the data model. "
      +:+ "Returns {version, tables: [{name, domain, purpose, tools}], notes: [string]}.")
     [] (fun _ => SchemaOverview)].

Definition registerMomentums : list Tool :=
  [mkTool "get_momentum_by_height"
     ("Return the momentum (block header) at the given height. Heights are dense "
      +:+ "integers starting at 1; the chain commits a new momentum roughly every 10 "
      +:+ "seconds. Returns an error if no momentum exists at that height (e.g., above "
      +:+ "the current chain tip or in a backfill gap).")
     GetMomentumByHeightParams (fun a => Call (mcp.TGetMomentumByHeight (ar_Height a)));
   mkTool "get_latest_momentum"
     ("Return the highest-height momentum the indexer has processed. Useful as a "
      +:+ "chain-tip pointer or to bound a from_height for paginated reads.")
     [] (fun _ => Call mcp.TGetLatestMomentum);
   mkTool "list_momentums"
     ("List momentums ordered by height. Default sort=desc (newest first). page is "
      +:+ "1-based; page_size defaults to 50 and caps at 200. pagination.total is an "
      +:+ "upper bound (MAX(height) — exact when the chain has no backfill gaps). For "
      +:+ "deep pagination prefer get_momentum_by_height with a specific height — large "
      +:+ "offsets are slow on the 13M-row momentums table.")
     ListMomentumsParams (fun a => Call (mcp.TListMomentums (ar_page a) (ar_Sort a)))].

Definition registerAccounts : list Tool :=
  [mkTool "get_account"
     ("Return an account's profile: lifetime ZNN/QSR flow metrics, current "
      +:+ "delegation, first/last activity timestamps (chain-owner blocks only), and "
      +:+ "first_seen/last_seen/tx_count covering blocks where the address appears as "
      +:+ "sender OR recipient (to_address). Returns an error if the indexer has never "
      +:+ "observed this address.")
     AddressParams (fun a => Call (mcp.TGetAccount (ar_Address a)));
   mkTool "list_account_balances"
     ("Return every (token_standard, balance) row for the given address, sorted by "
      +:+ "balance descending. Not paginated — accounts typically hold a handful of "
      +:+ "tokens. Empty result is returned as {data: []} (not an error).")
     AddressParams (fun a => Call (mcp.TListAccountBalances (ar_Address a)))].

Definition registerTokens : list Tool :=
  [mkTool "list_tokens"
     ("List every ZTS token the indexer knows about, ordered by holder_count "
      +:+ "descending then token_standard ascending. Amount fields (total_supply, "
      +:+ "max_supply, total_burned) ship as JSON strings to dodge JavaScript Number "
      +:+ "precision loss (raw int64 values regularly exceed 2^53).")
     ListMomentumsParams (fun a => Call (mcp.TListTokens (ar_page a)));
   mkTool "get_token"
     ("Return a single ZTS token by its zts1... identifier. Returns an error if the "
      +:+ "indexer has never observed this token.")
     TokenStandardParams (fun a => Call (mcp.TGetToken (ar_TokenStandard a)));
   mkTool "list_token_holders"
     ("Richlist for the given ZTS token. Holders are sorted by balance descending. "
      +:+ "Excludes zero balances (the underlying partial index filters them). "
      +:+ "Paginated; default page_size=50, max 200.")
     TokenHoldersParams (fun a => Call (mcp.TListTokenHolders (ar_TokenStandard a) (ar_page a)))].

Definition registerAccountBlocks : list Tool :=
  [mkTool "list_account_blocks"
     ("List account_blocks (transactions in Zenon's dual-ledger model). Default "
      +:+ "sort=desc by momentum_height. pagination.total is approximate (sourced from "
      +:+ "pg_class.reltuples; refreshed by ANALYZE/autovacuum). For deep history prefer "
      +:+ "list_account_transactions scoped to a specific address — far cheaper.")
     ListMomentumsParams (fun a => Call (mcp.TListAccountBlocks (ar_page a) (ar_Sort a)));
   mkTool "get_account_block"
     ("Return one account-block by its hash. An account-block is either a send "
      +:+ "(block_type 1..4) or a receive (5..8); a complete transfer is the matched "
      +:+ "(send, receive) pair linked via paired_account_block.")
     HashParams (fun a => Call (mcp.TGetAccountBlock (ar_Hash a)));
   mkTool "list_account_transactions"
     ("List account_blocks involving the given address as sender or recipient, "
      +:+ "ordered by momentum_height (default desc). Exact pagination.total. Paginated; "
      +:+ "default page_size=50, max 200.")
     ListAccountTransactionsParams (fun a => Call (mcp.TListAccountTransactions (ar_Address a) (ar_page a) (ar_Sort a)))].

Definition registerPillars : list Tool :=
  [mkTool "list_pillars"
     ("List Zenon pillars (validators) ordered by rank ascending. Excludes revoked "
      +:+ "pillars by default; pass include_revoked=true to include them. Weight and "
      +:+ "slot_cost_qsr are stringified ints (raw int64 QSR amounts).")
     ListPillarsParams (fun a => Call (mcp.TListPillars (ar_page a) (ar_IncludeRevoked a)));
   mkTool "get_pillar_by_name"
     ("Return a single pillar by its name. Pillar names are unique in Zenon. Returns "
      +:+ "an error if no pillar with that name exists.")
     PillarNameParams (fun a => Call (mcp.TGetPillarByName (ar_Name a)));
   mkTool "list_pillar_delegators"
     ("List addresses currently delegating to the named pillar, sorted by "
      +:+ "delegation_start_timestamp ASC (longest-tenured first). Looks up name → owner "
      +:+ "first; returns 404 (via tool error) if the pillar name is unknown.")
     ListPillarDelegatorsParams (fun a => Call (mcp.TListPillarDelegators (ar_Name a) (ar_page a)));
   mkTool "get_pillar_voting_history"
     ("Complete voting record for one named pillar across every Accelerator-Z "
      +:+ "project AND phase, with project + phase names joined server-side and vote "
      +:+ "codes translated to "
      +:+ dq
      +:+ "yes"
      +:+ dq
      +:+ " / "
      +:+ dq
      +:+ "no"
      +:+ dq
      +:+ " / "
      +:+ dq
      +:+ "abstain"
      +:+ dq
      +:+ ". Returns yes/no/abstain totals plus the per-vote entries ordered "
      +:+ "momentum_timestamp DESC (newest first). One call replaces enumerate-projects "
      +:+ "+ page-through-list_project_votes + filter-by-pillar.")
     PillarNameParams (fun a => Call (mcp.TGetPillarVotingHistory (ar_Name a)))].

Definition registerSentinels : list Tool :=
  [mkTool "list_sentinels"
     ("List Zenon sentinels (secondary network nodes, lighter-stake than pillars) "
      +:+ "ordered by registration_timestamp DESC (newest first). Active sentinels only "
      +:+ "by default; pass include_inactive=true to include retired ones.")
     ListSentinelsParams (fun a => Call (mcp.TListSentinels (ar_page a) (ar_IncludeInactive a)))].

Definition registerStakesFusions : list Tool :=
  [mkTool "list_stakes"
     ("List ZNN stake entries (staked for delegation/voting weight) ordered by "
      +:+ "start_timestamp DESC. Active only by default; include_inactive=true also "
      +:+ "returns canceled/expired stakes. znn_amount ships as a string.")
     ListStakesParams (fun a => Call (mcp.TListStakes (ar_page a) (ar_IncludeInactive a)));
   mkTool "list_account_stakes"
     ("Same as list_stakes but scoped to a single address.")
     ListAccountStakesParams (fun a => Call (mcp.TListAccountStakes (ar_Address a) (ar_page a) (ar_IncludeInactive a)));
   mkTool "list_fusions"
     ("List QSR fusion entries (QSR fused to provide plasma for an address) ordered "
      +:+ "by momentum_height DESC. Active only by default; include_inactive=true also "
      +:+ "returns canceled/expired fusions. qsr_amount ships as a string.")
     ListFusionsParams (fun a => Call (mcp.TListFusions (ar_page a) (ar_IncludeInactive a)));
   mkTool "list_account_fusions"
     ("Same as list_fusions but scoped to a single address — matches on funder OR "
      +:+ "beneficiary side.")
     ListAccountFusionsParams (fun a => Call (mcp.TListAccountFusions (ar_Address a) (ar_page a) (ar_IncludeInactive a)))].

Definition registerRewards : list Tool :=
  [mkTool "list_account_rewards"
     ("Per-event reward history for an address, ordered by momentum_height DESC. "
      +:+ "Each row is one reward-receive transaction; reward_type is one of Pillar, "
      +:+ "Sentinel, Stake, Delegation, Liquidity, Unknown. Amounts ship as strings.")
     ListAccountRewardsParams (fun a => Call (mcp.TListAccountRewards (ar_Address a) (ar_page a)));
   mkTool "get_account_cumulative_rewards"
     ("Lifetime cumulative rewards for an address: one row per (reward_type, "
      +:+ "token_standard) bucket. Not paginated — typically a handful of rows per "
      +:+ "address. Returns {data: []} for addresses with no rewards.")
     AddressParams (fun a => Call (mcp.TGetAccountCumulativeRewards (ar_Address a)))].

Definition registerProjects : list Tool :=
  [mkTool "list_projects"
     ("List Accelerator-Z projects ordered by creation_timestamp DESC (newest "
      +:+ "first). znn_funds_needed and qsr_funds_needed ship as strings.")
     ListMomentumsParams (fun a => Call (mcp.TListProjects (ar_page a)));
   mkTool "get_project"
     ("Return one Accelerator-Z project by its ID. Includes vote tallies (yes_votes, "
      +:+ "no_votes, total_votes) and funding requested.")
     ProjectIDParams (fun a => Call (mcp.TGetProject (ar_ID a)));
   mkTool "list_project_phases"
     ("List every phase of the given project in creation order ASC (phase 1 first). "
      +:+ "Not paginated.")
     ProjectIDParams (fun a => Call (mcp.TListProjectPhases (ar_ID a)));
   mkTool "list_project_votes"
     ("List pillar votes targeting the given project (or any of its phases), ordered "
      +:+ "by momentum_height DESC. vote=0 yes, 1 no, 2 abstain.")
     ListProjectVotesParams (fun a => Call (mcp.TListProjectVotes (ar_ID a) (ar_page a)));
   mkTool "get_project_voting_report"
     ("Complete server-aggregated voting report for one project AND every phase: "
      +:+ "per-proposal yes/no/abstain counts plus the explicit pillar lists for each "
      +:+ "bucket (yes_pillars, no_pillars, abstain_pillars, no_vote_pillars). "
      +:+ "Denominator is the current active-pillar set (is_revoked=false). One call "
      +:+ "replaces the page-through-list_project_votes + filter-by-pillar pattern, so "
      +:+ "the LLM does not have to enumerate pillars × proposals client-side. Phases "
      +:+ "are returned in creation order. Pillar lists are name-only and alphabetized.")
     ProjectIDParams (fun a => Call (mcp.TGetProjectVotingReport (ar_ID a)))].

Definition registerBridge : list Tool :=
  [mkTool "list_bridge_wraps"
     ("List wrap requests (Zenon → external chain transfers) ordered by "
      +:+ "creation_momentum_height DESC. amount + fee ship as stringified ints.")
     ListMomentumsParams (fun a => Call (mcp.TListBridgeWraps (ar_page a)));
   mkTool "list_bridge_unwraps"
     ("List unwrap requests (external chain → Zenon transfers) ordered by "
      +:+ "registration_momentum_height DESC.")
     ListMomentumsParams (fun a => Call (mcp.TListBridgeUnwraps (ar_page a)));
   mkTool "list_account_bridge_wraps"
     ("List wraps whose `to_address` (external destination) matches the given "
      +:+ "address. Most useful keyed by an EVM address (0x...).")
     ListAccountBridgeParams (fun a => Call (mcp.TListAccountBridgeWraps (ar_Address a) (ar_page a)));
   mkTool "list_account_bridge_unwraps"
     ("List unwraps whose `to_address` (Zenon destination) matches the given address.")
     ListAccountBridgeParams (fun a => Call (mcp.TListAccountBridgeUnwraps (ar_Address a) (ar_page a)))].

(** [Register], in its order. *)
Definition Register : list Tool :=
  registerStatus ++ registerSchemaOverview ++ registerMomentums ++ registerAccounts
  ++ registerTokens ++ registerAccountBlocks ++ registerPillars ++ registerSentinels
  ++ registerStakesFusions ++ registerRewards ++ registerProjects ++ registerBridge.

(** ** Encoding and decoding of arguments *)

Definition bool_field (set : bool -> Args -> Args) (v : jnode) (_ : string) (a : Args)
  : option Args :=
  match v with NBool b => Some (set b a) | NNull => Some a | _ => None end.

(** The field as encoding/json decodes it. *)
Definition param_field (p : Param) : Field Args :=
  (pa_Name p,
   match pa_Kind p with
   | KString _ set => string_field set
   | KInt _ set => int_field min_int64 max_int64 set
   | KUint64 _ set => uint64_field set
   | KBool _ set => bool_field set
   end).

(** Whether [omitempty] leaves the field out, and the field as encoding/json encodes it. *)
Definition omitted (p : Param) (a : Args) : bool :=
  pa_omitempty p
  && match pa_Kind p with
     | KString get _ => str_empty (get a)
     | KInt get _ | KUint64 get _ => get a =? 0
     | KBool get _ => negb (get a)
     end.

Definition param_value (p : Param) (a : Args) : gval :=
  match pa_Kind p with
  | KString get _ => GStr (get a)
  | KInt get _ | KUint64 get _ => GInt (get a)
  | KBool get _ => GBool (get a)
  end.

Definition arguments (ps : list Param) (a : Args) : list (string * gval) :=
  map (fun p => (pa_Name p, param_value p a)) (filter (fun p => omitted p a = false) ps).

(** 2^53, up to which a binary64 holds every integer. *)
Definition max_exact : Z := 9007199254740992.

(** Whether a member's value is of the type the schema gives the field, an integer being one
    that a binary64 holds. *)
Definition kind_ok (k : Kind) (v : jnode) : bool :=
  match k, v with
  | KString _ _, NStr _ => true
  | KInt _ _, NNum t =>
      match parse_int64 t with Some z => Z.abs z <=? max_exact | None => false end
  | KUint64 _ _, NNum t =>
      match parse_uint64 t with Some z => z <=? max_exact | None => false end
  | KBool _ _, NBool _ => true
  | _, _ => false
  end.

(** Arguments that satisfy the inferred schema: each member a field's, of its type, none
    twice, and none missing but those marked [omitempty]. *)
Definition accepted (ps : list Param) (ms : list member) : bool :=
  forallb (fun m => existsb (fun p => String.eqb (pa_Name p) (fst m)
                                      && kind_ok (pa_Kind p) (fst (snd m))) ps) ms
  && forallb (fun p => pa_omitempty p || existsb (fun m => String.eqb (fst m) (pa_Name p)) ms) ps
  && bool_decide (NoDup (map fst ms)).

(** The SDK's validation and decoding of a call's arguments. *)
Class McpSdk : Type := bind_arguments : list Param -> string -> option Args.

Class McpSdkLaws (S : McpSdk) : Prop :=
  bind_accepted : forall ps text ms,
    parse_json text = Some (NObj ms) -> accepted ps ms = true ->
    bind_arguments ps text = unmarshal_struct (map param_field ps) zero_args text.

Definition find_tool (name : string) : option Tool :=
  find (fun t => String.eqb (tl_Name t) name) Register.

(** A call of a tool by its name, with the text of its arguments. *)
Definition dispatch_call `{McpSdk} (name text : string) : option ToolRun :=
  t ← find_tool name;
  a ← bind_arguments (tl_Params t) text;
  Some (tl_run t a).

(** ** A call's arguments *)

Definition with_page (p : mcp.pageParams) (a : Args) : Args :=
  a <| ar_Page := mcp.pp_Page p |> <| ar_PageSize := mcp.pp_PageSize p |>.

(** The arguments of a call. *)
Definition args_of (t : mcp.ToolCall) : Args :=
  match t with
  | mcp.TGetStatus | mcp.TGetLatestMomentum => zero_args
  | mcp.TGetMomentumByHeight h => zero_args <| ar_Height := h |>
  | mcp.TListMomentums p s | mcp.TListAccountBlocks p s => with_page p (zero_args <| ar_Sort := s |>)
  | mcp.TGetAccount x | mcp.TListAccountBalances x | mcp.TGetAccountCumulativeRewards x =>
      zero_args <| ar_Address := x |>
  | mcp.TListTokens p | mcp.TListProjects p | mcp.TListBridgeWraps p | mcp.TListBridgeUnwraps p =>
      with_page p zero_args
  | mcp.TGetToken z => zero_args <| ar_TokenStandard := z |>
  | mcp.TListTokenHolders z p => with_page p (zero_args <| ar_TokenStandard := z |>)
  | mcp.TGetAccountBlock h => zero_args <| ar_Hash := h |>
  | mcp.TListAccountTransactions x p s =>
      with_page p (zero_args <| ar_Address := x |> <| ar_Sort := s |>)
  | mcp.TListPillars p b => with_page p (zero_args <| ar_IncludeRevoked := b |>)
  | mcp.TGetPillarByName n | mcp.TGetPillarVotingHistory n => zero_args <| ar_Name := n |>
  | mcp.TListPillarDelegators n p => with_page p (zero_args <| ar_Name := n |>)
  | mcp.TListSentinels p b | mcp.TListStakes p b | mcp.TListFusions p b =>
      with_page p (zero_args <| ar_IncludeInactive := b |>)
  | mcp.TListAccountStakes x p b | mcp.TListAccountFusions x p b =>
      with_page p (zero_args <| ar_Address := x |> <| ar_IncludeInactive := b |>)
  | mcp.TListAccountRewards x p | mcp.TListAccountBridgeWraps x p
  | mcp.TListAccountBridgeUnwraps x p => with_page p (zero_args <| ar_Address := x |>)
  | mcp.TGetProject i | mcp.TListProjectPhases i | mcp.TGetProjectVotingReport i =>
      zero_args <| ar_ID := i |>
  | mcp.TListProjectVotes i p => with_page p (zero_args <| ar_ID := i |>)
  end.

(** The arguments of each tool by docs/mcp/tools.md, in its order and by its names; an
    optional one is left out when it says nothing. *)
Definition page_args (p : mcp.pageParams) : list (string * gval) :=
  opt_int "page" (mcp.pp_Page p) ++ opt_int "page_size" (mcp.pp_PageSize p).

Definition flag (k : string) (b : bool) : list (string * gval) := if b then bool_ k true else [].

Definition documented (t : mcp.ToolCall) : list (string * gval) :=
  match t with
  | mcp.TGetStatus | mcp.TGetLatestMomentum => []
  | mcp.TGetMomentumByHeight h => int "height" h
  | mcp.TListMomentums p s | mcp.TListAccountBlocks p s => page_args p ++ opt_str "sort" s
  | mcp.TGetAccount x | mcp.TListAccountBalances x | mcp.TGetAccountCumulativeRewards x =>
      str "address" x
  | mcp.TListAccountTransactions x p s => str "address" x ++ page_args p ++ opt_str "sort" s
  | mcp.TGetAccountBlock h => str "hash" h
  | mcp.TListTokens p | mcp.TListProjects p | mcp.TListBridgeWraps p | mcp.TListBridgeUnwraps p =>
      page_args p
  | mcp.TGetToken z => str "token_standard" z
  | mcp.TListTokenHolders z p => str "token_standard" z ++ page_args p
  | mcp.TListPillars p b => flag "include_revoked" b ++ page_args p
  | mcp.TGetPillarByName n | mcp.TGetPillarVotingHistory n => str "name" n
  | mcp.TListPillarDelegators n p => str "name" n ++ page_args p
  | mcp.TListSentinels p b | mcp.TListStakes p b | mcp.TListFusions p b =>
      flag "include_inactive" b ++ page_args p
  | mcp.TListAccountStakes x p b | mcp.TListAccountFusions x p b =>
      str "address" x ++ flag "include_inactive" b ++ page_args p
  | mcp.TListAccountRewards x p | mcp.TListAccountBridgeWraps x p
  | mcp.TListAccountBridgeUnwraps x p => str "address" x ++ page_args p
  | mcp.TGetProject i | mcp.TListProjectPhases i | mcp.TGetProjectVotingReport i => str "id" i
  | mcp.TListProjectVotes i p => str "id" i ++ page_args p
  end.

(** The JSON text of a call's arguments; no field is a float. *)
Definition no_floats (_ : spec_float) : string := "".

Definition arguments_text (ms : list (string * gval)) : string := json_text no_floats (GObj ms).

(** Values that survive the trip: UTF-8 strings, integers within their type and 2^53. *)
Definition fits (a : Args) : Prop :=
  0 <= ar_Height a <= max_exact
  /\ Z.abs (ar_Page a) <= max_exact /\ Z.abs (ar_PageSize a) <= max_exact
  /\ Forall (fun s => valid_utf8 s = true)
       [ar_Address a; ar_Hash a; ar_Name a; ar_ID a; ar_TokenStandard a; ar_Sort a].

(** ** Theorems *)

Definition param_fits (a : Args) (p : Param) : Prop :=
  match pa_Kind p with
  | KString get _ => valid_utf8 (get a) = true
  | KInt get _ => Z.abs (get a) <= max_exact
  | KUint64 get _ => 0 <= get a <= max_exact
  | KBool _ _ => True
  end.

(** A struct's field taken over from another's, unless the encoding omits it. *)
Definition copy_param (src : Args) (dst : Args) (p : Param) : Args :=
  if omitted p src then dst
  else match pa_Kind p with
       | KString get set => set (get src) dst
       | KInt get set | KUint64 get set => set (get src) dst
       | KBool get set => set (get src) dst
       end.

Definition copy (l : list Param) (a : Args) : Args := foldl (copy_param a) zero_args l.

(** A struct's names differ and are ASCII. *)
Definition well_named (ps : list Param) : bool :=
  bool_decide (NoDup (map pa_Name ps))
  && forallb (fun p => String.eqb (coerce_utf8 (pa_Name p)) (pa_Name p)) ps.

Section arguments.
Variable ps : list Param.
Variable a : Args.
Hypothesis names : well_named ps = true.
Hypothesis values : Forall (param_fits a) ps.

Lemma names_differ : NoDup (map pa_Name ps).
Proof. apply andb_true_iff in names as [H _]. by apply bool_decide_eq_true in H. Qed.

Lemma name_plain p : p ∈ ps -> coerce_utf8 (pa_Name p) = pa_Name p.
Proof.
  intros Hp. apply andb_true_iff in names as [_ H].
  rewrite forallb_forall in H. apply String.eqb_eq, H, list_elem_of_In, Hp.
Qed.

Lemma param_found p : p ∈ ps -> find_field (pa_Name p) (map param_field ps) = Some (param_field p).
Proof.
  intros Hp. unfold find_field.
  assert (find (fun f => String.eqb (fst f) (pa_Name p)) (map param_field ps) = Some (param_field p))
    as ->; [|done].
  generalize names_differ. clear names values. intros Hn.
  induction ps as [|q l IH]; [by apply elem_of_nil in Hp|].
  cbn [map find]. change (fst (param_field q)) with (pa_Name q).
  apply NoDup_cons in Hn as [Hq Hn].
  apply elem_of_cons in Hp as [->|Hp]; [by rewrite String.eqb_refl|].
  destruct (String.eqb_spec (pa_Name q) (pa_Name p)) as [He|He]; [|by apply IH].
  exfalso. apply Hq. rewrite He. by apply list_elem_of_fmap_2.
Qed.

Lemma decode_arguments l dst :
  Forall (fun p => p ∈ ps) l ->
  decode_members (map param_field ps) (members_of no_floats (arguments l a)) dst
  = Some (foldl (copy_param a) dst l).
Proof.
  intros Hl. revert dst. induction Hl as [|p l Hp Hl IH]; intros dst; [done|].
  unfold arguments. rewrite filter_cons. cbn [foldl]. unfold copy_param at 2.
  destruct (omitted p a) eqn:Ho; [rewrite decide_False by done; apply IH|].
  rewrite decide_True by done. cbn [map members_of].
  change (members_of ?ft (?x :: ?y)) with (member_of ft x :: members_of ft y).
  unfold member_of at 1. cbn [fst snd decode_members].
  rewrite name_plain, param_found by done. cbn [snd param_field].
  pose proof (proj1 (Forall_forall _ _) values p Hp) as Hv. unfold param_fits in Hv.
  pose proof (eq_refl (param_value p a)) as Hk. unfold param_value in Hk at 2.
  destruct (pa_Kind p) as [get set|get set|get set|get set]; rewrite Hk; cbn [node_of].
  - cbn [string_field]. rewrite coerce_valid by done. apply IH.
  - rewrite int_field_format by (unfold max_exact in Hv; unfold min_int64, max_int64; lia). apply IH.
  - rewrite uint64_field_format by (unfold max_exact in Hv; unfold max_uint64; lia). apply IH.
  - apply IH.
Qed.

Lemma arguments_legible l : legible no_floats maxNestingDepth (GObj (arguments l a)).
Proof.
  apply legible_obj. split; [done|]. apply Forall_map, Forall_forall. intros p _.
  cbn [snd]. unfold param_value. by destruct (pa_Kind p).
Qed.

Lemma kind_accepts p :
  p ∈ ps -> kind_ok (pa_Kind p) (node_of no_floats (param_value p a)) = true.
Proof.
  intros Hp. pose proof (proj1 (Forall_forall _ _) values p Hp) as Hv.
  unfold param_fits in Hv. unfold param_value.
  destruct (pa_Kind p); cbn [node_of kind_ok]; try done.
  - rewrite parse_int64_format; [by apply Z.leb_le|].
    apply in_int64_spec. unfold max_exact in Hv. unfold min_int64, max_int64. lia.
  - rewrite parse_uint64_format; [apply Z.leb_le; lia|]. unfold max_exact in Hv. unfold max_uint64. lia.
Qed.

(** The members of the fields in any order. *)
Variable l : list Param.
Hypothesis order : l ≡ₚ ps.

Lemma in_order p : p ∈ l -> p ∈ ps.
Proof. by rewrite order. Qed.

Lemma member_names :
  map fst (members_of no_floats (arguments l a))
  = map pa_Name (filter (fun p => omitted p a = false) l).
Proof.
  unfold members_of, arguments. rewrite !map_map. apply map_ext_in. intros p Hp.
  apply list_elem_of_In, list_elem_of_filter in Hp as [_ Hp]. by apply name_plain, in_order.
Qed.

Lemma arguments_accepted : accepted ps (members_of no_floats (arguments l a)) = true.
Proof.
  unfold accepted. rewrite !andb_true_iff. split; [split|].
  - apply forallb_forall. intros m Hm. apply in_map_iff in Hm as ((k & v) & <- & Hm).
    apply in_map_iff in Hm as (p & [= <- <-] & Hp).
    apply list_elem_of_In, list_elem_of_filter in Hp as [_ Hp%in_order].
    apply existsb_exists. exists p. split; [by apply list_elem_of_In|].
    cbn [fst snd member_of]. by rewrite name_plain, String.eqb_refl, kind_accepts.
  - apply forallb_forall. intros p Hp. destruct (pa_omitempty p) eqn:Ho; [done|].
    apply existsb_exists. exists (member_of no_floats (pa_Name p, param_value p a)). split.
    + apply in_map, in_map_iff. exists p. split; [done|].
      apply list_elem_of_In, list_elem_of_filter. split; [unfold omitted; by rewrite Ho|].
      rewrite order. by apply list_elem_of_In.
    + cbn [member_of fst]. rewrite name_plain by (by apply list_elem_of_In). apply String.eqb_refl.
  - apply bool_decide_eq_true. rewrite member_names.
    apply (sublist_NoDup _ (map pa_Name l)).
    + apply (NoDup_Permutation_proper _ _ (Permutation_map pa_Name order)). apply names_differ.
    + apply (fmap_sublist pa_Name), sublist_filter.
Qed.

Lemma arguments_bind {S : McpSdk} {Laws : McpSdkLaws S} :
  bind_arguments ps (arguments_text (arguments l a)) = Some (copy l a).
Proof.
  unfold arguments_text.
  rewrite (bind_accepted ps _ (members_of no_floats (arguments l a))).
  - apply unmarshal_text; [apply arguments_legible|].
    apply decode_arguments, Forall_forall. apply in_order.
  - by rewrite parse_text by apply arguments_legible.
  - apply arguments_accepted.
Qed.
End arguments.

Lemma registered_named : forallb (fun t => well_named (tl_Params t)) Register = true.
Proof. vm_compute. reflexivity. Qed.

Lemma registered_fit a : fits a -> Forall (fun t => Forall (param_fits a) (tl_Params t)) Register.
Proof.
  intros (Hh & Hp & Hs & Hstr). rewrite !Forall_cons in Hstr. destruct_and! Hstr.
  repeat (apply Forall_cons_2; [unfold tl_Params; repeat (apply Forall_cons_2; [done|]); apply Forall_nil_2|]).
  apply Forall_nil_2.
Qed.

(** What an optional field holds after the trip: the value itself. *)
Ltac copied :=
  unfold copy, copy_param, omitted, arguments, documented, page_args, flag, opt_int, opt_str; cbn;
  repeat match goal with
  | |- context [?z =? 0] => destruct (Z.eqb_spec z 0) as [->|?]; cbn
  | |- context [str_empty ?s] => is_var s; destruct s; cbn
  | |- context [negb ?b] => is_var b; destruct b; cbn
  end; reflexivity.

(** The order docs/mcp/tools.md lists a tool's fields in. *)
Definition documented_order (t : mcp.ToolCall) (ps : list Param) : list Param :=
  match t with
  | mcp.TListPillars _ _ => include_revoked ++ page_params
  | mcp.TListSentinels _ _ | mcp.TListStakes _ _ | mcp.TListFusions _ _ =>
      include_inactive ++ page_params
  | mcp.TListAccountStakes _ _ _ | mcp.TListAccountFusions _ _ _ =>
      AddressParams ++ include_inactive ++ page_params
  | _ => ps
  end.

(** The documented arguments are the fields of the tool's struct, and its handler's. *)
Lemma tool_runs t :
  exists tl, find_tool (mcp.tool_name t) = Some tl
    /\ documented_order t (tl_Params tl) ≡ₚ tl_Params tl
    /\ documented t = arguments (documented_order t (tl_Params tl)) (args_of t)
    /\ tl_run tl (copy (documented_order t (tl_Params tl)) (args_of t)) = Call t.
Proof.
  destruct t; (eexists; split; [vm_compute; reflexivity|]);
    (split; [first [reflexivity
                   |exact (Permutation_app_comm include_revoked page_params)
                   |exact (Permutation_app_comm include_inactive page_params)
                   |exact (Permutation_app_head AddressParams
                             (Permutation_app_comm include_inactive page_params))]|]);
    repeat match goal with p : mcp.pageParams |- _ => destruct p as [pg ps] end;
    split; copied.
Qed.

Lemma run_named : Forall (fun tl => forall a t, tl_run tl a = Call t -> tl_Name tl = mcp.tool_name t) Register.
Proof.
  repeat (apply Forall_cons_2; [intros a t; cbn; (intros [= <-]; reflexivity) || discriminate|]).
  apply Forall_nil_2.
Qed.

Lemma find_tool_some name tl : find_tool name = Some tl -> tl ∈ Register /\ tl_Name tl = name.
Proof.
  intros [Hin He]%find_some. by apply list_elem_of_In in Hin; apply String.eqb_eq in He.
Qed.

Lemma registered_names : map tl_Name Register = mcp.registered_tools.
Proof. reflexivity. Qed.

Section dispatch.
Context {S : McpSdk} {Laws : McpSdkLaws S}.

Lemma dispatch_tool name tl a l :
  find_tool name = Some tl -> fits a -> l ≡ₚ tl_Params tl ->
  dispatch_call name (arguments_text (arguments l a)) = Some (tl_run tl (copy l a)).
Proof.
  intros Hf Ha Hl. destruct (find_tool_some name tl Hf) as [Hin _].
  unfold dispatch_call. rewrite Hf. cbn [mbind option_bind].
  pose proof registered_named as Hn. rewrite forallb_forall in Hn.
  apply list_elem_of_In in Hin as Hin'.
  rewrite (arguments_bind _ a (Hn tl Hin') (proj1 (Forall_forall _ _) (registered_fit a Ha) tl Hin) l Hl).
  reflexivity.
Qed.

Lemma dispatch_named name text r :
  dispatch_call name text = Some r ->
  name ∈ mcp.registered_tools /\ forall t, r = Call t -> mcp.tool_name t = name.
Proof.
  unfold dispatch_call. destruct (find_tool name) as [tl|] eqn:Hf; [|done].
  cbn [mbind option_bind]. destruct (bind_arguments _ _) as [a|]; [|done]. intros [= <-].
  destruct (find_tool_some name tl Hf) as [Hin Hn]. split.
  - rewrite <- Hn, <- registered_names. by apply list_elem_of_fmap_2.
  - intros t Ht. rewrite <- Hn. symmetry. 
    by apply (proj1 (Forall_forall _ _) run_named tl Hin a).
Qed.
End dispatch.

(** C37. The registered tools have distinct names, and their schema catalog names only them. A
    call of a tool's name with its arguments, under the names docs/mcp/tools.md gives them,
    reaches that tool's handler with exactly those arguments, if strings are UTF-8 and
    integers not negative where unsigned and within 2^53; and whatever is called with whatever
    text, only a registered tool's handler runs, and it is the one of the name called. *)
Theorem calls_reach_tools {S : McpSdk} {Laws : McpSdkLaws S} :
  NoDup (map tl_Name Register)
  /\ (forall tb tool, tb ∈ mcp.so_Tables mcp.catalog -> tool ∈ mcp.st_Tools tb ->
       tool ∈ map tl_Name Register)
  /\ (forall t, fits (args_of t) ->
       dispatch_call (mcp.tool_name t) (arguments_text (documented t)) = Some (Call t))
  /\ dispatch_call "get_schema_overview" "{}" = Some SchemaOverview
  /\ (forall name text r, dispatch_call name text = Some r ->
       name ∈ map tl_Name Register /\ forall t, r = Call t -> mcp.tool_name t = name).
Proof.
  split_and!.
  - apply (bool_decide_eq_true_1 (NoDup (map tl_Name Register))). vm_compute. reflexivity.
  - intros tb tool Htb Htool.
    assert (forallb (fun tb => forallb (fun tool => bool_decide (tool ∈ map tl_Name Register))
              (mcp.st_Tools tb)) (mcp.so_Tables mcp.catalog) = true) as Hall by (vm_compute; reflexivity).
    rewrite forallb_forall in Hall. apply list_elem_of_In in Htb, Htool.
    specialize (Hall tb Htb). rewrite forallb_forall in Hall.
    by apply (bool_decide_eq_true_1 _ (Hall tool Htool)).
  - intros t Ht. destruct (tool_runs t) as (tl & Hf & Hl & -> & Hr).
    by rewrite (dispatch_tool _ tl), Hr.
  - refine (dispatch_tool "get_schema_overview" _ zero_args [] eq_refl _ _); [|done].
    repeat split; try done. repeat constructor.
  - intros name text r. rewrite registered_names. apply dispatch_named.
Qed.

(** An SDK that refuses every other text. *)
#[local] Instance strict_sdk : McpSdk := fun ps text =>
  match parse_json text with
  | Some (NObj ms) =>
      if accepted ps ms then unmarshal_struct (map param_field ps) zero_args text else None
  | _ => None
  end.

#[local] Instance strict_sdk_laws : McpSdkLaws strict_sdk.
Proof. intros ps text ms Hp Ha. unfold bind_arguments, strict_sdk. by rewrite Hp, Ha. Qed.

Definition sample_call : mcp.ToolCall :=
  mcp.TListAccountTransactions "z1qa" (mcp.mkpageParams 2 0) "asc".

Lemma calls_reach_tools_witness :
  McpSdkLaws strict_sdk /\ fits (args_of sample_call)
  /\ dispatch_call (mcp.tool_name sample_call)
       (arguments_text (documented sample_call)) = Some (Call sample_call)
  /\ dispatch_call "get_token" "{}" = None.
Proof.
  assert (fits (args_of sample_call)) as Hfits by (repeat split; [done..|repeat constructor]).
  split_and!; [apply strict_sdk_laws|exact Hfits| |vm_compute; reflexivity].
  exact (proj1 (proj2 (proj2 calls_reach_tools)) sample_call Hfits).
Defined.

(** The tools that take [ListMomentumsParams] but whose handler never reads its [sort]. *)
Theorem sort_unread :
  Forall (fun name => exists tl, find_tool name = Some tl
    /\ In "sort" (map pa_Name (tl_Params tl))
    /\ forall a s, tl_run tl (a <| ar_Sort := s |>) = tl_run tl a)
    ["list_tokens"; "list_projects"; "list_bridge_wraps"; "list_bridge_unwraps"].
Proof.
  repeat (apply Forall_cons_2; [eexists; split; [vm_compute; reflexivity|];
                                split; [by cbn; auto|done]|]).
  apply Forall_nil_2.
Qed.
